(** * Angular (Ivy): runtime view/injector engine and metadata extraction

    A shallow embedding of the parts of the Angular sources that carry the
    behaviour stated in the specification:

    - [Listener]: [executeListenerWithErrorHandling] and [wrapListener]
      (render3/instructions/listener.ts);
    - [ListenerRegistration]: [findExistingListener] and [listenerInternal]
      (render3/instructions/listener.ts);
    - [DiSetup]: [providersResolver], [resolveProvider] and the multi-provider
      factories (render3/di_setup.ts);
    - [ViewContainer]: [R3ViewContainerRef] (linker/view_container_ref.ts);
    - [Di]: [getConstructorDependencies] and its validation
      (ngtsc/annotations/common/src/di.ts);
    - [Shared]: the input/output mapping part of [extractDirectiveMetadata]
      (ngtsc/annotations/directive/src/shared.ts);
    - [NgModuleHandler]: remote scoping and [resolveTypeList] in
      [NgModuleDecoratorHandler] (ngtsc/annotations/ng_module/src/handler.ts).

    JavaScript exceptions are modelled by the [Res] type, mutable objects by
    explicit stores, and callbacks by functions on the store. Functions of
    the repository that these files call and that are kept elsewhere
    (render3/node_manipulation.ts, render3/di.ts, util/array_utils.ts, ...)
    are modelled from the specification; their comments say so. *)

From Stdlib Require Import ZArith Lia Ascii String.
From stdpp Require Import base option list gmap strings pretty.

Set Warnings "-register-all".

Open Scope Z_scope.

(** ** Results of fallible code *)

Inductive Res (E A : Type) : Type :=
| Ok (a : A)
| Throw (e : E).
Arguments Ok {E A} a.
Arguments Throw {E A} e.

Definition res_bind {E A B} (m : Res E A) (k : A -> Res E B) : Res E B :=
  match m with
  | Ok a => k a
  | Throw e => Throw e
  end.

Notation "'try!' x <- m ; k" := (res_bind m (fun x => k))
  (at level 10, x pattern, m at level 100, k at level 200).

(** ** listener.ts: dispatching to coalesced listeners *)

Module Listener.

(** The values a handler can return; only [false] is special. *)
Inductive JsValue : Type :=
| JsUndefined
| JsBoolean (b : bool)
| JsNumber (n : Z)
| JsString (s : string)
| JsObject (ref : nat).

(** [v !== false] *)
Definition strictNeqFalse (v : JsValue) : bool :=
  match v with
  | JsBoolean false => false
  | _ => true
  end.

(** How a call of a handler ends: it returns or it throws. *)
Inductive Completion : Type :=
| Normal (v : JsValue)
| Abrupt (error : JsValue).

Inductive ProfilerEvent : Type := OutputStart | OutputEnd.

Section Dispatch.
(** [W] is the application state that handlers read and write. *)
Context {W : Type}.

(** A handler function; [fnId] is the identity of the function object. *)
Record ListenerFn : Type := {
  fnId : nat;
  fnBody : JsValue -> W -> Completion * W;
}.

(** What the dispatch touches besides the application state: the
    profiler callback, the error handler, the dirty marks of views and
    the event object ([preventDefault], [returnValue]). *)
Record Runtime : Type := {
  app : W;
  profilerLog : list (ProfilerEvent * nat);
  handledErrors : list JsValue;
  dirtyMarks : list nat;
  defaultPrevented : bool;
  returnValueFalse : bool;
}.

(** Modelled from the spec: [profiler] (render3/profiler.ts) hands the event
    and the listener function to the profiler callback; here both are
    recorded in [profilerLog]. *)
Definition profiler (ev : ProfilerEvent) (listenerFn : ListenerFn) (rt : Runtime) : Runtime :=
  {| app := app rt;
     profilerLog := profilerLog rt ++ [(ev, fnId listenerFn)];
     handledErrors := handledErrors rt;
     dirtyMarks := dirtyMarks rt;
     defaultPrevented := defaultPrevented rt;
     returnValueFalse := returnValueFalse rt |}.

(** Modelled from the spec: [handleError] (render3/instructions/shared.ts)
    hands the error to the application's error handler; here it is
    recorded in [handledErrors]. *)
Definition handleError (error : JsValue) (rt : Runtime) : Runtime :=
  {| app := app rt;
     profilerLog := profilerLog rt;
     handledErrors := handledErrors rt ++ [error];
     dirtyMarks := dirtyMarks rt;
     defaultPrevented := defaultPrevented rt;
     returnValueFalse := returnValueFalse rt |}.

(** Modelled from the spec: [markViewDirty] (render3/instructions/shared.ts)
    marks the view and its ancestors dirty; here the start view is
    recorded. *)
Definition markViewDirty (startView : nat) (rt : Runtime) : Runtime :=
  {| app := app rt;
     profilerLog := profilerLog rt;
     handledErrors := handledErrors rt;
     dirtyMarks := dirtyMarks rt ++ [startView];
     defaultPrevented := defaultPrevented rt;
     returnValueFalse := returnValueFalse rt |}.

Definition setApp (w : W) (rt : Runtime) : Runtime :=
  {| app := w;
     profilerLog := profilerLog rt;
     handledErrors := handledErrors rt;
     dirtyMarks := dirtyMarks rt;
     defaultPrevented := defaultPrevented rt;
     returnValueFalse := returnValueFalse rt |}.

(** [e.preventDefault(); e.returnValue = false;] *)
Definition preventDefault (rt : Runtime) : Runtime :=
  {| app := app rt;
     profilerLog := profilerLog rt;
     handledErrors := handledErrors rt;
     dirtyMarks := dirtyMarks rt;
     defaultPrevented := true;
     returnValueFalse := true |}.

(** [try { profiler(Start); return listenerFn(e) !== false; }
     catch (error) { handleError(lView, error); return false; }
     finally { profiler(End); }] *)
Definition executeListenerWithErrorHandling
    (listenerFn : ListenerFn) (e : JsValue) (rt : Runtime) : bool * Runtime :=
  let rt1 := profiler OutputStart listenerFn rt in
  let '(c, w) := fnBody listenerFn e (app rt1) in
  let rt2 := setApp w rt1 in
  match c with
  | Normal v => (strictNeqFalse v, profiler OutputEnd listenerFn rt2)
  | Abrupt error => (false, profiler OutputEnd listenerFn (handleError error rt2))
  end.

(** The [while (nextListenerFn)] loop of the wrapper: the chain of
    [__ngNextListenerFn__] links is the list [nexts]. *)
Fixpoint runCoalesced (nexts : list ListenerFn) (e : JsValue) (result : bool)
    (rt : Runtime) : bool * Runtime :=
  match nexts with
  | [] => (result, rt)
  | nextListenerFn :: rest =>
      let '(r, rt') := executeListenerWithErrorHandling nextListenerFn e rt in
      runCoalesced rest e (r && result) rt'
  end.

(** The argument of the wrapper: the [Function] token that asks for the
    wrapped function, or an event. *)
Inductive EventArg : Type :=
| FunctionToken
| EventObject (e : JsValue).

Inductive WrapperResult : Type :=
| Unwrapped (listenerFn : ListenerFn)
| Dispatched (result : bool).

(** The closure [wrapListenerIn_markDirtyAndPreventDefault] returned by
    [wrapListener]: [startView] is the view that is marked dirty,
    [nexts] the listeners coalesced onto the wrapper. *)
Definition wrapListener (startView : nat) (listenerFn : ListenerFn)
    (wrapWithPreventDefault : bool) (nexts : list ListenerFn)
    (arg : EventArg) (rt : Runtime) : WrapperResult * Runtime :=
  match arg with
  | FunctionToken => (Unwrapped listenerFn, rt)
  | EventObject e =>
      let rt0 := markViewDirty startView rt in
      let '(result, rt1) := executeListenerWithErrorHandling listenerFn e rt0 in
      let '(result, rt2) := runCoalesced nexts e result rt1 in
      if wrapWithPreventDefault && negb result
      then (Dispatched result, preventDefault rt2)
      else (Dispatched result, rt2)
  end.

(** *** Reference semantics of a chain, used to state the properties *)

(** The completions of the handlers of a chain, run one after the other. *)
Fixpoint completions (chain : list ListenerFn) (e : JsValue) (w : W) : list Completion :=
  match chain with
  | [] => []
  | h :: rest => let '(c, w') := fnBody h e w in c :: completions rest e w'
  end.

Fixpoint finalApp (chain : list ListenerFn) (e : JsValue) (w : W) : W :=
  match chain with
  | [] => w
  | h :: rest => finalApp rest e (snd (fnBody h e w))
  end.

Definition completionOk (c : Completion) : bool :=
  match c with
  | Normal v => strictNeqFalse v
  | Abrupt _ => false
  end.

Definition thrownErrors (cs : list Completion) : list JsValue :=
  omap (fun c => match c with Abrupt err => Some err | Normal _ => None end) cs.

Definition profilerSpans (chain : list ListenerFn) : list (ProfilerEvent * nat) :=
  flat_map (fun h => [(OutputStart, fnId h); (OutputEnd, fnId h)]) chain.

(** The handlers that were started, in order. *)
Definition startedHandlers (log : list (ProfilerEvent * nat)) : list nat :=
  omap (fun p => match p with (OutputStart, i) => Some i | _ => None end) log.

(** The same handler, except that where it threw it returns [false]. *)
Definition returningFalseInstead (h : ListenerFn) : ListenerFn :=
  {| fnId := fnId h;
     fnBody := fun e w =>
       match fnBody h e w with
       | (Abrupt _, w') => (Normal (JsBoolean false), w')
       | r => r
       end |}.

End Dispatch.
Arguments ListenerFn : clear implicits.
Arguments Runtime : clear implicits.
Arguments WrapperResult : clear implicits.

End Listener.

Module ListenerExample.
Import Listener.

(** Three handlers on a counter: the first returns nothing, the second
    throws after incrementing, the third returns [true]. *)
Definition first : ListenerFn nat :=
  {| fnId := 1; fnBody := fun _ w => (Normal JsUndefined, S w) |}.
Definition second : ListenerFn nat :=
  {| fnId := 2; fnBody := fun _ w => (Abrupt (JsString "boom"), S w) |}.
Definition third : ListenerFn nat :=
  {| fnId := 3; fnBody := fun _ w => (Normal (JsBoolean true), S w) |}.

Definition rt0 : Runtime nat :=
  {| app := 0%nat; profilerLog := []; handledErrors := []; dirtyMarks := [];
     defaultPrevented := false; returnValueFalse := false |}.
End ListenerExample.

(** ** listener.ts: registering listeners *)

Module ListenerRegistration.

(** The functions and objects that the registration makes or is handed:
    a listener function of the template or of a directive, the wrapper
    that [wrapListener] returns for a listener, what [renderer.listen] and
    [output.subscribe] return, and the getter of a global target. *)
Inductive Kind : Type :=
| Handler
| Wrapper (listenerFn : nat)
| CleanupFn (call : nat)
| Subscription (call : nat)
| TargetGetter.

(** An object of the heap, with the two properties that the registration
    writes on functions; [None] is [undefined]. *)
Record FnObject : Type := {
  kind : Kind;
  ngNextListenerFn : option nat;
  ngLastListenerFn : option nat;
}.

(** The entries of [TView.cleanup]. *)
Inductive TCleanupItem : Type :=
| TString (s : string)
| TNumber (n : Z)
| TObject (address : nat).

(** [tNode], as far as the registration reads it: [typeIsAnyRNode] is
    [tNode.type & TNodeType.AnyRNode], [typeIsAnyContainer] is
    [tNode.type & TNodeType.AnyContainer], [outputs] gives the pairs
    [index, minifiedName] of [tNode.outputs[eventName]]. *)
Record TNode : Type := {
  typeIsAnyRNode : bool;
  typeIsAnyContainer : bool;
  index : Z;
  isDirectiveHost : bool;
  outputs : option (string -> option (list (Z * string)));
}.

(** The view and its template, the heap of functions and the calls made to
    the renderer and to the outputs: [cleanup] is [tView.cleanup], [CLEANUP]
    is [lView[CLEANUP]], which holds addresses of the heap. *)
Record State : Type := {
  firstCreatePass : bool;
  cleanup : option (list TCleanupItem);
  CLEANUP : option (list nat);
  heap : gmap nat FnObject;
  listened : list (nat * string * nat);
  subscribed : list (Z * string * nat);
}.

Inductive Error : Type :=
| TypeError (message : string)
| JsError (message : string)
| AssertionError (message : string)
| OutsideModel (what : string).

(** What [findExistingListener] gives. *)
Inductive Existing : Type :=
| Null
| Undefined
| Found (listener : nat).

Definition getFn (st : State) (f : nat) : FnObject :=
  default {| kind := Handler; ngNextListenerFn := None; ngLastListenerFn := None |}
          (heap st !! f).

Definition setHeap (h : gmap nat FnObject) (st : State) : State :=
  {| firstCreatePass := firstCreatePass st;
     cleanup := cleanup st;
     CLEANUP := CLEANUP st;
     heap := h;
     listened := listened st;
     subscribed := subscribed st |}.

(** [fn.__ngNextListenerFn__ = next] *)
Definition setNextListenerFn (fn next : nat) (st : State) : State :=
  setHeap (<[fn := {| kind := kind (getFn st fn);
                      ngNextListenerFn := Some next;
                      ngLastListenerFn := ngLastListenerFn (getFn st fn) |}]> (heap st)) st.

(** [fn.__ngLastListenerFn__ = last] *)
Definition setLastListenerFn (fn last : nat) (st : State) : State :=
  setHeap (<[fn := {| kind := kind (getFn st fn);
                      ngNextListenerFn := ngNextListenerFn (getFn st fn);
                      ngLastListenerFn := Some last |}]> (heap st)) st.

(** A new function or object: its address is one that the heap does not
    hold. *)
Definition allocate (k : Kind) (st : State) : nat * State :=
  let address := fresh (dom (heap st)) in
  (address,
   setHeap (<[address := {| kind := k; ngNextListenerFn := None;
                            ngLastListenerFn := None |}]> (heap st)) st).

(** Modelled from the spec: [getOrCreateTViewCleanup]
    (render3/instructions/shared.ts) gives [tView.cleanup], which it sets to
    an empty array when there is none. *)
Definition getOrCreateTViewCleanup (st : State) : State :=
  {| firstCreatePass := firstCreatePass st;
     cleanup := Some (default [] (cleanup st));
     CLEANUP := CLEANUP st;
     heap := heap st;
     listened := listened st;
     subscribed := subscribed st |}.

(** Modelled from the spec: [getOrCreateLViewCleanup]
    (render3/instructions/shared.ts) gives [lView[CLEANUP]], which it sets
    to an empty array when there is none. *)
Definition getOrCreateLViewCleanup (st : State) : State :=
  {| firstCreatePass := firstCreatePass st;
     cleanup := cleanup st;
     CLEANUP := Some (default [] (CLEANUP st));
     heap := heap st;
     listened := listened st;
     subscribed := subscribed st |}.

(** [lCleanup.push(...items)] *)
Definition pushLCleanup (items : list nat) (st : State) : State :=
  {| firstCreatePass := firstCreatePass st;
     cleanup := cleanup st;
     CLEANUP := Some (default [] (CLEANUP st) ++ items);
     heap := heap st;
     listened := listened st;
     subscribed := subscribed st |}.

(** [tCleanup && tCleanup.push(...items)], where [tCleanup] is
    [firstCreatePass && getOrCreateTViewCleanup(tView)]. *)
Definition pushTCleanup (items : list TCleanupItem) (st : State) : State :=
  if firstCreatePass st then
    {| firstCreatePass := firstCreatePass st;
       cleanup := Some (default [] (cleanup st) ++ items);
       CLEANUP := CLEANUP st;
       heap := heap st;
       listened := listened st;
       subscribed := subscribed st |}
  else st.

(** [wrapListener(tNode, lView, context, listenerFn, false)]: a new
    function that closes over the listener. *)
Definition wrapListener (listenerFn : nat) (st : State) : nat * State :=
  allocate (Wrapper listenerFn) st.

(** [renderer.listen(target, eventName, listenerFn)]: the call is recorded
    and a new cleanup function returned. *)
Definition listen (target : nat) (eventName : string) (listenerFn : nat) (st : State)
    : nat * State :=
  let '(cleanupFn, st1) := allocate (CleanupFn (length (listened st))) st in
  (cleanupFn,
   {| firstCreatePass := firstCreatePass st1;
      cleanup := cleanup st1;
      CLEANUP := CLEANUP st1;
      heap := heap st1;
      listened := listened st1 ++ [(target, eventName, listenerFn)];
      subscribed := subscribed st1 |}).

(** [lView[index][minifiedName].subscribe(listenerFn)]: the call is recorded
    and a new subscription returned. *)
Definition subscribe (directiveIndex : Z) (minifiedName : string) (listenerFn : nat)
    (st : State) : nat * State :=
  let '(subscription, st1) := allocate (Subscription (length (subscribed st))) st in
  (subscription,
   {| firstCreatePass := firstCreatePass st1;
      cleanup := cleanup st1;
      CLEANUP := CLEANUP st1;
      heap := heap st1;
      listened := listened st1;
      subscribed := subscribed st1 ++ [(directiveIndex, minifiedName, listenerFn)] |}).

(** [lCleanup.length > idx ? lCleanup[idx] : null] for a number [idx]. *)
Definition listenerAt (lCleanup : list nat) (listenerIdxInLCleanup : Z) : Existing :=
  if listenerIdxInLCleanup <? Z.of_nat (length lCleanup) then
    if 0 <=? listenerIdxInLCleanup then
      match lCleanup !! Z.to_nat listenerIdxInLCleanup with
      | Some listener => Found listener
      | None => Undefined
      end
    else Undefined
  else Null.

(** [item === s] for a string and [item === n] for a number. *)
Definition strictEqString (item : TCleanupItem) (s : string) : bool :=
  match item with
  | TString x => bool_decide (x = s)
  | _ => false
  end.

Definition strictEqNumber (item : TCleanupItem) (n : Z) : bool :=
  match item with
  | TNumber x => bool_decide (x = n)
  | _ => false
  end.

(** The loop of [findExistingListener], on what is left of [tCleanup] from
    the position [i] on: entries are looked at two by two, and two more are
    skipped after one that starts with a string. *)
Fixpoint findExistingListenerFrom (tCleanup : list TCleanupItem) (lCleanup : option (list nat))
    (eventName : string) (tNodeIdx : Z) : Res Error Existing :=
  match tCleanup with
  | cleanupEventName :: second :: rest =>
      if strictEqString cleanupEventName eventName && strictEqNumber second tNodeIdx
      then
        match lCleanup with
        | None => Throw (TypeError "Cannot read properties of null (reading 'length')")
        | Some lCleanup =>
            match rest with
            | [] => Ok Null
            | TNumber listenerIdxInLCleanup :: _ =>
                Ok (listenerAt lCleanup listenerIdxInLCleanup)
            | _ :: _ => Throw (OutsideModel "a length compared with something else than a number")
            end
        end
      else
        match cleanupEventName with
        | TString _ =>
            match rest with
            | _ :: _ :: rest' => findExistingListenerFrom rest' lCleanup eventName tNodeIdx
            | _ => Ok Null
            end
        | _ => findExistingListenerFrom rest lCleanup eventName tNodeIdx
        end
  | _ => Ok Null
  end.

(** [findExistingListener(tView, lView, eventName, tNodeIdx)] *)
Definition findExistingListener (st : State) (eventName : string) (tNodeIdx : Z)
    : Res Error Existing :=
  match cleanup st with
  | Some tCleanup => findExistingListenerFrom tCleanup (CLEANUP st) eventName tNodeIdx
  | None => Ok Null
  end.

Section Registration.

(** [ngDevMode]; [getNativeByTNode(tNode, lView)], by the index of the node;
    whether [lView[index][minifiedName]] is an observable, whether [index]
    is a slot of the view, and [lView[index].constructor.name]. *)
Variable ngDevMode : bool.
Variable getNativeByTNode : Z -> nat.
Variable isObservable : Z -> string -> bool.
Variable indexInRange : Z -> bool.
Variable constructorName : Z -> string.

(** The loop over [props], the outputs of the directives for the event. *)
Fixpoint subscribeOutputs (tNode : TNode) (eventName : string) (listenerFn : nat)
    (props : list (Z * string)) (st : State) : Res Error State :=
  match props with
  | [] => Ok st
  | (directiveIndex, minifiedName) :: rest =>
      if ngDevMode && negb (indexInRange directiveIndex)
      then Throw (AssertionError "Index out of range")
      else if negb (isObservable directiveIndex minifiedName)
      then
        if ngDevMode
        then Throw (JsError ("@Output " +:+ minifiedName +:+ " not initialized in '"
                               +:+ constructorName directiveIndex +:+ "'."))
        else Throw (OutsideModel "subscribe of something that is no observable")
      else
        let '(subscription, st1) := subscribe directiveIndex minifiedName listenerFn st in
        let idx := Z.of_nat (length (default [] (CLEANUP st1))) in
        let st2 := pushLCleanup [listenerFn; subscription] st1 in
        let st3 := pushTCleanup [TString eventName; TNumber (index tNode); TNumber idx;
                                 TNumber (- (idx + 1))] st2 in
        subscribeOutputs tNode eventName listenerFn rest st3
  end.

(** [listenerInternal(tView, lView, renderer, tNode, eventName, listenerFn,
    eventTargetResolver)] *)
Definition listenerInternal (tNode : TNode) (eventName : string) (listenerFn : nat)
    (eventTargetResolver : option (nat -> nat)) (st : State) : Res Error State :=
  let isTNodeDirectiveHost := isDirectiveHost tNode in
  let st := if firstCreatePass st then getOrCreateTViewCleanup st else st in
  let st := getOrCreateLViewCleanup st in
  if ngDevMode && negb (typeIsAnyRNode tNode || typeIsAnyContainer tNode)
  then Throw (AssertionError "Unexpected type of the node")
  else
    try! registered <-
      (if typeIsAnyRNode tNode || bool_decide (is_Some eventTargetResolver) then
         let native := getNativeByTNode (index tNode) in
         let target := match eventTargetResolver with
                       | Some resolver => resolver native
                       | None => native
                       end in
         let lCleanupIndex := Z.of_nat (length (default [] (CLEANUP st))) in
         let '(idxOrTargetGetter, st) :=
           match eventTargetResolver with
           | Some _ => let '(getter, st') := allocate TargetGetter st in (TObject getter, st')
           | None => (TNumber (index tNode), st)
           end in
         try! existingListener <-
           (if negb (bool_decide (is_Some eventTargetResolver)) && isTNodeDirectiveHost
            then findExistingListener st eventName (index tNode)
            else Ok Null);
         match existingListener with
         | Found existingListener =>
             let lastListenerFn :=
               default existingListener (ngLastListenerFn (getFn st existingListener)) in
             let st := setNextListenerFn lastListenerFn listenerFn st in
             let st := setLastListenerFn existingListener listenerFn st in
             Ok (listenerFn, false, st)
         | Undefined =>
             Throw (TypeError
                      "Cannot read properties of undefined (reading '__ngLastListenerFn__')")
         | Null =>
             let '(listenerFn, st) := wrapListener listenerFn st in
             let '(cleanupFn, st) := listen target eventName listenerFn st in
             let st := pushLCleanup [listenerFn; cleanupFn] st in
             let st := pushTCleanup [TString eventName; idxOrTargetGetter;
                                     TNumber lCleanupIndex; TNumber (lCleanupIndex + 1)] st in
             Ok (listenerFn, true, st)
         end
       else
         let '(listenerFn, st) := wrapListener listenerFn st in
         Ok (listenerFn, true, st));
    let '(listenerFn, processOutputs, st) := registered in
    match (if processOutputs then outputs tNode else None) with
    | Some outputs =>
        match outputs eventName with
        | Some props => subscribeOutputs tNode eventName listenerFn props st
        | None => Ok st
        end
    | None => Ok st
    end.

(** [ɵɵlistener(eventName, listenerFn)], once for each listener of the
    list, on the node [tNode]. *)
Fixpoint listeners (tNode : TNode) (eventName : string) (listenerFns : list nat) (st : State)
    : Res Error State :=
  match listenerFns with
  | [] => Ok st
  | listenerFn :: rest =>
      try! st' <- listenerInternal tNode eventName listenerFn None st;
      listeners tNode eventName rest st'
  end.

End Registration.

(** *** Notions used to state the properties *)

(** The layout of [TView.cleanup]: blocks of four entries for a listener,
    which start with the name of the event, and blocks of two entries for a
    destroy hook. *)
Inductive CleanupBlock : Type :=
| ListenerBlock (eventName : string) (idxOrTargetGetter : TCleanupItem)
    (listenerIdx cleanupIdx : Z)
| HookBlock (first second : TCleanupItem).

Definition encode (block : CleanupBlock) : list TCleanupItem :=
  match block with
  | ListenerBlock eventName idxOrTargetGetter listenerIdx cleanupIdx =>
      [TString eventName; idxOrTargetGetter; TNumber listenerIdx; TNumber cleanupIdx]
  | HookBlock first second => [first; second]
  end.

(** A block of two entries does not start with a string. *)
Definition blockOk (block : CleanupBlock) : bool :=
  match block with
  | HookBlock (TString _) _ => false
  | _ => true
  end.

(** The block of a listener for the event on the node. *)
Definition blockFor (eventName : string) (tNodeIdx : Z) (block : CleanupBlock) : bool :=
  match block with
  | ListenerBlock name (TNumber i) _ _ =>
      bool_decide (name = eventName) && bool_decide (i = tNodeIdx)
  | _ => false
  end.

(** The position in [lView[CLEANUP]] that the first block for the event on
    the node gives. *)
Definition firstListenerIdx (eventName : string) (tNodeIdx : Z) (blocks : list CleanupBlock)
    : option Z :=
  match List.find (blockFor eventName tNodeIdx) blocks with
  | Some (ListenerBlock _ _ listenerIdx _) => Some listenerIdx
  | _ => None
  end.

(** [tNode.outputs[eventName]], empty when the node has no such output. *)
Definition outputsOf (tNode : TNode) (eventName : string) : list (Z * string) :=
  match outputs tNode with
  | Some outputs => default [] (outputs eventName)
  | None => []
  end.

(** [chain] is what [__ngNextListenerFn__] links from [start] on, up to a
    function that has no such property. *)
Fixpoint linked (st : State) (start : option nat) (chain : list nat) : Prop :=
  match chain with
  | [] => start = None
  | fn :: rest => start = Some fn /\ linked st (ngNextListenerFn (getFn st fn)) rest
  end.

(** The functions reached from [start] through [__ngNextListenerFn__], as
    the loop of the wrapper follows them. *)
Fixpoint chainFrom (fuel : nat) (st : State) (start : option nat) : list nat :=
  match fuel, start with
  | S fuel', Some fn => fn :: chainFrom fuel' st (ngNextListenerFn (getFn st fn))
  | _, _ => []
  end.

End ListenerRegistration.

Module ListenerRegistrationExample.
Import ListenerRegistration.

(** An element that hosts directives, one of which has an output [click]. *)
Definition button : TNode :=
  {| typeIsAnyRNode := true; typeIsAnyContainer := false; index := 5;
     isDirectiveHost := true;
     outputs := Some (fun name => if bool_decide (name = "click")
                                  then Some [(7, "clicked")] else None) |}.

Definition handler : FnObject :=
  {| kind := Handler; ngNextListenerFn := None; ngLastListenerFn := None |}.

(** The first creation pass of a template, before any listener: three
    listener functions are at hand. *)
Definition firstPass : State :=
  {| firstCreatePass := true; cleanup := None; CLEANUP := None;
     heap := <[10%nat := handler]> (<[11%nat := handler]> (<[12%nat := handler]> ∅));
     listened := []; subscribed := [] |}.

(** The cleanup of a template after its first pass: a destroy hook, a
    listener of another event, a listener of a global target and two
    entries for [click] on the node 5. *)
Definition blocks : list CleanupBlock :=
  [HookBlock (TNumber 3) (TObject 9);
   ListenerBlock "keyup" (TNumber 5) 0 1;
   ListenerBlock "click" (TObject 8) 2 3;
   ListenerBlock "click" (TNumber 5) 4 5;
   ListenerBlock "click" (TNumber 5) 6 (-7)].

Definition laterView : State :=
  {| firstCreatePass := false; cleanup := Some (flat_map encode blocks);
     CLEANUP := Some [20; 21; 22; 23; 24; 25; 26; 27]%nat;
     heap := ∅; listened := []; subscribed := [] |}.

End ListenerRegistrationExample.

(** ** di_setup.ts: providers of a node *)

Module DiSetup.

(** The values that providers make; [Undefined] is what reading an array
    outside of its elements gives. *)
Inductive Value : Type :=
| Instance (id : nat)
| ArrayOf (values : list Value)
| Undefined.

(** What this file throws: the [TypeError] of reading a property of
    [undefined]. *)
Inductive Error : Type :=
| TypeError (message : string).

(** The number kept in [componentProviders]: an integer, or [NaN] once
    [undefined] has been incremented. *)
Inductive JsNumber : Type :=
| Int (n : Z)
| NaN.

(** A provider: a type, an object [{provide, multi, ...}] whose factory is
    [useFactory], or an array of providers. Tokens are numbered. *)
Inductive Provider : Type :=
| TypeProvider (type : nat)
| ObjectProvider (provide : nat) (multi : bool) (useFactory : unit -> Value)
| ProviderArray (providers : list Provider).

(** The function stored in a [NodeInjectorFactory]. *)
Inductive FactoryFn : Type :=
| ProviderFactory (f : unit -> Value)
| multiProvidersFactoryResolver
| multiViewProvidersFactoryResolver.

(** [NodeInjectorFactory]; [providerFactory] is the address of the factory it
    is linked to. *)
Record NodeInjectorFactory : Type := {
  factory : FactoryFn;
  canSeeViewProviders : bool;
  multi : option (list (unit -> Value));
  index : option Z;
  componentProviders : option JsNumber;
  providerFactory : option nat;
}.

(** The view being set up, and the current node. The factory objects are in
    [heap]; [lInjectablesBlueprint] and [lView] hold their addresses ([None]
    for a slot that holds no factory), [tInjectables] holds the tokens. *)
Record DiState : Type := {
  heap : list NodeInjectorFactory;
  tInjectables : list (option nat);
  lInjectablesBlueprint : list (option nat);
  lView : list (option nat);
  providerIndexes : Z;      (* tNode.providerIndexes *)
  directiveStart : Z;       (* tNode.directiveStart *)
  directiveEnd : Z;         (* tNode.directiveEnd *)
  diPublic : list nat;      (* the tokens given to diPublicInInjector *)
}.

Definition zlookup {A} (l : list A) (i : Z) : option A :=
  if i <? 0 then None else l !! Z.to_nat i.

(** [arr[i] = x] on a JavaScript array, for [0 <= i]: an index past the end
    extends the array, and the slots in between hold nothing. *)
Definition arraySet {A} (i : nat) (x : option A) (arr : list (option A)) : list (option A) :=
  <[i := x]> (arr ++ replicate (S i - length arr) None).

(** A loop over an array that stops at the first error. *)
Definition forEach {E A S : Type} (f : A -> S -> Res E S) : list A -> S -> Res E S :=
  fix go (l : list A) (s : S) : Res E S :=
    match l with
    | [] => Ok s
    | a :: rest => try! s' <- f a s; go rest s'
    end.

(** Modelled from the spec: [new NodeInjectorFactory(factory, isViewProvider,
    ɵɵdirectiveInject)] (render3/interfaces/injector.ts) holds the function
    and whether the factory can see view providers; the fields of a multi
    factory are unset. *)
Definition newNodeInjectorFactory (factory : FactoryFn) (isViewProvider : bool)
    : NodeInjectorFactory :=
  {| factory := factory; canSeeViewProviders := isViewProvider;
     multi := None; index := None; componentProviders := None; providerFactory := None |}.

(** The loop of [indexOf]: [steps] positions are left, from [i] on. *)
Fixpoint indexOfLoop (item : nat) (arr : list (option nat)) (i : Z) (steps : nat) : Z :=
  match steps with
  | O => -1
  | S steps' =>
      if decide (zlookup arr i = Some (Some item)) then i
      else indexOfLoop item arr (i + 1) steps'
  end.

(** [indexOf(item, arr, begin, end)] *)
Definition indexOf (item : nat) (arr : list (option nat)) (begin end_ : Z) : Z :=
  indexOfLoop item arr begin (Z.to_nat (end_ - begin)).

(** [viewFactory.providerFactory = factory], the factory at address [a] *)
Definition setProviderFactory (a : nat) (f : NodeInjectorFactory) : NodeInjectorFactory :=
  {| factory := factory f; canSeeViewProviders := canSeeViewProviders f;
     multi := multi f; index := index f;
     componentProviders := componentProviders f;
     providerFactory := Some a |}.

(** [multiFactory.componentProviders!++]: on a factory that has no count,
    [undefined] is incremented, which stores [NaN]. *)
Definition incrementComponentProviders (f : NodeInjectorFactory) : NodeInjectorFactory :=
  {| factory := factory f; canSeeViewProviders := canSeeViewProviders f;
     multi := multi f; index := index f;
     componentProviders := Some (match componentProviders f with
                                 | Some (Int n) => Int (n + 1)
                                 | Some NaN | None => NaN
                                 end);
     providerFactory := providerFactory f |}.

(** [multiFactoryAdd(multiFactory, factory, isComponentProvider)]: the
    factory object after the call, and the index returned. On a factory that
    has no [multi] array (the factory of a provider that is not multi),
    [multiFactory.multi!.push] throws. *)
Definition multiFactoryAdd (multiFactory : NodeInjectorFactory) (f : unit -> Value)
    (isComponentProvider : bool) : Res Error (NodeInjectorFactory * Z) :=
  let mf := if isComponentProvider then incrementComponentProviders multiFactory
            else multiFactory in
  match multi mf with
  | Some factories =>
      Ok ({| factory := factory mf; canSeeViewProviders := canSeeViewProviders mf;
             multi := Some (factories ++ [f]); index := index mf;
             componentProviders := componentProviders mf;
             providerFactory := providerFactory mf |},
          Z.of_nat (length factories))
  | None => Throw (TypeError "Cannot read properties of undefined (reading 'push')")
  end.

(** [multiFactory(factoryFn, index, isViewProvider, isComponent, f)] *)
Definition multiFactory (factoryFn : FactoryFn) (index : Z) (isViewProvider isComponent : bool)
    (f : unit -> Value) : Res Error NodeInjectorFactory :=
  let factory :=
    {| factory := factoryFn; canSeeViewProviders := isViewProvider;
       multi := Some []; index := Some index; componentProviders := Some (Int 0);
       providerFactory := None |} in
  try! added <- multiFactoryAdd factory f (isComponent && negb isViewProvider);
  Ok (fst added).

(** Modelled from the spec: [providerToFactory] (di/r3_injector.ts) gives the
    function that makes the value of a provider. *)
Definition providerToFactory (provider : Provider) : unit -> Value :=
  match provider with
  | TypeProvider type => fun _ => Instance type
  | ObjectProvider _ _ useFactory => useFactory
  | ProviderArray _ => fun _ => ArrayOf []
  end.

Section Resolve.

(** The layout of [tNode.providerIndexes] ([TNodeProviderIndexes], declared
    in interfaces/node.ts): the start index in the low bits, the count of
    view providers of the component above them. *)
Variable ProvidersStartIndexMask : Z.
Variable CptViewProvidersCountShift : Z.
Variable CptViewProvidersCountShifter : Z.

Definition setHeap (h : list NodeInjectorFactory) (st : DiState) : DiState :=
  {| heap := h; tInjectables := tInjectables st;
     lInjectablesBlueprint := lInjectablesBlueprint st; lView := lView st;
     providerIndexes := providerIndexes st; directiveStart := directiveStart st;
     directiveEnd := directiveEnd st; diPublic := diPublic st |}.

(** Applies [f] to the factory object found in slot [i] of the blueprint;
    a slot that holds no factory gives [undefined], whose properties cannot
    be read. *)
Definition updateFactoryAt (i : Z)
    (f : NodeInjectorFactory -> Res Error NodeInjectorFactory) (st : DiState)
    : Res Error DiState :=
  match zlookup (lInjectablesBlueprint st) i with
  | Some (Some a) =>
      match heap st !! a with
      | Some factory =>
          try! factory' <- f factory;
          Ok (setHeap (<[a := factory']> (heap st)) st)
      | None => Throw (TypeError "Cannot read properties of undefined")
      end
  | _ => Throw (TypeError "Cannot read properties of undefined")
  end.

(** [diPublicInInjector(...); tInjectables.push(token); tNode.directiveStart++;
    tNode.directiveEnd++; if (isViewProvider) tNode.providerIndexes += ...;
    lInjectablesBlueprint.push(factory); lView.push(factory);] *)
Definition pushFactory (token : nat) (factory : NodeInjectorFactory) (isViewProvider : bool)
    (st : DiState) : DiState :=
  {| heap := heap st ++ [factory];
     tInjectables := tInjectables st ++ [Some token];
     lInjectablesBlueprint := lInjectablesBlueprint st ++ [Some (length (heap st))];
     lView := lView st ++ [Some (length (heap st))];
     providerIndexes := if isViewProvider
                        then providerIndexes st + CptViewProvidersCountShifter
                        else providerIndexes st;
     directiveStart := directiveStart st + 1;
     directiveEnd := directiveEnd st + 1;
     diPublic := diPublic st ++ [token] |}.

(** [lInjectablesBlueprint[i] = factory; lView[i] = factory;] *)
Definition replaceFactory (i : Z) (factory : NodeInjectorFactory) (st : DiState) : DiState :=
  {| heap := heap st ++ [factory];
     tInjectables := tInjectables st;
     lInjectablesBlueprint :=
       arraySet (Z.to_nat i) (Some (length (heap st))) (lInjectablesBlueprint st);
     lView := arraySet (Z.to_nat i) (Some (length (heap st))) (lView st);
     providerIndexes := providerIndexes st;
     directiveStart := directiveStart st;
     directiveEnd := directiveEnd st;
     diPublic := diPublic st |}.

(** [index >= 0 && lInjectablesBlueprint[index]] *)
Definition factoryExists (i : Z) (st : DiState) : bool :=
  (0 <=? i) && match zlookup (lInjectablesBlueprint st) i with
               | Some (Some _) => true
               | _ => false
               end.

(** [resolveProvider] for a provider that is not an array. The destroy hooks
    registered by [registerDestroyHooksIfSupported] are left out: no value of
    this model has an [ngOnDestroy]. *)
Definition resolveSingleProvider (isTypeProvider : bool) (token : nat) (isMulti : bool)
    (providerFactory : unit -> Value) (isComponent isViewProvider : bool) (st : DiState)
    : Res Error DiState :=
  let beginIndex := Z.land (providerIndexes st) ProvidersStartIndexMask in
  let endIndex := directiveStart st in
  let cptViewProvidersCount := Z.shiftr (providerIndexes st) CptViewProvidersCountShift in
  if isTypeProvider || negb isMulti then
    let factory := newNodeInjectorFactory (ProviderFactory providerFactory) isViewProvider in
    let existingFactoryIndex :=
      indexOf token (tInjectables st)
        (if isViewProvider then beginIndex else beginIndex + cptViewProvidersCount)
        endIndex in
    if existingFactoryIndex =? -1
    then Ok (pushFactory token factory isViewProvider st)
    else Ok (replaceFactory existingFactoryIndex factory st)
  else
    let existingProvidersFactoryIndex :=
      indexOf token (tInjectables st) (beginIndex + cptViewProvidersCount) endIndex in
    let existingViewProvidersFactoryIndex :=
      indexOf token (tInjectables st) beginIndex (beginIndex + cptViewProvidersCount) in
    let doesProvidersFactoryExist := factoryExists existingProvidersFactoryIndex st in
    let doesViewProvidersFactoryExist := factoryExists existingViewProvidersFactoryIndex st in
    try! st1 <-
      (if isViewProvider && negb doesViewProvidersFactoryExist
          || negb isViewProvider && negb doesProvidersFactoryExist
       then
         (* Cases 1.a and 2.a *)
         try! factory <-
           multiFactory
             (if isViewProvider then multiViewProvidersFactoryResolver
              else multiProvidersFactoryResolver)
             (Z.of_nat (length (lInjectablesBlueprint st))) isViewProvider isComponent
             providerFactory;
         try! st' <-
           (if negb isViewProvider && doesViewProvidersFactoryExist
            then updateFactoryAt existingViewProvidersFactoryIndex
                   (fun viewFactory => Ok (setProviderFactory (length (heap st)) viewFactory)) st
            else Ok st);
         Ok (pushFactory token factory isViewProvider st')
       else
         (* Cases 1.b and 2.b *)
         updateFactoryAt
           (if isViewProvider then existingViewProvidersFactoryIndex
            else existingProvidersFactoryIndex)
           (fun existing =>
              try! added <- multiFactoryAdd existing providerFactory
                              (negb isViewProvider && isComponent);
              Ok (fst added))
           st);
    if negb isViewProvider && isComponent && doesViewProvidersFactoryExist
    then updateFactoryAt existingViewProvidersFactoryIndex
           (fun viewFactory => Ok (incrementComponentProviders viewFactory)) st1
    else Ok st1.

(** [resolveProvider(provider, tInjectables, lInjectablesBlueprint,
    isComponent, isViewProvider)] *)
Fixpoint resolveProvider (provider : Provider) (isComponent isViewProvider : bool)
    (st : DiState) : Res Error DiState :=
  match provider with
  | ProviderArray providers =>
      forEach (fun p st => resolveProvider p isComponent isViewProvider st) providers st
  | TypeProvider type =>
      resolveSingleProvider true type false (providerToFactory provider)
        isComponent isViewProvider st
  | ObjectProvider provide isMulti _ =>
      resolveSingleProvider false provide isMulti (providerToFactory provider)
        isComponent isViewProvider st
  end.

(** [providersResolver(def, providers, viewProviders)] in the first creation
    pass; [isComponent] is [isComponentDef(def)]. *)
Definition providersResolver (isComponent : bool) (providers viewProviders : list Provider)
    (st : DiState) : Res Error DiState :=
  try! st' <- resolveProvider (ProviderArray viewProviders) isComponent true st;
  resolveProvider (ProviderArray providers) isComponent false st'.

(** [multiResolve(factories, result)] *)
Fixpoint multiResolve (factories : list (unit -> Value)) (result : list Value) : list Value :=
  match factories with
  | [] => result
  | f :: rest => multiResolve rest (result ++ [f tt])
  end.

(** The body of [multiViewProvidersFactoryResolver] once the providers are
    resolved: [result = multiProviders.slice(0, componentCount);
    multiResolve(factories, result); for (let i = componentCount; i <
    multiProviders.length; i++) result.push(multiProviders[i]);]. With no
    count, [slice] copies the whole array and the loop does not run; with
    [NaN], [slice] copies nothing and the loop does not run; a negative count
    is taken from the end by [slice], and the loop starts before the first
    element. *)
Definition concatMultiProviders (componentCount : option JsNumber)
    (factories : list (unit -> Value)) (multiProviders : list Value) : list Value :=
  match componentCount with
  | None => multiResolve factories multiProviders
  | Some NaN => multiResolve factories []
  | Some (Int n) =>
      if n <? 0 then
        multiResolve factories
          (take (Z.to_nat (Z.of_nat (length multiProviders) + n)) multiProviders)
        ++ replicate (Z.to_nat (- n)) Undefined ++ multiProviders
      else
        multiResolve factories (take (Z.to_nat n) multiProviders)
        ++ drop (Z.to_nat n) multiProviders
  end.

(** Modelled from the spec: [getNodeInjectable] (render3/di.ts) makes the
    value of slot [slot] of the view by calling the function of the factory
    found there, with the factory as [this]. [fuel] bounds the chain of
    factories that ask for another slot; [None] stands for a call that gives
    no value: the slot holds no factory, a resolver reads a property of
    [undefined], or the fuel is used up. The two multi resolvers are those
    of this file. *)
Fixpoint getNodeInjectable (fuel : nat) (st : DiState) (slot : Z) : option Value :=
  match fuel with
  | O => None
  | S fuel' =>
      match zlookup (lView st) slot with
      | Some (Some a) =>
          match heap st !! a with
          | Some this =>
              match factory this with
              | ProviderFactory f => Some (f tt)
              | multiProvidersFactoryResolver =>
                  match multi this with
                  | Some factories => Some (ArrayOf (multiResolve factories []))
                  | None => None
                  end
              | multiViewProvidersFactoryResolver =>
                  match multi this, providerFactory this with
                  | None, _ => None
                  | Some factories, None => Some (ArrayOf (multiResolve factories []))
                  | Some factories, Some pa =>
                      match heap st !! pa with
                      | Some pf =>
                          match index pf with
                          | Some i =>
                              match getNodeInjectable fuel' st i with
                              | Some (ArrayOf multiProviders) =>
                                  Some (ArrayOf (concatMultiProviders (componentProviders pf)
                                                   factories multiProviders))
                              | _ => None
                              end
                          | None => None
                          end
                      | None => None
                      end
                  end
              end
          | None => None
          end
      | _ => None
      end
  end.

(** Modelled from the spec: [locateDirectiveOrProvider] (render3/di.ts)
    searches the tokens of the node, from the view providers on when the
    request comes from the view of the component and from the providers on
    otherwise, so that view providers are found first. *)
Definition locateDirectiveOrProvider (st : DiState) (token : nat)
    (canAccessViewProviders : bool) : Z :=
  let injectablesStart := Z.land (providerIndexes st) ProvidersStartIndexMask in
  let cptViewProvidersCount := Z.shiftr (providerIndexes st) CptViewProvidersCountShift in
  indexOf token (tInjectables st)
    (if canAccessViewProviders then injectablesStart
     else injectablesStart + cptViewProvidersCount)
    (directiveStart st).

(** The value found for [token] on the node, from within the view of the
    component or from outside. *)
Definition lookupToken (fuel : nat) (st : DiState) (token : nat)
    (fromView : bool) : option Value :=
  let i := locateDirectiveOrProvider st token fromView in
  if i =? -1 then None else getNodeInjectable fuel st i.

End Resolve.

(** *** Notions used to state the properties *)

(** A node that has no provider yet: its providers start at the end of
    the arrays of the view. *)
Definition freshNode (shift : Z) (st : DiState) : Prop :=
  length (lInjectablesBlueprint st) = length (tInjectables st)
  /\ length (lView st) = length (tInjectables st)
  /\ providerIndexes st = Z.of_nat (length (tInjectables st))
  /\ directiveStart st = Z.of_nat (length (tInjectables st))
  /\ Z.of_nat (length (tInjectables st)) < 2 ^ shift.

(** The factory of the view providers and the factory of the providers of a
    component, for one view provider [fv] and one provider [fc] of the same
    multi token; [i] is the slot of the factory, [a] the address of the
    factory of the providers. *)
Definition viewMultiFactory (fv : unit -> Value) (i : Z) (a : nat) : NodeInjectorFactory :=
  {| factory := multiViewProvidersFactoryResolver; canSeeViewProviders := true;
     multi := Some [fv]; index := Some i; componentProviders := Some (Int 1);
     providerFactory := Some a |}.

Definition componentMultiFactory (fc : unit -> Value) (i : Z) : NodeInjectorFactory :=
  {| factory := multiProvidersFactoryResolver; canSeeViewProviders := false;
     multi := Some [fc]; index := Some i; componentProviders := Some (Int 1);
     providerFactory := None |}.

(** The slots that setting up providers adds to a node: the tokens [toks]
    are appended, in this order, to the tokens of the view and to the tokens
    made public in the injector, the blueprint and the view grow by as many
    slots, the directives of the node move up by as many positions, and the
    count of view providers in [providerIndexes] grows by as many for view
    providers, and not at all for providers. *)
Definition addsSlots (CptViewProvidersCountShifter : Z) (isViewProvider : bool)
    (toks : list nat) (st st' : DiState) : Prop :=
  tInjectables st' = tInjectables st ++ (Some <$> toks)
  /\ length (lInjectablesBlueprint st')
     = (length (lInjectablesBlueprint st) + length toks)%nat
  /\ length (lView st') = (length (lView st) + length toks)%nat
  /\ directiveStart st' = directiveStart st + Z.of_nat (length toks)
  /\ directiveEnd st' = directiveEnd st + Z.of_nat (length toks)
  /\ diPublic st' = diPublic st ++ toks
  /\ providerIndexes st'
     = providerIndexes st
       + (if isViewProvider then Z.of_nat (length toks) * CptViewProvidersCountShifter
          else 0).

(** No provider of the tree is a multi provider. *)
Fixpoint noMultiProvider (provider : Provider) : bool :=
  match provider with
  | TypeProvider _ => true
  | ObjectProvider _ isMulti _ => negb isMulti
  | ProviderArray providers => forallb noMultiProvider providers
  end.

(** The factory of the providers of a multi token, once the functions [fs]
    are registered; [i] is its slot. *)
Definition providersMultiFactory (fs : list (unit -> Value)) (i : Z) (isComponent : bool)
    : NodeInjectorFactory :=
  {| factory := multiProvidersFactoryResolver; canSeeViewProviders := false;
     multi := Some fs; index := Some i;
     componentProviders := Some (Int (if isComponent then Z.of_nat (length fs) else 0));
     providerFactory := None |}.

End DiSetup.

Module DiSetupExample.
Import DiSetup.

(** [TNodeProviderIndexes]: the count of view providers starts at bit 20. *)
Definition CptViewProvidersCountShift : Z := 20.
Definition ProvidersStartIndexMask : Z := Z.ones 20.
Definition CptViewProvidersCountShifter : Z := 2 ^ 20.

(** A view whose first 22 slots hold no provider, and a node without
    providers yet. *)
Definition view0 : DiState :=
  {| heap := []; tInjectables := replicate 22 None;
     lInjectablesBlueprint := replicate 22 None; lView := replicate 22 None;
     providerIndexes := 22; directiveStart := 22; directiveEnd := 22; diPublic := [] |}.

(** The token, and the values of its view provider and of its provider. *)
Definition TOK : nat := 7.
Definition X_view : Value := Instance 1.
Definition X_component : Value := Instance 2.

(** The component has [viewProviders: [{provide: TOK, useValue: X_view, multi:
    true}]] and [providers: [{provide: TOK, useValue: X_component, multi:
    true}]]. *)
Definition resolved : Res Error DiState :=
  providersResolver ProvidersStartIndexMask CptViewProvidersCountShift
    CptViewProvidersCountShifter true
    [ObjectProvider TOK true (fun _ => X_component)]
    [ObjectProvider TOK true (fun _ => X_view)]
    view0.

End DiSetupExample.

(** ** view_container_ref.ts: the view container *)

Module ViewContainer.

Inductive Error : Type :=
| AssertionError (msg : string)   (* an assertion of ngDevMode failed *)
| JsError (msg : string)          (* [throw new Error(msg)] *)
| RuntimeError (msg : string)     (* [throw new RuntimeError(...)] *)
| TypeError (msg : string)        (* a property of [undefined] or [null] is used *)
| DOMException (msg : string)
| OutsideModel (msg : string).    (* the code goes on, on data this model does not hold *)

(** *** JavaScript arrays, indexed by numbers that may be negative *)

Definition zlength {A} (l : list A) : Z := Z.of_nat (length l).

Definition zlookup {A} (l : list A) (i : Z) : option A :=
  if i <? 0 then None else l !! Z.to_nat i.

(** The start position of [arr.splice(start, ...)]. *)
Definition spliceStart {A} (arr : list A) (start : Z) : nat :=
  if start <? 0 then Z.to_nat (Z.max (zlength arr + start) 0)
  else Z.to_nat (Z.min start (zlength arr)).

(** [arr.splice(start, 0, value)] *)
Definition spliceInsert {A} (arr : list A) (start : Z) (value : A) : list A :=
  take (spliceStart arr start) arr ++ value :: drop (spliceStart arr start) arr.

(** [arr.splice(start, 1)[0]] and the array left *)
Definition spliceRemove {A} (arr : list A) (start : Z) : option A * list A :=
  (arr !! spliceStart arr start, delete (spliceStart arr start) arr).

(** [arr.pop()] and the array left *)
Definition pop {A} (arr : list A) : option A * list A :=
  (last arr, take (Nat.pred (length arr)) arr).

(** [arr.indexOf(item)] *)
Fixpoint indexOfFrom (item : nat) (arr : list nat) (i : Z) : Z :=
  match arr with
  | [] => -1
  | x :: rest => if decide (x = item) then i else indexOfFrom item rest (i + 1)
  end.

(** Modelled from the spec: [addToArray] (util/array_utils.ts), the array
    splice that inserts a view or a view reference; it pushes when the index
    is at or past the end. *)
Definition addToArray {A} (arr : list A) (index : Z) (value : A) : list A :=
  if index >=? zlength arr then arr ++ [value] else spliceInsert arr index value.

(** Modelled from the spec: [removeFromArray] (util/array_utils.ts), the
    array splice that removes a view or a view reference; it pops when the
    index is at or past the last element. *)
Definition removeFromArray {A} (arr : list A) (index : Z) : option A * list A :=
  if index >=? zlength arr - 1 then pop arr else spliceRemove arr index.

(** *** The view tree *)

(** [lView[PARENT]]: nothing, a view, or the container the view is in. *)
Inductive LParent : Type :=
| NoParent
| ParentLView (v : nat)
| ParentLContainer (c : nat).

Record LView : Type := {
  PARENT : LParent;
  attached : bool;      (* FLAGS & LViewFlags.Attached *)
  destroyed : bool;     (* FLAGS & LViewFlags.Destroyed *)
}.

(** A container: [views] are the slots from [CONTAINER_HEADER_OFFSET] on.
    The DOM is kept by view: [rendered] lists the views whose nodes stand
    before the anchor comment of the container, in sibling order, and
    [parentRNode] says whether the anchor has a parent node. *)
Record LContainer : Type := {
  views : list nat;
  VIEW_REFS : option (list nat);
  parentRNode : bool;
  rendered : list nat;
}.

(** A [ViewRef] object. *)
Record ViewRef : Type := {
  _lView : nat;
  _attachedToViewContainer : bool;
  _appRef : bool;       (* attached directly to the ApplicationRef *)
}.

(** The mutations of containers and DOM, in the order they were made. *)
Inductive Mutation : Type :=
| LogicalInsert (c v : nat) (index : Z)            (* insertView *)
| PhysicalInsert (c v : nat) (before : option nat) (* addViewToContainer *)
| RefsInsert (c r : nat) (index : Z)               (* addToArray(VIEW_REFS) *)
| LogicalDetach (c v : nat) (index : Z)            (* detachView: removeFromArray(lContainer) *)
| PhysicalDetach (c v : nat)                       (* detachView: removeViewFromContainer *)
| RefsRemove (c : nat) (index : Z)                 (* removeFromArray(VIEW_REFS) *)
| DestroyHooks (v : nat).                          (* destroyLView: the destroy hooks run *)

Record World : Type := {
  lViews : gmap nat LView;
  lContainers : gmap nat LContainer;
  viewRefs : gmap nat ViewRef;
  nextRef : nat;                   (* the next [new R3ViewRef] *)
  mutations : list Mutation;
}.

Definition M (A : Type) : Type := World -> Res Error (A * World).

Definition ret {A} (a : A) : M A := fun w => Ok (a, w).
Definition throw {A} (e : Error) : M A := fun _ => Throw e.
Definition bind {A B} (m : M A) (k : A -> M B) : M B :=
  fun w => match m w with
           | Ok (a, w') => k a w'
           | Throw e => Throw e
           end.

Notation "'let!' x := m 'in' k" := (bind m (fun x => k))
  (at level 10, x pattern, m at level 100, k at level 200).

Definition getLView (v : nat) : M LView :=
  fun w => match lViews w !! v with
           | Some lv => Ok (lv, w)
           | None => Throw (TypeError "lView")
           end.

Definition getLContainer (c : nat) : M LContainer :=
  fun w => match lContainers w !! c with
           | Some lc => Ok (lc, w)
           | None => Throw (TypeError "lContainer")
           end.

Definition getViewRef (r : nat) : M ViewRef :=
  fun w => match viewRefs w !! r with
           | Some vr => Ok (vr, w)
           | None => Throw (TypeError "viewRef")
           end.

Definition setLView (v : nat) (lv : LView) : M unit :=
  fun w => Ok (tt, {| lViews := <[v := lv]> (lViews w);
                      lContainers := lContainers w;
                      viewRefs := viewRefs w;
                      nextRef := nextRef w;
                      mutations := mutations w |}).

Definition setLContainer (c : nat) (lc : LContainer) : M unit :=
  fun w => Ok (tt, {| lViews := lViews w;
                      lContainers := <[c := lc]> (lContainers w);
                      viewRefs := viewRefs w;
                      nextRef := nextRef w;
                      mutations := mutations w |}).

Definition setViewRef (r : nat) (vr : ViewRef) : M unit :=
  fun w => Ok (tt, {| lViews := lViews w;
                      lContainers := lContainers w;
                      viewRefs := <[r := vr]> (viewRefs w);
                      nextRef := nextRef w;
                      mutations := mutations w |}).

Definition record (m : Mutation) : M unit :=
  fun w => Ok (tt, {| lViews := lViews w;
                      lContainers := lContainers w;
                      viewRefs := viewRefs w;
                      nextRef := nextRef w;
                      mutations := mutations w ++ [m] |}).

(** Modelled from the spec: [new R3ViewRef(lView)] (render3/view_ref.ts) makes
    a reference to the view, attached to nothing. *)
Definition newViewRef (lView : nat) : M nat :=
  fun w => Ok (nextRef w,
               {| lViews := lViews w;
                  lContainers := lContainers w;
                  viewRefs := <[nextRef w := {| _lView := lView;
                                                _attachedToViewContainer := false;
                                                _appRef := false |}]> (viewRefs w);
                  nextRef := S (nextRef w);
                  mutations := mutations w |}).

(** *** Helpers of the container, from render3/node_manipulation.ts *)

(** Modelled from the spec: [viewAttachedToContainer] (render3/util/view_utils.ts)
    tells whether the parent pointer of the view leads to a container:
    [isLContainer(lView[PARENT])]. *)
Definition viewAttachedToContainer (lv : LView) : bool :=
  match PARENT lv with
  | ParentLContainer _ => true
  | _ => false
  end.

(** Modelled from the spec: [insertView] (render3/node_manipulation.ts), the
    logical list mutation: it writes the [NEXT] link of the view before
    [index] (which fails when there is no such view), places the view at
    [index] or pushes it at the end, and points the view's parent to the
    container. A negative [index] makes the code write into the header of the
    container, which is not represented here. *)
Definition insertView (lView c : nat) (index : Z) : M unit :=
  let! lc := getLContainer c in
  let! lv := getLView lView in
  let! _ := (if 0 <? index
             then match zlookup (views lc) (index - 1) with
                  | Some _ => ret tt
                  | None => throw (TypeError "Cannot set properties of undefined")
                  end
             else ret tt) in
  if index <? 0 then throw (OutsideModel "the view is spliced into the container header")
  else
    let! _ := setLContainer c
                {| views := if index <? zlength (views lc)
                            then addToArray (views lc) index lView
                            else views lc ++ [lView];
                   VIEW_REFS := VIEW_REFS lc;
                   parentRNode := parentRNode lc;
                   rendered := rendered lc |} in
    let! _ := setLView lView
                {| PARENT := ParentLContainer c; attached := true; destroyed := destroyed lv |} in
    record (LogicalInsert c lView index).

(** Modelled from the spec: [getBeforeNodeForView]
    (render3/node_manipulation.ts): the first node of the view that follows
    position [viewIndexInContainer], or the anchor of the container ([None])
    when no view follows. Every view is taken to have a root node. *)
Definition getBeforeNodeForView (viewIndexInContainer : Z) (c : nat) : M (option nat) :=
  let! lc := getLContainer c in
  ret (zlookup (views lc) (viewIndexInContainer + 1)).

(** [parent.insertBefore(child, before)] on the list of rendered views. *)
Fixpoint insertBefore (child : nat) (before : nat) (dom : list nat) : option (list nat) :=
  match dom with
  | [] => None
  | x :: rest =>
      if decide (x = before) then Some (child :: x :: rest)
      else option_map (cons x) (insertBefore child before rest)
  end.

(** Modelled from the spec: [addViewToContainer]
    (render3/node_manipulation.ts), the physical DOM mutation: the nodes of
    the view are inserted before [beforeNode]. *)
Definition addViewToContainer (c lView : nat) (beforeNode : option nat) : M unit :=
  let! lc := getLContainer c in
  let! dom := match beforeNode with
              | None => ret (rendered lc ++ [lView])
              | Some next =>
                  match insertBefore lView next (rendered lc) with
                  | Some dom => ret dom
                  | None => throw (DOMException "NotFoundError")
                  end
              end in
  let! _ := setLContainer c
              {| views := views lc;
                 VIEW_REFS := VIEW_REFS lc;
                 parentRNode := parentRNode lc;
                 rendered := dom |} in
  record (PhysicalInsert c lView beforeNode).

(** Modelled from the spec: [detachView] (render3/node_manipulation.ts): the
    logical detachment (the view leaves the list of the container, whose
    length shrinks) followed by the physical one (its nodes leave the DOM);
    then the parent pointer of the view is cleared. Nothing happens when the
    container is empty or has no view at [removeIndex]. A negative
    [removeIndex] in a container that is not empty reads a header slot, which
    is not represented here. *)
Definition detachView (c : nat) (removeIndex : Z) : M (option nat) :=
  let! lc := getLContainer c in
  if zlength (views lc) <=? 0 then ret None
  else if removeIndex <? 0 then throw (OutsideModel "a header slot is read as a view")
  else
    match zlookup (views lc) removeIndex with
    | None => ret None
    | Some viewToDetach =>
        let! lv := getLView viewToDetach in
        let! _ := setLContainer c
                    {| views := snd (removeFromArray (views lc) removeIndex);
                       VIEW_REFS := VIEW_REFS lc;
                       parentRNode := parentRNode lc;
                       rendered := rendered lc |} in
        let! _ := record (LogicalDetach c viewToDetach removeIndex) in
        let! lc' := getLContainer c in
        let! _ := setLContainer c
                    {| views := views lc';
                       VIEW_REFS := VIEW_REFS lc';
                       parentRNode := parentRNode lc';
                       rendered := filter (fun x => x <> viewToDetach) (rendered lc') |} in
        let! _ := record (PhysicalDetach c viewToDetach) in
        let! _ := setLView viewToDetach
                    {| PARENT := NoParent; attached := false; destroyed := destroyed lv |} in
        ret (Some viewToDetach)
    end.

(** The first argument of [createComponent]: a [ComponentFactory], or a
    type, for which [getComponentDef] finds a component definition or
    not. *)
Inductive ComponentFactoryOrType : Type :=
| ComponentFactory
| ComponentType (hasComponentDef : bool).

(** The second argument of [createComponent]: left out, a number, or the
    object of options, of which [index] is read, and whether
    [environmentInjector] and [ngModuleRef] are given. *)
Inductive IndexOrOptions : Type :=
| NoIndexOrOptions
| IndexNumber (index : Z)
| OptionsObject (index : option Z) (environmentInjector ngModuleRef : bool).

(** [ComponentRef]; [hostView] is the reference to the host view. *)
Record ComponentRef : Type := {
  hostView : nat;
}.

Section Container.

(** [ngDevMode]: the assertions are compiled in. *)
Variable ngDevMode : bool.

(** The destroy hooks of a view ([executeOnDestroys]): code of the
    application, which may call back into any container. *)
Variable onDestroy : nat -> M unit.

(** Modelled from the spec: [destroyLView] (render3/node_manipulation.ts):
    unless the view is destroyed already it is flagged destroyed and its
    destroy hooks are invoked. *)
Definition destroyLView (lView : nat) : M unit :=
  let! lv := getLView lView in
  if destroyed lv then ret tt
  else
    let! _ := setLView lView {| PARENT := PARENT lv; attached := false; destroyed := true |} in
    let! _ := record (DestroyHooks lView) in
    onDestroy lView.

(** *** R3ViewContainerRef; [this] is the container [_lContainer] *)

(** [get length()] *)
Definition length (this : nat) : M Z :=
  let! lc := getLContainer this in
  ret (zlength (views lc)).

(** [getViewRefs(lContainer)] *)
Definition getViewRefs (c : nat) : M (option (list nat)) :=
  let! lc := getLContainer c in
  ret (VIEW_REFS lc).

(** [getOrCreateViewRefs(lContainer)] *)
Definition getOrCreateViewRefs (c : nat) : M (list nat) :=
  let! lc := getLContainer c in
  match VIEW_REFS lc with
  | Some refs => ret refs
  | None =>
      let! _ := setLContainer c
                  {| views := views lc;
                     VIEW_REFS := Some [];
                     parentRNode := parentRNode lc;
                     rendered := rendered lc |} in
      ret []
  end.

Definition setViewRefs (c : nat) (refs : list nat) : M unit :=
  let! lc := getLContainer c in
  setLContainer c
    {| views := views lc;
       VIEW_REFS := Some refs;
       parentRNode := parentRNode lc;
       rendered := rendered lc |}.

Definition _adjustIndex (this : nat) (index : option Z) (shift : Z) : M Z :=
  let! len := length this in
  match index with
  | None => ret (len + shift)
  | Some index =>
      if ngDevMode then
        if negb (index >? -1)
        then throw (AssertionError ("ViewRef index must be positive, got " +:+ pretty index))
        else if negb (index <? len + 1 + shift)
        then throw (AssertionError "index")
        else ret index
      else ret index
  end.

Definition indexOf (this : nat) (viewRef : nat) : M Z :=
  let! viewRefsArr := getViewRefs this in
  match viewRefsArr with
  | Some arr => ret (indexOfFrom viewRef arr 0)
  | None => ret (-1)
  end.

Definition get (this : nat) (index : Z) : M (option nat) :=
  let! viewRefs := getViewRefs this in
  match viewRefs with
  | Some arr => ret (zlookup arr index)
  | None => ret None
  end.

Definition detach (this : nat) (index : option Z) : M (option nat) :=
  let! adjustedIdx := _adjustIndex this index (-1) in
  let! view := detachView this adjustedIdx in
  match view with
  | None => ret None
  | Some view =>
      let! refs := getOrCreateViewRefs this in
      let! _ := setViewRefs this (snd (removeFromArray refs adjustedIdx)) in
      let! _ := record (RefsRemove this adjustedIdx) in
      match fst (removeFromArray refs adjustedIdx) with
      | Some _ => let! r := newViewRef view in ret (Some r)
      | None => ret None
      end
  end.

Definition remove (this : nat) (index : option Z) : M unit :=
  let! adjustedIdx := _adjustIndex this index (-1) in
  let! detachedView := detachView this adjustedIdx in
  match detachedView with
  | Some detachedView =>
      let! refs := getOrCreateViewRefs this in
      let! _ := setViewRefs this (snd (removeFromArray refs adjustedIdx)) in
      let! _ := record (RefsRemove this adjustedIdx) in
      destroyLView detachedView
  | None => ret tt
  end.

(** Modelled from the spec: [attachToViewContainerRef] (render3/view_ref.ts)
    refuses a view attached to the ApplicationRef and flags the reference as
    attached to a container. *)
Definition attachToViewContainerRef (viewRef : nat) : M unit :=
  let! vr := getViewRef viewRef in
  if _appRef vr
  then throw (RuntimeError "This view is already attached directly to the ApplicationRef!")
  else setViewRef viewRef
         {| _lView := _lView vr; _attachedToViewContainer := true; _appRef := _appRef vr |}.

Definition insert (this : nat) (viewRef : nat) (index : option Z) : M nat :=
  let! vr := getViewRef viewRef in
  let lView := _lView vr in
  let! lv := getLView lView in
  if ngDevMode && destroyed lv
  then throw (JsError "Cannot insert a destroyed View in a ViewContainer!")
  else
    let! _ :=
      (if viewAttachedToContainer lv then
         let! prevIdx := indexOf this viewRef in
         if negb (prevIdx =? -1) then
           let! _ := detach this (Some prevIdx) in ret tt
         else
           match PARENT lv with
           | ParentLContainer prevLContainer =>
               let! i := indexOf prevLContainer viewRef in
               let! _ := detach prevLContainer (Some i) in ret tt
           | _ => ret tt
           end
       else ret tt) in
    (* Logical operation of adding [LView] to [LContainer] *)
    let! adjustedIdx := _adjustIndex this index 0 in
    let! _ := insertView lView this adjustedIdx in
    (* Physical operation of adding the DOM nodes. *)
    let! beforeNode := getBeforeNodeForView adjustedIdx this in
    let! lContainer := getLContainer this in
    let! _ := (if parentRNode lContainer
               then addViewToContainer this lView beforeNode
               else ret tt) in
    let! _ := attachToViewContainerRef viewRef in
    let! refs := getOrCreateViewRefs this in
    let! _ := setViewRefs this (addToArray refs adjustedIdx viewRef) in
    let! _ := record (RefsInsert this viewRef adjustedIdx) in
    ret viewRef.

Definition move (this : nat) (viewRef : nat) (newIndex : Z) : M nat :=
  let! vr := getViewRef viewRef in
  let! lv := getLView (_lView vr) in
  if ngDevMode && destroyed lv
  then throw (JsError "Cannot move a destroyed View in a ViewContainer!")
  else insert this viewRef (Some newIndex).

(** Modelled from the spec: [templateRef.createEmbeddedView] and
    [componentFactory.create] make a view that is in no container, and the
    reference to it. *)
Definition createView : M nat :=
  fun w =>
    let v := fresh (dom (lViews w)) in
    newViewRef v
      {| lViews := <[v := {| PARENT := NoParent; attached := false; destroyed := false |}]>
                     (lViews w);
         lContainers := lContainers w;
         viewRefs := viewRefs w;
         nextRef := nextRef w;
         mutations := mutations w |}.

Definition createEmbeddedView (this : nat) (index : option Z) : M nat :=
  let! viewRef := createView in
  let! _ := insert this viewRef index in
  ret viewRef.

(** [createComponent(componentFactoryOrType, indexOrOptions, ...)]. The
    injectors and the projectable nodes are handed on to
    [componentFactory.create] and play no part here. A number given with a
    type is not an object of options: without [ngDevMode] its [index] is
    [undefined]. *)
Definition createComponent (this : nat) (componentFactoryOrType : ComponentFactoryOrType)
    (indexOrOptions : IndexOrOptions) : M ComponentRef :=
  let! index :=
    match componentFactoryOrType with
    | ComponentFactory =>
        match indexOrOptions with
        | OptionsObject _ _ _ =>
            if ngDevMode
            then throw (AssertionError
                          "It looks like Component factory was provided as the first argument and an options object as the second argument. This combination of arguments is incompatible. You can either change the first argument to provide Component type or change the second argument to be a number (representing an index at which to insert the new component's host view into this container)")
            else throw (OutsideModel "an object of options used as index")
        | IndexNumber index => ret (Some index)
        | NoIndexOrOptions => ret None
        end
    | ComponentType hasComponentDef =>
        if ngDevMode && negb hasComponentDef
        then throw (AssertionError
                      "Provided Component class doesn't contain Component definition. Please check whether provided class has @Component decorator.")
        else if ngDevMode && match indexOrOptions with IndexNumber _ => true | _ => false end
        then throw (AssertionError
                      "It looks like Component type was provided as the first argument and a number (representing an index at which to insert the new component's host view into this container as the second argument. This combination of arguments is incompatible. Please use an object as the second argument instead.")
        else if ngDevMode && match indexOrOptions with
                             | OptionsObject _ environmentInjector ngModuleRef =>
                                 environmentInjector && ngModuleRef
                             | _ => false
                             end
        then throw (AssertionError
                      "Cannot pass both environmentInjector and ngModuleRef options to createComponent().")
        else if negb hasComponentDef
        then throw (OutsideModel "a component factory of no component definition")
        else ret (match indexOrOptions with
                  | OptionsObject index _ _ => index
                  | _ => None
                  end)
    end in
  let! view := createView in
  let componentRef := {| hostView := view |} in
  let! _ := insert this (hostView componentRef) index in
  ret componentRef.

(** [clear()]: [while (this.length > 0) { this.remove(this.length - 1); }].
    [fuel] bounds the turns of the loop, which a destroy hook that inserts
    views can keep going; a loop that would go on when the fuel is used up
    is reported as [OutsideModel]. *)
Fixpoint clear (fuel : nat) (this : nat) : M unit :=
  let! len := length this in
  if len >? 0 then
    match fuel with
    | O => throw (OutsideModel "the loop of clear goes on")
    | S fuel' =>
        let! len' := length this in
        let! _ := remove this (Some (len' - 1)) in
        clear fuel' this
    end
  else ret tt.

End Container.

(** *** States and steps used to state the properties *)

(** The index that a call of [createComponent] asks for. *)
Definition requestedIndex (indexOrOptions : IndexOrOptions) : option Z :=
  match indexOrOptions with
  | NoIndexOrOptions => None
  | IndexNumber index => Some index
  | OptionsObject index _ _ => index
  end.

(** The calls that the two signatures of [createComponent] allow: a factory
    with a number or nothing, or a type that has a component definition
    with an object of options or nothing, the options not giving both an
    environment injector and a module. *)
Definition signatureOk (componentFactoryOrType : ComponentFactoryOrType)
    (indexOrOptions : IndexOrOptions) : bool :=
  match componentFactoryOrType, indexOrOptions with
  | ComponentFactory, OptionsObject _ _ _ => false
  | ComponentFactory, _ => true
  | ComponentType hasComponentDef, IndexNumber _ => false
  | ComponentType hasComponentDef, OptionsObject _ environmentInjector ngModuleRef =>
      hasComponentDef && negb (environmentInjector && ngModuleRef)
  | ComponentType hasComponentDef, NoIndexOrOptions => hasComponentDef
  end.

(** The container with its references replaced, and the state with a
    container replaced. *)
Definition withViewRefs (refs : list nat) (lc : LContainer) : LContainer :=
  {| views := views lc; VIEW_REFS := Some refs; parentRNode := parentRNode lc;
     rendered := rendered lc |}.

Definition withContainer (c : nat) (lc : LContainer) (w : World) : World :=
  {| lViews := lViews w; lContainers := <[c := lc]> (lContainers w);
     viewRefs := viewRefs w; nextRef := nextRef w; mutations := mutations w |}.

(** The part of [insert] that follows the detachment of an attached view. *)
Definition insertTail (dev : bool) (this viewRef lView : nat) (index : option Z) : M nat :=
  let! adjustedIdx := _adjustIndex dev this index 0 in
  let! _ := insertView lView this adjustedIdx in
  let! beforeNode := getBeforeNodeForView adjustedIdx this in
  let! lContainer := getLContainer this in
  let! _ := (if parentRNode lContainer
             then addViewToContainer this lView beforeNode
             else ret tt) in
  let! _ := attachToViewContainerRef viewRef in
  let! refs := getOrCreateViewRefs this in
  let! _ := setViewRefs this (addToArray refs adjustedIdx viewRef) in
  let! _ := record (RefsInsert this viewRef adjustedIdx) in
  ret viewRef.

Definition insertAt (idx : Z) (v : nat) (l : list nat) : list nat :=
  take (Z.to_nat idx) l ++ v :: drop (Z.to_nat idx) l.

(** The state in which [insertTail] ends. *)
Definition inserted (this r v : nat) (idx : Z) (lc : LContainer) (lv : LView) (vr : ViewRef)
    (w : World) : World :=
  {| lViews := <[v := {| PARENT := ParentLContainer this; attached := true;
                         destroyed := destroyed lv |}]> (lViews w);
     lContainers :=
       <[this := {| views := insertAt idx v (views lc);
                    VIEW_REFS := Some (addToArray (default [] (VIEW_REFS lc)) idx r);
                    parentRNode := parentRNode lc;
                    rendered := if parentRNode lc then insertAt idx v (views lc)
                                else rendered lc |}]> (lContainers w);
     viewRefs := <[r := {| _lView := _lView vr; _attachedToViewContainer := true;
                           _appRef := false |}]> (viewRefs w);
     nextRef := nextRef w;
     mutations := mutations w ++
       LogicalInsert this v idx ::
       (if parentRNode lc then [PhysicalInsert this v (views lc !! Z.to_nat idx)] else []) ++
       [RefsInsert this r idx] |}.

(** The state in which [detach] ends. *)
Definition detached (c : nat) (i : Z) (v : nat) (lc : LContainer) (lv : LView)
    (refs : list nat) (w : World) : World :=
  {| lViews := <[v := {| PARENT := NoParent; attached := false;
                         destroyed := destroyed lv |}]> (lViews w);
     lContainers :=
       <[c := {| views := delete (Z.to_nat i) (views lc);
                 VIEW_REFS := Some (delete (Z.to_nat i) refs);
                 parentRNode := parentRNode lc;
                 rendered := filter (fun x => x <> v) (rendered lc) |}]> (lContainers w);
     viewRefs := <[nextRef w := {| _lView := v; _attachedToViewContainer := false;
                                   _appRef := false |}]> (viewRefs w);
     nextRef := S (nextRef w);
     mutations := mutations w ++
       [LogicalDetach c v i; PhysicalDetach c v; RefsRemove c i] |}.

(** The state in which [createView] ends: a new view, in no container, and
    the reference to it. *)
Definition created (w : World) : World :=
  {| lViews := <[fresh (dom (lViews w)) :=
                   {| PARENT := NoParent; attached := false; destroyed := false |}]>
                 (lViews w);
     lContainers := lContainers w;
     viewRefs := <[nextRef w := {| _lView := fresh (dom (lViews w));
                                   _attachedToViewContainer := false;
                                   _appRef := false |}]> (viewRefs w);
     nextRef := S (nextRef w);
     mutations := mutations w |}.

(** The view is destroyed and has no parent. *)
Definition destroyedAndDetached (w : World) (v : nat) : Prop :=
  exists lv, lViews w !! v = Some lv /\ destroyed lv = true /\ PARENT lv = NoParent.

(** Destroy hooks that return and leave the containers and the views as
    they are. *)
Definition quietHooks (hooks : nat -> M unit) : Prop :=
  forall v w, exists w',
    hooks v w = Ok (tt, w') /\ lContainers w' = lContainers w /\ lViews w' = lViews w.

(** *** Consistency of the view tree *)

(** The references of a container stand for its views, position by position. *)
Definition refsAligned (w : World) (lc : LContainer) : Prop :=
  match VIEW_REFS lc with
  | Some refs =>
      Forall2 (fun r v => exists vr, viewRefs w !! r = Some vr /\ _lView vr = v) refs (views lc)
  | None => views lc = []
  end.

Record wellFormed (w : World) : Prop := {
  (* a view listed in a container has this container as parent *)
  wf_parent : forall c lc v,
    lContainers w !! c = Some lc -> v ∈ views lc ->
    exists lv, lViews w !! v = Some lv /\ PARENT lv = ParentLContainer c;
  (* a view is listed once *)
  wf_nodup : forall c lc, lContainers w !! c = Some lc -> NoDup (views lc);
  wf_refs : forall c lc, lContainers w !! c = Some lc -> refsAligned w lc;
  (* the DOM shows the views of a container in the order of its list *)
  wf_dom : forall c lc,
    lContainers w !! c = Some lc -> parentRNode lc = true -> rendered lc = views lc;
  (* [nextRef] is past every reference in use *)
  wf_fresh : forall r vr, viewRefs w !! r = Some vr -> (r < nextRef w)%nat;
}.

(** The mutations recorded by a run that returned. *)
Definition mutationsOf {A} (r : Res Error (A * World)) : option (list Mutation) :=
  match r with
  | Ok (_, w) => Some (mutations w)
  | Throw _ => None
  end.

(** The view is in the list of the container. *)
Definition memberOf (w : World) (v c : nat) : Prop :=
  exists lc, lContainers w !! c = Some lc /\ v ∈ views lc.

(** In the record of mutations, every physical insertion comes before every
    logical insertion. *)
Definition physicalBeforeLogical (ms : list Mutation) : Prop :=
  forall i j c v b c' v' idx,
    ms !! i = Some (PhysicalInsert c v b) ->
    ms !! j = Some (LogicalInsert c' v' idx) ->
    (i < j)%nat.

End ViewContainer.

Module ViewContainerExample.
Import ViewContainer.

Definition idle : LView := {| PARENT := NoParent; attached := false; destroyed := false |}.
Definition inContainer (c : nat) : LView :=
  {| PARENT := ParentLContainer c; attached := true; destroyed := false |}.
Definition refTo (v : nat) (isAttached : bool) : ViewRef :=
  {| _lView := v; _attachedToViewContainer := isAttached; _appRef := false |}.

(** Container 0 shows the views 10 and 11, container 1 the view 12; the view
    13 is in no container. The reference to view [v] is [100 + v]. *)
Definition world0 : World :=
  {| lViews := {[ 10%nat := inContainer 0; 11%nat := inContainer 0;
                  12%nat := inContainer 1; 13%nat := idle ]};
     lContainers :=
       {[ 0%nat := {| views := [10; 11]%nat; VIEW_REFS := Some [110; 111]%nat;
                      parentRNode := true; rendered := [10; 11]%nat |};
          1%nat := {| views := [12]%nat; VIEW_REFS := Some [112]%nat;
                      parentRNode := true; rendered := [12]%nat |} ]};
     viewRefs := {[ 110%nat := refTo 10 true; 111%nat := refTo 11 true;
                    112%nat := refTo 12 true; 113%nat := refTo 13 false ]};
     nextRef := 200;
     mutations := [] |}.

(** A destroy hook that calls back into container 0 and notes its length and
    whether the destroyed view is still listed, by writing both into the
    [LogicalInsert] entry of a container that does not exist. *)
Definition observingHook (v : nat) : M unit :=
  let! len := ViewContainer.length 0 in
  let! lc := getLContainer 0 in
  record (LogicalInsert 999 (if bool_decide (v ∈ views lc) then 1 else 0) len).

Definition noHook (v : nat) : M unit := ret tt.

(** A container that never held a view. *)
Definition emptyWorld : World :=
  {| lViews := ∅;
     lContainers := {[ 0%nat := {| views := []; VIEW_REFS := None;
                                   parentRNode := true; rendered := [] |} ]};
     viewRefs := ∅;
     nextRef := 0;
     mutations := [] |}.

End ViewContainerExample.

(** ** di.ts: constructor dependencies *)

Module Di.

(** A TypeScript expression, as far as the code looks into it. *)
Inductive TsExpression : Type :=
| StringLiteral (text : string)      (* [ts.isStringLiteralLike] *)
| OtherExpression (node : nat)
| UnknownKeywordType.                (* the type node [unknown] *)

(** Output expressions of the compiler. *)
Inductive Expression : Type :=
| WrappedNodeExpr (node : TsExpression)
| ExternalExpr (moduleName name : string)
| ReadPropExpr (receiver : Expression) (property : string)
| LiteralExpr (value : string).

(** [UnavailableValue]: why a type has no value to use as token; the nodes
    it carries are numbered. *)
Inductive UnavailableValue : Type :=
| UNSUPPORTED (typeNode : nat)
| NO_VALUE_DECLARATION (typeNode : nat) (decl : option nat)
| TYPE_ONLY_IMPORT (typeNode node : nat)
| NAMESPACE (typeNode importClause : nat)
| UNKNOWN_REFERENCE (typeNode : nat)
| MISSING_TYPE.

Inductive TypeValueReference : Type :=
| LOCAL (expression : TsExpression)
| IMPORTED (moduleName importedName : string) (nestedPath : option (list string))
| UNAVAILABLE (reason : UnavailableValue).

Record Import : Type := { importName : string; from : string }.

Record Decorator : Type := {
  name : string;
  import : option Import;
  args : option (list TsExpression);
}.

Record CtorParameter : Type := {
  paramName : option string;
  typeValueReference : TypeValueReference;
  decorators : option (list Decorator);
}.

(** A class as the reflection host shows it: [getConstructorParameters]
    ([None] when the class declares no constructor) and [hasBaseClass]. *)
Record ClassDeclaration : Type := {
  className : string;
  getConstructorParameters : option (list CtorParameter);
  hasBaseClass : bool;
}.

Record R3DependencyMetadata : Type := {
  token : Expression;
  attributeNameType : option Expression;
  optional : bool;
  self : bool;
  skipSelf : bool;
  host : bool;
}.

Record ConstructorDepError : Type := {
  index : nat;
  param : CtorParameter;
  reason : UnavailableValue;
}.

Inductive ConstructorDeps : Type :=
| Deps (deps : list R3DependencyMetadata)
| DepErrors (errors : list ConstructorDepError).

Inductive ErrorCode : Type :=
| DECORATOR_ARITY_WRONG
| DECORATOR_UNEXPECTED
| PARAM_MISSING_TOKEN.

(** What is thrown: a [FatalDiagnosticError] with its code, message text,
    the message chained to it and the texts of its hints, or a plain
    [Error]. *)
Inductive Thrown : Type :=
| FatalDiagnosticError (code : ErrorCode) (messageText : string)
    (next : option string) (hints : list string)
| PlainError (message : string).

(** Modelled from the spec: [valueReferenceToExpression]
    (annotations/common/src/util.ts) gives the token of a type that has a
    value, and [null] for a type that has none. *)
Definition valueReferenceToExpression (valueRef : TypeValueReference) : option Expression :=
  match valueRef with
  | UNAVAILABLE _ => None
  | LOCAL expression => Some (WrappedNodeExpr expression)
  | IMPORTED moduleName importedName nestedPath =>
      Some (foldl ReadPropExpr (ExternalExpr moduleName importedName) (default [] nestedPath))
  end.

(** Modelled from the spec: [isAngularCore] (annotations/common/src/util.ts):
    the decorator is imported from [@angular/core]. *)
Definition isAngularCore (dec : Decorator) : bool :=
  match import dec with
  | Some i => bool_decide (from i = "@angular/core")
  | None => false
  end.

(** The variables of the loop over the decorators of one parameter. *)
Record ParamState : Type := {
  st_token : option Expression;
  st_attributeNameType : option Expression;
  st_optional : bool;
  st_self : bool;
  st_skipSelf : bool;
  st_host : bool;
}.

(** [const name = isCore || dec.import === null ? dec.name : dec.import!.name] *)
Definition decoratorName (isCore : bool) (dec : Decorator) : string :=
  if isCore then name dec
  else match import dec with
       | None => name dec
       | Some i => importName i
       end.

(** The body of the loop over the decorators of a parameter. *)
Definition applyDecorator (isCore : bool) (st : ParamState) (dec : Decorator)
    : Res Thrown ParamState :=
  let name := decoratorName isCore dec in
  if bool_decide (name = "Inject") then
    match args dec with
    | Some [arg] =>
        Ok {| st_token := Some (WrappedNodeExpr arg);
              st_attributeNameType := st_attributeNameType st;
              st_optional := st_optional st; st_self := st_self st;
              st_skipSelf := st_skipSelf st; st_host := st_host st |}
    | _ => Throw (FatalDiagnosticError DECORATOR_ARITY_WRONG
                    "Unexpected number of arguments to @Inject()." None [])
    end
  else if bool_decide (name = "Optional") then
    Ok {| st_token := st_token st; st_attributeNameType := st_attributeNameType st;
          st_optional := true; st_self := st_self st;
          st_skipSelf := st_skipSelf st; st_host := st_host st |}
  else if bool_decide (name = "SkipSelf") then
    Ok {| st_token := st_token st; st_attributeNameType := st_attributeNameType st;
          st_optional := st_optional st; st_self := st_self st;
          st_skipSelf := true; st_host := st_host st |}
  else if bool_decide (name = "Self") then
    Ok {| st_token := st_token st; st_attributeNameType := st_attributeNameType st;
          st_optional := st_optional st; st_self := true;
          st_skipSelf := st_skipSelf st; st_host := st_host st |}
  else if bool_decide (name = "Host") then
    Ok {| st_token := st_token st; st_attributeNameType := st_attributeNameType st;
          st_optional := st_optional st; st_self := st_self st;
          st_skipSelf := st_skipSelf st; st_host := true |}
  else if bool_decide (name = "Attribute") then
    match args dec with
    | Some [attributeName] =>
        Ok {| st_token := Some (WrappedNodeExpr attributeName);
              st_attributeNameType :=
                Some (match attributeName with
                      | StringLiteral text => LiteralExpr text
                      | _ => WrappedNodeExpr UnknownKeywordType
                      end);
              st_optional := st_optional st; st_self := st_self st;
              st_skipSelf := st_skipSelf st; st_host := st_host st |}
    | _ => Throw (FatalDiagnosticError DECORATOR_ARITY_WRONG
                    "Unexpected number of arguments to @Attribute()." None [])
    end
  else Throw (FatalDiagnosticError DECORATOR_UNEXPECTED
                ("Unexpected decorator " +:+ name +:+ " on parameter.") None []).

Fixpoint applyDecorators (isCore : bool) (st : ParamState) (decs : list Decorator)
    : Res Thrown ParamState :=
  match decs with
  | [] => Ok st
  | dec :: rest =>
      try! st' <- applyDecorator isCore st dec; applyDecorators isCore st' rest
  end.

(** [(param.decorators || []).filter(dec => isCore || isAngularCore(dec))] *)
Definition consideredDecorators (isCore : bool) (param : CtorParameter) : list Decorator :=
  filter (fun dec => isCore || isAngularCore dec = true) (default [] (decorators param)).

(** The body of [ctorParams.forEach((param, idx) => ...)]: a dependency, or
    the record of a parameter that has no token. *)
Definition processParameter (isCore : bool) (idx : nat) (param : CtorParameter)
    : Res Thrown (R3DependencyMetadata + ConstructorDepError) :=
  try! st <- applyDecorators isCore
               {| st_token := valueReferenceToExpression (typeValueReference param);
                  st_attributeNameType := None;
                  st_optional := false; st_self := false;
                  st_skipSelf := false; st_host := false |}
               (consideredDecorators isCore param);
  match st_token st with
  | None =>
      match typeValueReference param with
      | UNAVAILABLE reason =>
          Ok (inr {| index := idx; param := param; reason := reason |})
      | _ => Throw (PlainError
               "Illegal state: expected value reference to be unavailable if no token is present")
      end
  | Some token =>
      Ok (inl {| token := token; attributeNameType := st_attributeNameType st;
                 optional := st_optional st; self := st_self st;
                 skipSelf := st_skipSelf st; host := st_host st |})
  end.

(** [ctorParams.forEach]: [deps] and [errors] are the arrays being filled. *)
Fixpoint forEachParameter (isCore : bool) (idx : nat) (ctorParams : list CtorParameter)
    (deps : list R3DependencyMetadata) (errors : list ConstructorDepError)
    : Res Thrown (list R3DependencyMetadata * list ConstructorDepError) :=
  match ctorParams with
  | [] => Ok (deps, errors)
  | param :: rest =>
      try! r <- processParameter isCore idx param;
      match r with
      | inl dep => forEachParameter isCore (S idx) rest (deps ++ [dep]) errors
      | inr err => forEachParameter isCore (S idx) rest deps (errors ++ [err])
      end
  end.

Definition getConstructorDependencies (clazz : ClassDeclaration) (isCore : bool)
    : Res Thrown (option ConstructorDeps) :=
  match getConstructorParameters clazz, hasBaseClass clazz with
  | None, true => Ok None
  | ctorParams, _ =>
      try! r <- forEachParameter isCore 0 (default [] ctorParams) [] [];
      match r with
      | (deps, []) => Ok (Some (Deps deps))
      | (_, errors) => Ok (Some (DepErrors errors))
      end
  end.

(** [R3DependencyMetadata[] | 'invalid' | null] *)
Inductive DepsOrInvalid : Type :=
| NullDeps
| ValidDeps (deps : list R3DependencyMetadata)
| Invalid.


(** [param.name || index] *)
Definition parameterLabel (param : CtorParameter) (index : nat) : string :=
  match paramName param with
  | Some n => if bool_decide (n = EmptyString) then pretty index else n
  | None => pretty index
  end.

Definition createUnsuitableInjectionTokenError (clazz : ClassDeclaration)
    (error : ConstructorDepError) : Thrown :=
  let inject := "Consider using the @Inject decorator to specify an injection token." in
  let '(chainMessage, hints) :=
    match reason error with
    | UNSUPPORTED _ =>
        (Some inject, ["This type is not supported as injection token."])
    | NO_VALUE_DECLARATION _ decl =>
        (Some inject,
         "This type does not have a value, so it cannot be used as injection token." ::
         match decl with
         | Some _ => ["The type is declared here."]
         | None => []
         end)
    | TYPE_ONLY_IMPORT _ _ =>
        (Some "Consider changing the type-only import to a regular import, or use the @Inject decorator to specify an injection token.",
         ["This type is imported using a type-only import, which prevents it from being usable as an injection token.";
          "The type-only import occurs here."])
    | NAMESPACE _ _ =>
        (Some inject,
         ["This type corresponds with a namespace, which cannot be used as injection token.";
          "The namespace import occurs here."])
    | UNKNOWN_REFERENCE _ =>
        (Some "The type should reference a known declaration.",
         ["This type could not be resolved."])
    | MISSING_TYPE =>
        (Some "Consider adding a type to the parameter or use the @Inject decorator to specify an injection token.",
         [])
    end in
  FatalDiagnosticError PARAM_MISSING_TOKEN
    ("No suitable injection token for parameter '" +:+ parameterLabel (param error) (index error)
       +:+ "' of class '" +:+ className clazz +:+ "'.")
    chainMessage hints.

Definition validateConstructorDependencies (clazz : ClassDeclaration)
    (deps : option ConstructorDeps) : Res Thrown DepsOrInvalid :=
  match deps with
  | None => Ok NullDeps
  | Some (Deps deps) => Ok (ValidDeps deps)
  | Some (DepErrors errors) =>
      match errors with
      | error :: _ => Throw (createUnsuitableInjectionTokenError clazz error)
      | [] => Throw (PlainError "TypeError: errors[0] is undefined")
      end
  end.

Definition getValidConstructorDependencies (clazz : ClassDeclaration) (isCore : bool)
    : Res Thrown DepsOrInvalid :=
  try! deps <- getConstructorDependencies clazz isCore;
  validateConstructorDependencies clazz deps.


(** *** Notions used to state the properties *)





(** The dependency on a token with no flag set. *)
Definition plainDependency (token : Expression) : R3DependencyMetadata :=
  {| token := token; attributeNameType := None;
     optional := false; self := false; skipSelf := false; host := false |}.

(** A decorator of this name is among those looked at on the parameter. *)
Definition hasDecorator (isCore : bool) (name : string) (param : CtorParameter) : bool :=
  existsb (fun dec => bool_decide (decoratorName isCore dec = name))
    (consideredDecorators isCore param).


End Di.

Module DiExample.
Import Di.

(** [constructor(svc, @Optional() other: Known)] where [svc] has no type. *)
Definition untyped : CtorParameter :=
  {| paramName := Some "svc"; typeValueReference := UNAVAILABLE MISSING_TYPE;
     decorators := None |}.

Definition known : CtorParameter :=
  {| paramName := Some "other"; typeValueReference := IMPORTED "./known" "Known" None;
     decorators := Some [{| name := "Optional";
                           import := Some {| importName := "Optional"; from := "@angular/core" |};
                           args := Some [] |}] |}.

Definition Dir : ClassDeclaration :=
  {| className := "Dir"; getConstructorParameters := Some [known; untyped];
     hasBaseClass := false |}.

(** [class Derived extends Base {}] and [class Plain {}] *)
Definition Derived : ClassDeclaration :=
  {| className := "Derived"; getConstructorParameters := None; hasBaseClass := true |}.

Definition Plain : ClassDeclaration :=
  {| className := "Plain"; getConstructorParameters := None; hasBaseClass := false |}.



End DiExample.

(** ** shared.ts: the input and output mappings of a directive *)

Module Shared.

(** *** Strings *)

(** The white space that [trim] removes, among the ASCII characters. *)
Definition isWhiteSpace (c : ascii) : bool :=
  let n := nat_of_ascii c in
  ((9 <=? n) && (n <=? 13) || (n =? 32))%nat.

Fixpoint trimStart (s : string) : string :=
  match s with
  | EmptyString => EmptyString
  | String c rest => if isWhiteSpace c then trimStart rest else s
  end.

Fixpoint trimEnd (s : string) : string :=
  match s with
  | EmptyString => EmptyString
  | String c rest =>
      match trimEnd rest with
      | EmptyString => if isWhiteSpace c then EmptyString else String c EmptyString
      | rest' => String c rest'
      end
  end.

(** [str.trim()] *)
Definition trim (s : string) : string := trimEnd (trimStart s).

(** [str.split(sep)] for a separator of one character *)
Fixpoint split (sep : ascii) (s : string) : list string :=
  match s with
  | EmptyString => [EmptyString]
  | String c rest =>
      if Ascii.eqb c sep then EmptyString :: split sep rest
      else match split sep rest with
           | piece :: pieces => String c piece :: pieces
           | [] => [String c EmptyString]
           end
  end.

(** The character occurs in the string. *)
Fixpoint occurs (c : ascii) (s : string) : bool :=
  match s with
  | EmptyString => false
  | String x rest => Ascii.eqb x c || occurs c rest
  end.

(** *** Values of the partial evaluator, as far as the code tells them apart *)

Inductive ResolvedValue : Type :=
| RString (s : string)
| RArray (elements : list ResolvedValue)
| ROther (node : nat).

Inductive ErrorCode : Type :=
| VALUE_HAS_WRONG_TYPE
| DECORATOR_ARITY_WRONG.

(** What is thrown: a [FatalDiagnosticError] with its code and message
    ([createValueHasWrongTypeError] makes one of code [VALUE_HAS_WRONG_TYPE]). *)
Inductive Thrown : Type :=
| FatalDiagnosticError (code : ErrorCode) (message : string).

(** A value of a mapping: a name, or the pair [[publicName, internalName]]. *)
Inductive MappingValue : Type :=
| Name (s : string)
| Pair (publicName internalName : string).

Record Decorator : Type := {
  name : string;
  args : option (list ResolvedValue);   (* the arguments, evaluated *)
}.

(** An element of [filterToMembersWithDecorator(decoratedElements, 'Input')]:
    the name of a member and its decorators of that name. *)
Record DecoratedField : Type := {
  memberName : string;
  decorators : list Decorator;
}.

Fixpoint stringArrayFrom (name : string) (i : nat) (value : list ResolvedValue)
    : Res Thrown (list string) :=
  match value with
  | [] => Ok []
  | RString s :: rest =>
      try! strings <- stringArrayFrom name (S i) rest; Ok (s :: strings)
  | _ :: _ =>
      Throw (FatalDiagnosticError VALUE_HAS_WRONG_TYPE
               ("Failed to resolve " +:+ name +:+ " at position " +:+ pretty i
                  +:+ " to a string"))
  end.

(** [parseFieldArrayValue(directive, field, evaluator)]; [fieldValue] is
    [directive.get(field)] evaluated, when the decorator has the field. *)
Definition parseFieldArrayValue (fieldValue : option ResolvedValue) (field : string)
    : Res Thrown (option (list string)) :=
  match fieldValue with
  | None => Ok None
  | Some (RArray value) =>
      try! strings <- stringArrayFrom field 0 value; Ok (Some strings)
  | Some _ =>
      Throw (FatalDiagnosticError VALUE_HAS_WRONG_TYPE
               ("Failed to resolve @Directive." +:+ field +:+ " to a string array"))
  end.

(** [const [field, property] = value.split(':', 2).map(str => str.trim())]
    and the entry [results[field] = property || field]. *)
Definition parseMappingEntry (value : string) : string * string :=
  match trim <$> take 2 (split ":"%char value) with
  | field :: property :: _ =>
      (field, if bool_decide (property = EmptyString) then field else property)
  | [field] => (field, field)
  | [] => (EmptyString, EmptyString)
  end.

Definition parseInputOutputMappingArray (values : list string) : gmap string string :=
  foldl (fun results value =>
           <[fst (parseMappingEntry value) := snd (parseMappingEntry value)]> results)
        ∅ values.

Definition parseFieldToPropertyMapping (fieldValue : option ResolvedValue) (field : string)
    : Res Thrown (gmap string string) :=
  try! metaValues <- parseFieldArrayValue fieldValue field;
  match metaValues with
  | Some values => Ok (parseInputOutputMappingArray values)
  | None => Ok ∅
  end.

(** The body of [field.decorators.forEach(decorator => ...)]. *)
Definition parseDecorator (mapValueResolver : string -> string -> MappingValue)
    (fieldName : string) (results : gmap string MappingValue) (decorator : Decorator)
    : Res Thrown (gmap string MappingValue) :=
  match args decorator with
  | None | Some [] => Ok (<[fieldName := Name fieldName]> results)
  | Some [RString property] =>
      Ok (<[fieldName := mapValueResolver property fieldName]> results)
  | Some [_] =>
      Throw (FatalDiagnosticError VALUE_HAS_WRONG_TYPE
               ("@" +:+ name decorator +:+ " decorator argument must resolve to a string"))
  | Some args =>
      Throw (FatalDiagnosticError DECORATOR_ARITY_WRONG
               ("@" +:+ name decorator +:+ " can have at most one argument, got "
                  +:+ pretty (length args) +:+ " argument(s)"))
  end.

Fixpoint parseDecorators (mapValueResolver : string -> string -> MappingValue)
    (fieldName : string) (results : gmap string MappingValue) (decorators : list Decorator)
    : Res Thrown (gmap string MappingValue) :=
  match decorators with
  | [] => Ok results
  | decorator :: rest =>
      try! results' <- parseDecorator mapValueResolver fieldName results decorator;
      parseDecorators mapValueResolver fieldName results' rest
  end.

Fixpoint parseDecoratedFieldsFrom (mapValueResolver : string -> string -> MappingValue)
    (results : gmap string MappingValue) (fields : list DecoratedField)
    : Res Thrown (gmap string MappingValue) :=
  match fields with
  | [] => Ok results
  | field :: rest =>
      try! results' <- parseDecorators mapValueResolver (memberName field) results
                         (decorators field);
      parseDecoratedFieldsFrom mapValueResolver results' rest
  end.

Definition parseDecoratedFields (fields : list DecoratedField)
    (mapValueResolver : string -> string -> MappingValue)
    : Res Thrown (gmap string MappingValue) :=
  parseDecoratedFieldsFrom mapValueResolver ∅ fields.

Definition resolveInput (publicName internalName : string) : MappingValue :=
  Pair publicName internalName.

Definition resolveOutput (publicName internalName : string) : MappingValue :=
  Name publicName.

(** The object spread [{...fromMeta, ...fromFields}]. *)
Definition spread (fromMeta : gmap string string) (fromFields : gmap string MappingValue)
    : gmap string MappingValue :=
  fromFields ∪ (Name <$> fromMeta).

(** The part of [extractDirectiveMetadata] that builds the objects given to
    [ClassPropertyMapping.fromMappedObject] for the inputs and the outputs:
    [inputsMeta] and [outputsMeta] are the fields [inputs] and [outputs] of
    the decorator, [inputFields] and [outputFields] the members decorated
    with [@Input] and [@Output]. *)
Definition extractDirectiveMetadata_mappings
    (inputsMeta outputsMeta : option ResolvedValue)
    (inputFields outputFields : list DecoratedField)
    : Res Thrown (gmap string MappingValue * gmap string MappingValue) :=
  try! inputsFromMeta <- parseFieldToPropertyMapping inputsMeta "inputs";
  try! inputsFromFields <- parseDecoratedFields inputFields resolveInput;
  try! outputsFromMeta <- parseFieldToPropertyMapping outputsMeta "outputs";
  try! outputsFromFields <- parseDecoratedFields outputFields resolveOutput;
  Ok (spread inputsFromMeta inputsFromFields, spread outputsFromMeta outputsFromFields).

(** *** Notions used to state the properties *)

(** An entry of the array [inputs] or [outputs] of the decorator, as it is
    written: ['field'] or ['field: alias']. *)
Inductive MappingEntry : Type :=
| FieldEntry (field : string)
| AliasEntry (field alias : string).

Definition entryText (entry : MappingEntry) : string :=
  match entry with
  | FieldEntry field => field
  | AliasEntry field alias => field +:+ ": " +:+ alias
  end.

Definition entryField (entry : MappingEntry) : string :=
  match entry with
  | FieldEntry field => field
  | AliasEntry field _ => field
  end.

(** The name under which the entry makes the field known. *)
Definition entryProperty (entry : MappingEntry) : string :=
  match entry with
  | FieldEntry field => field
  | AliasEntry _ alias => alias
  end.

(** A name as it is written in an entry: without colon and without white
    space around it. *)
Definition plainName (s : string) : bool :=
  negb (occurs ":" s) && bool_decide (trim s = s).

Definition entryOk (entry : MappingEntry) : bool :=
  match entry with
  | FieldEntry field => plainName field
  | AliasEntry field alias =>
      plainName field && plainName alias && negb (bool_decide (alias = EmptyString))
  end.

(** The array of the decorator that holds these entries, evaluated. *)
Definition entriesValue (entries : list MappingEntry) : ResolvedValue :=
  RArray ((fun entry => RString (entryText entry)) <$> entries).

(** The decorators of the members named [field], in the order in which
    they are gone through. *)
Definition decoratorsOf (fields : list DecoratedField) (field : string) : list Decorator :=
  flat_map decorators (filter (fun f => memberName f = field) fields).

(** The decorator has no argument, or one argument that is a string. *)
Definition decoratorArgsOk (decorator : Decorator) : bool :=
  match args decorator with
  | None | Some [] | Some [RString _] => true
  | Some _ => false
  end.

End Shared.

Module SharedExample.
Import Shared.

(** [inputs: ['foo: bar', 'baz: qaz', 'plain']] together with [@Input() foo]
    and [@Input('q') qux]; [outputs: ['done: finished', 'closed: shut']] with
    [@Output('fin') done]. *)
Definition inputEntries : list MappingEntry :=
  [AliasEntry "foo" "bar"; AliasEntry "baz" "qaz"; FieldEntry "plain"].
Definition outputEntries : list MappingEntry :=
  [AliasEntry "done" "finished"; AliasEntry "closed" "shut"].
Definition inputFields : list DecoratedField :=
  [ {| memberName := "foo"; decorators := [{| name := "Input"; args := Some [] |}] |};
    {| memberName := "qux";
       decorators := [{| name := "Input"; args := Some [RString "q"] |}] |} ].
Definition outputFields : list DecoratedField :=
  [ {| memberName := "done";
       decorators := [{| name := "Output"; args := Some [RString "fin"] |}] |} ].

End SharedExample.

(** ** ng_module handler: remote scoping *)

Module NgModuleHandler.

(** [Reference<ClassDeclaration>]: the class it refers to, and whether it
    came out of a resolver such as [forwardRef]. *)
Record Reference : Type := {
  node : nat;
  synthetic : bool;
}.

(** [scopeRegistry.getRemoteScope(decl.node)] when it is not [null]. *)
Record RemoteScope : Type := {
  directives : list Reference;
  pipes : list Reference;
}.

Inductive Expression : Type :=
| ExternalExpr (name : string)
| WrappedNodeExpr (node : nat)
| LiteralArrayExpr (entries : list Expression)
| FunctionExpr (params : list string) (statements : list Statement)
| InvokeFunctionExpr (fn : Expression) (args : list Expression)
with Statement : Type :=
| ReturnStatement (value : Expression)
| ExpressionStatement (expr : Expression).

(** [R3Identifiers.setComponentScope] *)
Definition setComponentScope : string := "ɵɵsetComponentScope".

Inductive Thrown : Type :=
| FatalDiagnosticError (message : string).

Definition isSyntheticReference (ref : Reference) : bool := synthetic ref.

(** What [analyze] hands to the compilation, as far as remote scoping reads
    it; [modStatements] are the statements of [compileNgModule(mod)] and
    [classMetadata] the compiled class metadata. *)
Record NgModuleAnalysis : Type := {
  declarations : list Reference;
  importRefs : list Reference;
  remoteScopesMayRequireCycleProtection : bool;
  modStatements : list Statement;
  classMetadata : option Expression;
}.

(** The part of [analyze] that fills these fields. *)
Definition analyze (declarationRefs importRefs : list Reference)
    (modStatements : list Statement) (classMetadata : option Expression) : NgModuleAnalysis :=
  {| declarations := declarationRefs;
     importRefs := importRefs;
     remoteScopesMayRequireCycleProtection :=
       existsb isSyntheticReference declarationRefs
       || existsb isSyntheticReference importRefs;
     modStatements := modStatements;
     classMetadata := classMetadata |}.

Section Handler.

(** The scope registry and the reference emitter of the handler; [emit]
    gives the expression of a successful emit. *)
Variable getRemoteScope : nat -> option RemoteScope.
Variable emit : Reference -> option Expression.

(** Modelled from the spec: [assertSuccessfulReferenceEmit] (ngtsc/imports)
    raises a fatal diagnostic when the reference could not be emitted; this
    is [refEmitter.emit(ref, context)] followed by
    [assertSuccessfulReferenceEmit(type, node, typeKind)]. *)
Definition emitOrThrow (ref : Reference) (typeKind : string) : Res Thrown Expression :=
  match emit ref with
  | Some expression => Ok expression
  | None => Throw (FatalDiagnosticError ("Unable to import " +:+ typeKind))
  end.

(** [refs.map(ref => { ...; return type.expression; })] *)
Fixpoint emitAll (refs : list Reference) (typeKind : string) : Res Thrown (list Expression) :=
  match refs with
  | [] => Ok []
  | ref :: rest =>
      try! expression <- emitOrThrow ref typeKind;
      try! expressions <- emitAll rest typeKind;
      Ok (expression :: expressions)
  end.

(** The [setComponentScope] call for a declaration with a remote scope. *)
Definition remoteScopingStatement (decl : Reference) (remoteScope : RemoteScope)
    (remoteScopesMayRequireCycleProtection : bool) : Res Thrown Statement :=
  try! directives <- emitAll (directives remoteScope) "directive";
  try! pipes <- emitAll (pipes remoteScope) "pipe";
  let directiveArray := LiteralArrayExpr directives in
  let pipesArray := LiteralArrayExpr pipes in
  let directiveExpr :=
    if remoteScopesMayRequireCycleProtection && (0 <? length directives)%nat
    then FunctionExpr [] [ReturnStatement directiveArray]
    else directiveArray in
  let pipesExpr :=
    if remoteScopesMayRequireCycleProtection && (0 <? length pipes)%nat
    then FunctionExpr [] [ReturnStatement pipesArray]
    else pipesArray in
  try! declExpr <- emitOrThrow decl "component";
  Ok (ExpressionStatement
        (InvokeFunctionExpr (ExternalExpr setComponentScope)
           [declExpr; directiveExpr; pipesExpr])).

Fixpoint appendRemoteScopingStatements (ngModuleStatements : list Statement)
    (declarations : list Reference) (remoteScopesMayRequireCycleProtection : bool)
    : Res Thrown (list Statement) :=
  match declarations with
  | [] => Ok ngModuleStatements
  | decl :: rest =>
      match getRemoteScope (node decl) with
      | Some remoteScope =>
          try! callStmt <- remoteScopingStatement decl remoteScope
                             remoteScopesMayRequireCycleProtection;
          appendRemoteScopingStatements (ngModuleStatements ++ [callStmt]) rest
            remoteScopesMayRequireCycleProtection
      | None =>
          appendRemoteScopingStatements ngModuleStatements rest
            remoteScopesMayRequireCycleProtection
      end
  end.

(** Every reference that remote scoping emits can be emitted. *)
Definition emittable (declarations : list Reference) : Prop :=
  forall decl remoteScope,
    decl ∈ declarations ->
    getRemoteScope (node decl) = Some remoteScope ->
    is_Some (emit decl)
    /\ (forall r, r ∈ directives remoteScope -> is_Some (emit r))
    /\ (forall r, r ∈ pipes remoteScope -> is_Some (emit r)).

(** [insertMetadataStatement]: [ngModuleStatements.unshift(metadata.toStmt())] *)
Definition insertMetadataStatement (ngModuleStatements : list Statement)
    (metadata : option Expression) : list Statement :=
  match metadata with
  | Some metadata => ExpressionStatement metadata :: ngModuleStatements
  | None => ngModuleStatements
  end.

(** The statements of the [ɵmod] field in full compilation. *)
Definition compileFull (analysis : NgModuleAnalysis) : Res Thrown (list Statement) :=
  appendRemoteScopingStatements
    (insertMetadataStatement (modStatements analysis) (classMetadata analysis))
    (declarations analysis)
    (remoteScopesMayRequireCycleProtection analysis).

End Handler.

(** *** The references of an array of the decorator *)

(** A resolved value, as far as [resolveTypeList] tells values apart: an
    array, a [Reference], a [SyntheticValue] that is a resolved
    [ModuleWithProviders] (with its [value.ngModule]), a [Map] (with what
    [get('ngModule')] gives, when the map has the key), anything else. *)
Inductive ResolvedValue : Type :=
| ResolvedArray (entries : list ResolvedValue)
| ResolvedReference (ref : Reference)
| SyntheticValue (ngModule : ResolvedValue)
| ResolvedMap (ngModule : option ResolvedValue)
| ResolvedOther.

(** [TopLevelImportedExpression] *)
Record TopLevelImportedExpression : Type := {
  expression : nat;
  resolvedReferences : list Reference;
  hasModuleWithProviders : bool;
}.

Section TypeList.

(** [this.reflector.isClass(node)] and [this.evaluator.evaluate(expr, moduleResolvers)] *)
Variable isClass : nat -> bool.
Variable evaluate : nat -> ResolvedValue.

Definition isClassDeclarationReference (ref : Reference) : bool := isClass (node ref).

Section Loop.

(** [resolveTypeList] itself, for the nested arrays, and its parameters. *)
Variable recur : ResolvedValue -> nat -> Res Thrown (list Reference * bool).
Variables className arrayName : string.

(** What the loop of [resolveTypeList] does with an entry, once a
    [ModuleWithProviders] is unwrapped: the references that it pushes and
    whether a nested array had a [ModuleWithProviders]. *)
Definition resolveEntry (entry : ResolvedValue) (absoluteIndex : nat)
    : Res Thrown (list Reference * bool) :=
  match entry with
  | ResolvedArray _ => recur entry absoluteIndex
  | ResolvedReference ref =>
      if isClassDeclarationReference ref then Ok ([ref], false)
      else Throw (FatalDiagnosticError
                    ("Value at position " +:+ pretty absoluteIndex +:+ " in the NgModule."
                       +:+ arrayName +:+ " of " +:+ className +:+ " is not a class"))
  | _ =>
      Throw (FatalDiagnosticError
               ("Value at position " +:+ pretty absoluteIndex +:+ " in the NgModule."
                  +:+ arrayName +:+ " of " +:+ className +:+ " is not a reference"))
  end.

(** [for (let idx = 0; idx < resolvedList.length; idx++) {...}] and the
    [return] that follows it. *)
Fixpoint resolveEntries (entries : list ResolvedValue) (refList : list Reference)
    (hasModuleWithProviders : bool) (absoluteIndex : nat)
    : Res Thrown (list Reference * bool) :=
  match entries with
  | [] => Ok (refList, hasModuleWithProviders)
  | entry :: rest =>
      let resolved :=
        match entry with
        | SyntheticValue ngModule => (resolveEntry ngModule absoluteIndex, true)
        | ResolvedMap (Some ngModule) => (resolveEntry ngModule absoluteIndex, true)
        | _ => (resolveEntry entry absoluteIndex, hasModuleWithProviders)
        end in
      try! pushed <- fst resolved;
      resolveEntries rest (refList ++ fst pushed) (snd resolved || snd pushed)
        (absoluteIndex + length (fst pushed))%nat
  end.

End Loop.

(** [resolveTypeList(expr, resolvedList, className, arrayName, absoluteIndex)];
    the result is [(references, hasModuleWithProviders)]. *)
Fixpoint resolveTypeList (className arrayName : string) (resolvedList : ResolvedValue)
    (absoluteIndex : nat) {struct resolvedList} : Res Thrown (list Reference * bool) :=
  match resolvedList with
  | ResolvedArray entries =>
      resolveEntries (resolveTypeList className arrayName) className arrayName
        entries [] false absoluteIndex
  | _ =>
      Throw (FatalDiagnosticError
               ("Expected array when reading the NgModule." +:+ arrayName +:+ " of "
                  +:+ className))
  end.

(** The loop of [analyze] over the top-level expressions of [imports]. *)
Fixpoint topLevelImports (className : string) (topLevelExpressions : list nat)
    (absoluteIndex : nat) : Res Thrown (list TopLevelImportedExpression) :=
  match topLevelExpressions with
  | [] => Ok []
  | importExpr :: rest =>
      let resolved := evaluate importExpr in
      try! result <- resolveTypeList className "imports" (ResolvedArray [resolved])
                       absoluteIndex;
      try! imports <- topLevelImports className rest
                        (absoluteIndex + length (fst result))%nat;
      Ok ({| expression := importExpr;
             resolvedReferences := fst result;
             hasModuleWithProviders := snd result |} :: imports)
  end.

End TypeList.

(** *** Notions used to state the properties *)

(** A function without parameters that returns an array literal. *)
Definition isClosureOfArray (e : Expression) : bool :=
  match e with
  | FunctionExpr [] [ReturnStatement (LiteralArrayExpr _)] => true
  | _ => false
  end.

(** The array literal that the expression is, or returns. *)
Definition arrayEntries (e : Expression) : option (list Expression) :=
  match e with
  | LiteralArrayExpr entries => Some entries
  | FunctionExpr [] [ReturnStatement (LiteralArrayExpr entries)] => Some entries
  | _ => None
  end.

End NgModuleHandler.

Module NgModuleExample.
Import NgModuleHandler.

(** The module declares the components 1 and 2 and imports the module 3
    through [forwardRef]; component 1 is remotely scoped with the directive 2
    and no pipe. *)
Definition cmp1 : Reference := {| node := 1; synthetic := false |}.
Definition cmp2 : Reference := {| node := 2; synthetic := false |}.
Definition mod3 : Reference := {| node := 3; synthetic := true |}.

Definition getRemoteScope (n : nat) : option RemoteScope :=
  if (n =? 1)%nat then Some {| directives := [cmp2]; pipes := [] |} else None.

Definition emit (ref : Reference) : option Expression := Some (WrappedNodeExpr (node ref)).

End NgModuleExample.

(** * Properties *)

(** ** Listener dispatch *)

Section ListenerFacts.
Import Listener.
Context {W : Type}.
Implicit Types (h : ListenerFn W) (chain : list (ListenerFn W)) (rt : Runtime W).

Lemma executeListener_spec h e rt :
  executeListenerWithErrorHandling h e rt =
    (completionOk (fst (fnBody h e (app rt))),
     {| app := snd (fnBody h e (app rt));
        profilerLog := profilerLog rt ++ profilerSpans [h];
        handledErrors := handledErrors rt ++ thrownErrors [fst (fnBody h e (app rt))];
        dirtyMarks := dirtyMarks rt;
        defaultPrevented := defaultPrevented rt;
        returnValueFalse := returnValueFalse rt |}).
Proof.
  unfold executeListenerWithErrorHandling.
  cbn [profiler app]. destruct (fnBody h e (app rt)) as [c w].
  destruct c; unfold profiler, setApp, handleError, profilerSpans, thrownErrors;
    cbn; rewrite <- ?app_assoc, ?app_nil_r; reflexivity.
Qed.

Lemma runCoalesced_spec chain : forall e result rt,
  runCoalesced chain e result rt =
    (forallb completionOk (completions chain e (app rt)) && result,
     {| app := finalApp chain e (app rt);
        profilerLog := profilerLog rt ++ profilerSpans chain;
        handledErrors := handledErrors rt ++ thrownErrors (completions chain e (app rt));
        dirtyMarks := dirtyMarks rt;
        defaultPrevented := defaultPrevented rt;
        returnValueFalse := returnValueFalse rt |}).
Proof.
  induction chain as [|h rest IH]; intros e result rt.
  - cbn. rewrite !app_nil_r. destruct rt; reflexivity.
  - cbn [runCoalesced]. rewrite executeListener_spec, IH. cbn [app profilerLog handledErrors
      dirtyMarks defaultPrevented returnValueFalse completions finalApp].
    destruct (fnBody h e (app rt)) as [c w]. cbn [fst snd forallb].
    f_equal.
    + rewrite andb_assoc. f_equal. apply andb_comm.
    + unfold profilerSpans, thrownErrors. cbn [flat_map omap].
      rewrite <- !app_assoc. f_equal.
      destruct c; cbn; rewrite ?app_nil_r; reflexivity.
Qed.

Lemma thrownErrors_cons (c : Completion) cs :
  thrownErrors (c :: cs) = thrownErrors [c] ++ thrownErrors cs.
Proof. destruct c; reflexivity. Qed.

Lemma profilerSpans_cons h chain :
  profilerSpans (h :: chain) = profilerSpans [h] ++ profilerSpans chain.
Proof. reflexivity. Qed.

Lemma wrapListener_spec startView h wrapPD chain e rt :
  wrapListener startView h wrapPD chain (EventObject e) rt =
    let result := forallb completionOk (completions (h :: chain) e (app rt)) in
    (Dispatched result,
     {| app := finalApp (h :: chain) e (app rt);
        profilerLog := profilerLog rt ++ profilerSpans (h :: chain);
        handledErrors := handledErrors rt ++ thrownErrors (completions (h :: chain) e (app rt));
        dirtyMarks := dirtyMarks rt ++ [startView];
        defaultPrevented := (wrapPD && negb result) || defaultPrevented rt;
        returnValueFalse := (wrapPD && negb result) || returnValueFalse rt |}).
Proof.
  unfold wrapListener. rewrite executeListener_spec, runCoalesced_spec.
  cbn [app profilerLog handledErrors dirtyMarks defaultPrevented returnValueFalse
       markViewDirty completions finalApp].
  destruct (fnBody h e (app rt)) as [c w]. cbn [fst snd forallb].
  rewrite (andb_comm (forallb _ _)).
  set (result := completionOk c && forallb _ _).
  rewrite (thrownErrors_cons c (completions chain e w)), (profilerSpans_cons h chain),
    <- !app_assoc.
  destruct (wrapPD && negb result); reflexivity.
Qed.

Lemma startedHandlers_app (l1 l2 : list (ProfilerEvent * nat)) :
  startedHandlers (l1 ++ l2) = startedHandlers l1 ++ startedHandlers l2.
Proof. apply omap_app. Qed.

Lemma startedHandlers_spans chain : startedHandlers (profilerSpans chain) = map fnId chain.
Proof. induction chain as [|h t IH]; [reflexivity|]. cbn. f_equal. exact IH. Qed.

Lemma forallb_completions_abrupt (cs : list Completion) (i : nat) err :
  cs !! i = Some (Abrupt err) -> forallb completionOk cs = false.
Proof.
  revert i. induction cs as [|c cs IH]; intros [|i] H; try discriminate.
  - injection H as ->. reflexivity.
  - cbn. rewrite (IH i H). apply andb_false_r.
Qed.

Lemma thrownErrors_elem (cs : list Completion) (i : nat) err :
  cs !! i = Some (Abrupt err) -> err ∈ thrownErrors cs.
Proof.
  intros H. unfold thrownErrors. apply list_elem_of_omap.
  exists (Abrupt err). split; [|reflexivity]. eapply list_elem_of_lookup_2, H.
Qed.

Lemma completions_returningFalseInstead chain : forall e (w : W),
  completions (map returningFalseInstead chain) e w =
    map (fun c => match c with Abrupt _ => Normal (JsBoolean false) | c => c end)
        (completions chain e w)
  /\ finalApp (map returningFalseInstead chain) e w = finalApp chain e w.
Proof.
  induction chain as [|h t IH]; intros e w; [split; reflexivity|].
  cbn [map completions finalApp returningFalseInstead fnBody].
  destruct (fnBody h e w) as [[v|err] w']; cbn [snd]; destruct (IH e w') as [-> ->];
    split; reflexivity.
Qed.

Lemma forallb_completionOk_demoted (cs : list Completion) :
  forallb completionOk
    (map (fun c => match c with Abrupt _ => Normal (JsBoolean false) | c => c end) cs)
  = forallb completionOk cs.
Proof.
  induction cs as [|c cs IH]; [reflexivity|].
  cbn [map forallb]. rewrite IH. destruct c; reflexivity.
Qed.

Lemma profilerSpans_returningFalseInstead chain :
  profilerSpans (map (@returningFalseInstead W) chain) = profilerSpans chain.
Proof. induction chain as [|h t IH]; [reflexivity|]. cbn. do 2 f_equal. exact IH. Qed.

(** C10. When the wrapped listener dispatches an event to its handler and
    the handlers coalesced onto it, a handler that throws counts as one
    that returned [false]: the dispatch still returns (with result
    [false]), the error is handed to the error handler, every handler of
    the chain is run, in order, and the default is prevented when the
    wrapper was asked to; result, application state, profiler log and event
    flags are those of the chain in which the throwing handlers return
    [false] instead. *)
Theorem wrapListener_throw_counts_as_false
    startView h wrapPD chain e rt (i : nat) err :
  completions (h :: chain) e (app rt) !! i = Some (Abrupt err) ->
  let out := wrapListener startView h wrapPD chain (EventObject e) rt in
  let out' := wrapListener startView (returningFalseInstead h) wrapPD
                (map returningFalseInstead chain) (EventObject e) rt in
  out.1 = Dispatched false
  /\ err ∈ handledErrors out.2
  /\ startedHandlers (profilerLog out.2)
      = startedHandlers (profilerLog rt) ++ map fnId (h :: chain)
  /\ (wrapPD = true -> defaultPrevented out.2 = true /\ returnValueFalse out.2 = true)
  /\ out'.1 = out.1
  /\ app out'.2 = app out.2
  /\ profilerLog out'.2 = profilerLog out.2
  /\ defaultPrevented out'.2 = defaultPrevented out.2.
Proof.
  intros Hthrow out out'. subst out out'.
  change (returningFalseInstead h :: map returningFalseInstead chain)
    with (map returningFalseInstead (h :: chain)) || idtac.
  rewrite !wrapListener_spec. cbn zeta. cbn [fst snd app profilerLog handledErrors
    defaultPrevented returnValueFalse].
  pose proof (completions_returningFalseInstead (h :: chain) e (app rt)) as [Hc Hf].
  cbn [map] in Hc, Hf. rewrite Hc, Hf, forallb_completionOk_demoted.
  rewrite (forallb_completions_abrupt _ _ _ Hthrow).
  pose proof (profilerSpans_returningFalseInstead (h :: chain)) as Hp. cbn [map] in Hp.
  rewrite Hp.
  repeat split.
  - apply elem_of_app. right. eapply thrownErrors_elem, Hthrow.
  - rewrite startedHandlers_app, startedHandlers_spans. reflexivity.
  - subst wrapPD. reflexivity.
  - subst wrapPD. reflexivity.
Qed.

(** The chain keeps going after a throw also when the throwing handler is
    the first one: the handlers after it are still started. *)
Lemma wrapListener_runs_whole_chain startView h wrapPD chain e rt :
  startedHandlers (profilerLog (wrapListener startView h wrapPD chain (EventObject e) rt).2)
  = startedHandlers (profilerLog rt) ++ map fnId (h :: chain).
Proof.
  rewrite wrapListener_spec. cbn zeta. cbn [snd profilerLog].
  rewrite startedHandlers_app, startedHandlers_spans. reflexivity.
Qed.

End ListenerFacts.

Lemma wrapListener_throw_counts_as_false_witness :
  let out := Listener.wrapListener 7 ListenerExample.first true
               [ListenerExample.second; ListenerExample.third]
               (Listener.EventObject Listener.JsUndefined) ListenerExample.rt0 in
  out.1 = Listener.Dispatched false
  /\ Listener.app out.2 = 3%nat
  /\ Listener.JsString "boom" ∈ Listener.handledErrors out.2
  /\ Listener.startedHandlers (Listener.profilerLog out.2) = [1; 2; 3]%nat
  /\ Listener.defaultPrevented out.2 = true.
Proof.
  pose proof (wrapListener_throw_counts_as_false 7 ListenerExample.first true
                [ListenerExample.second; ListenerExample.third]
                Listener.JsUndefined ListenerExample.rt0 1 (Listener.JsString "boom")
                eq_refl) as H.
  cbv zeta in H. destruct H as (H1 & H2 & H3 & H4 & _).
  cbv zeta. exact (conj H1 (conj eq_refl (conj H2 (conj H3 (proj1 (H4 eq_refl)))))).
Defined.

(** ** The view container *)

Section ViewContainerFacts.
Import ViewContainer.

Lemma bind_Ok {A B} (m : M A) (k : A -> M B) w a w' :
  m w = Ok (a, w') -> bind m k w = k a w'.
Proof. unfold bind. intros ->. reflexivity. Qed.

Lemma bind_Throw {A B} (m : M A) (k : A -> M B) w e :
  m w = Throw e -> bind m k w = Throw e.
Proof. unfold bind. intros ->. reflexivity. Qed.

Lemma getLContainer_Ok c lc w :
  lContainers w !! c = Some lc -> getLContainer c w = Ok (lc, w).
Proof. unfold getLContainer. intros ->. reflexivity. Qed.

Lemma getLView_Ok v lv w :
  lViews w !! v = Some lv -> getLView v w = Ok (lv, w).
Proof. unfold getLView. intros ->. reflexivity. Qed.

Lemma getViewRef_Ok r vr w :
  viewRefs w !! r = Some vr -> getViewRef r w = Ok (vr, w).
Proof. unfold getViewRef. intros ->. reflexivity. Qed.

Lemma length_Ok this lc w :
  lContainers w !! this = Some lc ->
  ViewContainer.length this w = Ok (zlength (views lc), w).
Proof.
  intros H. unfold ViewContainer.length.
  rewrite (bind_Ok _ _ _ _ _ (getLContainer_Ok _ _ _ H)). reflexivity.
Qed.

Lemma _adjustIndex_omitted dev this shift lc w :
  lContainers w !! this = Some lc ->
  _adjustIndex dev this None shift w = Ok (zlength (views lc) + shift, w).
Proof.
  intros H. unfold _adjustIndex.
  rewrite (bind_Ok _ _ _ _ _ (length_Ok _ _ _ H)). reflexivity.
Qed.

Lemma _adjustIndex_production this i shift lc w :
  lContainers w !! this = Some lc ->
  _adjustIndex false this (Some i) shift w = Ok (i, w).
Proof.
  intros H. unfold _adjustIndex.
  rewrite (bind_Ok _ _ _ _ _ (length_Ok _ _ _ H)). reflexivity.
Qed.

Lemma _adjustIndex_dev_in_range this i shift lc w :
  lContainers w !! this = Some lc ->
  0 <= i < zlength (views lc) + 1 + shift ->
  _adjustIndex true this (Some i) shift w = Ok (i, w).
Proof.
  intros H Hi. unfold _adjustIndex.
  rewrite (bind_Ok _ _ _ _ _ (length_Ok _ _ _ H)).
  destruct (Z.gtb_spec i (-1)); [|lia]. cbn [negb].
  destruct (Z.ltb_spec i (zlength (views lc) + 1 + shift)); [|lia]. reflexivity.
Qed.

Lemma _adjustIndex_dev_out_of_range this i shift lc w :
  lContainers w !! this = Some lc ->
  i < 0 \/ zlength (views lc) + 1 + shift <= i ->
  exists msg, _adjustIndex true this (Some i) shift w = Throw (AssertionError msg).
Proof.
  intros H Hi. unfold _adjustIndex.
  rewrite (bind_Ok _ _ _ _ _ (length_Ok _ _ _ H)).
  destruct (Z.gtb_spec i (-1)); cbn [negb]; [|eexists; reflexivity].
  destruct (Z.ltb_spec i (zlength (views lc) + 1 + shift)); [lia|].
  eexists; reflexivity.
Qed.

(** *** Arrays *)

Lemma zlookup_Some {A} (l : list A) i x :
  zlookup l i = Some x -> 0 <= i < zlength l /\ l !! Z.to_nat i = Some x.
Proof.
  unfold zlookup, zlength. destruct (Z.ltb_spec i 0) as [|Hge]; [discriminate|].
  intros Hx. split; [|exact Hx]. apply lookup_lt_Some in Hx. lia.
Qed.

Lemma removeFromArray_in_range {A} (l : list A) i :
  0 <= i < zlength l ->
  removeFromArray l i = (l !! Z.to_nat i, delete (Z.to_nat i) l).
Proof.
  unfold removeFromArray, zlength. intros Hi.
  destruct (Z.geb_spec i (Z.of_nat (Datatypes.length l) - 1)).
  - assert (Z.to_nat i = Nat.pred (Datatypes.length l)) as -> by lia.
    unfold pop. rewrite last_lookup. f_equal.
    rewrite delete_take_drop.
    rewrite (drop_ge l (S (Nat.pred (Datatypes.length l)))) by lia.
    rewrite app_nil_r. reflexivity.
  - unfold spliceRemove, spliceStart, zlength.
    destruct (Z.ltb_spec i 0); [lia|].
    rewrite Z.min_l by lia. reflexivity.
Qed.

Lemma addToArray_in_range {A} (l : list A) i x :
  0 <= i <= zlength l ->
  addToArray l i x = take (Z.to_nat i) l ++ x :: drop (Z.to_nat i) l.
Proof.
  unfold addToArray, zlength. intros Hi.
  destruct (Z.geb_spec i (Z.of_nat (Datatypes.length l))).
  - rewrite take_ge, drop_ge by lia. reflexivity.
  - unfold spliceInsert, spliceStart, zlength.
    destruct (Z.ltb_spec i 0); [lia|].
    rewrite Z.min_l by lia. reflexivity.
Qed.

Lemma zlength_delete {A} (l : list A) (n : nat) :
  (n < Datatypes.length l)%nat -> zlength (delete n l) = zlength l - 1.
Proof.
  intros Hn. unfold zlength. rewrite length_delete by (apply lookup_lt_is_Some_2; exact Hn).
  lia.
Qed.

Lemma NoDup_delete_notin (l : list nat) (n : nat) v :
  NoDup l -> l !! n = Some v -> v ∉ delete n l.
Proof.
  intros Hnd Hl Hin. apply list_elem_of_lookup in Hin as [j Hj].
  destruct (decide (j < n)%nat).
  - rewrite list_lookup_delete_lt in Hj by assumption.
    pose proof (NoDup_lookup _ _ _ _ Hnd Hj Hl). lia.
  - rewrite list_lookup_delete_ge in Hj by lia.
    pose proof (NoDup_lookup _ _ _ _ Hnd Hj Hl). lia.
Qed.

Lemma notin_filter_ne (l : list nat) v : v ∉ filter (fun x => x <> v) l.
Proof. rewrite list_elem_of_filter. intros [Hne _]. apply Hne. reflexivity. Qed.

(** *** The steps of the container operations *)

Ltac wsimpl :=
  cbn [lContainers lViews viewRefs nextRef mutations fst snd views VIEW_REFS parentRNode
       rendered PARENT attached destroyed _lView _attachedToViewContainer _appRef].

Ltac munfold :=
  unfold bind, ret, throw, setLContainer, setLView, setViewRef, record, getLContainer,
    getLView, getViewRef, newViewRef;
  wsimpl.

Lemma detachView_Ok c i lc v lv w :
  lContainers w !! c = Some lc ->
  zlookup (views lc) i = Some v ->
  lViews w !! v = Some lv ->
  detachView c i w =
    Ok (Some v,
        {| lViews := <[v := {| PARENT := NoParent; attached := false;
                               destroyed := destroyed lv |}]> (lViews w);
           lContainers := <[c := {| views := delete (Z.to_nat i) (views lc);
                                    VIEW_REFS := VIEW_REFS lc;
                                    parentRNode := parentRNode lc;
                                    rendered := filter (fun x => x <> v) (rendered lc) |}]>
                            (lContainers w);
           viewRefs := viewRefs w;
           nextRef := nextRef w;
           mutations := mutations w ++ [LogicalDetach c v i; PhysicalDetach c v] |}).
Proof.
  intros Hc Hz Hv. pose proof (zlookup_Some _ _ _ Hz) as [Hi Hl].
  unfold detachView.
  rewrite (bind_Ok _ _ _ _ _ (getLContainer_Ok _ _ _ Hc)).
  destruct (Z.leb_spec (zlength (views lc)) 0); [lia|].
  destruct (Z.ltb_spec i 0); [lia|].
  rewrite Hz.
  rewrite (bind_Ok _ _ _ _ _ (getLView_Ok _ _ _ Hv)).
  rewrite removeFromArray_in_range by assumption.
  munfold. rewrite lookup_insert_eq. wsimpl.
  rewrite insert_insert_eq, <- app_assoc. reflexivity.
Qed.

Lemma updateViewRefs_Ok {B} c lc (f : list nat -> list nat) (k : unit -> M B) w :
  lContainers w !! c = Some lc ->
  bind (getOrCreateViewRefs c) (fun refs => bind (setViewRefs c (f refs)) k) w =
    k tt (withContainer c (withViewRefs (f (default [] (VIEW_REFS lc))) lc) w).
Proof.
  intros Hc. unfold getOrCreateViewRefs, setViewRefs, withContainer, withViewRefs.
  munfold. rewrite Hc. destruct (VIEW_REFS lc) as [refs|]; munfold.
  - rewrite Hc. reflexivity.
  - rewrite lookup_insert_eq. wsimpl. rewrite insert_insert_eq. reflexivity.
Qed.

Lemma updateViewRefs_dep_Ok {B} c lc (f : list nat -> list nat) (k : list nat -> M B) w :
  lContainers w !! c = Some lc ->
  bind (getOrCreateViewRefs c) (fun refs => bind (setViewRefs c (f refs)) (fun _ => k refs)) w =
    k (default [] (VIEW_REFS lc))
      (withContainer c (withViewRefs (f (default [] (VIEW_REFS lc))) lc) w).
Proof.
  intros Hc. unfold getOrCreateViewRefs, setViewRefs, withContainer, withViewRefs.
  munfold. rewrite Hc. destruct (VIEW_REFS lc) as [refs|]; munfold.
  - rewrite Hc. reflexivity.
  - rewrite lookup_insert_eq. wsimpl. rewrite insert_insert_eq. reflexivity.
Qed.

(** C3. [remove] takes the view out of the list of the container (so that
    its length is one less) and out of the DOM, and takes its reference out
    of [VIEW_REFS], before the destroy hooks of the view run: the hooks are
    started on a state of the container in which all this is done, so that a
    hook that calls back into the container reads the new length and does
    not find the removed view. *)
Theorem remove_detaches_before_destroy_hooks
    dev (hooks : nat -> M unit) this index i lc v lv w :
  lContainers w !! this = Some lc ->
  index = Some i \/ (index = None /\ i = zlength (views lc) - 1) ->
  zlookup (views lc) i = Some v ->
  lViews w !! v = Some lv ->
  destroyed lv = false ->
  exists w' lc',
    remove dev hooks this index w = hooks v w'
    /\ lContainers w' !! this = Some lc'
    /\ views lc' = delete (Z.to_nat i) (views lc)
    /\ ViewContainer.length this w' = Ok (zlength (views lc) - 1, w')
    /\ (NoDup (views lc) -> v ∉ views lc')
    /\ rendered lc' = filter (fun x => x <> v) (rendered lc)
    /\ (v ∉ rendered lc')
    /\ VIEW_REFS lc' = Some (removeFromArray (default [] (VIEW_REFS lc)) i).2
    /\ mutations w' = mutations w ++ [LogicalDetach this v i; PhysicalDetach this v;
                                       RefsRemove this i; DestroyHooks v].
Proof.
  intros Hc Hidx Hz Hv Hd.
  pose proof (zlookup_Some _ _ _ Hz) as [Hi Hl].
  assert (Hadj : _adjustIndex dev this index (-1) w = Ok (i, w)).
  { destruct Hidx as [->|[-> ->]].
    - destruct dev.
      + apply (_adjustIndex_dev_in_range _ _ _ lc); [assumption|lia].
      + apply (_adjustIndex_production _ _ _ lc). assumption.
    - rewrite (_adjustIndex_omitted _ _ _ lc) by assumption. reflexivity. }
  unfold remove.
  rewrite (bind_Ok _ _ _ _ _ Hadj).
  rewrite (bind_Ok _ _ _ _ _ (detachView_Ok _ _ _ _ _ _ Hc Hz Hv)).
  erewrite updateViewRefs_Ok by (wsimpl; apply lookup_insert_eq).
  unfold withContainer, withViewRefs, destroyLView. munfold.
  rewrite lookup_insert_eq. wsimpl. rewrite Hd.
  rewrite !insert_insert_eq.
  eexists _, _. split; [reflexivity|]. wsimpl.
  split; [apply lookup_insert_eq|]. wsimpl.
  split; [reflexivity|].
  split.
  { unfold ViewContainer.length. munfold. rewrite lookup_insert_eq. wsimpl.
    rewrite zlength_delete; [reflexivity|]. unfold zlength in Hi. lia. }
  split; [intros Hnd; eapply NoDup_delete_notin; eassumption|].
  split; [reflexivity|].
  split; [apply notin_filter_ne|].
  split; [reflexivity|].
  rewrite <- !app_assoc. reflexivity.
Qed.

Lemma indexOfFrom_elem (r : nat) (refs : list nat) (k : Z) :
  r ∈ refs ->
  exists i : nat, indexOfFrom r refs k = k + Z.of_nat i /\ refs !! i = Some r.
Proof.
  revert k. induction refs as [|x rest IH]; intros k Hin.
  - apply elem_of_nil in Hin. contradiction.
  - cbn [indexOfFrom]. destruct (decide (x = r)) as [->|Hne].
    + exists 0%nat. split; [lia|reflexivity].
    + apply elem_of_cons in Hin as [->|Hin]; [contradiction|].
      destruct (IH (k + 1) Hin) as (i & Hi & Hl).
      exists (S i). split; [lia|exact Hl].
Qed.

Lemma indexOfFrom_notin (r : nat) (refs : list nat) (k : Z) :
  r ∉ refs -> indexOfFrom r refs k = -1.
Proof.
  revert k. induction refs as [|x rest IH]; intros k Hin; [reflexivity|].
  cbn [indexOfFrom]. apply not_elem_of_cons in Hin as [Hne Hin].
  destruct (decide (x = r)); [congruence|]. apply IH, Hin.
Qed.

Lemma filter_ne_notin (l : list nat) v :
  v ∉ l -> filter (fun x => x <> v) l = l.
Proof.
  induction l as [|x l IH]; intros Hin; [reflexivity|].
  apply not_elem_of_cons in Hin as [Hne Hin].
  rewrite filter_cons_True by congruence. f_equal. apply IH, Hin.
Qed.

Lemma filter_ne_NoDup (l : list nat) (n : nat) v :
  NoDup l -> l !! n = Some v -> filter (fun x => x <> v) l = delete n l.
Proof.
  revert n. induction l as [|x l IH]; intros n Hnd Hl; [discriminate|].
  apply NoDup_cons in Hnd as [Hx Hnd]. destruct n as [|n]; cbn in Hl.
  - injection Hl as ->. rewrite filter_cons_False by (intros H; apply H; reflexivity).
    cbn. apply filter_ne_notin, Hx.
  - assert (x <> v) by (intros ->; apply Hx; eapply list_elem_of_lookup_2, Hl).
    rewrite filter_cons_True by assumption. cbn. f_equal. apply IH; assumption.
Qed.

Lemma insertBefore_NoDup (l : list nat) (n : nat) child next :
  NoDup l -> l !! n = Some next ->
  insertBefore child next l = Some (take n l ++ child :: drop n l).
Proof.
  revert n. induction l as [|x l IH]; intros n Hnd Hl; [discriminate|].
  apply NoDup_cons in Hnd as [Hx Hnd]. destruct n as [|n]; cbn in Hl.
  - injection Hl as ->. cbn. destruct (decide (next = next)); [reflexivity|congruence].
  - cbn [insertBefore]. destruct (decide (x = next)) as [->|Hne].
    + exfalso. apply Hx. eapply list_elem_of_lookup_2, Hl.
    + rewrite (IH n Hnd Hl). reflexivity.
Qed.

Lemma lookup_insertAt_next (l : list nat) idx v :
  0 <= idx <= zlength l ->
  zlookup (insertAt idx v l) (idx + 1) = l !! Z.to_nat idx.
Proof.
  unfold zlookup, insertAt, zlength. intros Hi.
  destruct (Z.ltb_spec (idx + 1) 0); [lia|].
  replace (Z.to_nat (idx + 1)) with (Datatypes.length (take (Z.to_nat idx) l) + 1)%nat
    by (rewrite length_take; lia).
  rewrite lookup_app_r by lia.
  replace (Datatypes.length (take (Z.to_nat idx) l) + 1
           - Datatypes.length (take (Z.to_nat idx) l))%nat with 1%nat by lia.
  change ((v :: drop (Z.to_nat idx) l) !! 1%nat) with (drop (Z.to_nat idx) l !! 0%nat).
  rewrite lookup_drop. f_equal. lia.
Qed.

Lemma insertView_Ok v c idx lc lv w :
  lContainers w !! c = Some lc ->
  lViews w !! v = Some lv ->
  0 <= idx <= zlength (views lc) ->
  insertView v c idx w =
    Ok (tt, {| lViews := <[v := {| PARENT := ParentLContainer c; attached := true;
                                   destroyed := destroyed lv |}]> (lViews w);
               lContainers := <[c := {| views := insertAt idx v (views lc);
                                        VIEW_REFS := VIEW_REFS lc;
                                        parentRNode := parentRNode lc;
                                        rendered := rendered lc |}]> (lContainers w);
               viewRefs := viewRefs w;
               nextRef := nextRef w;
               mutations := mutations w ++ [LogicalInsert c v idx] |}).
Proof.
  intros Hc Hv Hi.
  assert (Hins : (if idx <? zlength (views lc) then addToArray (views lc) idx v
                  else views lc ++ [v]) = insertAt idx v (views lc)).
  { unfold insertAt. destruct (Z.ltb_spec idx (zlength (views lc))).
    - apply addToArray_in_range. lia.
    - unfold zlength in *. rewrite take_ge, drop_ge by lia. reflexivity. }
  unfold insertView. rewrite (bind_Ok _ _ _ _ _ (getLContainer_Ok _ _ _ Hc)).
  rewrite (bind_Ok _ _ _ _ _ (getLView_Ok _ _ _ Hv)).
  assert (Hprev : (if 0 <? idx
                   then match zlookup (views lc) (idx - 1) with
                        | Some _ => ret tt
                        | None => throw (TypeError "Cannot set properties of undefined")
                        end
                   else ret tt) w = Ok (tt, w)).
  { destruct (Z.ltb_spec 0 idx); [|reflexivity].
    unfold zlookup. destruct (Z.ltb_spec (idx - 1) 0); [lia|].
    destruct (lookup_lt_is_Some_2 (views lc) (Z.to_nat (idx - 1))) as [x ->];
      [unfold zlength in Hi; lia|reflexivity]. }
  rewrite (bind_Ok _ _ _ _ _ Hprev).
  destruct (Z.ltb_spec idx 0); [lia|].
  rewrite Hins. munfold. reflexivity.
Qed.

Lemma getBeforeNodeForView_Ok i c lc w :
  lContainers w !! c = Some lc ->
  getBeforeNodeForView i c w = Ok (zlookup (views lc) (i + 1), w).
Proof.
  intros Hc. unfold getBeforeNodeForView.
  rewrite (bind_Ok _ _ _ _ _ (getLContainer_Ok _ _ _ Hc)). reflexivity.
Qed.

Lemma addViewToContainer_Ok c v before lc dom w :
  lContainers w !! c = Some lc ->
  match before with
  | None => Some (rendered lc ++ [v])
  | Some next => insertBefore v next (rendered lc)
  end = Some dom ->
  addViewToContainer c v before w =
    Ok (tt, {| lViews := lViews w;
               lContainers := <[c := {| views := views lc; VIEW_REFS := VIEW_REFS lc;
                                        parentRNode := parentRNode lc;
                                        rendered := dom |}]> (lContainers w);
               viewRefs := viewRefs w;
               nextRef := nextRef w;
               mutations := mutations w ++ [PhysicalInsert c v before] |}).
Proof.
  intros Hc Hdom. unfold addViewToContainer.
  rewrite (bind_Ok _ _ _ _ _ (getLContainer_Ok _ _ _ Hc)).
  destruct before as [next|].
  - rewrite Hdom. reflexivity.
  - injection Hdom as <-. reflexivity.
Qed.

Lemma attachToViewContainerRef_Ok r vr w :
  viewRefs w !! r = Some vr ->
  _appRef vr = false ->
  attachToViewContainerRef r w =
    Ok (tt, {| lViews := lViews w;
               lContainers := lContainers w;
               viewRefs := <[r := {| _lView := _lView vr; _attachedToViewContainer := true;
                                     _appRef := false |}]> (viewRefs w);
               nextRef := nextRef w;
               mutations := mutations w |}).
Proof.
  intros Hr Happ. unfold attachToViewContainerRef.
  rewrite (bind_Ok _ _ _ _ _ (getViewRef_Ok _ _ _ Hr)). rewrite Happ. reflexivity.
Qed.

Lemma insertTail_Ok dev this r v index idx lc lv vr w :
  lContainers w !! this = Some lc ->
  lViews w !! v = Some lv ->
  viewRefs w !! r = Some vr ->
  _appRef vr = false ->
  index = Some idx \/ (index = None /\ idx = zlength (views lc)) ->
  0 <= idx <= zlength (views lc) ->
  NoDup (views lc) ->
  (parentRNode lc = true -> rendered lc = views lc) ->
  insertTail dev this r v index w = Ok (r, inserted this r v idx lc lv vr w).
Proof.
  intros Hc Hv Hr Happ Hidx Hi Hnd Hdom.
  assert (Hadj : _adjustIndex dev this index 0 w = Ok (idx, w)).
  { destruct Hidx as [->|[-> ->]].
    - destruct dev.
      + apply (_adjustIndex_dev_in_range _ _ _ lc); [assumption|lia].
      + apply (_adjustIndex_production _ _ _ lc). assumption.
    - rewrite (_adjustIndex_omitted _ _ _ lc) by assumption. f_equal. f_equal. lia. }
  unfold insertTail. rewrite (bind_Ok _ _ _ _ _ Hadj).
  rewrite (bind_Ok _ _ _ _ _ (insertView_Ok _ _ _ _ _ _ Hc Hv Hi)).
  erewrite bind_Ok
    by (apply getBeforeNodeForView_Ok; wsimpl; apply lookup_insert_eq).
  wsimpl. rewrite lookup_insertAt_next by assumption.
  erewrite bind_Ok by (apply getLContainer_Ok; wsimpl; apply lookup_insert_eq).
  wsimpl. unfold inserted.
  destruct (parentRNode lc) eqn:Hp.
  - specialize (Hdom eq_refl).
    erewrite bind_Ok.
    2:{ apply addViewToContainer_Ok with (dom := insertAt idx v (views lc)).
        - wsimpl. apply lookup_insert_eq.
        - wsimpl. rewrite Hdom.
          destruct (views lc !! Z.to_nat idx) as [next|] eqn:Hn.
          + apply (insertBefore_NoDup _ _ _ _ Hnd Hn).
          + apply lookup_ge_None in Hn. unfold insertAt.
            rewrite take_ge, drop_ge by lia. reflexivity. }
    wsimpl.
    erewrite bind_Ok by (apply attachToViewContainerRef_Ok; wsimpl; eassumption).
    erewrite updateViewRefs_Ok by (wsimpl; apply lookup_insert_eq).
    unfold withContainer, withViewRefs. munfold.
    rewrite !insert_insert_eq, <- !app_assoc. reflexivity.
  - unfold ret at 1. cbn [bind].
    erewrite bind_Ok by (apply attachToViewContainerRef_Ok; wsimpl; eassumption).
    erewrite updateViewRefs_Ok by (wsimpl; apply lookup_insert_eq).
    unfold withContainer, withViewRefs. munfold.
    rewrite !insert_insert_eq, <- !app_assoc. reflexivity.
Qed.

Lemma detach_Ok dev c i lc v lv refs w :
  lContainers w !! c = Some lc ->
  zlookup (views lc) i = Some v ->
  lViews w !! v = Some lv ->
  VIEW_REFS lc = Some refs ->
  Datatypes.length refs = Datatypes.length (views lc) ->
  detach dev c (Some i) w = Ok (Some (nextRef w), detached c i v lc lv refs w).
Proof.
  intros Hc Hz Hv Hrefs Hlen.
  pose proof (zlookup_Some _ _ _ Hz) as [Hi Hl].
  assert (Hadj : _adjustIndex dev c (Some i) (-1) w = Ok (i, w)).
  { destruct dev.
    - apply (_adjustIndex_dev_in_range _ _ _ lc); [assumption|lia].
    - apply (_adjustIndex_production _ _ _ lc). assumption. }
  unfold detach. rewrite (bind_Ok _ _ _ _ _ Hadj).
  rewrite (bind_Ok _ _ _ _ _ (detachView_Ok _ _ _ _ _ _ Hc Hz Hv)).
  rewrite (updateViewRefs_dep_Ok c _ (fun refs => snd (removeFromArray refs i))
             (fun refs => let! _ := record (RefsRemove c i) in
                          match fst (removeFromArray refs i) with
                          | Some _ => let! r := newViewRef v in ret (Some r)
                          | None => ret None
                          end))
    by (wsimpl; apply lookup_insert_eq).
  unfold withContainer, withViewRefs. wsimpl. rewrite Hrefs. cbn [default]. unfold id.
  assert (Hr : 0 <= i < zlength refs) by (unfold zlength in *; lia).
  rewrite (removeFromArray_in_range _ _ Hr). wsimpl.
  destruct (lookup_lt_is_Some_2 refs (Z.to_nat i)) as [r0 Hr0];
    [unfold zlength in Hr; lia|].
  rewrite Hr0. unfold detached. munfold.
  rewrite !insert_insert_eq, <- !app_assoc. reflexivity.
Qed.

Lemma NoDup_delete (l : list nat) n : NoDup l -> NoDup (delete n l).
Proof. intros H. eapply sublist_NoDup; [exact H|apply sublist_delete]. Qed.

Lemma NoDup_insertAt idx v (l : list nat) : NoDup l -> v ∉ l -> NoDup (insertAt idx v l).
Proof.
  intros Hnd Hin. unfold insertAt.
  apply NoDup_app. rewrite <- (take_drop (Z.to_nat idx) l) in Hnd, Hin.
  apply NoDup_app in Hnd as (H1 & H2 & H3).
  apply not_elem_of_app in Hin as [Hin1 Hin2].
  split; [exact H1|]. split.
  - intros x Hx Hx'. apply elem_of_cons in Hx' as [->|Hx']; [contradiction|].
    exact (H2 x Hx Hx').
  - apply NoDup_cons. split; assumption.
Qed.

Lemma elem_of_insertAt idx v (l : list nat) x : x ∈ insertAt idx v l <-> x = v \/ x ∈ l.
Proof.
  unfold insertAt. rewrite <- (take_drop (Z.to_nat idx) l) at 3.
  rewrite !elem_of_app, elem_of_cons. tauto.
Qed.

Lemma insert_unfold dev this viewRef index :
  insert dev this viewRef index =
    let! vr := getViewRef viewRef in
    let! lv := getLView (_lView vr) in
    if dev && destroyed lv
    then throw (JsError "Cannot insert a destroyed View in a ViewContainer!")
    else
      let! _ :=
        (if viewAttachedToContainer lv then
           let! prevIdx := indexOf this viewRef in
           if negb (prevIdx =? -1) then
             let! _ := detach dev this (Some prevIdx) in ret tt
           else
             match PARENT lv with
             | ParentLContainer prevLContainer =>
                 let! i := indexOf prevLContainer viewRef in
                 let! _ := detach dev prevLContainer (Some i) in ret tt
             | _ => ret tt
             end
         else ret tt) in
      insertTail dev this viewRef (_lView vr) index.
Proof. reflexivity. Qed.

Lemma indexOf_Ok c lc r w :
  lContainers w !! c = Some lc ->
  indexOf c r w = Ok (match VIEW_REFS lc with
                      | Some arr => indexOfFrom r arr 0
                      | None => -1
                      end, w).
Proof.
  intros Hc. unfold indexOf, getViewRefs.
  unfold bind at 1. unfold bind at 1. rewrite (getLContainer_Ok _ _ _ Hc). unfold ret at 1.
  destruct (VIEW_REFS lc); reflexivity.
Qed.

(** A reference held by a container stands for a view of this container. *)
Lemma aligned_ref_view w c lc refs r vr :
  wellFormed w ->
  lContainers w !! c = Some lc ->
  VIEW_REFS lc = Some refs ->
  r ∈ refs ->
  viewRefs w !! r = Some vr ->
  exists (i : nat) lv,
    indexOfFrom r refs 0 = Z.of_nat i
    /\ views lc !! i = Some (_lView vr)
    /\ lViews w !! _lView vr = Some lv
    /\ PARENT lv = ParentLContainer c
    /\ Datatypes.length refs = Datatypes.length (views lc).
Proof.
  intros Hwf Hc Hrefs Hin Hr.
  pose proof (wf_refs _ Hwf _ _ Hc) as Hal. unfold refsAligned in Hal. rewrite Hrefs in Hal.
  destruct (indexOfFrom_elem r refs 0 Hin) as (i & Hi & Hl).
  destruct (Forall2_lookup_l _ _ _ _ _ Hal Hl) as (v & Hv & vr' & Hr' & Hlv).
  rewrite Hr in Hr'. injection Hr' as <-. subst v.
  destruct (wf_parent _ Hwf _ _ _ Hc (list_elem_of_lookup_2 _ _ _ Hv)) as (lv & Hlv & Hp).
  exists i, lv. split; [lia|]. split; [assumption|]. split; [assumption|].
  split; [assumption|]. exact (Forall2_length _ _ _ Hal).
Qed.

Lemma insert_run dev this r index idx w vr lv lct :
  wellFormed w ->
  viewRefs w !! r = Some vr ->
  _appRef vr = false ->
  lViews w !! _lView vr = Some lv ->
  destroyed lv = false ->
  lContainers w !! this = Some lct ->
  (viewAttachedToContainer lv = false \/
   exists prev lcp refs,
     lContainers w !! prev = Some lcp /\ VIEW_REFS lcp = Some refs /\ r ∈ refs) ->
  index = Some idx \/
    (index = None /\ idx = zlength (filter (fun x => x <> _lView vr) (views lct))) ->
  0 <= idx <= zlength (filter (fun x => x <> _lView vr) (views lct)) ->
  exists w1 lc1 lv1 pre,
    insert dev this r index w = Ok (r, inserted this r (_lView vr) idx lc1 lv1 vr w1)
    /\ mutations w1 = mutations w ++ pre
    /\ ((viewAttachedToContainer lv = false /\ pre = []) \/
        (exists prev i, PARENT lv = ParentLContainer prev /\
           pre = [LogicalDetach prev (_lView vr) i; PhysicalDetach prev (_lView vr);
                  RefsRemove prev i]))
    /\ lContainers w1 !! this = Some lc1
    /\ views lc1 = filter (fun x => x <> _lView vr) (views lct)
    /\ parentRNode lc1 = parentRNode lct
    /\ NoDup (views lc1)
    /\ (parentRNode lc1 = true -> rendered lc1 = views lc1)
    /\ (forall c lc, c <> this -> lContainers w1 !! c = Some lc -> _lView vr ∉ views lc).
Proof.
  intros Hwf Hr Happ Hv Hd Hct Hatt Hidx Hi.
  set (v := _lView vr) in *.
  rewrite insert_unfold.
  rewrite (bind_Ok _ _ _ _ _ (getViewRef_Ok _ _ _ Hr)).
  rewrite (bind_Ok _ _ _ _ _ (getLView_Ok _ _ _ Hv)).
  rewrite Hd, andb_false_r.
  destruct Hatt as [Hun|(prev & lcp & refs & Hcp & Hrefs & Hin)].
  - (* the view is in no container *)
    rewrite Hun. unfold ret at 1. cbn [bind].
    assert (Hnotin : forall c lc, lContainers w !! c = Some lc -> v ∉ views lc).
    { intros c lc Hc Hvin.
      destruct (wf_parent _ Hwf _ _ _ Hc Hvin) as (lv' & Hlv' & Hp).
      rewrite Hv in Hlv'. injection Hlv' as <-.
      unfold viewAttachedToContainer in Hun. rewrite Hp in Hun. discriminate. }
    assert (Hf : filter (fun x => x <> v) (views lct) = views lct)
      by (apply filter_ne_notin, (Hnotin _ _ Hct)).
    rewrite Hf in Hidx, Hi.
    exists w, lct, lv, []. rewrite app_nil_r.
    split; [apply insertTail_Ok; try assumption;
            [apply (wf_nodup _ Hwf _ _ Hct)|apply (wf_dom _ Hwf _ _ Hct)]|].
    split; [reflexivity|]. split; [left; split; reflexivity|].
    split; [assumption|]. split; [symmetry; assumption|]. split; [reflexivity|].
    split; [apply (wf_nodup _ Hwf _ _ Hct)|]. split; [apply (wf_dom _ Hwf _ _ Hct)|].
    intros c lc _ Hc. apply (Hnotin _ _ Hc).
  - (* the view is in the container [prev] *)
    destruct (aligned_ref_view _ _ _ _ _ _ Hwf Hcp Hrefs Hin Hr)
      as (i & lv' & Hix & Hvi & Hlv' & Hp & Hlen).
    fold v in Hvi, Hlv'. rewrite Hv in Hlv'. injection Hlv' as <-.
    assert (Hatt : viewAttachedToContainer lv = true)
      by (unfold viewAttachedToContainer; rewrite Hp; reflexivity).
    rewrite Hatt.
    assert (Hz : zlookup (views lcp) (Z.of_nat i) = Some v).
    { unfold zlookup. destruct (Z.ltb_spec (Z.of_nat i) 0); [lia|].
      rewrite Nat2Z.id. exact Hvi. }
    pose proof (detach_Ok dev _ _ _ _ _ _ _ Hcp Hz Hv Hrefs Hlen) as Hdet.
    assert (Hpre : (let! prevIdx := indexOf this r in
                    if negb (prevIdx =? -1) then
                      let! _ := detach dev this (Some prevIdx) in ret tt
                    else
                      match PARENT lv with
                      | ParentLContainer prevLContainer =>
                          let! i := indexOf prevLContainer r in
                          let! _ := detach dev prevLContainer (Some i) in ret tt
                      | _ => ret tt
                      end) w
                   = Ok (tt, detached prev (Z.of_nat i) v lcp lv refs w)).
    { rewrite (bind_Ok _ _ _ _ _ (indexOf_Ok _ _ r _ Hct)).
      destruct (decide (this = prev)) as [->|Hne].
      - rewrite Hcp in Hct. injection Hct as <-. rewrite Hrefs, Hix.
        destruct (Z.eqb_spec (Z.of_nat i) (-1)); [lia|]. cbn [negb].
        rewrite (bind_Ok _ _ _ _ _ Hdet). reflexivity.
      - assert (Hno : match VIEW_REFS lct with
                      | Some arr => indexOfFrom r arr 0
                      | None => -1
                      end = -1).
        { destruct (VIEW_REFS lct) as [refsT|] eqn:HrT; [|reflexivity].
          destruct (decide (r ∈ refsT)) as [HinT|HinT]; [|apply indexOfFrom_notin, HinT].
          destruct (aligned_ref_view _ _ _ _ _ _ Hwf Hct HrT HinT Hr)
            as (j & lv'' & _ & _ & Hlv'' & Hp'' & _).
          fold v in Hlv''. rewrite Hv in Hlv''. injection Hlv'' as <-.
          rewrite Hp in Hp''. injection Hp'' as ->. contradiction. }
        rewrite Hno. change (negb (-1 =? -1)) with false. cbv iota. rewrite Hp.
        rewrite (bind_Ok _ _ _ _ _ (indexOf_Ok _ _ r _ Hcp)). rewrite Hrefs, Hix.
        rewrite (bind_Ok _ _ _ _ _ Hdet). reflexivity. }
    rewrite (bind_Ok _ _ _ _ _ Hpre).
    set (w1 := detached prev (Z.of_nat i) v lcp lv refs w).
    set (lcp' := {| views := delete (Z.to_nat (Z.of_nat i)) (views lcp);
                    VIEW_REFS := Some (delete (Z.to_nat (Z.of_nat i)) refs);
                    parentRNode := parentRNode lcp;
                    rendered := filter (fun x => x <> v) (rendered lcp) |}).
    assert (Hcp1 : lContainers w1 !! prev = Some lcp') by apply lookup_insert_eq.
    assert (Hv1 : lViews w1 !! v = Some {| PARENT := NoParent; attached := false;
                                           destroyed := destroyed lv |})
      by apply lookup_insert_eq.
    assert (Hr1 : viewRefs w1 !! r = Some vr).
    { unfold w1, detached. wsimpl. rewrite lookup_insert_ne; [exact Hr|].
      pose proof (wf_fresh _ Hwf _ _ Hr). lia. }
    assert (Hndp : NoDup (views lcp)) by apply (wf_nodup _ Hwf _ _ Hcp).
    assert (Hdel : filter (fun x => x <> v) (views lcp) = delete i (views lcp))
      by (apply filter_ne_NoDup; assumption).
    assert (Hother : forall c lc, c <> prev -> lContainers w !! c = Some lc -> v ∉ views lc).
    { intros c lc Hne Hc Hvin.
      destruct (wf_parent _ Hwf _ _ _ Hc Hvin) as (lv' & Hlv' & Hp').
      rewrite Hv in Hlv'. injection Hlv' as <-. rewrite Hp in Hp'. injection Hp' as ->.
      contradiction. }
    assert (Hsync' : parentRNode lcp' = true -> rendered lcp' = views lcp').
    { unfold lcp'. wsimpl. intros Hpn. rewrite (wf_dom _ Hwf _ _ Hcp Hpn), Nat2Z.id.
      exact Hdel. }
    destruct (decide (this = prev)) as [->|Hne].
    + rewrite Hcp in Hct. injection Hct as <-.
      assert (Hviews : views lcp' = filter (fun x => x <> v) (views lcp))
        by (unfold lcp'; wsimpl; rewrite Nat2Z.id; symmetry; exact Hdel).
      exists w1, lcp', {| PARENT := NoParent; attached := false; destroyed := destroyed lv |},
        [LogicalDetach prev v (Z.of_nat i); PhysicalDetach prev v; RefsRemove prev (Z.of_nat i)].
      split.
      { apply insertTail_Ok; try assumption.
        - rewrite Hviews. exact Hidx.
        - rewrite Hviews. exact Hi.
        - rewrite Hviews, Hdel. apply NoDup_delete, Hndp. }
      split; [reflexivity|]. split; [right; exists prev, (Z.of_nat i); split; [assumption|reflexivity]|].
      split; [assumption|]. split; [assumption|]. split; [reflexivity|].
      split; [rewrite Hviews, Hdel; apply NoDup_delete, Hndp|]. split; [assumption|].
      intros c lc Hc Hl. unfold w1, detached in Hl. cbn [lContainers] in Hl.
      rewrite lookup_insert_ne in Hl by congruence. apply (Hother _ _ Hc Hl).
    + assert (Hct1 : lContainers w1 !! this = Some lct).
      { unfold w1, detached. wsimpl. rewrite lookup_insert_ne by congruence. exact Hct. }
      assert (Hf : filter (fun x => x <> v) (views lct) = views lct)
        by (apply filter_ne_notin, (Hother _ _ Hne Hct)).
      rewrite Hf in Hidx, Hi.
      exists w1, lct, {| PARENT := NoParent; attached := false; destroyed := destroyed lv |},
        [LogicalDetach prev v (Z.of_nat i); PhysicalDetach prev v; RefsRemove prev (Z.of_nat i)].
      split.
      { apply insertTail_Ok; try assumption.
        - apply (wf_nodup _ Hwf _ _ Hct).
        - apply (wf_dom _ Hwf _ _ Hct). }
      split; [reflexivity|]. split; [right; exists prev, (Z.of_nat i); split; [assumption|reflexivity]|].
      split; [assumption|]. split; [symmetry; assumption|]. split; [reflexivity|].
      split; [apply (wf_nodup _ Hwf _ _ Hct)|]. split; [apply (wf_dom _ Hwf _ _ Hct)|].
      intros c lc Hc Hl. destruct (decide (c = prev)) as [->|Hcp'].
      * rewrite Hcp1 in Hl. injection Hl as <-. unfold lcp'. wsimpl. rewrite Nat2Z.id.
        apply NoDup_delete_notin; assumption.
      * unfold w1, detached in Hl. cbn [lContainers] in Hl.
        rewrite lookup_insert_ne in Hl by congruence. apply (Hother _ _ Hcp' Hl).
Qed.

(** C2. [insert] of a reference that a container [prev] holds (this
    container or another one) first detaches the view from [prev] and then
    attaches it at the target position: the call returns, the detachment
    from [prev] is recorded before the insertion, and afterwards the view is
    in the list of the target container and of no other, once. *)
Theorem insert_detaches_from_previous_container
    dev this r index idx w vr prev lcp refs lct :
  wellFormed w ->
  viewRefs w !! r = Some vr ->
  _appRef vr = false ->
  (forall lv, lViews w !! _lView vr = Some lv -> destroyed lv = false) ->
  lContainers w !! prev = Some lcp ->
  VIEW_REFS lcp = Some refs ->
  r ∈ refs ->
  lContainers w !! this = Some lct ->
  index = Some idx \/
    (index = None /\ idx = zlength (filter (fun x => x <> _lView vr) (views lct))) ->
  0 <= idx <= zlength (filter (fun x => x <> _lView vr) (views lct)) ->
  exists w' i rest lc',
    insert dev this r index w = Ok (r, w')
    /\ mutations w' = mutations w ++
         LogicalDetach prev (_lView vr) i :: PhysicalDetach prev (_lView vr) ::
         RefsRemove prev i :: LogicalInsert this (_lView vr) idx :: rest
    /\ (forall c, memberOf w' (_lView vr) c <-> c = this)
    /\ lContainers w' !! this = Some lc'
    /\ NoDup (views lc')
    /\ views lc' !! Z.to_nat idx = Some (_lView vr).
Proof.
  intros Hwf Hr Happ Hd Hcp Hrefs Hin Hct Hidx Hi.
  destruct (aligned_ref_view _ _ _ _ _ _ Hwf Hcp Hrefs Hin Hr)
    as (i0 & lv & _ & _ & Hv & Hp & _).
  destruct (insert_run dev this r index idx w vr lv lct Hwf Hr Happ Hv (Hd _ Hv) Hct
              (or_intror (ex_intro _ prev (ex_intro _ lcp (ex_intro _ refs
                 (conj Hcp (conj Hrefs Hin)))))) Hidx Hi)
    as (w1 & lc1 & lv1 & pre & Hrun & Hmut & Hpre & Hc1 & Hviews & _ & Hnd & _ & Hother).
  destruct Hpre as [[Hun _]|(prev' & i & Hp' & ->)].
  { unfold viewAttachedToContainer in Hun. rewrite Hp in Hun. discriminate. }
  rewrite Hp in Hp'. injection Hp' as <-.
  assert (Hnotin : _lView vr ∉ views lc1)
    by (rewrite Hviews; apply notin_filter_ne).
  eexists _, i, _, _. split; [exact Hrun|].
  unfold inserted. wsimpl. rewrite Hmut, <- app_assoc. cbn [app].
  split; [reflexivity|]. split.
  { intros c. unfold memberOf. wsimpl. split.
    - intros (lc & Hl & Hvin). destruct (decide (c = this)) as [->|Hne]; [reflexivity|].
      rewrite lookup_insert_ne in Hl by congruence.
      exfalso. exact (Hother _ _ Hne Hl Hvin).
    - intros ->. eexists. split; [apply lookup_insert_eq|]. wsimpl.
      apply elem_of_insertAt. left. reflexivity. }
  split; [apply lookup_insert_eq|]. wsimpl.
  split; [apply NoDup_insertAt; assumption|].
  unfold insertAt. rewrite Hviews in *.
  rewrite lookup_app_r by (rewrite length_take; unfold zlength in Hi; lia).
  rewrite length_take.
  replace (Z.to_nat idx - _)%nat with 0%nat by (unfold zlength in Hi; lia).
  reflexivity.
Qed.

(** C4 as the code has it. Within one call of [insert] the logical list
    mutation ([insertView]) is made first, the physical DOM mutation
    ([addViewToContainer], when the anchor has a parent node) second and the
    splice of [VIEW_REFS] last, after the detachment of a view that was
    attached; on completion the view is at its position in the list and,
    where the DOM is touched, the DOM shows the views in the order of the
    list. *)
Theorem insert_logical_then_physical dev this r index idx w vr lv lct :
  wellFormed w ->
  viewRefs w !! r = Some vr ->
  _appRef vr = false ->
  lViews w !! _lView vr = Some lv ->
  destroyed lv = false ->
  lContainers w !! this = Some lct ->
  (viewAttachedToContainer lv = false \/
   exists prev lcp refs,
     lContainers w !! prev = Some lcp /\ VIEW_REFS lcp = Some refs /\ r ∈ refs) ->
  index = Some idx \/
    (index = None /\ idx = zlength (filter (fun x => x <> _lView vr) (views lct))) ->
  0 <= idx <= zlength (filter (fun x => x <> _lView vr) (views lct)) ->
  exists w' lc' pre before,
    insert dev this r index w = Ok (r, w')
    /\ mutations w' = mutations w ++ pre ++
         LogicalInsert this (_lView vr) idx ::
         (if parentRNode lct then [PhysicalInsert this (_lView vr) before] else []) ++
         [RefsInsert this r idx]
    /\ (pre = [] \/
        exists prev i, pre = [LogicalDetach prev (_lView vr) i;
                              PhysicalDetach prev (_lView vr); RefsRemove prev i])
    /\ lContainers w' !! this = Some lc'
    /\ views lc' !! Z.to_nat idx = Some (_lView vr)
    /\ (parentRNode lct = true -> rendered lc' = views lc').
Proof.
  intros Hwf Hr Happ Hv Hd Hct Hatt Hidx Hi.
  destruct (insert_run dev this r index idx w vr lv lct Hwf Hr Happ Hv Hd Hct Hatt Hidx Hi)
    as (w1 & lc1 & lv1 & pre & Hrun & Hmut & Hpre & Hc1 & Hviews & Hpar & Hnd & Hdom & _).
  eexists _, _, pre, _. split; [exact Hrun|].
  unfold inserted. wsimpl. rewrite Hmut, <- app_assoc, Hpar.
  split; [reflexivity|]. split.
  { destruct Hpre as [[_ ->]|(prev & i & _ & ->)]; [left; reflexivity|].
    right. exists prev, i. reflexivity. }
  split; [apply lookup_insert_eq|]. wsimpl. split.
  - unfold insertAt. rewrite Hviews in *.
    rewrite lookup_app_r by (rewrite length_take; unfold zlength in Hi; lia).
    rewrite length_take.
    replace (Z.to_nat idx - _)%nat with 0%nat by (unfold zlength in Hi; lia).
    reflexivity.
  - intros Hp. rewrite Hp. reflexivity.
Qed.

(** The operations hand their index to [_adjustIndex]: under [ngDevMode]
    [remove] and [detach] throw the assertion error for an index out of
    range, and so does [insert] of a view that is in no container. *)
Lemma remove_detach_dev_out_of_range hooks this i lc w :
  lContainers w !! this = Some lc ->
  i < 0 \/ zlength (views lc) <= i ->
  (exists msg, remove true hooks this (Some i) w = Throw (AssertionError msg))
  /\ (exists msg, detach true this (Some i) w = Throw (AssertionError msg)).
Proof.
  intros Hc Hi.
  destruct (_adjustIndex_dev_out_of_range this i (-1) lc w Hc) as [msg Hmsg]; [lia|].
  split; exists msg; unfold remove, detach; apply bind_Throw, Hmsg.
Qed.

Lemma insert_dev_out_of_range this r i vr lv lc w :
  viewRefs w !! r = Some vr ->
  lViews w !! _lView vr = Some lv ->
  destroyed lv = false ->
  viewAttachedToContainer lv = false ->
  lContainers w !! this = Some lc ->
  i < 0 \/ zlength (views lc) < i ->
  exists msg, insert true this r (Some i) w = Throw (AssertionError msg).
Proof.
  intros Hr Hv Hd Hun Hc Hi.
  destruct (_adjustIndex_dev_out_of_range this i 0 lc w Hc) as [msg Hmsg]; [lia|].
  exists msg. rewrite insert_unfold.
  rewrite (bind_Ok _ _ _ _ _ (getViewRef_Ok _ _ _ Hr)).
  rewrite (bind_Ok _ _ _ _ _ (getLView_Ok _ _ _ Hv)).
  rewrite Hd, Hun. cbn [andb]. unfold ret at 1. cbn [bind].
  unfold insertTail. apply bind_Throw, Hmsg.
Qed.

End ViewContainerFacts.

Lemma wellFormed_world0 : ViewContainer.wellFormed ViewContainerExample.world0.
Proof.
  split.
  - intros c lc v Hc Hv. unfold ViewContainerExample.world0 in *. cbn in Hc.
    apply lookup_insert_Some in Hc as [[<- <-]|[_ Hc]].
    + cbn in Hv. apply elem_of_cons in Hv as [->|Hv]; [eexists; split; reflexivity|].
      apply elem_of_cons in Hv as [->|Hv]; [eexists; split; reflexivity|].
      apply elem_of_nil in Hv. contradiction.
    + apply lookup_singleton_Some in Hc as [<- <-].
      cbn in Hv. apply elem_of_cons in Hv as [->|Hv]; [eexists; split; reflexivity|].
      apply elem_of_nil in Hv. contradiction.
  - intros c lc Hc. unfold ViewContainerExample.world0 in *. cbn in Hc.
    apply lookup_insert_Some in Hc as [[<- <-]|[_ Hc]].
    + cbn. apply (bool_decide_unpack _). vm_compute. reflexivity.
    + apply lookup_singleton_Some in Hc as [<- <-].
      cbn. apply (bool_decide_unpack _). vm_compute. reflexivity.
  - intros c lc Hc. unfold ViewContainerExample.world0 in *. cbn in Hc.
    apply lookup_insert_Some in Hc as [[<- <-]|[_ Hc]].
    + unfold ViewContainer.refsAligned. cbn.
      repeat (constructor; [eexists; split; reflexivity|]). constructor.
    + apply lookup_singleton_Some in Hc as [<- <-].
      unfold ViewContainer.refsAligned. cbn.
      repeat (constructor; [eexists; split; reflexivity|]). constructor.
  - intros c lc Hc _. unfold ViewContainerExample.world0 in *. cbn in Hc.
    apply lookup_insert_Some in Hc as [[<- <-]|[_ Hc]]; [reflexivity|].
    apply lookup_singleton_Some in Hc as [<- <-]. reflexivity.
  - intros r vr Hr. unfold ViewContainerExample.world0 in *. cbn in *.
    repeat (apply lookup_insert_Some in Hr as [[<- _]|[_ Hr]]; [lia|]).
    apply lookup_singleton_Some in Hr as [<- _]. lia.
Qed.

Lemma insert_detaches_from_previous_container_witness :
  exists w' i rest,
    ViewContainer.insert true 0 112 (Some 1) ViewContainerExample.world0 = Ok (112%nat, w')
    /\ ViewContainer.mutations w' =
         ViewContainer.LogicalDetach 1 12 i :: ViewContainer.PhysicalDetach 1 12 ::
         ViewContainer.RefsRemove 1 i :: ViewContainer.LogicalInsert 0 12 1 :: rest
    /\ (forall c, ViewContainer.memberOf w' 12 c <-> c = 0%nat).
Proof.
  destruct (insert_detaches_from_previous_container true 0%nat 112%nat (Some 1) 1
              ViewContainerExample.world0 (ViewContainerExample.refTo 12 true) 1%nat
              {| ViewContainer.views := [12]%nat;
                 ViewContainer.VIEW_REFS := Some [112]%nat;
                 ViewContainer.parentRNode := true;
                 ViewContainer.rendered := [12]%nat |}
              [112]%nat
              {| ViewContainer.views := [10; 11]%nat;
                 ViewContainer.VIEW_REFS := Some [110; 111]%nat;
                 ViewContainer.parentRNode := true;
                 ViewContainer.rendered := [10; 11]%nat |}
              wellFormed_world0 eq_refl eq_refl
              ltac:(intros lv H; vm_compute in H; injection H as <-; reflexivity)
              eq_refl eq_refl (list_elem_of_here 112%nat [])
              eq_refl (or_introl eq_refl)
              ltac:(vm_compute; split; discriminate))
    as (w' & i & rest & lc' & Hrun & Hmut & Hmem & _).
  exists w', i, rest. exact (conj Hrun (conj Hmut Hmem)).
Defined.

Lemma insert_logical_then_physical_witness :
  exists w' before,
    ViewContainer.insert true 0 113 None ViewContainerExample.world0 = Ok (113%nat, w')
    /\ ViewContainer.mutations w' =
         [ViewContainer.LogicalInsert 0 13 2; ViewContainer.PhysicalInsert 0 13 before;
          ViewContainer.RefsInsert 0 113 2].
Proof.
  destruct (insert_logical_then_physical true 0%nat 113%nat None 2
              ViewContainerExample.world0 (ViewContainerExample.refTo 13 false)
              ViewContainerExample.idle
              {| ViewContainer.views := [10; 11]%nat;
                 ViewContainer.VIEW_REFS := Some [110; 111]%nat;
                 ViewContainer.parentRNode := true;
                 ViewContainer.rendered := [10; 11]%nat |}
              wellFormed_world0 eq_refl eq_refl eq_refl eq_refl eq_refl
              (or_introl eq_refl) (or_intror (conj eq_refl eq_refl))
              ltac:(vm_compute; split; discriminate))
    as (w' & lc' & pre & before & Hrun & Hmut & Hpre & _).
  exists w', before. split; [exact Hrun|].
  destruct Hpre as [->|(prev & i & ->)].
  - exact Hmut.
  - exfalso.
    assert (Hm : ViewContainer.mutationsOf
                   (ViewContainer.insert true 0 113 None ViewContainerExample.world0)
                 = Some [ViewContainer.LogicalInsert 0 13 2;
                         ViewContainer.PhysicalInsert 0 13 None;
                         ViewContainer.RefsInsert 0 113 2])
      by (vm_compute; reflexivity).
    rewrite Hrun in Hm. cbn in Hm, Hmut. rewrite Hmut in Hm. discriminate Hm.
Defined.

(** C4 as stated fails: the insertion of view 13 at the end of container 0
    records the logical insertion before the physical one. *)
Lemma insert_physical_not_before_logical :
  exists ms,
    ViewContainer.mutationsOf
      (ViewContainer.insert true 0 113 None ViewContainerExample.world0) = Some ms
    /\ ms = [ViewContainer.LogicalInsert 0 13 2; ViewContainer.PhysicalInsert 0 13 None;
             ViewContainer.RefsInsert 0 113 2]
    /\ ~ ViewContainer.physicalBeforeLogical ms.
Proof.
  eexists. split; [vm_compute; reflexivity|]. split; [reflexivity|].
  intros H. specialize (H 1%nat 0%nat _ _ _ _ _ _ eq_refl eq_refl). lia.
Qed.

(** C9 as stated fails: without [ngDevMode] the index 7, out of range in a
    container of two views, raises nothing: [_adjustIndex] returns it, and
    [remove] returns without any change. *)
Lemma _adjustIndex_production_no_diagnostic :
  ViewContainer._adjustIndex false 0 (Some 7) 0 ViewContainerExample.world0
    = Ok (7, ViewContainerExample.world0)
  /\ ViewContainer.remove false ViewContainerExample.noHook 0 (Some 7)
       ViewContainerExample.world0
     = Ok (tt, ViewContainerExample.world0)
  /\ ViewContainer.length 0 ViewContainerExample.world0 = Ok (2, ViewContainerExample.world0).
Proof. split; [|split]; reflexivity. Qed.

Lemma remove_detaches_before_destroy_hooks_witness :
  exists w',
    ViewContainer.remove true ViewContainerExample.observingHook 0 (Some 0)
      ViewContainerExample.world0
    = ViewContainerExample.observingHook 10 w'
    /\ ViewContainer.length 0 w' = Ok (1, w')
    /\ ViewContainer.mutations w' =
         [ViewContainer.LogicalDetach 0 10 0; ViewContainer.PhysicalDetach 0 10;
          ViewContainer.RefsRemove 0 0; ViewContainer.DestroyHooks 10].
Proof.
  destruct (remove_detaches_before_destroy_hooks true ViewContainerExample.observingHook
              0%nat (Some 0) 0
              {| ViewContainer.views := [10; 11]%nat;
                 ViewContainer.VIEW_REFS := Some [110; 111]%nat;
                 ViewContainer.parentRNode := true;
                 ViewContainer.rendered := [10; 11]%nat |}
              10%nat (ViewContainerExample.inContainer 0) ViewContainerExample.world0
              eq_refl (or_introl eq_refl) eq_refl eq_refl eq_refl)
    as (w' & lc' & Hrun & _ & _ & Hlen & _ & _ & _ & _ & Hmut).
  exists w'. exact (conj Hrun (conj Hlen Hmut)).
Defined.

(** The hook of the example, called back while view 10 is removed from
    container 0, reads length 1 and does not find view 10 in the list. *)
Example remove_hook_observes_updated_container :
  match ViewContainer.remove true ViewContainerExample.observingHook 0 (Some 0)
          ViewContainerExample.world0 with
  | Ok (_, w') => last (ViewContainer.mutations w') = Some (ViewContainer.LogicalInsert 999 0 1)
  | Throw _ => False
  end.
Proof. vm_compute. reflexivity. Qed.

(** ** Constructor dependencies *)

Section DiFacts.
Import Di.







(** C6. A class that declares no constructor: with a base class
    [getConstructorDependencies] returns [null] (the dependencies are those
    of the base class), and it returns the empty list of dependencies only
    without a base class. *)
Theorem getConstructorDependencies_no_constructor clazz isCore :
  getConstructorParameters clazz = None ->
  (hasBaseClass clazz = true -> getConstructorDependencies clazz isCore = Ok None)
  /\ (hasBaseClass clazz = false ->
      getConstructorDependencies clazz isCore = Ok (Some (Deps [])))
  /\ (getConstructorDependencies clazz isCore = Ok (Some (Deps [])) ->
      hasBaseClass clazz = false).
Proof.
  intros Hno. unfold getConstructorDependencies. rewrite Hno.
  destruct (hasBaseClass clazz); repeat split; try reflexivity; discriminate.
Qed.


End DiFacts.

Lemma getConstructorDependencies_no_constructor_witness :
  Di.getConstructorDependencies DiExample.Derived false = Ok None
  /\ Di.getConstructorDependencies DiExample.Plain false = Ok (Some (Di.Deps [])).
Proof.
  split.
  - exact (proj1 (getConstructorDependencies_no_constructor DiExample.Derived false eq_refl)
             eq_refl).
  - exact (proj1 (proj2 (getConstructorDependencies_no_constructor DiExample.Plain false
                           eq_refl)) eq_refl).
Defined.



(** ** Input and output mappings *)

Section SharedFacts.
Import Shared.

Lemma spread_lookup (fromMeta : gmap string string) (fromFields : gmap string MappingValue) k :
  spread fromMeta fromFields !! k =
    match fromFields !! k with
    | Some v => Some v
    | None => Name <$> fromMeta !! k
    end.
Proof.
  unfold spread. rewrite lookup_union, lookup_fmap.
  destruct (fromFields !! k), (fromMeta !! k); reflexivity.
Qed.

Lemma spread_dom (fromMeta : gmap string string) (fromFields : gmap string MappingValue) :
  dom (spread fromMeta fromFields) = dom fromMeta ∪ dom fromFields.
Proof. unfold spread. rewrite dom_union_L, dom_fmap_L. apply union_comm_L. Qed.

(** In the array of the decorator a later entry for a field replaces an
    earlier one. *)
Lemma parseInputOutputMappingArray_last values value :
  parseInputOutputMappingArray (values ++ [value]) !! fst (parseMappingEntry value)
  = Some (snd (parseMappingEntry value)).
Proof.
  unfold parseInputOutputMappingArray. rewrite foldl_app. cbn [foldl].
  apply lookup_insert_eq.
Qed.

End SharedFacts.

(** The entries of the array of the decorator: ["field"] and
    ["field: alias"]. *)
Example parseMappingEntry_forms :
  Shared.parseMappingEntry "foo" = ("foo", "foo")
  /\ Shared.parseMappingEntry "foo: bar" = ("foo", "bar")
  /\ Shared.parseMappingEntry " foo :bar:baz " = ("foo", "bar")
  /\ Shared.parseMappingEntry "foo:" = ("foo", "foo").
Proof. repeat split; vm_compute; reflexivity. Qed.

(** ** Remote scoping *)

Section NgModuleFacts.
Import NgModuleHandler.
Variable getRemoteScope : nat -> option RemoteScope.
Variable emit : Reference -> option Expression.

Lemma emitAll_Ok refs typeKind :
  (forall r, r ∈ refs -> is_Some (emit r)) ->
  exists expressions,
    emitAll emit refs typeKind = Ok expressions
    /\ Forall2 (fun r e => emit r = Some e) refs expressions.
Proof.
  induction refs as [|r rest IH]; intros Hall.
  - exists []. split; [reflexivity|constructor].
  - destruct (Hall r (list_elem_of_here _ _)) as [e He].
    destruct IH as (es & Hes & HF).
    { intros q Hq. apply Hall, list_elem_of_further, Hq. }
    exists (e :: es). cbn [emitAll]. unfold emitOrThrow. rewrite He. cbn [res_bind].
    rewrite Hes. split; [reflexivity|]. constructor; assumption.
Qed.

Lemma appendRemoteScopingStatements_Ok declarations protect : forall statements,
  emittable getRemoteScope emit declarations ->
  exists calls,
    appendRemoteScopingStatements getRemoteScope emit statements declarations protect
      = Ok (statements ++ calls)
    /\ forall decl remoteScope,
         decl ∈ declarations ->
         getRemoteScope (node decl) = Some remoteScope ->
         exists callStmt,
           remoteScopingStatement emit decl remoteScope protect = Ok callStmt
           /\ callStmt ∈ calls.
Proof.
  induction declarations as [|d rest IH]; intros statements Hem.
  - exists []. rewrite app_nil_r. split; [reflexivity|].
    intros decl rs Hin. apply elem_of_nil in Hin. contradiction.
  - assert (Hem' : emittable getRemoteScope emit rest).
    { intros decl rs Hin. apply Hem, list_elem_of_further, Hin. }
    cbn [appendRemoteScopingStatements].
    destruct (getRemoteScope (node d)) as [rs|] eqn:Hrs.
    + destruct (Hem d rs (list_elem_of_here _ _) Hrs) as (Hd & Hdirs & Hpipes).
      destruct (emitAll_Ok _ "directive" Hdirs) as (ds & Hds & _).
      destruct (emitAll_Ok _ "pipe" Hpipes) as (ps & Hps & _).
      destruct Hd as [de Hde].
      assert (Hcall : exists callStmt,
                 remoteScopingStatement emit d rs protect = Ok callStmt).
      { unfold remoteScopingStatement, emitOrThrow. rewrite Hds, Hps, Hde. cbn [res_bind].
        eexists. reflexivity. }
      destruct Hcall as [callStmt Hcall]. rewrite Hcall. cbn [res_bind].
      destruct (IH (statements ++ [callStmt]) Hem') as (calls & Hrun & Hcalls).
      exists (callStmt :: calls). rewrite Hrun, <- app_assoc. split; [reflexivity|].
      intros decl rs' Hin Hrs'. apply elem_of_cons in Hin as [->|Hin].
      * rewrite Hrs in Hrs'. injection Hrs' as <-. exists callStmt.
        split; [exact Hcall|apply list_elem_of_here].
      * destruct (Hcalls decl rs' Hin Hrs') as (c & Hc & Hcin).
        exists c. split; [exact Hc|apply list_elem_of_further, Hcin].
    + destruct (IH statements Hem') as (calls & Hrun & Hcalls).
      exists calls. split; [exact Hrun|].
      intros decl rs' Hin Hrs'. apply elem_of_cons in Hin as [->|Hin].
      * rewrite Hrs in Hrs'. discriminate.
      * apply (Hcalls decl rs' Hin Hrs').
Qed.

Lemma existsb_synthetic (refs : list Reference) :
  existsb isSyntheticReference refs = true <-> exists r, r ∈ refs /\ synthetic r = true.
Proof.
  rewrite existsb_exists. split; intros (r & Hin & Hs); exists r; split;
    try exact Hs; apply list_elem_of_In; exact Hin.
Qed.

(** C8. In full compilation, when the references of remote scoping can be
    emitted, the statements of the NgModule hold, for every declaration with
    a remote scope, a call of [setComponentScope] with the declaration, its
    directives and its pipes; the array of directives (of pipes) is given as
    a closure without parameters exactly when a declaration or an import of
    the module is a synthetic (forward) reference and the array is not
    empty, and as the array itself otherwise. *)
Theorem compileFull_remote_scoping declarationRefs importRefs modStatements classMetadata :
  emittable getRemoteScope emit declarationRefs ->
  exists statements,
    compileFull getRemoteScope emit
      (analyze declarationRefs importRefs modStatements classMetadata) = Ok statements
    /\ forall decl remoteScope,
         decl ∈ declarationRefs ->
         getRemoteScope (node decl) = Some remoteScope ->
         exists declExpr directiveExpr pipesExpr directives pipes,
           ExpressionStatement
             (InvokeFunctionExpr (ExternalExpr setComponentScope)
                [declExpr; directiveExpr; pipesExpr]) ∈ statements
           /\ emit decl = Some declExpr
           /\ Forall2 (fun r e => emit r = Some e) (NgModuleHandler.directives remoteScope)
                directives
           /\ Forall2 (fun r e => emit r = Some e) (NgModuleHandler.pipes remoteScope) pipes
           /\ arrayEntries directiveExpr = Some directives
           /\ arrayEntries pipesExpr = Some pipes
           /\ (isClosureOfArray directiveExpr = true <->
               (exists r, r ∈ declarationRefs ++ importRefs /\ synthetic r = true)
               /\ directives <> [])
           /\ (isClosureOfArray pipesExpr = true <->
               (exists r, r ∈ declarationRefs ++ importRefs /\ synthetic r = true)
               /\ pipes <> []).
Proof.
  intros Hem. unfold compileFull, analyze.
  cbn [NgModuleHandler.declarations NgModuleHandler.modStatements
       NgModuleHandler.classMetadata remoteScopesMayRequireCycleProtection].
  set (protect := existsb isSyntheticReference declarationRefs
                  || existsb isSyntheticReference importRefs).
  assert (Hprotect : protect = true <->
            exists r, r ∈ declarationRefs ++ importRefs /\ synthetic r = true).
  { unfold protect. rewrite orb_true_iff, !existsb_synthetic. split.
    - intros [(r & Hin & Hs)|(r & Hin & Hs)]; exists r; split; try exact Hs;
        apply elem_of_app; [left|right]; exact Hin.
    - intros (r & Hin & Hs). apply elem_of_app in Hin as [Hin|Hin]; [left|right];
        exists r; split; assumption. }
  destruct (appendRemoteScopingStatements_Ok declarationRefs protect
              (insertMetadataStatement modStatements classMetadata) Hem)
    as (calls & Hrun & Hcalls).
  eexists. split; [exact Hrun|].
  intros decl rs Hin Hrs.
  destruct (Hcalls decl rs Hin Hrs) as (callStmt & Hcall & Hcin).
  destruct (Hem decl rs Hin Hrs) as ([de Hde] & Hdirs & Hpipes).
  destruct (emitAll_Ok _ "directive" Hdirs) as (ds & Hds & HFd).
  destruct (emitAll_Ok _ "pipe" Hpipes) as (ps & Hps & HFp).
  unfold remoteScopingStatement, emitOrThrow in Hcall.
  rewrite Hds, Hps, Hde in Hcall. cbn [res_bind] in Hcall. injection Hcall as <-.
  eexists de, _, _, ds, ps.
  split; [apply elem_of_app; right; exact Hcin|].
  split; [exact Hde|]. split; [exact HFd|]. split; [exact HFp|].
  assert (Hshape : forall entries : list Expression,
            let e := if protect && (0 <? length entries)%nat
                     then FunctionExpr [] [ReturnStatement (LiteralArrayExpr entries)]
                     else LiteralArrayExpr entries in
            arrayEntries e = Some entries
            /\ (isClosureOfArray e = true <->
                (exists r, r ∈ declarationRefs ++ importRefs /\ synthetic r = true)
                /\ entries <> [])).
  { intros entries. cbn zeta. rewrite <- Hprotect.
    destruct protect; cbn [andb].
    - destruct entries as [|x xs]; cbn.
      + split; [reflexivity|]. split; [discriminate|]. intros [_ Hne]. congruence.
      + split; [reflexivity|]. split; [|reflexivity]. intros _. split; [reflexivity|discriminate].
    - cbn. split; [reflexivity|]. split; [discriminate|]. intros [Hf _]. discriminate Hf. }
  destruct (Hshape ds) as [Hd1 Hd2]. destruct (Hshape ps) as [Hp1 Hp2].
  split; [exact Hd1|]. split; [exact Hp1|]. split; [exact Hd2|exact Hp2].
Qed.

End NgModuleFacts.

Lemma compileFull_remote_scoping_witness :
  exists statements,
    NgModuleHandler.compileFull NgModuleExample.getRemoteScope NgModuleExample.emit
      (NgModuleHandler.analyze [NgModuleExample.cmp1; NgModuleExample.cmp2]
         [NgModuleExample.mod3] [] None) = Ok statements
    /\ exists declExpr directiveExpr pipesExpr,
         NgModuleHandler.ExpressionStatement
           (NgModuleHandler.InvokeFunctionExpr
              (NgModuleHandler.ExternalExpr NgModuleHandler.setComponentScope)
              [declExpr; directiveExpr; pipesExpr]) ∈ statements
         /\ NgModuleHandler.isClosureOfArray directiveExpr = true
         /\ NgModuleHandler.isClosureOfArray pipesExpr = false.
Proof.
  destruct (compileFull_remote_scoping NgModuleExample.getRemoteScope NgModuleExample.emit
              [NgModuleExample.cmp1; NgModuleExample.cmp2] [NgModuleExample.mod3] [] None)
    as (statements & Hrun & Hcalls).
  - intros decl rs _ _. split; [eexists; reflexivity|].
    split; intros r _; eexists; reflexivity.
  - exists statements. split; [exact Hrun|].
    destruct (Hcalls NgModuleExample.cmp1
                {| NgModuleHandler.directives := [NgModuleExample.cmp2];
                   NgModuleHandler.pipes := [] |}
                (list_elem_of_here _ _) eq_refl)
      as (de & dx & px & ds & ps & Hin & _ & HFd & HFp & _ & _ & Hd & Hp).
    exists de, dx, px. split; [exact Hin|]. split.
    + apply Hd. split.
      * exists NgModuleExample.mod3. split; [|reflexivity].
        apply list_elem_of_further, list_elem_of_further, list_elem_of_here.
      * intros ->. inversion HFd.
    + destruct (NgModuleHandler.isClosureOfArray px) eqn:E; [|reflexivity].
      destruct (proj1 Hp eq_refl) as [_ Hne]. inversion HFp. subst. contradiction.
Defined.

(** The statement of the example: the directives are behind a closure, the
    empty array of pipes is not. *)
Example compileFull_example :
  NgModuleHandler.compileFull NgModuleExample.getRemoteScope NgModuleExample.emit
    (NgModuleHandler.analyze [NgModuleExample.cmp1; NgModuleExample.cmp2]
       [NgModuleExample.mod3] [] None)
  = Ok [NgModuleHandler.ExpressionStatement
          (NgModuleHandler.InvokeFunctionExpr
             (NgModuleHandler.ExternalExpr NgModuleHandler.setComponentScope)
             [NgModuleHandler.WrappedNodeExpr 1;
              NgModuleHandler.FunctionExpr []
                [NgModuleHandler.ReturnStatement
                   (NgModuleHandler.LiteralArrayExpr [NgModuleHandler.WrappedNodeExpr 2])];
              NgModuleHandler.LiteralArrayExpr []])].
Proof. reflexivity. Qed.

(** ** Multi providers of a node *)

Section DiSetupFacts.
Import DiSetup.

Variable shift : Z.
Hypothesis shift_pos : 0 < shift.

(** The layout of [providerIndexes]: the mask covers the bits below
    [shift], and one view provider counts for [2 ^ shift]. *)
Let mask : Z := Z.ones shift.
Let shifter : Z := 2 ^ shift.

Lemma zlookup_app_at {A} (l r : list A) (i : nat) :
  DiSetup.zlookup (l ++ r) (Z.of_nat (length l) + Z.of_nat i) = r !! i.
Proof.
  unfold DiSetup.zlookup.
  destruct (Z.ltb_spec (Z.of_nat (length l) + Z.of_nat i) 0); [lia|].
  replace (Z.to_nat (Z.of_nat (length l) + Z.of_nat i)) with (length l + i)%nat by lia.
  rewrite lookup_app_r by lia. f_equal. lia.
Qed.

Lemma start_unpack (start : Z) (count : Z) :
  0 <= start < 2 ^ shift -> 0 <= count ->
  Z.land (start + count * shifter) mask = start
  /\ Z.shiftr (start + count * shifter) shift = count.
Proof.
  intros Hs Hc. unfold mask, shifter. split.
  - rewrite Z.land_ones by lia. rewrite Z.mod_add by lia. apply Z.mod_small. lia.
  - rewrite Z.shiftr_div_pow2 by lia. rewrite Z.div_add by lia.
    rewrite Z.div_small by lia. lia.
Qed.

Lemma indexOf_empty_range item arr b : indexOf item arr b b = -1.
Proof. unfold indexOf. rewrite Z.sub_diag. reflexivity. Qed.

Lemma indexOf_first item (l r : list (option nat)) (steps : Z) :
  0 < steps ->
  indexOf item (l ++ Some item :: r) (Z.of_nat (length l)) (Z.of_nat (length l) + steps)
  = Z.of_nat (length l).
Proof.
  intros Hs. unfold indexOf.
  destruct (Z.to_nat (Z.of_nat (length l) + steps - Z.of_nat (length l))) as [|k] eqn:E; [lia|].
  cbn [indexOfLoop].
  pose proof (zlookup_app_at l (Some item :: r) 0) as Hz. rewrite Z.add_0_r in Hz.
  rewrite Hz. cbn.
  destruct (decide (Some (Some item) = Some (Some item))); [reflexivity|congruence].
Qed.

Lemma updateFactoryAt_at f st (h : list NodeInjectorFactory) F F' rest
    (bp : list (option nat)) bprest :
  heap st = h ++ F :: rest ->
  lInjectablesBlueprint st = bp ++ Some (length h) :: bprest ->
  f F = Ok F' ->
  updateFactoryAt (Z.of_nat (length bp)) f st = Ok (setHeap (h ++ F' :: rest) st).
Proof.
  intros Hh Hbp HF. unfold updateFactoryAt. rewrite Hbp.
  pose proof (zlookup_app_at bp (Some (length h) :: bprest) 0) as Hz.
  rewrite Z.add_0_r in Hz. rewrite Hz. cbn [lookup list_lookup].
  rewrite Hh, list_lookup_middle by reflexivity. rewrite HF. cbn [res_bind].
  rewrite insert_app_r_alt by lia. rewrite Nat.sub_diag. reflexivity.
Qed.

Lemma factoryExists_at st (bp : list (option nat)) a bprest :
  lInjectablesBlueprint st = bp ++ Some a :: bprest ->
  factoryExists (Z.of_nat (length bp)) st = true.
Proof.
  intros Hbp. unfold factoryExists. rewrite Hbp.
  pose proof (zlookup_app_at bp (Some a :: bprest) 0) as Hz.
  rewrite Z.add_0_r in Hz. rewrite Hz. cbn.
  destruct (Z.leb_spec 0 (Z.of_nat (length bp))); [reflexivity|lia].
Qed.

Lemma providersResolver_one_each st token fv fc :
  freshNode shift st ->
  let n := length (tInjectables st) in
  let a := length (heap st) in
  providersResolver mask shift shifter true
    [ObjectProvider token true fc] [ObjectProvider token true fv] st
  = Ok {| heap := heap st ++ [viewMultiFactory fv (Z.of_nat n) (S a);
                              componentMultiFactory fc (Z.of_nat n + 1)];
          tInjectables := tInjectables st ++ [Some token; Some token];
          lInjectablesBlueprint := lInjectablesBlueprint st ++ [Some a; Some (S a)];
          lView := lView st ++ [Some a; Some (S a)];
          providerIndexes := Z.of_nat n + 1 * shifter;
          directiveStart := Z.of_nat n + 2;
          directiveEnd := directiveEnd st + 2;
          diPublic := diPublic st ++ [token; token] |}.
Proof.
  intros (Hb & Hl & Hp & Hd & Hlt) n a.
  unfold providersResolver. cbn [resolveProvider forEach providerToFactory].
  (* the view provider *)
  set (Fv := {| factory := multiViewProvidersFactoryResolver; canSeeViewProviders := true;
                multi := Some [fv]; index := Some (Z.of_nat n);
                componentProviders := Some (Int 0); providerFactory := None |}).
  set (st1 := {| heap := heap st ++ [Fv];
                 tInjectables := tInjectables st ++ [Some token];
                 lInjectablesBlueprint := lInjectablesBlueprint st ++ [Some a];
                 lView := lView st ++ [Some a];
                 providerIndexes := Z.of_nat n + 1 * shifter;
                 directiveStart := Z.of_nat n + 1;
                 directiveEnd := directiveEnd st + 1;
                 diPublic := diPublic st ++ [token] |}).
  assert (H1 : resolveSingleProvider mask shift shifter false token true fv true true st
               = Ok st1).
  { unfold resolveSingleProvider. cbn [orb negb andb].
    destruct (start_unpack (Z.of_nat n) 0) as [Hland Hshr]; [lia|lia|].
    rewrite Z.mul_0_l, Z.add_0_r in Hland, Hshr.
    rewrite Hp. fold n. rewrite Hland, Hshr, Z.add_0_r.
    rewrite !indexOf_empty_range. unfold factoryExists.
    change (0 <=? -1) with false. cbn [andb negb orb].
    unfold multiFactory, multiFactoryAdd. cbn [andb negb multi res_bind fst].
    unfold pushFactory, st1. rewrite Hb, Hp, Hd. fold n. fold a.
    do 2 f_equal. lia. }
  rewrite H1. cbn [res_bind]. clear H1.
  (* the provider of the component *)
  unfold resolveSingleProvider. cbn [orb negb andb].
  destruct (start_unpack (Z.of_nat n) 1) as [Hland Hshr]; [lia|lia|].
  cbn [providerIndexes directiveStart st1]. rewrite Hland, Hshr, indexOf_empty_range.
  assert (Hidx : indexOf token (tInjectables st1) (Z.of_nat n) (Z.of_nat n + 1) = Z.of_nat n)
    by (apply (indexOf_first token (tInjectables st) []); lia).
  rewrite Hidx.
  assert (Hex : factoryExists (Z.of_nat n) st1 = true).
  { unfold n. rewrite <- Hb. apply (factoryExists_at st1 _ a []). reflexivity. }
  assert (Hno : factoryExists (-1) st1 = false) by reflexivity.
  rewrite Hex, Hno. cbn [negb].
  set (Fc := componentMultiFactory fc (Z.of_nat n + 1)).
  assert (HFc : multiFactory multiProvidersFactoryResolver
                  (Z.of_nat (length (lInjectablesBlueprint st1))) false true fc = Ok Fc).
  { unfold multiFactory, multiFactoryAdd, Fc, componentMultiFactory, st1.
    cbn [lInjectablesBlueprint andb negb incrementComponentProviders multi componentProviders
         res_bind fst factory canSeeViewProviders index providerFactory app length].
    rewrite length_app, Hb. cbn [length]. fold n.
    replace (Z.of_nat (n + 1)) with (Z.of_nat n + 1) by lia. reflexivity. }
  rewrite HFc. cbn [res_bind].
  assert (Hlink : updateFactoryAt (Z.of_nat n)
                    (fun viewFactory => Ok (setProviderFactory (length (heap st1)) viewFactory))
                    st1
                  = Ok (setHeap (heap st ++ [setProviderFactory (S a) Fv]) st1)).
  { unfold n. rewrite <- Hb.
    rewrite (updateFactoryAt_at _ st1 (heap st) Fv (setProviderFactory (S a) Fv) []
               (lInjectablesBlueprint st) []); [reflexivity|reflexivity|reflexivity|].
    cbn [heap st1]. rewrite length_app. cbn [length]. fold a.
    replace (a + 1)%nat with (S a) by lia. reflexivity. }
  rewrite Hlink. cbn [res_bind].
  set (st3 := pushFactory shifter token Fc false _).
  assert (Hcount : updateFactoryAt (Z.of_nat n)
                     (fun viewFactory => Ok (incrementComponentProviders viewFactory)) st3
                   = Ok (setHeap (heap st ++ [incrementComponentProviders
                                                (setProviderFactory (S a) Fv); Fc]) st3)).
  { unfold n. rewrite <- Hb.
    apply (updateFactoryAt_at _ st3 (heap st) (setProviderFactory (S a) Fv) _ [Fc]
             (lInjectablesBlueprint st)
             [Some (length (heap st ++ [setProviderFactory (S a) Fv]))]).
    - unfold st3, pushFactory, setHeap. cbn [heap]. rewrite <- app_assoc. reflexivity.
    - unfold st3, pushFactory, setHeap. cbn [lInjectablesBlueprint st1].
      rewrite <- app_assoc. reflexivity.
    - reflexivity. }
  rewrite Hcount. cbn [res_bind].
  unfold st3, pushFactory, setHeap, st1.
  cbn [heap tInjectables lInjectablesBlueprint lView providerIndexes directiveStart
       directiveEnd diPublic].
  rewrite <- !app_assoc, length_app. cbn [app length]. fold a.
  replace (a + 1)%nat with (S a) by lia.
  f_equal. f_equal; lia.
Qed.

Lemma getNodeInjectable_view fuel st slot a this factories pa pf i :
  DiSetup.zlookup (lView st) slot = Some (Some a) ->
  heap st !! a = Some this ->
  factory this = multiViewProvidersFactoryResolver ->
  multi this = Some factories ->
  providerFactory this = Some pa ->
  heap st !! pa = Some pf ->
  index pf = Some i ->
  getNodeInjectable (S fuel) st slot =
    match getNodeInjectable fuel st i with
    | Some (ArrayOf multiProviders) =>
        Some (ArrayOf (concatMultiProviders (componentProviders pf) factories multiProviders))
    | _ => None
    end.
Proof.
  intros Hs Ha Hf Hm Hp Hpa Hi. cbn [getNodeInjectable].
  rewrite Hs, Ha, Hf, Hm, Hp, Hpa, Hi. reflexivity.
Qed.

(** C1 as the code has it. With one view provider and one provider of the
    component for the same multi token, on a node without other providers: a
    lookup from within the view of the component finds the factory of the
    view providers, which gives the value of the provider of the component
    first and the value of the view provider second; a lookup from outside
    the view finds the factory of the providers, which gives the value of
    the provider of the component alone. *)
Theorem multi_view_providers_after_component_providers st token fv fc (fuel : nat) :
  freshNode shift st ->
  (2 <= fuel)%nat ->
  exists st',
    providersResolver mask shift shifter true
      [ObjectProvider token true fc] [ObjectProvider token true fv] st = Ok st'
    /\ lookupToken mask shift fuel st' token true = Some (ArrayOf [fc tt; fv tt])
    /\ lookupToken mask shift fuel st' token false = Some (ArrayOf [fc tt]).
Proof.
  intros Hfresh Hfuel.
  pose proof (providersResolver_one_each st token fv fc Hfresh) as Hrun.
  cbv zeta in Hrun. eexists. split; [exact Hrun|].
  match type of Hrun with _ = Ok ?s => set (st' := s); assert (Hres : st' = s) by reflexivity end.
  clearbody st'. clear Hrun.
  destruct Hfresh as (Hb & Hl & Hp & Hd & Hlt).
  set (n := length (tInjectables st)) in *. set (a := length (heap st)) in *.
  destruct (start_unpack (Z.of_nat n) 1) as [Hland Hshr]; [lia|lia|].
  destruct fuel as [|[|fuel]]; [lia|lia|].
  assert (Hslot0 : DiSetup.zlookup (lView st') (Z.of_nat n) = Some (Some a)).
  { rewrite Hres. cbn [lView].
    replace (Z.of_nat n) with (Z.of_nat (length (lView st)) + Z.of_nat 0) by lia.
    apply (zlookup_app_at (lView st) [Some a; Some (S a)] 0). }
  assert (Hslot1 : DiSetup.zlookup (lView st') (Z.of_nat n + 1) = Some (Some (S a))).
  { rewrite Hres. cbn [lView].
    replace (Z.of_nat n + 1) with (Z.of_nat (length (lView st)) + Z.of_nat 1) by lia.
    apply (zlookup_app_at (lView st) [Some a; Some (S a)] 1). }
  assert (Hobj0 : heap st' !! a = Some (viewMultiFactory fv (Z.of_nat n) (S a))).
  { rewrite Hres. cbn [heap]. unfold a.
    rewrite lookup_app_r by lia. rewrite Nat.sub_diag. reflexivity. }
  assert (Hobj1 : heap st' !! S a = Some (componentMultiFactory fc (Z.of_nat n + 1))).
  { rewrite Hres. cbn [heap]. unfold a.
    rewrite lookup_app_r by lia.
    replace (S (length (heap st)) - length (heap st))%nat with 1%nat by lia. reflexivity. }
  assert (Hprov : forall k, getNodeInjectable (S k) st' (Z.of_nat n + 1)
                            = Some (ArrayOf [fc tt])).
  { intros k. cbn [getNodeInjectable]. rewrite Hslot1, Hobj1. reflexivity. }
  split.
  - unfold lookupToken, locateDirectiveOrProvider.
    assert (Hi : indexOf token (tInjectables st') (Z.of_nat n) (directiveStart st')
                 = Z.of_nat n).
    { rewrite Hres. cbn [tInjectables directiveStart].
      apply (indexOf_first token (tInjectables st) [Some token]). lia. }
    replace (providerIndexes st') with (Z.of_nat n + 1 * shifter)
      by (rewrite Hres; reflexivity).
    rewrite Hland, Hi.
    destruct (Z.eqb_spec (Z.of_nat n) (-1)); [lia|].
    rewrite (getNodeInjectable_view _ _ _ _ _ [fv] _ _ (Z.of_nat n + 1)
               Hslot0 Hobj0 eq_refl eq_refl eq_refl Hobj1 eq_refl).
    rewrite Hprov. reflexivity.
  - unfold lookupToken, locateDirectiveOrProvider.
    assert (Hi : indexOf token (tInjectables st') (Z.of_nat n + 1) (directiveStart st')
                 = Z.of_nat n + 1).
    { rewrite Hres. cbn [tInjectables directiveStart].
      pose proof (indexOf_first token (tInjectables st ++ [Some token]) [] 1) as H.
      rewrite length_app in H. cbn [length] in H. fold n in H.
      rewrite <- app_assoc in H. cbn [app] in H.
      replace (Z.of_nat (n + 1)) with (Z.of_nat n + 1) in H by lia.
      replace (Z.of_nat n + 2) with (Z.of_nat n + 1 + 1) by lia.
      apply H. lia. }
    replace (providerIndexes st') with (Z.of_nat n + 1 * shifter)
      by (rewrite Hres; reflexivity).
    rewrite Hland, Hshr, Hi.
    destruct (Z.eqb_spec (Z.of_nat n + 1) (-1)); [lia|].
    apply Hprov.
Qed.

End DiSetupFacts.

Lemma multi_view_providers_after_component_providers_witness :
  exists st',
    DiSetupExample.resolved = Ok st'
    /\ DiSetup.lookupToken DiSetupExample.ProvidersStartIndexMask
         DiSetupExample.CptViewProvidersCountShift 2 st' DiSetupExample.TOK true
       = Some (DiSetup.ArrayOf [DiSetupExample.X_component; DiSetupExample.X_view])
    /\ DiSetup.lookupToken DiSetupExample.ProvidersStartIndexMask
         DiSetupExample.CptViewProvidersCountShift 2 st' DiSetupExample.TOK false
       = Some (DiSetup.ArrayOf [DiSetupExample.X_component]).
Proof.
  apply (multi_view_providers_after_component_providers 20 ltac:(lia)
           DiSetupExample.view0 DiSetupExample.TOK
           (fun _ => DiSetupExample.X_view) (fun _ => DiSetupExample.X_component) 2).
  - unfold DiSetup.freshNode. repeat split; vm_compute; reflexivity.
  - lia.
Defined.

(** C1 as stated fails: from within the view the value of the provider of
    the component comes first, not the value of the view provider, and the
    factory of the providers does not give the value of the view provider at
    all. *)
Lemma multi_view_provider_not_first :
  exists st',
    DiSetupExample.resolved = Ok st'
    /\ DiSetup.lookupToken DiSetupExample.ProvidersStartIndexMask
         DiSetupExample.CptViewProvidersCountShift 2 st' DiSetupExample.TOK true
       = Some (DiSetup.ArrayOf [DiSetupExample.X_component; DiSetupExample.X_view])
    /\ DiSetup.lookupToken DiSetupExample.ProvidersStartIndexMask
         DiSetupExample.CptViewProvidersCountShift 2 st' DiSetupExample.TOK true
       <> Some (DiSetup.ArrayOf [DiSetupExample.X_view; DiSetupExample.X_component])
    /\ DiSetup.lookupToken DiSetupExample.ProvidersStartIndexMask
         DiSetupExample.CptViewProvidersCountShift 2 st' DiSetupExample.TOK false
       = Some (DiSetup.ArrayOf [DiSetupExample.X_component]).
Proof.
  eexists. split; [vm_compute; reflexivity|].
  split; [vm_compute; reflexivity|]. split; [vm_compute; discriminate|].
  vm_compute. reflexivity.
Qed.

(** ** The view container: invariant and round trips *)

Section ViewContainerInvariant.
Import ViewContainer.

Ltac wsimpl :=
  cbn [lContainers lViews viewRefs nextRef mutations fst snd views VIEW_REFS parentRNode
       rendered PARENT attached destroyed _lView _attachedToViewContainer _appRef].

Ltac munfold :=
  unfold bind, ret, throw, setLContainer, setLView, setViewRef, record, getLContainer,
    getLView, getViewRef, newViewRef;
  wsimpl.

(** The alignment of references and views is kept by a store of references
    in which every reference still stands for the same view. *)
Lemma aligned_mono (vrs vrs' : gmap nat ViewRef) (refs vs : list nat) :
  (forall r vr, vrs !! r = Some vr ->
     exists vr', vrs' !! r = Some vr' /\ _lView vr' = _lView vr) ->
  Forall2 (fun r v => exists vr, vrs !! r = Some vr /\ _lView vr = v) refs vs ->
  Forall2 (fun r v => exists vr, vrs' !! r = Some vr /\ _lView vr = v) refs vs.
Proof.
  intros H HF. eapply Forall2_impl; [exact HF|]. intros r v (vr & Hr & Hv).
  destruct (H r vr Hr) as (vr' & Hr' & Hv'). exists vr'. split; [assumption|congruence].
Qed.

Lemma refsAligned_mono w w' lc :
  (forall r vr, viewRefs w !! r = Some vr ->
     exists vr', viewRefs w' !! r = Some vr' /\ _lView vr' = _lView vr) ->
  refsAligned w lc -> refsAligned w' lc.
Proof.
  intros H. unfold refsAligned. destruct (VIEW_REFS lc); [|tauto].
  apply aligned_mono, H.
Qed.

Lemma elem_of_delete_inv (l : list nat) n x : x ∈ delete n l -> x ∈ l.
Proof. intros H. eapply elem_of_sublist; [exact H|apply sublist_delete]. Qed.

(** The references of a container, with [VIEW_REFS] read as
    [getOrCreateViewRefs] reads it, stand for its views. *)
Lemma aligned_default w c lc :
  wellFormed w -> lContainers w !! c = Some lc ->
  Forall2 (fun r v => exists vr, viewRefs w !! r = Some vr /\ _lView vr = v)
    (default [] (VIEW_REFS lc)) (views lc).
Proof.
  intros Hwf Hc. pose proof (wf_refs _ Hwf _ _ Hc) as Hal. unfold refsAligned in Hal.
  destruct (VIEW_REFS lc); cbn [default]; [exact Hal|]. rewrite Hal. constructor.
Qed.

(** A reference to a view that is in no container is held by no container. *)
Lemma unlisted_ref_notin w c lc r vr :
  wellFormed w -> lContainers w !! c = Some lc ->
  viewRefs w !! r = Some vr -> _lView vr ∉ views lc ->
  r ∉ default [] (VIEW_REFS lc).
Proof.
  intros Hwf Hc Hr Hv Hin.
  pose proof (aligned_default _ _ _ Hwf Hc) as Hal.
  apply list_elem_of_lookup in Hin as [i Hi].
  destruct (Forall2_lookup_l _ _ _ _ _ Hal Hi) as (v & Hvi & vr' & Hr' & Hlv).
  rewrite Hr in Hr'. injection Hr' as <-. subst v.
  apply Hv. eapply list_elem_of_lookup_2, Hvi.
Qed.

Lemma detached_wellFormed c i v lc lv refs w :
  wellFormed w ->
  lContainers w !! c = Some lc ->
  zlookup (views lc) i = Some v ->
  lViews w !! v = Some lv ->
  VIEW_REFS lc = Some refs ->
  wellFormed (detached c i v lc lv refs w).
Proof.
  intros Hwf Hc Hz Hv Hrefs.
  pose proof (zlookup_Some _ _ _ Hz) as [Hi Hl].
  pose proof (wf_nodup _ Hwf _ _ Hc) as Hnd.
  assert (Hpar : PARENT lv = ParentLContainer c).
  { destruct (wf_parent _ Hwf _ _ _ Hc (list_elem_of_lookup_2 _ _ _ Hl)) as (lv' & Hlv' & Hp).
    congruence. }
  assert (Hmono : forall r vr, viewRefs w !! r = Some vr ->
            exists vr', viewRefs (detached c i v lc lv refs w) !! r = Some vr'
                        /\ _lView vr' = _lView vr).
  { intros r vr Hr. exists vr. split; [|reflexivity]. unfold detached. wsimpl.
    rewrite lookup_insert_ne; [exact Hr|]. pose proof (wf_fresh _ Hwf _ _ Hr). lia. }
  split.
  - intros c' lc' x Hc' Hx. unfold detached in Hc' |- *. cbn [lContainers lViews] in Hc' |- *.
    destruct (decide (c' = c)) as [->|Hne].
    + rewrite lookup_insert_eq in Hc'. injection Hc' as <-. cbn [views] in Hx.
      assert (x <> v) by (intros ->; eapply NoDup_delete_notin; eassumption).
      rewrite lookup_insert_ne by congruence.
      apply (wf_parent _ Hwf _ _ _ Hc), (elem_of_delete_inv _ _ _ Hx).
    + rewrite lookup_insert_ne in Hc' by congruence.
      destruct (wf_parent _ Hwf _ _ _ Hc' Hx) as (lv' & Hlv' & Hp').
      assert (x <> v).
      { intros ->. rewrite Hv in Hlv'. injection Hlv' as <-. congruence. }
      rewrite lookup_insert_ne by congruence. eauto.
  - intros c' lc' Hc'. unfold detached in Hc'. cbn [lContainers] in Hc'.
    destruct (decide (c' = c)) as [->|Hne].
    + rewrite lookup_insert_eq in Hc'. injection Hc' as <-. cbn [views].
      apply NoDup_delete, Hnd.
    + rewrite lookup_insert_ne in Hc' by congruence. apply (wf_nodup _ Hwf _ _ Hc').
  - intros c' lc' Hc'. pose proof Hc' as Hc''. unfold detached in Hc'. cbn [lContainers] in Hc'.
    destruct (decide (c' = c)) as [->|Hne].
    + rewrite lookup_insert_eq in Hc'. injection Hc' as <-.
      unfold refsAligned. cbn [VIEW_REFS views].
      apply Forall2_delete. apply (aligned_mono (viewRefs w)); [exact Hmono|].
      pose proof (wf_refs _ Hwf _ _ Hc) as Hal. unfold refsAligned in Hal.
      rewrite Hrefs in Hal. exact Hal.
    + rewrite lookup_insert_ne in Hc' by congruence.
      apply (refsAligned_mono w); [exact Hmono|]. apply (wf_refs _ Hwf _ _ Hc').
  - intros c' lc' Hc'. unfold detached in Hc'. cbn [lContainers] in Hc'.
    destruct (decide (c' = c)) as [->|Hne].
    + rewrite lookup_insert_eq in Hc'. injection Hc' as <-. cbn [parentRNode rendered views].
      intros Hp. rewrite (wf_dom _ Hwf _ _ Hc Hp). apply filter_ne_NoDup; assumption.
    + rewrite lookup_insert_ne in Hc' by congruence. apply (wf_dom _ Hwf _ _ Hc').
  - intros r vr Hr. unfold detached in Hr |- *. cbn [viewRefs nextRef] in Hr |- *.
    apply lookup_insert_Some in Hr as [[<- _]|[_ Hr]]; [lia|].
    pose proof (wf_fresh _ Hwf _ _ Hr). lia.
Qed.

Lemma inserted_wellFormed this r v idx lc lv vr w :
  wellFormed w ->
  lContainers w !! this = Some lc ->
  viewRefs w !! r = Some vr ->
  _lView vr = v ->
  (forall c lc', lContainers w !! c = Some lc' -> v ∉ views lc') ->
  0 <= idx <= zlength (views lc) ->
  wellFormed (inserted this r v idx lc lv vr w).
Proof.
  intros Hwf Hc Hr Hrv Hnotin Hi.
  assert (Hmono : forall r' vr', viewRefs w !! r' = Some vr' ->
            exists vr'', viewRefs (inserted this r v idx lc lv vr w) !! r' = Some vr''
                         /\ _lView vr'' = _lView vr').
  { intros r' vr' Hr'. unfold inserted. wsimpl.
    destruct (decide (r' = r)) as [->|Hne].
    - rewrite lookup_insert_eq. eexists. split; [reflexivity|]. wsimpl. congruence.
    - rewrite lookup_insert_ne by congruence. eauto. }
  split.
  - intros c' lc' x Hc' Hx. unfold inserted in Hc' |- *. cbn [lContainers lViews] in Hc' |- *.
    destruct (decide (c' = this)) as [->|Hne].
    + rewrite lookup_insert_eq in Hc'. injection Hc' as <-. cbn [views] in Hx.
      apply elem_of_insertAt in Hx as [->|Hx].
      * rewrite lookup_insert_eq. eexists. split; reflexivity.
      * assert (x <> v) by (intros ->; exact (Hnotin _ _ Hc Hx)).
        rewrite lookup_insert_ne by congruence. apply (wf_parent _ Hwf _ _ _ Hc Hx).
    + rewrite lookup_insert_ne in Hc' by congruence.
      assert (x <> v) by (intros ->; exact (Hnotin _ _ Hc' Hx)).
      rewrite lookup_insert_ne by congruence. apply (wf_parent _ Hwf _ _ _ Hc' Hx).
  - intros c' lc' Hc'. unfold inserted in Hc'. cbn [lContainers] in Hc'.
    destruct (decide (c' = this)) as [->|Hne].
    + rewrite lookup_insert_eq in Hc'. injection Hc' as <-. cbn [views].
      apply NoDup_insertAt; [apply (wf_nodup _ Hwf _ _ Hc)|apply (Hnotin _ _ Hc)].
    + rewrite lookup_insert_ne in Hc' by congruence. apply (wf_nodup _ Hwf _ _ Hc').
  - intros c' lc' Hc'. unfold inserted in Hc'. cbn [lContainers] in Hc'.
    destruct (decide (c' = this)) as [->|Hne].
    + rewrite lookup_insert_eq in Hc'. injection Hc' as <-.
      unfold refsAligned. cbn [VIEW_REFS views].
      pose proof (aligned_default _ _ _ Hwf Hc) as Hal.
      pose proof (Forall2_length _ _ _ Hal) as Hlen.
      rewrite addToArray_in_range by (unfold zlength in *; lia).
      unfold insertAt. apply Forall2_app.
      * apply Forall2_take. apply (aligned_mono (viewRefs w)); [exact Hmono|exact Hal].
      * constructor.
        -- unfold inserted. wsimpl. rewrite lookup_insert_eq. eexists. split; [reflexivity|].
           wsimpl. exact Hrv.
        -- apply Forall2_drop. apply (aligned_mono (viewRefs w)); [exact Hmono|exact Hal].
    + rewrite lookup_insert_ne in Hc' by congruence.
      apply (refsAligned_mono w); [exact Hmono|]. apply (wf_refs _ Hwf _ _ Hc').
  - intros c' lc' Hc'. unfold inserted in Hc'. cbn [lContainers] in Hc'.
    destruct (decide (c' = this)) as [->|Hne].
    + rewrite lookup_insert_eq in Hc'. injection Hc' as <-. cbn [parentRNode rendered views].
      intros Hp. rewrite Hp. reflexivity.
    + rewrite lookup_insert_ne in Hc' by congruence. apply (wf_dom _ Hwf _ _ Hc').
  - intros r' vr' Hr'. unfold inserted in Hr' |- *. cbn [viewRefs nextRef] in Hr' |- *.
    apply lookup_insert_Some in Hr' as [[<- _]|[_ Hr']].
    + apply (wf_fresh _ Hwf _ _ Hr).
    + apply (wf_fresh _ Hwf _ _ Hr').
Qed.

(** The first part of [insert]: a view that is in a container is detached
    from it, and the rest of [insert] runs on a consistent state in which
    the view is in no container. *)
Lemma insert_detach_phase dev this r index w vr lv lct :
  wellFormed w ->
  viewRefs w !! r = Some vr ->
  lViews w !! _lView vr = Some lv ->
  destroyed lv = false ->
  lContainers w !! this = Some lct ->
  (viewAttachedToContainer lv = false \/
   exists prev lcp refs,
     lContainers w !! prev = Some lcp /\ VIEW_REFS lcp = Some refs /\ r ∈ refs) ->
  exists w1 lc1 lv1,
    insert dev this r index w = insertTail dev this r (_lView vr) index w1
    /\ wellFormed w1
    /\ viewRefs w1 !! r = Some vr
    /\ lViews w1 !! _lView vr = Some lv1
    /\ lContainers w1 !! this = Some lc1
    /\ views lc1 = filter (fun x => x <> _lView vr) (views lct)
    /\ parentRNode lc1 = parentRNode lct
    /\ (forall c lc, lContainers w1 !! c = Some lc -> _lView vr ∉ views lc)
    /\ (viewAttachedToContainer lv = false -> w1 = w).
Proof.
  intros Hwf Hr Hv Hd Hct Hatt.
  set (v := _lView vr) in *.
  rewrite insert_unfold.
  rewrite (bind_Ok _ _ _ _ _ (getViewRef_Ok _ _ _ Hr)).
  rewrite (bind_Ok _ _ _ _ _ (getLView_Ok _ _ _ Hv)).
  rewrite Hd, andb_false_r.
  destruct Hatt as [Hun|(prev & lcp & refs & Hcp & Hrefs & Hin)].
  - rewrite Hun. unfold ret at 1. cbn [bind].
    assert (Hnotin : forall c lc, lContainers w !! c = Some lc -> v ∉ views lc).
    { intros c lc Hc Hvin.
      destruct (wf_parent _ Hwf _ _ _ Hc Hvin) as (lv' & Hlv' & Hp).
      rewrite Hv in Hlv'. injection Hlv' as <-.
      unfold viewAttachedToContainer in Hun. rewrite Hp in Hun. discriminate. }
    exists w, lct, lv. split; [reflexivity|]. split; [assumption|]. split; [assumption|].
    split; [assumption|]. split; [assumption|].
    split; [symmetry; apply filter_ne_notin, (Hnotin _ _ Hct)|].
    split; [reflexivity|]. split; [exact Hnotin|]. reflexivity.
  - destruct (aligned_ref_view _ _ _ _ _ _ Hwf Hcp Hrefs Hin Hr)
      as (i & lv' & Hix & Hvi & Hlv' & Hp & Hlen).
    fold v in Hvi, Hlv'. rewrite Hv in Hlv'. injection Hlv' as <-.
    assert (Hatt : viewAttachedToContainer lv = true)
      by (unfold viewAttachedToContainer; rewrite Hp; reflexivity).
    rewrite Hatt.
    assert (Hz : zlookup (views lcp) (Z.of_nat i) = Some v).
    { unfold zlookup. destruct (Z.ltb_spec (Z.of_nat i) 0); [lia|].
      rewrite Nat2Z.id. exact Hvi. }
    pose proof (detach_Ok dev _ _ _ _ _ _ _ Hcp Hz Hv Hrefs Hlen) as Hdet.
    assert (Hpre : (let! prevIdx := indexOf this r in
                    if negb (prevIdx =? -1) then
                      let! _ := detach dev this (Some prevIdx) in ret tt
                    else
                      match PARENT lv with
                      | ParentLContainer prevLContainer =>
                          let! i := indexOf prevLContainer r in
                          let! _ := detach dev prevLContainer (Some i) in ret tt
                      | _ => ret tt
                      end) w
                   = Ok (tt, detached prev (Z.of_nat i) v lcp lv refs w)).
    { rewrite (bind_Ok _ _ _ _ _ (indexOf_Ok _ _ r _ Hct)).
      destruct (decide (this = prev)) as [->|Hne].
      - rewrite Hcp in Hct. injection Hct as <-. rewrite Hrefs, Hix.
        destruct (Z.eqb_spec (Z.of_nat i) (-1)); [lia|]. cbn [negb].
        rewrite (bind_Ok _ _ _ _ _ Hdet). reflexivity.
      - assert (Hno : match VIEW_REFS lct with
                      | Some arr => indexOfFrom r arr 0
                      | None => -1
                      end = -1).
        { destruct (VIEW_REFS lct) as [refsT|] eqn:HrT; [|reflexivity].
          destruct (decide (r ∈ refsT)) as [HinT|HinT]; [|apply indexOfFrom_notin, HinT].
          destruct (aligned_ref_view _ _ _ _ _ _ Hwf Hct HrT HinT Hr)
            as (j & lv'' & _ & _ & Hlv'' & Hp'' & _).
          fold v in Hlv''. rewrite Hv in Hlv''. injection Hlv'' as <-.
          rewrite Hp in Hp''. injection Hp'' as ->. contradiction. }
        rewrite Hno. change (negb (-1 =? -1)) with false. cbv iota. rewrite Hp.
        rewrite (bind_Ok _ _ _ _ _ (indexOf_Ok _ _ r _ Hcp)). rewrite Hrefs, Hix.
        rewrite (bind_Ok _ _ _ _ _ Hdet). reflexivity. }
    rewrite (bind_Ok _ _ _ _ _ Hpre).
    pose proof (detached_wellFormed _ _ _ _ _ _ _ Hwf Hcp Hz Hv Hrefs) as Hwf1.
    set (w1 := detached prev (Z.of_nat i) v lcp lv refs w) in *.
    assert (Hndp : NoDup (views lcp)) by apply (wf_nodup _ Hwf _ _ Hcp).
    assert (Hdel : filter (fun x => x <> v) (views lcp) = delete i (views lcp))
      by (apply filter_ne_NoDup; assumption).
    assert (Hother : forall c lc, c <> prev -> lContainers w !! c = Some lc -> v ∉ views lc).
    { intros c lc Hne Hc Hvin.
      destruct (wf_parent _ Hwf _ _ _ Hc Hvin) as (lv' & Hlv' & Hp').
      rewrite Hv in Hlv'. injection Hlv' as <-. rewrite Hp in Hp'. injection Hp' as ->.
      contradiction. }
    assert (Hnotin1 : forall c lc, lContainers w1 !! c = Some lc -> v ∉ views lc).
    { intros c lc Hc. unfold w1, detached in Hc. cbn [lContainers] in Hc.
      destruct (decide (c = prev)) as [->|Hne].
      - rewrite lookup_insert_eq in Hc. injection Hc as <-. cbn [views].
        rewrite Nat2Z.id. apply NoDup_delete_notin; assumption.
      - rewrite lookup_insert_ne in Hc by congruence. apply (Hother _ _ Hne Hc). }
    assert (Hr1 : viewRefs w1 !! r = Some vr).
    { unfold w1, detached. wsimpl. rewrite lookup_insert_ne; [exact Hr|].
      pose proof (wf_fresh _ Hwf _ _ Hr). lia. }
    assert (Hv1 : lViews w1 !! v = Some {| PARENT := NoParent; attached := false;
                                           destroyed := destroyed lv |})
      by apply lookup_insert_eq.
    destruct (decide (this = prev)) as [->|Hne].
    + rewrite Hcp in Hct. injection Hct as <-.
      eexists w1, _, _. split; [reflexivity|]. split; [assumption|]. split; [assumption|].
      split; [exact Hv1|]. split; [apply lookup_insert_eq|]. cbn [views parentRNode].
      split; [rewrite Nat2Z.id; symmetry; exact Hdel|]. split; [reflexivity|].
      split; [exact Hnotin1|]. intros Hf. congruence.
    + exists w1, lct, {| PARENT := NoParent; attached := false; destroyed := destroyed lv |}.
      split; [reflexivity|]. split; [assumption|]. split; [assumption|].
      split; [exact Hv1|]. split.
      { unfold w1, detached. wsimpl. rewrite lookup_insert_ne by congruence. exact Hct. }
      split; [symmetry; apply filter_ne_notin, (Hother _ _ Hne Hct)|].
      split; [reflexivity|]. split; [exact Hnotin1|]. intros Hf. congruence.
Qed.

(** The run of [insert], on a consistent state. *)
Lemma insert_wf_run dev this r index idx w vr lv lct :
  wellFormed w ->
  viewRefs w !! r = Some vr ->
  _appRef vr = false ->
  lViews w !! _lView vr = Some lv ->
  destroyed lv = false ->
  lContainers w !! this = Some lct ->
  (viewAttachedToContainer lv = false \/
   exists prev lcp refs,
     lContainers w !! prev = Some lcp /\ VIEW_REFS lcp = Some refs /\ r ∈ refs) ->
  index = Some idx \/
    (index = None /\ idx = zlength (filter (fun x => x <> _lView vr) (views lct))) ->
  0 <= idx <= zlength (filter (fun x => x <> _lView vr) (views lct)) ->
  exists w1 lc1 lv1,
    insert dev this r index w = Ok (r, inserted this r (_lView vr) idx lc1 lv1 vr w1)
    /\ wellFormed (inserted this r (_lView vr) idx lc1 lv1 vr w1)
    /\ wellFormed w1
    /\ lContainers w1 !! this = Some lc1
    /\ views lc1 = filter (fun x => x <> _lView vr) (views lct)
    /\ parentRNode lc1 = parentRNode lct
    /\ (r ∉ default [] (VIEW_REFS lc1))
    /\ Datatypes.length (default [] (VIEW_REFS lc1)) = Datatypes.length (views lc1)
    /\ (viewAttachedToContainer lv = false -> w1 = w).
Proof.
  intros Hwf Hr Happ Hv Hd Hct Hatt Hidx Hi.
  destruct (insert_detach_phase dev this r index w vr lv lct Hwf Hr Hv Hd Hct Hatt)
    as (w1 & lc1 & lv1 & Hrun & Hwf1 & Hr1 & Hv1 & Hc1 & Hviews & Hpar & Hnotin & Hsame).
  rewrite <- Hviews in Hidx, Hi.
  exists w1, lc1, lv1. split.
  { rewrite Hrun. apply insertTail_Ok; try assumption.
    - apply (wf_nodup _ Hwf1 _ _ Hc1).
    - apply (wf_dom _ Hwf1 _ _ Hc1). }
  split; [apply inserted_wellFormed; auto|].
  split; [assumption|]. split; [assumption|]. split; [assumption|]. split; [assumption|].
  split; [eapply unlisted_ref_notin; eauto|].
  split; [|assumption].
  apply (Forall2_length _ _ _ (aligned_default _ _ _ Hwf1 Hc1)).
Qed.


Lemma get_Ok c lc i w :
  lContainers w !! c = Some lc ->
  get c i w = Ok (match VIEW_REFS lc with
                  | Some arr => zlookup arr i
                  | None => None
                  end, w).
Proof.
  intros Hc. unfold get, getViewRefs.
  unfold bind at 1. unfold bind at 1. rewrite (getLContainer_Ok _ _ _ Hc). unfold ret at 1.
  destruct (VIEW_REFS lc); reflexivity.
Qed.

Lemma indexOfFrom_middle (r : nat) (l1 l2 : list nat) (k : Z) :
  r ∉ l1 -> indexOfFrom r (l1 ++ r :: l2) k = k + Z.of_nat (Datatypes.length l1).
Proof.
  revert k. induction l1 as [|x l1 IH]; intros k Hin; cbn [app indexOfFrom Datatypes.length].
  - destruct (decide (r = r)); [lia|congruence].
  - apply not_elem_of_cons in Hin as [Hne Hin].
    destruct (decide (x = r)); [congruence|]. rewrite (IH _ Hin). lia.
Qed.

Lemma lookup_insertAt (l : list nat) idx v :
  0 <= idx <= zlength l -> insertAt idx v l !! Z.to_nat idx = Some v.
Proof.
  intros Hi. unfold insertAt, zlength in *.
  rewrite lookup_app_r by (rewrite length_take; lia).
  rewrite length_take. replace (Z.to_nat idx - _)%nat with 0%nat by lia. reflexivity.
Qed.

Lemma zlength_insertAt (l : list nat) idx v : zlength (insertAt idx v l) = zlength l + 1.
Proof.
  unfold insertAt, zlength. rewrite length_app. cbn [Datatypes.length].
  rewrite length_take, length_drop. lia.
Qed.

Lemma filter_insertAt (l : list nat) idx v :
  v ∉ l -> filter (fun x => x <> v) (insertAt idx v l) = l.
Proof.
  intros Hin. unfold insertAt. rewrite filter_app, filter_cons_False by (intros H; apply H; reflexivity).
  rewrite <- filter_app, take_drop. apply filter_ne_notin, Hin.
Qed.

Lemma insertAt_delete (l : list nat) (i : nat) v :
  l !! i = Some v -> insertAt (Z.of_nat i) v (delete i l) = l.
Proof.
  intros Hl. pose proof (lookup_lt_Some _ _ _ Hl) as Hlt.
  unfold insertAt. rewrite Nat2Z.id, delete_take_drop.
  rewrite take_app_length' by (rewrite length_take; lia).
  rewrite drop_app_length' by (rewrite length_take; lia).
  apply take_drop_middle, Hl.
Qed.

(** What the container shows once [insertTail] is done. *)
Lemma inserted_reads this r v idx lc lv vr w :
  (r ∉ default [] (VIEW_REFS lc)) ->
  Datatypes.length (default [] (VIEW_REFS lc)) = Datatypes.length (views lc) ->
  0 <= idx <= zlength (views lc) ->
  let w' := inserted this r v idx lc lv vr w in
  indexOf this r w' = Ok (idx, w')
  /\ get this idx w' = Ok (Some r, w')
  /\ ViewContainer.length this w' = Ok (zlength (views lc) + 1, w').
Proof.
  intros Hnotin Hlen Hi w'.
  assert (Hc' : lContainers w' !! this
                = Some {| views := insertAt idx v (views lc);
                          VIEW_REFS := Some (addToArray (default [] (VIEW_REFS lc)) idx r);
                          parentRNode := parentRNode lc;
                          rendered := if parentRNode lc then insertAt idx v (views lc)
                                      else rendered lc |})
    by apply lookup_insert_eq.
  assert (Hrefs' : addToArray (default [] (VIEW_REFS lc)) idx r
                   = take (Z.to_nat idx) (default [] (VIEW_REFS lc))
                     ++ r :: drop (Z.to_nat idx) (default [] (VIEW_REFS lc))).
  { apply addToArray_in_range. unfold zlength in *. lia. }
  assert (Htake : Datatypes.length (take (Z.to_nat idx) (default [] (VIEW_REFS lc)))
                  = Z.to_nat idx).
  { rewrite length_take. unfold zlength in *. lia. }
  split; [|split].
  - rewrite (indexOf_Ok this _ r _ Hc'). cbn [VIEW_REFS]. rewrite Hrefs', indexOfFrom_middle.
    + rewrite Htake. do 2 f_equal. lia.
    + intros Hx. apply Hnotin. eapply elem_of_sublist; [exact Hx|apply sublist_take].
  - rewrite (get_Ok this _ idx _ Hc'). cbn [VIEW_REFS]. rewrite Hrefs'. unfold zlookup.
    destruct (Z.ltb_spec idx 0); [lia|].
    rewrite lookup_app_r by lia. rewrite Htake, Nat.sub_diag. reflexivity.
  - rewrite (length_Ok this _ _ Hc'). cbn [views]. rewrite zlength_insertAt. reflexivity.
Qed.

(** X1. [insert] keeps the view tree consistent: on a consistent tree, for a
    view that is not destroyed and is in no container or in the container
    that holds its reference, the call returns and the tree is consistent
    again (every listed view points to its container and is listed once,
    the references stand for the views position by position, and the DOM
    shows the views in the order of the list). *)
Theorem insert_keeps_wellFormed dev this r index idx w vr lv lct :
  wellFormed w ->
  viewRefs w !! r = Some vr ->
  _appRef vr = false ->
  lViews w !! _lView vr = Some lv ->
  destroyed lv = false ->
  lContainers w !! this = Some lct ->
  (viewAttachedToContainer lv = false \/
   exists prev lcp refs,
     lContainers w !! prev = Some lcp /\ VIEW_REFS lcp = Some refs /\ r ∈ refs) ->
  index = Some idx \/
    (index = None /\ idx = zlength (filter (fun x => x <> _lView vr) (views lct))) ->
  0 <= idx <= zlength (filter (fun x => x <> _lView vr) (views lct)) ->
  exists w', insert dev this r index w = Ok (r, w') /\ wellFormed w'.
Proof.
  intros Hwf Hr Happ Hv Hd Hct Hatt Hidx Hi.
  destruct (insert_wf_run dev this r index idx w vr lv lct Hwf Hr Happ Hv Hd Hct Hatt Hidx Hi)
    as (w1 & lc1 & lv1 & Hrun & Hwf' & _).
  eexists. split; [exact Hrun|exact Hwf'].
Qed.

(** X2. [move] of a reference that the container holds puts the view at the
    new index: afterwards [indexOf] gives the new index and [get] at the new
    index gives the reference, the length of the container is what it was,
    and the other views are in the order they were in. *)
Theorem move_places_view_at_index dev this r newIndex w vr lv lct refs :
  wellFormed w ->
  viewRefs w !! r = Some vr ->
  _appRef vr = false ->
  lViews w !! _lView vr = Some lv ->
  destroyed lv = false ->
  lContainers w !! this = Some lct ->
  VIEW_REFS lct = Some refs ->
  r ∈ refs ->
  0 <= newIndex < zlength (views lct) ->
  exists w' lc',
    move dev this r newIndex w = Ok (r, w')
    /\ indexOf this r w' = Ok (newIndex, w')
    /\ get this newIndex w' = Ok (Some r, w')
    /\ ViewContainer.length this w' = Ok (zlength (views lct), w')
    /\ lContainers w' !! this = Some lc'
    /\ views lc' !! Z.to_nat newIndex = Some (_lView vr)
    /\ filter (fun x => x <> _lView vr) (views lc')
       = filter (fun x => x <> _lView vr) (views lct).
Proof.
  intros Hwf Hr Happ Hv Hd Hct Hrefs Hin Hi.
  destruct (aligned_ref_view _ _ _ _ _ _ Hwf Hct Hrefs Hin Hr)
    as (i & lv' & _ & Hvi & _ & _ & _).
  pose proof (wf_nodup _ Hwf _ _ Hct) as Hnd.
  assert (Hflen : zlength (filter (fun x => x <> _lView vr) (views lct))
                  = zlength (views lct) - 1).
  { rewrite (filter_ne_NoDup _ _ _ Hnd Hvi). apply zlength_delete.
    eapply lookup_lt_Some, Hvi. }
  destruct (insert_wf_run dev this r (Some newIndex) newIndex w vr lv lct Hwf Hr Happ Hv Hd Hct)
    as (w1 & lc1 & lv1 & Hrun & _ & _ & Hc1 & Hviews & _ & Hnotin & Hlen & _).
  { right. exists this, lct, refs. auto. }
  { left. reflexivity. }
  { lia. }
  assert (Hvn : _lView vr ∉ views lc1) by (rewrite Hviews; apply notin_filter_ne).
  assert (Hrange : 0 <= newIndex <= zlength (views lc1)) by (rewrite Hviews; lia).
  destruct (inserted_reads this r (_lView vr) newIndex lc1 lv1 vr w1 Hnotin Hlen Hrange)
    as (Hio & Hget & Hlength).
  eexists _, _. split.
  { unfold move. rewrite (bind_Ok _ _ _ _ _ (getViewRef_Ok _ _ _ Hr)).
    rewrite (bind_Ok _ _ _ _ _ (getLView_Ok _ _ _ Hv)).
    rewrite Hd, andb_false_r. exact Hrun. }
  split; [exact Hio|]. split; [exact Hget|].
  split; [rewrite Hlength, Hviews, Hflen; do 2 f_equal; lia|].
  split; [unfold inserted; wsimpl; apply lookup_insert_eq|]. cbn [views].
  split; [apply lookup_insertAt, Hrange|].
  rewrite filter_insertAt by exact Hvn. exact Hviews.
Qed.

Lemma created_wellFormed w :
  wellFormed w ->
  wellFormed (created w)
  /\ lViews w !! fresh (dom (lViews w)) = None
  /\ viewRefs w !! nextRef w = None
  /\ (forall c lc, lContainers w !! c = Some lc -> fresh (dom (lViews w)) ∉ views lc).
Proof.
  intros Hwf. set (v := fresh (dom (lViews w))).
  assert (Hv : lViews w !! v = None) by (apply not_elem_of_dom, is_fresh).
  assert (Hr : viewRefs w !! nextRef w = None).
  { destruct (viewRefs w !! nextRef w) as [vr|] eqn:E; [|reflexivity].
    pose proof (wf_fresh _ Hwf _ _ E). lia. }
  assert (Hnotin : forall c lc, lContainers w !! c = Some lc -> v ∉ views lc).
  { intros c lc Hc Hin. destruct (wf_parent _ Hwf _ _ _ Hc Hin) as (lv & Hlv & _). congruence. }
  split; [|auto].
  assert (Hmono : forall r vr, viewRefs w !! r = Some vr ->
            exists vr', viewRefs (created w) !! r = Some vr' /\ _lView vr' = _lView vr).
  { intros r vr Hr'. exists vr. split; [|reflexivity]. unfold created. wsimpl.
    rewrite lookup_insert_ne; [exact Hr'|]. intros Heq. rewrite Heq in Hr. congruence. }
  split.
  - intros c lc x Hc Hx. unfold created in Hc |- *. cbn [lContainers lViews] in Hc |- *.
    assert (Hxv : x <> v) by (intros ->; exact (Hnotin _ _ Hc Hx)).
    rewrite lookup_insert_ne by (intros E; apply Hxv; symmetry; exact E).
    apply (wf_parent _ Hwf _ _ _ Hc Hx).
  - intros c lc Hc. apply (wf_nodup _ Hwf _ _ Hc).
  - intros c lc Hc. apply (refsAligned_mono w); [exact Hmono|]. apply (wf_refs _ Hwf _ _ Hc).
  - intros c lc Hc. apply (wf_dom _ Hwf _ _ Hc).
  - intros r vr Hr'. unfold created in Hr' |- *. cbn [viewRefs nextRef] in Hr' |- *.
    apply lookup_insert_Some in Hr' as [[<- _]|[_ Hr']]; [lia|].
    pose proof (wf_fresh _ Hwf _ _ Hr'). lia.
Qed.

(** [createComponent], called as one of its signatures allows, makes the
    host view and inserts it at the index asked for. *)
Lemma createComponent_signatureOk dev this componentFactoryOrType indexOrOptions :
  signatureOk componentFactoryOrType indexOrOptions = true ->
  createComponent dev this componentFactoryOrType indexOrOptions
  = (let! view := createView in
     let! _ := insert dev this view (requestedIndex indexOrOptions) in
     ret {| hostView := view |}).
Proof.
  destruct componentFactoryOrType as [|[|]],
    indexOrOptions as [|index|index [|] [|]], dev;
    cbn [signatureOk andb negb]; intros H; try discriminate H; reflexivity.
Qed.

(** X3. [createEmbeddedView], and [createComponent] called as one of its
    two signatures allows, make a view that no container holds and insert it
    at the index (at the end when the index is omitted):
    [createEmbeddedView] returns the new reference and [createComponent] the
    component reference whose host view is this reference, [get] at the
    index gives the reference, the container is one view longer, the views
    that were there keep their order, and the view tree stays consistent. *)
Theorem createEmbeddedView_inserts_new_view dev this index idx w lc :
  wellFormed w ->
  lContainers w !! this = Some lc ->
  index = Some idx \/ (index = None /\ idx = zlength (views lc)) ->
  0 <= idx <= zlength (views lc) ->
  exists w' lc',
    createEmbeddedView dev this index w = Ok (nextRef w, w')
    /\ (forall componentFactoryOrType indexOrOptions,
          signatureOk componentFactoryOrType indexOrOptions = true ->
          requestedIndex indexOrOptions = index ->
          createComponent dev this componentFactoryOrType indexOrOptions w
          = Ok ({| hostView := nextRef w |}, w'))
    /\ wellFormed w'
    /\ viewRefs w !! nextRef w = None
    /\ (forall c lcc, lContainers w !! c = Some lcc -> fresh (dom (lViews w)) ∉ views lcc)
    /\ lContainers w' !! this = Some lc'
    /\ views lc' = insertAt idx (fresh (dom (lViews w))) (views lc)
    /\ get this idx w' = Ok (Some (nextRef w), w')
    /\ ViewContainer.length this w' = Ok (zlength (views lc) + 1, w').
Proof.
  intros Hwf Hc Hidx Hi.
  destruct (created_wellFormed w Hwf) as (Hwf0 & Hv & Hr & Hnotin).
  set (v := fresh (dom (lViews w))) in *.
  assert (Hcreate : createView w = Ok (nextRef w, created w)) by reflexivity.
  assert (Hf : filter (fun x => x <> v) (views lc) = views lc)
    by (apply filter_ne_notin, (Hnotin _ _ Hc)).
  destruct (insert_wf_run dev this (nextRef w) index idx (created w)
              {| _lView := v; _attachedToViewContainer := false; _appRef := false |}
              {| PARENT := NoParent; attached := false; destroyed := false |} lc Hwf0)
    as (w1 & lc1 & lv1 & Hrun & Hwf' & _ & Hc1 & Hviews & _ & Hnin & Hlen & Hsame);
    try reflexivity.
  { apply lookup_insert_eq. }
  { apply lookup_insert_eq. }
  { exact Hc. }
  { left. reflexivity. }
  { cbn [_lView]. rewrite Hf. exact Hidx. }
  { cbn [_lView]. rewrite Hf. exact Hi. }
  cbn [_lView] in *. specialize (Hsame eq_refl). subst w1.
  assert (lc1 = lc) as -> by (unfold created in Hc1; cbn [lContainers] in Hc1; congruence).
  destruct (inserted_reads this (nextRef w) v idx lc lv1
              {| _lView := v; _attachedToViewContainer := false; _appRef := false |}
              (created w) Hnin Hlen Hi) as (_ & Hget & Hlength).
  eexists _, _.
  split; [unfold createEmbeddedView; rewrite (bind_Ok _ _ _ _ _ Hcreate);
          rewrite (bind_Ok _ _ _ _ _ Hrun); reflexivity|].
  split; [intros c io Hsig Hio; rewrite (createComponent_signatureOk _ _ _ _ Hsig), Hio;
          rewrite (bind_Ok _ _ _ _ _ Hcreate);
          rewrite (bind_Ok _ _ _ _ _ Hrun); reflexivity|].
  split; [exact Hwf'|]. split; [exact Hr|]. split; [exact Hnotin|].
  split; [unfold inserted; wsimpl; apply lookup_insert_eq|]. cbn [views].
  split; [reflexivity|]. split; [exact Hget|exact Hlength].
Qed.

(** A view listed in a consistent container has an entry, and the
    container has its array of references, as long as its list. *)
Lemma listed_view w c lc i v :
  wellFormed w -> lContainers w !! c = Some lc -> zlookup (views lc) i = Some v ->
  exists lv refs,
    lViews w !! v = Some lv /\ PARENT lv = ParentLContainer c
    /\ VIEW_REFS lc = Some refs
    /\ Datatypes.length refs = Datatypes.length (views lc).
Proof.
  intros Hwf Hc Hz. pose proof (zlookup_Some _ _ _ Hz) as [Hi Hl].
  destruct (wf_parent _ Hwf _ _ _ Hc (list_elem_of_lookup_2 _ _ _ Hl)) as (lv & Hlv & Hp).
  pose proof (wf_refs _ Hwf _ _ Hc) as Hal. unfold refsAligned in Hal.
  destruct (VIEW_REFS lc) as [refs|].
  - exists lv, refs. split; [assumption|]. split; [assumption|]. split; [reflexivity|].
    exact (Forall2_length _ _ _ Hal).
  - rewrite Hal in Hl. discriminate.
Qed.

(** X4. [detach] of the view at an index takes it out of the list and
    returns a reference that did not exist before, which stands for the
    detached view and is attached to no container; afterwards no container
    lists the view and the view tree is consistent. *)
Theorem detach_returns_new_reference dev this i w lc v :
  wellFormed w ->
  lContainers w !! this = Some lc ->
  zlookup (views lc) i = Some v ->
  exists w' lc' lv',
    detach dev this (Some i) w = Ok (Some (nextRef w), w')
    /\ wellFormed w'
    /\ viewRefs w !! nextRef w = None
    /\ viewRefs w' !! nextRef w
       = Some {| _lView := v; _attachedToViewContainer := false; _appRef := false |}
    /\ lContainers w' !! this = Some lc'
    /\ views lc' = delete (Z.to_nat i) (views lc)
    /\ (forall c, ~ memberOf w' v c)
    /\ lViews w' !! v = Some lv'
    /\ viewAttachedToContainer lv' = false.
Proof.
  intros Hwf Hc Hz.
  destruct (listed_view _ _ _ _ _ Hwf Hc Hz) as (lv & refs & Hv & Hp & Hrefs & Hlen).
  pose proof (zlookup_Some _ _ _ Hz) as [Hi Hl].
  pose proof (detached_wellFormed _ _ _ _ _ _ _ Hwf Hc Hz Hv Hrefs) as Hwf'.
  eexists _, _, _.
  split; [apply (detach_Ok dev _ _ _ _ _ _ _ Hc Hz Hv Hrefs Hlen)|].
  split; [exact Hwf'|]. split.
  { destruct (viewRefs w !! nextRef w) as [vr|] eqn:E; [|reflexivity].
    pose proof (wf_fresh _ Hwf _ _ E). lia. }
  split; [apply lookup_insert_eq|]. split; [apply lookup_insert_eq|]. cbn [views].
  split; [reflexivity|]. split.
  { intros c (lcc & Hcc & Hin). unfold detached in Hcc. cbn [lContainers] in Hcc.
    destruct (decide (c = this)) as [->|Hne].
    - rewrite lookup_insert_eq in Hcc. injection Hcc as <-. cbn [views] in Hin.
      revert Hin. apply NoDup_delete_notin; [apply (wf_nodup _ Hwf _ _ Hc)|exact Hl].
    - rewrite lookup_insert_ne in Hcc by congruence.
      destruct (wf_parent _ Hwf _ _ _ Hcc Hin) as (lv2 & Hlv2 & Hp2). congruence. }
  split; [apply lookup_insert_eq|]. reflexivity.
Qed.

(** X5. Round trip: [detach] of the view at an index followed by [insert]
    of the returned reference at the same index gives back the list of the
    container and, where the anchor is in the DOM, the DOM order; the other
    containers are not touched and the view tree is consistent. *)
Theorem detach_then_insert_restores dev this i w lc v lv :
  wellFormed w ->
  lContainers w !! this = Some lc ->
  zlookup (views lc) i = Some v ->
  lViews w !! v = Some lv ->
  destroyed lv = false ->
  exists r w1 w2 lc2,
    detach dev this (Some i) w = Ok (Some r, w1)
    /\ insert dev this r (Some i) w1 = Ok (r, w2)
    /\ wellFormed w2
    /\ lContainers w2 !! this = Some lc2
    /\ views lc2 = views lc
    /\ (parentRNode lc = true -> rendered lc2 = rendered lc)
    /\ (forall c, c <> this -> lContainers w2 !! c = lContainers w !! c).
Proof.
  intros Hwf Hc Hz Hv Hd.
  destruct (listed_view _ _ _ _ _ Hwf Hc Hz) as (lv0 & refs & Hv0 & Hp & Hrefs & Hlen).
  rewrite Hv in Hv0. injection Hv0 as <-.
  pose proof (zlookup_Some _ _ _ Hz) as [Hi Hl].
  pose proof (wf_nodup _ Hwf _ _ Hc) as Hnd.
  pose proof (detached_wellFormed _ _ _ _ _ _ _ Hwf Hc Hz Hv Hrefs) as Hwf1.
  set (w1 := detached this i v lc lv refs w) in *.
  set (lc1 := {| views := delete (Z.to_nat i) (views lc);
                 VIEW_REFS := Some (delete (Z.to_nat i) refs);
                 parentRNode := parentRNode lc;
                 rendered := filter (fun x => x <> v) (rendered lc) |}).
  assert (Hc1 : lContainers w1 !! this = Some lc1) by apply lookup_insert_eq.
  assert (Hnotin : v ∉ views lc1) by (apply NoDup_delete_notin; assumption).
  assert (Hf : filter (fun x => x <> v) (views lc1) = views lc1)
    by (apply filter_ne_notin, Hnotin).
  assert (Hlen1 : zlength (views lc1) = zlength (views lc) - 1).
  { apply zlength_delete. unfold zlength in Hi. lia. }
  destruct (insert_wf_run dev this (nextRef w) (Some i) i w1
              {| _lView := v; _attachedToViewContainer := false; _appRef := false |}
              {| PARENT := NoParent; attached := false; destroyed := destroyed lv |}
              lc1 Hwf1)
    as (w1' & lc1' & lv1 & Hrun & Hwf2 & _ & Hc1' & _ & _ & _ & _ & Hsame);
    try reflexivity.
  { apply lookup_insert_eq. }
  { apply lookup_insert_eq. }
  { exact Hd. }
  { exact Hc1. }
  { left. reflexivity. }
  { left. reflexivity. }
  { cbn [_lView]. rewrite Hf, Hlen1. lia. }
  cbn [_lView] in *. specialize (Hsame eq_refl). subst w1'.
  assert (lc1' = lc1) as -> by congruence.
  exists (nextRef w), w1. eexists _, _.
  split; [apply (detach_Ok dev _ _ _ _ _ _ _ Hc Hz Hv Hrefs Hlen)|].
  split; [exact Hrun|]. split; [exact Hwf2|].
  split; [unfold inserted; wsimpl; apply lookup_insert_eq|]. cbn [views rendered parentRNode lc1].
  assert (Hback : insertAt i v (delete (Z.to_nat i) (views lc)) = views lc).
  { rewrite <- (Z2Nat.id i) at 1 by lia. apply insertAt_delete, Hl. }
  split; [exact Hback|]. split.
  { intros Hpar. rewrite Hpar, Hback. symmetry. apply (wf_dom _ Hwf _ _ Hc Hpar). }
  intros c Hne. unfold inserted, w1, detached. wsimpl.
  rewrite !lookup_insert_ne by congruence. reflexivity.
Qed.

(** X6. On a container without views [remove] and [detach] with the index
    omitted do nothing and do not throw, with the assertions of [ngDevMode]
    as without them, and [clear] does nothing; without [ngDevMode] this
    holds for every index given. *)
Theorem remove_detach_clear_on_empty_container dev hooks this lc w :
  lContainers w !! this = Some lc ->
  views lc = [] ->
  remove dev hooks this None w = Ok (tt, w)
  /\ detach dev this None w = Ok (None, w)
  /\ (forall fuel, clear dev hooks fuel this w = Ok (tt, w))
  /\ (forall i, remove false hooks this (Some i) w = Ok (tt, w)
                /\ detach false this (Some i) w = Ok (None, w)).
Proof.
  intros Hc He.
  assert (Hdv : forall i, detachView this i w = Ok (None, w)).
  { intros i. unfold detachView. rewrite (bind_Ok _ _ _ _ _ (getLContainer_Ok _ _ _ Hc)).
    rewrite He. reflexivity. }
  split; [|split; [|split]].
  - unfold remove. rewrite (bind_Ok _ _ _ _ _ (_adjustIndex_omitted dev _ _ _ _ Hc)).
    rewrite (bind_Ok _ _ _ _ _ (Hdv _)). reflexivity.
  - unfold detach. rewrite (bind_Ok _ _ _ _ _ (_adjustIndex_omitted dev _ _ _ _ Hc)).
    rewrite (bind_Ok _ _ _ _ _ (Hdv _)). reflexivity.
  - intros fuel.
    assert (Hl : ViewContainer.length this w = Ok (0, w))
      by (rewrite (length_Ok _ _ _ Hc), He; reflexivity).
    destruct fuel; cbn [clear]; rewrite (bind_Ok _ _ _ _ _ Hl); reflexivity.
  - intros i. split.
    + unfold remove. rewrite (bind_Ok _ _ _ _ _ (_adjustIndex_production _ _ _ _ _ Hc)).
      rewrite (bind_Ok _ _ _ _ _ (Hdv _)). reflexivity.
    + unfold detach. rewrite (bind_Ok _ _ _ _ _ (_adjustIndex_production _ _ _ _ _ Hc)).
      rewrite (bind_Ok _ _ _ _ _ (Hdv _)). reflexivity.
Qed.


Lemma clear_unfold dev hooks fuel this :
  clear dev hooks fuel this =
    let! len := ViewContainer.length this in
    if len >? 0 then
      match fuel with
      | O => throw (OutsideModel "the loop of clear goes on")
      | S fuel' =>
          let! len' := ViewContainer.length this in
          let! _ := remove dev hooks this (Some (len' - 1)) in
          clear dev hooks fuel' this
      end
    else ret tt.
Proof. destruct fuel; reflexivity. Qed.

(** [remove] of the last view, with hooks that leave the containers and
    the views alone. *)
Lemma remove_last_quiet dev hooks this lc vs v w :
  quietHooks hooks ->
  lContainers w !! this = Some lc ->
  views lc = vs ++ [v] ->
  is_Some (lViews w !! v) ->
  exists w' lc',
    remove dev hooks this (Some (zlength (views lc) - 1)) w = Ok (tt, w')
    /\ lContainers w' !! this = Some lc'
    /\ views lc' = vs
    /\ destroyedAndDetached w' v
    /\ (forall x, destroyedAndDetached w x -> destroyedAndDetached w' x)
    /\ (forall x, is_Some (lViews w !! x) -> is_Some (lViews w' !! x)).
Proof.
  intros Hq Hc Hvs [lv Hv].
  assert (Hlen : zlength (views lc) = Z.of_nat (Datatypes.length vs) + 1).
  { unfold zlength. rewrite Hvs, length_app. cbn [Datatypes.length]. lia. }
  assert (Hz : zlookup (views lc) (zlength (views lc) - 1) = Some v).
  { unfold zlookup. destruct (Z.ltb_spec (zlength (views lc) - 1) 0); [lia|].
    rewrite Hlen, Hvs. replace (Z.to_nat (Z.of_nat (Datatypes.length vs) + 1 - 1))
      with (Datatypes.length vs + 0)%nat by lia.
    rewrite lookup_app_r by lia. replace (Datatypes.length vs + 0 - Datatypes.length vs)%nat
      with 0%nat by lia. reflexivity. }
  assert (Hdel : delete (Z.to_nat (zlength (views lc) - 1)) (views lc) = vs).
  { rewrite Hlen, Hvs. replace (Z.to_nat (Z.of_nat (Datatypes.length vs) + 1 - 1))
      with (Datatypes.length vs) by lia.
    rewrite delete_take_drop, take_app_length, drop_ge, app_nil_r;
      [reflexivity|rewrite length_app; cbn [Datatypes.length]; lia]. }
  assert (Hadj : _adjustIndex dev this (Some (zlength (views lc) - 1)) (-1) w
                 = Ok (zlength (views lc) - 1, w)).
  { destruct dev.
    - apply (_adjustIndex_dev_in_range _ _ _ lc); [assumption|lia].
    - apply (_adjustIndex_production _ _ _ lc). assumption. }
  unfold remove.
  rewrite (bind_Ok _ _ _ _ _ Hadj).
  rewrite (bind_Ok _ _ _ _ _ (detachView_Ok _ _ _ _ _ _ Hc Hz Hv)).
  erewrite updateViewRefs_Ok by (wsimpl; apply lookup_insert_eq).
  unfold withContainer, withViewRefs, destroyLView. munfold.
  rewrite lookup_insert_eq. wsimpl. rewrite !insert_insert_eq, Hdel.
  destruct (destroyed lv) eqn:Hd.
  - eexists _, _. split; [reflexivity|]. unfold destroyedAndDetached. wsimpl.
    split; [apply lookup_insert_eq|]. split; [reflexivity|].
    split; [eexists; split; [apply lookup_insert_eq|]; split; reflexivity|].
    split.
    + intros x (lvx & Hx & Hdx & Hpx). destruct (decide (x = v)) as [->|Hne].
      * eexists. split; [apply lookup_insert_eq|]. split; reflexivity.
      * exists lvx. rewrite lookup_insert_ne by congruence. auto.
    + intros x Hx. destruct (decide (x = v)) as [->|Hne].
      * rewrite lookup_insert_eq. eauto.
      * rewrite lookup_insert_ne by congruence. exact Hx.
  - match goal with |- context [hooks v ?st] => set (w2 := st) end.
    destruct (Hq v w2) as (w3 & Hh & HC & HV). rewrite Hh.
    eexists _, _. split; [reflexivity|]. unfold destroyedAndDetached. rewrite HC, HV.
    unfold w2. wsimpl.
    split; [apply lookup_insert_eq|]. split; [reflexivity|].
    split; [eexists; split; [apply lookup_insert_eq|]; split; reflexivity|].
    split.
    + intros x (lvx & Hx & Hdx & Hpx). destruct (decide (x = v)) as [->|Hne].
      * eexists. split; [apply lookup_insert_eq|]. split; reflexivity.
      * exists lvx. rewrite !lookup_insert_ne by congruence. auto.
    + intros x Hx. destruct (decide (x = v)) as [->|Hne].
      * rewrite lookup_insert_eq. eauto.
      * rewrite !lookup_insert_ne by congruence. exact Hx.
Qed.

(** X7. [clear] on a container whose views have their entries, when the
    destroy hooks leave the containers and the views alone and the fuel
    covers the views: the loop ends, the container is empty, and every view
    it held is destroyed and has no parent. *)
Theorem clear_empties_container dev hooks fuel this lc w :
  quietHooks hooks ->
  lContainers w !! this = Some lc ->
  (forall v, v ∈ views lc -> is_Some (lViews w !! v)) ->
  (Datatypes.length (views lc) <= fuel)%nat ->
  exists w' lc',
    clear dev hooks fuel this w = Ok (tt, w')
    /\ lContainers w' !! this = Some lc'
    /\ views lc' = []
    /\ ViewContainer.length this w' = Ok (0, w')
    /\ forall v, v ∈ views lc -> destroyedAndDetached w' v.
Proof.
  intros Hq Hc Hall Hfuel.
  assert (Hgen : forall n fuel w lc,
            lContainers w !! this = Some lc ->
            Datatypes.length (views lc) = n ->
            (n <= fuel)%nat ->
            (forall v, v ∈ views lc -> is_Some (lViews w !! v)) ->
            exists w' lc',
              clear dev hooks fuel this w = Ok (tt, w')
              /\ lContainers w' !! this = Some lc'
              /\ views lc' = []
              /\ (forall v, v ∈ views lc -> destroyedAndDetached w' v)
              /\ (forall x, destroyedAndDetached w x -> destroyedAndDetached w' x)).
  { clear - Hq.
    induction n as [|n IH]; intros fuel w lc Hc Hn Hfuel Hall.
    - apply nil_length_inv in Hn.
      exists w, lc. split.
      { rewrite clear_unfold, (bind_Ok _ _ _ _ _ (length_Ok _ _ _ Hc)), Hn. reflexivity. }
      split; [assumption|]. split; [assumption|].
      split; [|auto]. intros v Hv. rewrite Hn in Hv. apply elem_of_nil in Hv. contradiction.
    - destruct fuel as [|fuel]; [lia|].
      destruct (views lc) as [|x l] eqn:Hviews using rev_ind; [discriminate|]. clear IHl.
      rewrite length_app in Hn. cbn [Datatypes.length] in Hn.
      assert (His : is_Some (lViews w !! x))
        by (apply Hall, elem_of_app; right; apply list_elem_of_here).
      destruct (remove_last_quiet dev hooks this lc l x w Hq Hc Hviews His)
        as (w1 & lc1 & Hrm & Hc1 & Hv1 & Hgone & Hkeep & Hsome).
      destruct (IH fuel w1 lc1 Hc1) as (w' & lc' & Hrun & Hc' & He & Hd' & Hk').
      { rewrite Hv1. lia. }
      { lia. }
      { intros v Hv. apply Hsome, Hall, elem_of_app. left. rewrite <- Hv1. exact Hv. }
      exists w', lc'. split.
      { rewrite clear_unfold, (bind_Ok _ _ _ _ _ (length_Ok _ _ _ Hc)).
        assert (Hpos : (zlength (views lc) >? 0) = true).
        { unfold zlength. rewrite Hviews, length_app. cbn [Datatypes.length].
          apply Z.gtb_lt. lia. }
        rewrite Hpos, (bind_Ok _ _ _ _ _ (length_Ok _ _ _ Hc)).
        rewrite (bind_Ok _ _ _ _ _ Hrm). exact Hrun. }
      split; [assumption|]. split; [assumption|]. split.
      + intros v Hv. apply elem_of_app in Hv as [Hv|Hv].
        * apply Hd'. rewrite Hv1. exact Hv.
        * apply list_elem_of_singleton in Hv as ->. apply Hk', Hgone.
      + intros y Hy. apply Hk', Hkeep, Hy. }
  destruct (Hgen _ fuel w lc Hc eq_refl Hfuel Hall) as (w' & lc' & Hrun & Hc' & He & Hd & _).
  exists w', lc'. split; [assumption|]. split; [assumption|]. split; [assumption|].
  split; [|assumption]. rewrite (length_Ok _ _ _ Hc'), He. reflexivity.
Qed.

End ViewContainerInvariant.

Lemma insert_keeps_wellFormed_witness :
  exists w',
    ViewContainer.insert true 0 113 (Some 0) ViewContainerExample.world0 = Ok (113%nat, w')
    /\ ViewContainer.wellFormed w'.
Proof.
  exact (insert_keeps_wellFormed true 0%nat 113%nat (Some 0) 0
           ViewContainerExample.world0 (ViewContainerExample.refTo 13 false)
           ViewContainerExample.idle
           {| ViewContainer.views := [10; 11]%nat;
              ViewContainer.VIEW_REFS := Some [110; 111]%nat;
              ViewContainer.parentRNode := true;
              ViewContainer.rendered := [10; 11]%nat |}
           wellFormed_world0 eq_refl eq_refl eq_refl eq_refl eq_refl
           (or_introl eq_refl) (or_introl eq_refl)
           ltac:(vm_compute; split; discriminate)).
Defined.

Lemma move_places_view_at_index_witness :
  exists w',
    ViewContainer.move true 0 111 0 ViewContainerExample.world0 = Ok (111%nat, w')
    /\ ViewContainer.indexOf 0 111 w' = Ok (0, w')
    /\ ViewContainer.get 0 0 w' = Ok (Some 111%nat, w')
    /\ ViewContainer.length 0 w' = Ok (2, w').
Proof.
  destruct (move_places_view_at_index true 0%nat 111%nat 0
              ViewContainerExample.world0 (ViewContainerExample.refTo 11 true)
              (ViewContainerExample.inContainer 0)
              {| ViewContainer.views := [10; 11]%nat;
                 ViewContainer.VIEW_REFS := Some [110; 111]%nat;
                 ViewContainer.parentRNode := true;
                 ViewContainer.rendered := [10; 11]%nat |}
              [110; 111]%nat
              wellFormed_world0 eq_refl eq_refl eq_refl eq_refl eq_refl eq_refl
              (list_elem_of_further _ _ _ (list_elem_of_here 111%nat []))
              ltac:(vm_compute; split; [discriminate|reflexivity]))
    as (w' & lc' & Hrun & Hio & Hget & Hlen & _).
  exists w'. exact (conj Hrun (conj Hio (conj Hget Hlen))).
Defined.

Lemma createEmbeddedView_inserts_new_view_witness :
  exists w',
    ViewContainer.createEmbeddedView true 0 (Some 1) ViewContainerExample.world0
      = Ok (200%nat, w')
    /\ ViewContainer.createComponent true 0 (ViewContainer.ComponentType true)
         (ViewContainer.OptionsObject (Some 1) true false) ViewContainerExample.world0
       = Ok ({| ViewContainer.hostView := 200%nat |}, w')
    /\ ViewContainer.createComponent true 0 ViewContainer.ComponentFactory
         (ViewContainer.IndexNumber 1) ViewContainerExample.world0
       = Ok ({| ViewContainer.hostView := 200%nat |}, w')
    /\ ViewContainer.wellFormed w'
    /\ ViewContainer.get 0 1 w' = Ok (Some 200%nat, w')
    /\ ViewContainer.length 0 w' = Ok (3, w').
Proof.
  destruct (createEmbeddedView_inserts_new_view true 0%nat (Some 1) 1
              ViewContainerExample.world0
              {| ViewContainer.views := [10; 11]%nat;
                 ViewContainer.VIEW_REFS := Some [110; 111]%nat;
                 ViewContainer.parentRNode := true;
                 ViewContainer.rendered := [10; 11]%nat |}
              wellFormed_world0 eq_refl (or_introl eq_refl)
              ltac:(vm_compute; split; discriminate))
    as (w' & lc' & Hrun & Hcomponent & Hwf & _ & _ & _ & _ & Hget & Hlen).
  exists w'. split; [exact Hrun|].
  split; [exact (Hcomponent (ViewContainer.ComponentType true)
                   (ViewContainer.OptionsObject (Some 1) true false) eq_refl eq_refl)|].
  split; [exact (Hcomponent ViewContainer.ComponentFactory (ViewContainer.IndexNumber 1)
                   eq_refl eq_refl)|].
  exact (conj Hwf (conj Hget Hlen)).
Defined.

Lemma detach_returns_new_reference_witness :
  exists w',
    ViewContainer.detach true 0 (Some 0) ViewContainerExample.world0 = Ok (Some 200%nat, w')
    /\ ViewContainer.wellFormed w'
    /\ ViewContainer.viewRefs w' !! 200%nat = Some (ViewContainerExample.refTo 10 false)
    /\ (forall c, ~ ViewContainer.memberOf w' 10 c).
Proof.
  destruct (detach_returns_new_reference true 0%nat 0 ViewContainerExample.world0
              {| ViewContainer.views := [10; 11]%nat;
                 ViewContainer.VIEW_REFS := Some [110; 111]%nat;
                 ViewContainer.parentRNode := true;
                 ViewContainer.rendered := [10; 11]%nat |}
              10%nat wellFormed_world0 eq_refl eq_refl)
    as (w' & lc' & lv' & Hrun & Hwf & _ & Hr & _ & _ & Hmem & _).
  exists w'. exact (conj Hrun (conj Hwf (conj Hr Hmem))).
Defined.

Lemma detach_then_insert_restores_witness :
  exists r w1 w2 lc2,
    ViewContainer.detach true 0 (Some 0) ViewContainerExample.world0 = Ok (Some r, w1)
    /\ ViewContainer.insert true 0 r (Some 0) w1 = Ok (r, w2)
    /\ ViewContainer.lContainers w2 !! 0%nat = Some lc2
    /\ ViewContainer.views lc2 = [10; 11]%nat
    /\ ViewContainer.rendered lc2 = [10; 11]%nat.
Proof.
  destruct (detach_then_insert_restores true 0%nat 0 ViewContainerExample.world0
              {| ViewContainer.views := [10; 11]%nat;
                 ViewContainer.VIEW_REFS := Some [110; 111]%nat;
                 ViewContainer.parentRNode := true;
                 ViewContainer.rendered := [10; 11]%nat |}
              10%nat (ViewContainerExample.inContainer 0)
              wellFormed_world0 eq_refl eq_refl eq_refl eq_refl)
    as (r & w1 & w2 & lc2 & Hdet & Hins & _ & Hc2 & Hviews & Hdom & _).
  exists r, w1, w2, lc2.
  exact (conj Hdet (conj Hins (conj Hc2 (conj Hviews (Hdom eq_refl))))).
Defined.

Lemma remove_detach_clear_on_empty_container_witness :
  ViewContainer.remove true ViewContainerExample.noHook 0 None ViewContainerExample.emptyWorld
    = Ok (tt, ViewContainerExample.emptyWorld)
  /\ ViewContainer.detach true 0 None ViewContainerExample.emptyWorld
     = Ok (None, ViewContainerExample.emptyWorld)
  /\ ViewContainer.clear true ViewContainerExample.noHook 0 0 ViewContainerExample.emptyWorld
     = Ok (tt, ViewContainerExample.emptyWorld)
  /\ ViewContainer.remove false ViewContainerExample.noHook 0 (Some 3)
       ViewContainerExample.emptyWorld
     = Ok (tt, ViewContainerExample.emptyWorld).
Proof.
  destruct (remove_detach_clear_on_empty_container true ViewContainerExample.noHook 0%nat
              {| ViewContainer.views := []; ViewContainer.VIEW_REFS := None;
                 ViewContainer.parentRNode := true; ViewContainer.rendered := [] |}
              ViewContainerExample.emptyWorld eq_refl eq_refl)
    as (Hrm & Hdet & Hclear & Hprod).
  exact (conj Hrm (conj Hdet (conj (Hclear 0%nat) (proj1 (Hprod 3))))).
Defined.

Lemma clear_empties_container_witness :
  exists w',
    ViewContainer.clear true ViewContainerExample.noHook 2 0 ViewContainerExample.world0
      = Ok (tt, w')
    /\ ViewContainer.length 0 w' = Ok (0, w')
    /\ ViewContainer.destroyedAndDetached w' 10
    /\ ViewContainer.destroyedAndDetached w' 11.
Proof.
  destruct (clear_empties_container true ViewContainerExample.noHook 2%nat 0%nat
              {| ViewContainer.views := [10; 11]%nat;
                 ViewContainer.VIEW_REFS := Some [110; 111]%nat;
                 ViewContainer.parentRNode := true;
                 ViewContainer.rendered := [10; 11]%nat |}
              ViewContainerExample.world0
              ltac:(intros v w; exists w; repeat split)
              eq_refl
              ltac:(intros v Hv; apply elem_of_cons in Hv as [->|Hv];
                    [eexists; reflexivity|];
                    apply elem_of_cons in Hv as [->|Hv]; [eexists; reflexivity|];
                    apply elem_of_nil in Hv; contradiction)
              ltac:(cbn; lia))
    as (w' & lc' & Hrun & _ & _ & Hlen & Hgone).
  exists w'. split; [exact Hrun|]. split; [exact Hlen|]. split.
  - apply Hgone, list_elem_of_here.
  - apply Hgone, list_elem_of_further, list_elem_of_here.
Defined.

(** ** Providers of a node: search, slots and precedence *)

Section DiSetupSlots.
Import DiSetup.

Lemma indexOfLoop_spec item arr steps : forall i,
  (indexOfLoop item arr i steps = -1
   /\ forall j, i <= j < i + Z.of_nat steps -> DiSetup.zlookup arr j <> Some (Some item))
  \/ (i <= indexOfLoop item arr i steps < i + Z.of_nat steps
      /\ 0 <= indexOfLoop item arr i steps
      /\ DiSetup.zlookup arr (indexOfLoop item arr i steps) = Some (Some item)
      /\ forall j, i <= j < indexOfLoop item arr i steps ->
           DiSetup.zlookup arr j <> Some (Some item)).
Proof.
  induction steps as [|steps IH]; intros i.
  - left. split; [reflexivity|]. intros j Hj. lia.
  - cbn [indexOfLoop]. destruct (decide (DiSetup.zlookup arr i = Some (Some item))) as [Hi|Hi].
    + right. split; [lia|]. split.
      { unfold DiSetup.zlookup in Hi. destruct (Z.ltb_spec i 0); [discriminate|lia]. }
      split; [exact Hi|]. intros j Hj. lia.
    + destruct (IH (i + 1)) as [[Hr Hnone]|(Hr & H0 & Hat & Hfirst)].
      * left. split; [exact Hr|]. intros j Hj.
        destruct (decide (j = i)) as [->|Hne]; [exact Hi|]. apply Hnone. lia.
      * right. split; [lia|]. split; [exact H0|]. split; [exact Hat|].
        intros j Hj. destruct (decide (j = i)) as [->|Hne]; [exact Hi|]. apply Hfirst. lia.
Qed.

(** X8. [indexOf(item, arr, begin, end)] gives the first position of the
    item in the range from [begin] up to, not including, [end], and [-1]
    exactly when no position of the range holds the item; a position that
    it gives is never negative. *)
Theorem indexOf_first_in_range item arr begin end_ :
  (indexOf item arr begin end_ = -1
   /\ forall j, begin <= j < end_ -> DiSetup.zlookup arr j <> Some (Some item))
  \/ (begin <= indexOf item arr begin end_ < end_
      /\ 0 <= indexOf item arr begin end_
      /\ DiSetup.zlookup arr (indexOf item arr begin end_) = Some (Some item)
      /\ forall j, begin <= j < indexOf item arr begin end_ ->
           DiSetup.zlookup arr j <> Some (Some item)).
Proof.
  unfold indexOf.
  destruct (indexOfLoop_spec item arr (Z.to_nat (end_ - begin)) begin)
    as [[Hr Hnone]|(Hr & H0 & Hat & Hfirst)].
  - left. split; [exact Hr|]. intros j Hj. apply Hnone. lia.
  - right. split; [lia|]. split; [exact H0|]. split; [exact Hat|exact Hfirst].
Qed.

Section Constants.
Variable mask shift shifter : Z.

Lemma res_bind_inv {E A B} (m : Res E A) (k : A -> Res E B) b :
  res_bind m k = Ok b -> exists a, m = Ok a /\ k a = Ok b.
Proof. destruct m as [a|e]; cbn [res_bind]; [eauto|discriminate]. Qed.

Lemma arraySet_length {A} (i : nat) (x : option A) arr :
  (i < length arr)%nat -> length (arraySet i x arr) = length arr.
Proof.
  intros Hi. unfold arraySet. rewrite length_insert, length_app, length_replicate. lia.
Qed.

Lemma indexOf_found item arr begin end_ :
  indexOf item arr begin end_ <> -1 ->
  (Z.to_nat (indexOf item arr begin end_) < length arr)%nat.
Proof.
  intros Hne. unfold indexOf in *.
  destruct (indexOfLoop_spec item arr (Z.to_nat (end_ - begin)) begin)
    as [[Hr _]|(_ & H0 & Hat & _)]; [contradiction|].
  unfold DiSetup.zlookup in Hat.
  destruct (Z.ltb_spec (indexOfLoop item arr begin (Z.to_nat (end_ - begin))) 0);
    [discriminate|].
  apply lookup_lt_Some in Hat. exact Hat.
Qed.

Lemma addsSlots_refl v st : addsSlots shifter v [] st st.
Proof.
  unfold addsSlots. cbn [fmap list_fmap length]. rewrite !app_nil_r, !Nat.add_0_r, !Z.add_0_r.
  repeat split; try reflexivity. destruct v; lia.
Qed.

Lemma addsSlots_trans v toks1 toks2 st1 st2 st3 :
  addsSlots shifter v toks1 st1 st2 -> addsSlots shifter v toks2 st2 st3 ->
  addsSlots shifter v (toks1 ++ toks2) st1 st3.
Proof.
  intros (A1 & A2 & A3 & A4 & A5 & A6 & A7) (B1 & B2 & B3 & B4 & B5 & B6 & B7).
  unfold addsSlots. rewrite B1, A1, B2, A2, B3, A3, B4, A4, B5, A5, B6, A6, B7, A7.
  rewrite fmap_app, length_app, !app_assoc.
  repeat split; try reflexivity; try lia. destruct v; lia.
Qed.

(** Slots added to a view whose blueprint and slots are as many as its
    tokens leave it so. *)
Lemma addsSlots_lengths v toks st st' :
  length (lInjectablesBlueprint st) = length (tInjectables st) ->
  length (lView st) = length (tInjectables st) ->
  addsSlots shifter v toks st st' ->
  length (lInjectablesBlueprint st') = length (tInjectables st')
  /\ length (lView st') = length (tInjectables st').
Proof.
  intros Hb Hl (H1 & H2 & H3 & _). rewrite H1, H2, H3, length_app, length_fmap. lia.
Qed.

Lemma addsSlots_updateFactoryAt v i f st st' :
  updateFactoryAt i f st = Ok st' -> addsSlots shifter v [] st st'.
Proof.
  unfold updateFactoryAt.
  destruct (DiSetup.zlookup (lInjectablesBlueprint st) i) as [[a|]|]; try discriminate.
  destruct (heap st !! a) as [F|]; try discriminate.
  destruct (f F) as [F'|e]; cbn [res_bind]; try discriminate.
  intros [= <-]. unfold setHeap, addsSlots. cbn. rewrite !app_nil_r, !Nat.add_0_r, !Z.add_0_r.
  repeat split; try reflexivity. destruct v; lia.
Qed.

Lemma addsSlots_pushFactory v token F st :
  addsSlots shifter v [token] st (pushFactory shifter token F v st).
Proof.
  unfold pushFactory, addsSlots. cbn. rewrite !length_app. cbn.
  repeat split; try reflexivity; try lia. destruct v; lia.
Qed.

Lemma addsSlots_replaceFactory v i F st :
  (Z.to_nat i < length (lInjectablesBlueprint st))%nat ->
  (Z.to_nat i < length (lView st))%nat ->
  addsSlots shifter v [] st (replaceFactory i F st).
Proof.
  intros Hb Hl. unfold replaceFactory, addsSlots. cbn.
  rewrite !arraySet_length, !app_nil_r by assumption.
  repeat split; try reflexivity; try lia. destruct v; lia.
Qed.

Lemma addsSlots_resolveSingleProvider isType token isMulti f isComponent v st st' :
  length (lInjectablesBlueprint st) = length (tInjectables st) ->
  length (lView st) = length (tInjectables st) ->
  resolveSingleProvider mask shift shifter isType token isMulti f isComponent v st = Ok st' ->
  exists toks, addsSlots shifter v toks st st' /\ (toks = [] \/ toks = [token]).
Proof.
  intros Hb Hl. unfold resolveSingleProvider.
  destruct (isType || negb isMulti).
  - match goal with |- context [indexOf ?t ?arr ?b ?e =? -1] =>
      destruct (Z.eqb_spec (indexOf t arr b e) (-1)) as [Hi|Hi] end; intros [= <-].
    + exists [token]. split; [apply addsSlots_pushFactory|auto].
    + exists []. split; [|auto]. apply addsSlots_replaceFactory.
      * rewrite Hb. apply indexOf_found. exact Hi.
      * rewrite Hl. apply indexOf_found. exact Hi.
  - intros H. apply res_bind_inv in H. destruct H as (st1 & H1 & H2).
    assert (Hfinal : addsSlots shifter v [] st1 st').
    { match type of H2 with (if ?b then _ else _) = _ => destruct b end.
      - eapply addsSlots_updateFactoryAt. exact H2.
      - injection H2 as <-. apply addsSlots_refl. }
    clear H2.
    match type of H1 with (if ?b then _ else _) = _ => destruct b end.
    + apply res_bind_inv in H1. destruct H1 as (F & _ & H1).
      apply res_bind_inv in H1. destruct H1 as (st0 & H0 & H1). injection H1 as <-.
      exists [token]. split; [|auto].
      assert (Hlink : addsSlots shifter v [] st st0).
      { match type of H0 with (if ?b then _ else _) = _ => destruct b end.
        - eapply addsSlots_updateFactoryAt. exact H0.
        - injection H0 as <-. apply addsSlots_refl. }
      apply (addsSlots_trans v [] [token] st st0); [exact Hlink|].
      change [token] with ([token] ++ []).
      eapply addsSlots_trans; [apply addsSlots_pushFactory|exact Hfinal].
    + exists []. split; [|auto].
      change (@nil nat) with (@nil nat ++ []).
      eapply addsSlots_trans; [|exact Hfinal].
      eapply addsSlots_updateFactoryAt. exact H1.
Qed.

Lemma Provider_nested_ind (P : Provider -> Prop) :
  (forall type, P (TypeProvider type)) ->
  (forall provide multi useFactory, P (ObjectProvider provide multi useFactory)) ->
  (forall providers, Forall P providers -> P (ProviderArray providers)) ->
  forall provider, P provider.
Proof.
  intros HT HO HA. fix IH 1. intros [type|provide multi useFactory|providers].
  - apply HT.
  - apply HO.
  - apply HA. induction providers as [|p ps IHps]; constructor; [apply IH|exact IHps].
Qed.

Lemma resolveProvider_addsSlots provider isComponent isViewProvider : forall st st',
  length (lInjectablesBlueprint st) = length (tInjectables st) ->
  length (lView st) = length (tInjectables st) ->
  resolveProvider mask shift shifter provider isComponent isViewProvider st = Ok st' ->
  exists toks, addsSlots shifter isViewProvider toks st st'.
Proof.
  induction provider as [type|provide multi useFactory|providers IH]
    using Provider_nested_ind; intros st st' Hb Hl Hrun.
  - cbn [resolveProvider] in Hrun.
    destruct (addsSlots_resolveSingleProvider _ _ _ _ _ _ _ _ Hb Hl Hrun) as (toks & H & _).
    eauto.
  - cbn [resolveProvider] in Hrun.
    destruct (addsSlots_resolveSingleProvider _ _ _ _ _ _ _ _ Hb Hl Hrun) as (toks & H & _).
    eauto.
  - cbn [resolveProvider] in Hrun. revert st Hb Hl Hrun.
    induction IH as [|p ps Hp _ IHps]; intros st Hb Hl Hrun.
    + injection Hrun as <-. exists []. apply addsSlots_refl.
    + cbn [forEach] in Hrun. apply res_bind_inv in Hrun. destruct Hrun as (st1 & H1 & Hrest).
      destruct (Hp st st1 Hb Hl H1) as (toks1 & Hadd1).
      destruct (addsSlots_lengths _ _ _ _ Hb Hl Hadd1) as [Hb1 Hl1].
      destruct (IHps st1 Hb1 Hl1 Hrest) as (toks2 & Hadd2).
      exists (toks1 ++ toks2). eapply addsSlots_trans; eassumption.
Qed.

Lemma resolveProvider_noMultiProvider provider isComponent isViewProvider : forall st,
  noMultiProvider provider = true ->
  exists st', resolveProvider mask shift shifter provider isComponent isViewProvider st = Ok st'.
Proof.
  induction provider as [type|provide multi useFactory|providers IH]
    using Provider_nested_ind; intros st Hno.
  - cbn [resolveProvider]. unfold resolveSingleProvider. cbn [orb].
    match goal with |- context [if ?b then _ else _] => destruct b end; eauto.
  - cbn [noMultiProvider] in Hno. cbn [resolveProvider]. unfold resolveSingleProvider.
    rewrite Hno. cbn [orb].
    match goal with |- context [if ?b then _ else _] => destruct b end; eauto.
  - cbn [noMultiProvider] in Hno. cbn [resolveProvider]. revert st.
    induction IH as [|p ps Hp _ IHps]; intros st.
    + exists st. reflexivity.
    + cbn [forallb] in Hno. apply andb_prop in Hno. destruct Hno as [Hnop Hnops].
      destruct (Hp st Hnop) as (st1 & H1). destruct (IHps Hnops st1) as (st2 & H2).
      exists st2. cbn [forEach]. rewrite H1. exact H2.
Qed.

(** X9. [resolveProvider] only appends, on a view whose blueprint and
    slots are as many as its tokens: whatever the provider (a type, an
    object or nested arrays of them), when the call returns, the tokens of
    the view before the call stay where they are, one token is appended for
    every slot taken, the blueprint and the view grow by the same number of
    slots (so that the three stay as long as each other), each new token is
    made public in the injector, the directives of the node move up by that
    number, and the count of view providers kept in [providerIndexes] grows
    by it for view providers and not at all for providers. The call returns
    whenever none of the providers is a multi provider. *)
Theorem resolveProvider_appends_slots provider isComponent isViewProvider st :
  length (lInjectablesBlueprint st) = length (tInjectables st) ->
  length (lView st) = length (tInjectables st) ->
  (forall st',
     resolveProvider mask shift shifter provider isComponent isViewProvider st = Ok st' ->
     exists toks,
       addsSlots shifter isViewProvider toks st st'
       /\ length (lInjectablesBlueprint st') = length (tInjectables st')
       /\ length (lView st') = length (tInjectables st'))
  /\ (noMultiProvider provider = true ->
      exists st',
        resolveProvider mask shift shifter provider isComponent isViewProvider st = Ok st').
Proof.
  intros Hb Hl. split.
  - intros st' Hrun.
    destruct (resolveProvider_addsSlots _ _ _ _ _ Hb Hl Hrun) as (toks & H).
    exists toks. split; [exact H|]. exact (addsSlots_lengths _ _ _ _ Hb Hl H).
  - apply resolveProvider_noMultiProvider.
Qed.

End Constants.
End DiSetupSlots.

Lemma resolveProvider_appends_slots_witness :
  exists st' toks,
    DiSetup.resolveProvider DiSetupExample.ProvidersStartIndexMask
      DiSetupExample.CptViewProvidersCountShift DiSetupExample.CptViewProvidersCountShifter
      (DiSetup.ProviderArray
         [DiSetup.TypeProvider 3;
          DiSetup.ProviderArray [DiSetup.ObjectProvider 7 true (fun _ => DiSetup.Instance 1);
                                 DiSetup.TypeProvider 3]])
      true true DiSetupExample.view0
    = Ok st'
    /\ DiSetup.addsSlots DiSetupExample.CptViewProvidersCountShifter true toks
         DiSetupExample.view0 st'
    /\ toks = [3%nat; 7%nat].
Proof.
  eexists.
  destruct (resolveProvider_appends_slots DiSetupExample.ProvidersStartIndexMask
              DiSetupExample.CptViewProvidersCountShift
              DiSetupExample.CptViewProvidersCountShifter
              (DiSetup.ProviderArray
                 [DiSetup.TypeProvider 3;
                  DiSetup.ProviderArray
                    [DiSetup.ObjectProvider 7 true (fun _ => DiSetup.Instance 1);
                     DiSetup.TypeProvider 3]])
              true true DiSetupExample.view0 eq_refl eq_refl) as [Hadds _].
  destruct (Hadds _ ltac:(vm_compute; reflexivity)) as (toks & H & _).
  exists toks. split; [vm_compute; reflexivity|]. split; [exact H|].
  destruct H as (Htoks & _). vm_compute in Htoks.
  destruct toks as [|t1 [|t2 [|t3 toks]]]; try discriminate.
  injection Htoks as <- <-. reflexivity.
Defined.

(** A multi provider that comes after a provider of the same token that is
    not multi finds a factory without [multi] array: [multiFactoryAdd]
    throws. *)
Example resolveProvider_multi_after_single :
  DiSetup.resolveProvider DiSetupExample.ProvidersStartIndexMask
    DiSetupExample.CptViewProvidersCountShift DiSetupExample.CptViewProvidersCountShifter
    (DiSetup.ProviderArray
       [DiSetup.ObjectProvider 7 false (fun _ => DiSetup.Instance 1);
        DiSetup.ObjectProvider 7 true (fun _ => DiSetup.Instance 2)])
    false false DiSetupExample.view0
  = Throw (DiSetup.TypeError "Cannot read properties of undefined (reading 'push')").
Proof. vm_compute. reflexivity. Qed.

Section DiSetupPrecedence.
Import DiSetup.

Variable shift : Z.
Hypothesis shift_pos : 0 < shift.

Let mask : Z := Z.ones shift.
Let shifter : Z := 2 ^ shift.

(** The single provider case of [resolveProvider], by what the search for
    the token gives. *)
Lemma resolveSingleProvider_single (st : DiState) (token : nat) f isComponent
    (isViewProvider : bool) (n : nat) (c : Z) :
  providerIndexes st = Z.of_nat n + c * shifter ->
  0 <= c -> Z.of_nat n < 2 ^ shift ->
  let i := indexOf token (tInjectables st)
             (if isViewProvider then Z.of_nat n else Z.of_nat n + c) (directiveStart st) in
  resolveSingleProvider mask shift shifter false token false f isComponent isViewProvider st
  = Ok (if i =? -1
        then pushFactory shifter token
               (newNodeInjectorFactory (ProviderFactory f) isViewProvider) isViewProvider st
        else replaceFactory i (newNodeInjectorFactory (ProviderFactory f) isViewProvider) st).
Proof.
  intros Hp Hc Hn i. unfold resolveSingleProvider. cbn [orb negb].
  destruct (start_unpack shift shift_pos (Z.of_nat n) c) as [Hland Hshr]; [lia|lia|].
  fold mask shifter in Hland, Hshr. rewrite Hp, Hland, Hshr. fold i.
  destruct (i =? -1); reflexivity.
Qed.

(** The search of [locateDirectiveOrProvider], and the value of a slot that
    holds the factory of a single provider. *)
Lemma lookupToken_single fuel (st : DiState) (token : nat) (fromView : bool) (n : nat) (c : Z)
    a F f :
  providerIndexes st = Z.of_nat n + c * shifter ->
  0 <= c -> Z.of_nat n < 2 ^ shift ->
  let i := indexOf token (tInjectables st)
             (if fromView then Z.of_nat n else Z.of_nat n + c) (directiveStart st) in
  i <> -1 ->
  DiSetup.zlookup (lView st) i = Some (Some a) ->
  heap st !! a = Some F ->
  factory F = ProviderFactory f ->
  lookupToken mask shift (S fuel) st token fromView = Some (f tt).
Proof.
  intros Hp Hc Hn i Hi Hslot Ha HF. unfold lookupToken, locateDirectiveOrProvider.
  destruct (start_unpack shift shift_pos (Z.of_nat n) c) as [Hland Hshr]; [lia|lia|].
  fold mask shifter in Hland, Hshr. rewrite Hp, Hland, Hshr. fold i.
  destruct (Z.eqb_spec i (-1)); [contradiction|].
  cbn [getNodeInjectable]. rewrite Hslot, Ha, HF. reflexivity.
Qed.

Lemma zlookup_last {A} (l : list A) x : DiSetup.zlookup (l ++ [x]) (Z.of_nat (length l)) = Some x.
Proof.
  pose proof (zlookup_app_at shift shift_pos l [x] 0) as H. rewrite Z.add_0_r in H. exact H.
Qed.

(** X10. When two providers that are not multi give the same token on a
    node, the later one wins: one slot is taken, the factory of the later
    provider replaces that of the earlier one in it, and a lookup of the
    token, from the view of the component or from outside, gives the value
    of the later provider. *)
Theorem single_provider_last_wins st token f1 f2 isComponent fromView (fuel : nat) :
  freshNode shift st ->
  (1 <= fuel)%nat ->
  exists st',
    providersResolver mask shift shifter isComponent
      [ObjectProvider token false f1; ObjectProvider token false f2] [] st = Ok st'
    /\ lookupToken mask shift fuel st' token fromView = Some (f2 tt)
    /\ tInjectables st' = tInjectables st ++ [Some token]
    /\ directiveStart st' = directiveStart st + 1.
Proof.
  intros (Hb & Hl & Hp & Hd & Hlt) Hfuel.
  set (n := length (tInjectables st)) in *.
  set (F1 := newNodeInjectorFactory (ProviderFactory f1) false).
  set (F2 := newNodeInjectorFactory (ProviderFactory f2) false).
  set (st1 := pushFactory shifter token F1 false st).
  assert (H1 : resolveSingleProvider mask shift shifter false token false f1 isComponent false st
               = Ok st1).
  { rewrite (resolveSingleProvider_single st token f1 isComponent false n 0); try lia.
    rewrite Z.add_0_r, Hd, indexOf_empty_range. reflexivity. }
  assert (Hi1 : indexOf token (tInjectables st1) (Z.of_nat n + 0) (directiveStart st1)
                = Z.of_nat n).
  { unfold st1, pushFactory. cbn [tInjectables directiveStart]. rewrite Z.add_0_r, Hd.
    apply (indexOf_first shift shift_pos token (tInjectables st) []). lia. }
  assert (H2 : resolveSingleProvider mask shift shifter false token false f2 isComponent false st1
               = Ok (replaceFactory (Z.of_nat n) F2 st1)).
  { rewrite (resolveSingleProvider_single st1 token f2 isComponent false n 0); try lia.
    - rewrite Hi1. destruct (Z.eqb_spec (Z.of_nat n) (-1)); [lia|reflexivity].
    - unfold st1, pushFactory. cbn [providerIndexes]. lia. }
  exists (replaceFactory (Z.of_nat n) F2 st1). split.
  { unfold providersResolver. cbn [resolveProvider forEach providerToFactory res_bind].
    rewrite H1. cbn [res_bind]. rewrite H2. reflexivity. }
  destruct fuel as [|fuel]; [lia|].
  split; [|split; [reflexivity|unfold replaceFactory, st1, pushFactory; cbn; lia]].
  apply (lookupToken_single fuel _ token fromView n 0 (length (heap st1)) F2 f2).
  - unfold replaceFactory, st1, pushFactory. cbn [providerIndexes]. lia.
  - lia.
  - lia.
  - assert (Hi : (if fromView then Z.of_nat n else Z.of_nat n + 0) = Z.of_nat n + 0)
      by (destruct fromView; lia).
    rewrite Hi. cbn [replaceFactory tInjectables directiveStart]. rewrite Hi1. lia.
  - assert (Hi : (if fromView then Z.of_nat n else Z.of_nat n + 0) = Z.of_nat n + 0)
      by (destruct fromView; lia).
    rewrite Hi. cbn [replaceFactory tInjectables directiveStart lView]. rewrite Hi1.
    unfold DiSetup.zlookup. destruct (Z.ltb_spec (Z.of_nat n) 0); [lia|].
    rewrite Nat2Z.id. unfold arraySet. apply list_lookup_insert_eq.
    unfold st1, pushFactory. cbn [lView]. rewrite !length_app, Hl. cbn. lia.
  - cbn [replaceFactory heap]. rewrite lookup_app_r by lia. rewrite Nat.sub_diag. reflexivity.
  - reflexivity.
Qed.

(** X11. A view provider that is not multi is seen from the view of the
    component only, and has precedence there: with a view provider and a
    provider of the component for the same token, a lookup from the view
    gives the value of the view provider and a lookup from outside gives
    the value of the provider; with the view provider alone, a lookup from
    outside finds nothing. *)
Theorem view_provider_shadows_provider st token fv fc (fuel : nat) :
  freshNode shift st ->
  (1 <= fuel)%nat ->
  exists both alone,
    providersResolver mask shift shifter true
      [ObjectProvider token false fc] [ObjectProvider token false fv] st = Ok both
    /\ providersResolver mask shift shifter true
         [] [ObjectProvider token false fv] st = Ok alone
    /\ lookupToken mask shift fuel both token true = Some (fv tt)
    /\ lookupToken mask shift fuel both token false = Some (fc tt)
    /\ lookupToken mask shift fuel alone token true = Some (fv tt)
    /\ lookupToken mask shift fuel alone token false = None.
Proof.
  intros (Hb & Hl & Hp & Hd & Hlt) Hfuel.
  set (n := length (tInjectables st)) in *.
  set (Fv := newNodeInjectorFactory (ProviderFactory fv) true).
  set (Fc := newNodeInjectorFactory (ProviderFactory fc) false).
  set (st1 := pushFactory shifter token Fv true st).
  assert (H1 : resolveSingleProvider mask shift shifter false token false fv true true st
               = Ok st1).
  { rewrite (resolveSingleProvider_single st token fv true true n 0); try lia.
    rewrite Hd, indexOf_empty_range. reflexivity. }
  assert (Hp1 : providerIndexes st1 = Z.of_nat n + 1 * shifter).
  { unfold st1, pushFactory. cbn [providerIndexes]. lia. }
  assert (Hd1 : directiveStart st1 = Z.of_nat n + 1).
  { unfold st1, pushFactory. cbn [directiveStart]. lia. }
  assert (H2 : resolveSingleProvider mask shift shifter false token false fc true false st1
               = Ok (pushFactory shifter token Fc false st1)).
  { rewrite (resolveSingleProvider_single st1 token fc true false n 1); try lia.
    rewrite Hd1, indexOf_empty_range. reflexivity. }
  exists (pushFactory shifter token Fc false st1), st1.
  split.
  { unfold providersResolver. cbn [resolveProvider forEach providerToFactory].
    rewrite H1. cbn [res_bind]. rewrite H2. reflexivity. }
  split.
  { unfold providersResolver. cbn [resolveProvider forEach providerToFactory].
    rewrite H1. reflexivity. }
  destruct fuel as [|fuel]; [lia|].
  assert (Hfirst : forall r steps, 0 < steps ->
            indexOf token (tInjectables st ++ Some token :: r) (Z.of_nat n)
              (Z.of_nat n + steps) = Z.of_nat n).
  { intros r steps Hs. apply (indexOf_first shift shift_pos token (tInjectables st) r). exact Hs. }
  split; [|split; [|split]].
  - apply (lookupToken_single fuel _ token true n 1 (length (heap st)) Fv fv).
    + unfold pushFactory. cbn [providerIndexes]. exact Hp1.
    + lia.
    + lia.
    + unfold st1, pushFactory. cbn [tInjectables directiveStart].
      rewrite <- app_assoc. cbn [app].
      replace (directiveStart st + 1 + 1) with (Z.of_nat n + 2) by lia.
      rewrite Hfirst by lia. lia.
    + unfold st1, pushFactory. cbn [tInjectables directiveStart lView].
      rewrite <- !app_assoc. cbn [app].
      replace (directiveStart st + 1 + 1) with (Z.of_nat n + 2) by lia.
      rewrite Hfirst by lia.
      pose proof (zlookup_app_at shift shift_pos (lView st)
                    [Some (length (heap st)); Some (length (heap st ++ [Fv]))] 0) as Hz.
      rewrite Z.add_0_r, Hl in Hz. exact Hz.
    + unfold st1, pushFactory. cbn [heap]. rewrite <- app_assoc. cbn [app].
      rewrite lookup_app_r by lia. rewrite Nat.sub_diag. reflexivity.
    + reflexivity.
  - assert (Hi : indexOf token (tInjectables (pushFactory shifter token Fc false st1))
                   (Z.of_nat n + 1) (directiveStart (pushFactory shifter token Fc false st1))
                 = Z.of_nat n + 1).
    { unfold st1, pushFactory. cbn [tInjectables directiveStart].
      pose proof (indexOf_first shift shift_pos token (tInjectables st ++ [Some token]) [] 1) as H.
      rewrite length_app in H. cbn [length] in H. fold n in H.
      replace (Z.of_nat (n + 1)) with (Z.of_nat n + 1) in H by lia.
      replace (directiveStart st + 1 + 1) with (Z.of_nat n + 1 + 1) by lia.
      apply H. lia. }
    apply (lookupToken_single fuel _ token false n 1 (length (heap st1)) Fc fc).
    + unfold pushFactory. cbn [providerIndexes]. exact Hp1.
    + lia.
    + lia.
    + rewrite Hi. lia.
    + rewrite Hi. unfold pushFactory at 1. cbn [lView].
      pose proof (zlookup_last (lView st1) (Some (length (heap st1)))) as Hz.
      assert (Hlen1 : length (lView st1) = (n + 1)%nat).
      { unfold st1, pushFactory. cbn [lView]. rewrite length_app, Hl. reflexivity. }
      rewrite Hlen1 in Hz.
      replace (Z.of_nat (n + 1)) with (Z.of_nat n + 1) in Hz by lia. exact Hz.
    + unfold pushFactory at 1. cbn [heap]. rewrite lookup_app_r by lia.
      rewrite Nat.sub_diag. reflexivity.
    + reflexivity.
  - apply (lookupToken_single fuel _ token true n 1 (length (heap st)) Fv fv).
    + exact Hp1.
    + lia.
    + lia.
    + unfold st1, pushFactory. cbn [tInjectables directiveStart].
      rewrite Hd, Hfirst by lia. lia.
    + unfold st1, pushFactory. cbn [tInjectables directiveStart lView].
      rewrite Hd, Hfirst by lia.
      pose proof (zlookup_last (lView st) (Some (length (heap st)))) as Hz.
      rewrite Hl in Hz. exact Hz.
    + unfold st1, pushFactory. cbn [heap]. rewrite lookup_app_r by lia.
      rewrite Nat.sub_diag. reflexivity.
    + reflexivity.
  - unfold lookupToken, locateDirectiveOrProvider.
    destruct (start_unpack shift shift_pos (Z.of_nat n) 1) as [Hland Hshr]; [lia|lia|].
    fold mask shifter in Hland, Hshr. rewrite Hp1, Hland, Hshr, Hd1, indexOf_empty_range.
    reflexivity.
Qed.


Lemma multiResolve_spec (fs : list (unit -> Value)) : forall result,
  multiResolve fs result = result ++ ((fun f => f tt) <$> fs).
Proof.
  induction fs as [|f fs IH]; intros result; cbn [multiResolve fmap list_fmap].
  - rewrite app_nil_r. reflexivity.
  - rewrite IH, <- app_assoc. reflexivity.
Qed.

(** The node once the providers [gs] of a multi token are registered on a
    node that had no providers. *)
Lemma multi_providers_run st token isComponent f (fs : list (unit -> Value)) :
  freshNode shift st ->
  forEach (fun p st => resolveProvider mask shift shifter p isComponent false st)
    ((fun g => ObjectProvider token true g) <$> (f :: fs)) st
  = Ok {| heap := heap st ++ [providersMultiFactory (f :: fs)
                                (Z.of_nat (length (tInjectables st))) isComponent];
          tInjectables := tInjectables st ++ [Some token];
          lInjectablesBlueprint := lInjectablesBlueprint st ++ [Some (length (heap st))];
          lView := lView st ++ [Some (length (heap st))];
          providerIndexes := providerIndexes st;
          directiveStart := directiveStart st + 1;
          directiveEnd := directiveEnd st + 1;
          diPublic := diPublic st ++ [token] |}.
Proof.
  intros (Hb & Hl & Hp & Hd & Hlt).
  set (n := length (tInjectables st)) in *.
  set (a := length (heap st)).
  set (stk := fun gs : list (unit -> Value) =>
         {| heap := heap st ++ [providersMultiFactory gs (Z.of_nat n) isComponent];
            tInjectables := tInjectables st ++ [Some token];
            lInjectablesBlueprint := lInjectablesBlueprint st ++ [Some a];
            lView := lView st ++ [Some a];
            providerIndexes := providerIndexes st;
            directiveStart := directiveStart st + 1;
            directiveEnd := directiveEnd st + 1;
            diPublic := diPublic st ++ [token] |}).
  destruct (start_unpack shift shift_pos (Z.of_nat n) 0) as [Hland Hshr]; [lia|lia|].
  fold mask shifter in Hland, Hshr. rewrite Z.mul_0_l, Z.add_0_r in Hland, Hshr.
  assert (Hfirst : resolveSingleProvider mask shift shifter false token true f isComponent
                     false st = Ok (stk [f])).
  { unfold resolveSingleProvider. cbn [orb negb andb].
    rewrite Hp, Hland, Hshr, Z.add_0_r, Hd, !indexOf_empty_range.
    unfold factoryExists. change (0 <=? -1) with false. cbn [andb negb orb].
    rewrite andb_false_r.
    unfold pushFactory, stk, multiFactory, multiFactoryAdd, providersMultiFactory.
    destruct isComponent;
      cbn [andb negb incrementComponentProviders multi componentProviders factory
           canSeeViewProviders index providerFactory res_bind fst];
      rewrite Hb; fold n a; reflexivity. }
  assert (Hnext : forall gs g,
            resolveSingleProvider mask shift shifter false token true g isComponent false
              (stk gs) = Ok (stk (gs ++ [g]))).
  { intros gs g. unfold resolveSingleProvider. cbn [orb negb andb].
    cbn [providerIndexes directiveStart tInjectables stk].
    rewrite Hp, Hland, Hshr, Z.add_0_r, indexOf_empty_range, Hd.
    pose proof (indexOf_first shift shift_pos token (tInjectables st) [] 1 ltac:(lia)) as Hix.
    fold n in Hix. rewrite Hix.
    assert (Hex : factoryExists (Z.of_nat n) (stk gs) = true).
    { rewrite <- Hb. apply (factoryExists_at shift shift_pos (stk gs) _ a []).
      reflexivity. }
    assert (Hno : factoryExists (-1) (stk gs) = false) by reflexivity.
    rewrite Hex, Hno. cbn [negb andb orb]. rewrite andb_false_r.
    rewrite <- Hb.
    rewrite (updateFactoryAt_at shift shift_pos _ (stk gs) (heap st)
               (providersMultiFactory gs (Z.of_nat n) isComponent)
               (providersMultiFactory (gs ++ [g]) (Z.of_nat n) isComponent) []
               (lInjectablesBlueprint st) []); [reflexivity|reflexivity|reflexivity|].
    unfold multiFactoryAdd, providersMultiFactory, incrementComponentProviders.
    destruct isComponent; cbn; [|reflexivity].
    rewrite length_app. cbn [length]. do 5 f_equal. lia. }
  assert (Hfold : forall fs gs,
            forEach (fun p st => resolveProvider mask shift shifter p isComponent false st)
              ((fun g => ObjectProvider token true g) <$> fs) (stk gs)
            = Ok (stk (gs ++ fs))).
  { clear fs. induction fs as [|g fs IH]; intros gs.
    - rewrite app_nil_r. reflexivity.
    - cbn [fmap list_fmap forEach resolveProvider providerToFactory].
      change (list_fmap _ _ ?h ?l) with (h <$> l).
      rewrite Hnext. cbn [res_bind]. rewrite IH, <- app_assoc. reflexivity. }
  cbn [fmap list_fmap forEach resolveProvider providerToFactory].
  change (list_fmap _ _ ?h ?l) with (h <$> l).
  rewrite Hfirst. cbn [res_bind]. rewrite Hfold. reflexivity.
Qed.

(** X12. The providers of a multi token resolve in the order in which they
    are registered: with the providers [f, fs...] of the token and no view
    provider, on a node without other providers, one slot is taken and a
    lookup of the token, from the view or from outside, gives the array of
    their values in this order. *)
Theorem multi_providers_in_registration_order st token isComponent f
    (fs : list (unit -> Value)) (fromView : bool) (fuel : nat) :
  freshNode shift st ->
  (1 <= fuel)%nat ->
  exists st',
    providersResolver mask shift shifter isComponent
      ((fun g => ObjectProvider token true g) <$> (f :: fs)) [] st = Ok st'
    /\ lookupToken mask shift fuel st' token fromView
       = Some (ArrayOf ((fun g => g tt) <$> (f :: fs)))
    /\ tInjectables st' = tInjectables st ++ [Some token].
Proof.
  intros Hfresh Hfuel.
  pose proof (multi_providers_run st token isComponent f fs Hfresh) as Hrun.
  eexists. split.
  { unfold providersResolver. cbn [resolveProvider forEach res_bind]. exact Hrun. }
  destruct Hfresh as (Hb & Hl & Hp & Hd & Hlt).
  set (n := length (tInjectables st)) in *.
  destruct (start_unpack shift shift_pos (Z.of_nat n) 0) as [Hland Hshr]; [lia|lia|].
  fold mask shifter in Hland, Hshr. rewrite Z.mul_0_l, Z.add_0_r in Hland, Hshr.
  split; [|reflexivity].
  destruct fuel as [|fuel]; [lia|].
  unfold lookupToken, locateDirectiveOrProvider.
  cbn [providerIndexes tInjectables directiveStart].
  rewrite Hp, Hland, Hshr, Z.add_0_r, Hd.
  assert (Hi : (if fromView then Z.of_nat n else Z.of_nat n) = Z.of_nat n)
    by (destruct fromView; reflexivity).
  pose proof (indexOf_first shift shift_pos token (tInjectables st) [] 1 ltac:(lia)) as Hix.
  fold n in Hix. rewrite Hi, Hix.
  destruct (Z.eqb_spec (Z.of_nat n) (-1)); [lia|].
  cbn [getNodeInjectable lView heap].
  pose proof (zlookup_last (lView st) (Some (length (heap st)))) as Hz.
  rewrite Hl in Hz. fold n in Hz. rewrite Hz.
  rewrite lookup_app_r by lia. rewrite Nat.sub_diag. cbn [lookup list_lookup].
  cbn [providersMultiFactory factory multi].
  rewrite multiResolve_spec. reflexivity.
Qed.

End DiSetupPrecedence.

Lemma single_provider_last_wins_witness :
  exists st',
    DiSetup.providersResolver DiSetupExample.ProvidersStartIndexMask
      DiSetupExample.CptViewProvidersCountShift DiSetupExample.CptViewProvidersCountShifter
      false
      [DiSetup.ObjectProvider 7 false (fun _ => DiSetup.Instance 1);
       DiSetup.ObjectProvider 7 false (fun _ => DiSetup.Instance 2)] []
      DiSetupExample.view0
    = Ok st'
    /\ DiSetup.lookupToken DiSetupExample.ProvidersStartIndexMask
         DiSetupExample.CptViewProvidersCountShift 1 st' 7 false
       = Some (DiSetup.Instance 2).
Proof.
  destruct (single_provider_last_wins 20 ltac:(lia) DiSetupExample.view0 7%nat
              (fun _ => DiSetup.Instance 1) (fun _ => DiSetup.Instance 2) false false 1)
    as (st' & Hrun & Hlookup & _).
  - unfold DiSetup.freshNode. repeat split; vm_compute; reflexivity.
  - lia.
  - exists st'. split; [exact Hrun|exact Hlookup].
Defined.

Lemma view_provider_shadows_provider_witness :
  exists both,
    DiSetup.providersResolver DiSetupExample.ProvidersStartIndexMask
      DiSetupExample.CptViewProvidersCountShift
      DiSetupExample.CptViewProvidersCountShifter true
      [DiSetup.ObjectProvider 7 false (fun _ => DiSetupExample.X_component)]
      [DiSetup.ObjectProvider 7 false (fun _ => DiSetupExample.X_view)]
      DiSetupExample.view0
    = Ok both
    /\ DiSetup.lookupToken DiSetupExample.ProvidersStartIndexMask
         DiSetupExample.CptViewProvidersCountShift 1 both 7 true = Some DiSetupExample.X_view
    /\ DiSetup.lookupToken DiSetupExample.ProvidersStartIndexMask
         DiSetupExample.CptViewProvidersCountShift 1 both 7 false
       = Some DiSetupExample.X_component.
Proof.
  destruct (view_provider_shadows_provider 20 ltac:(lia) DiSetupExample.view0 7%nat
              (fun _ => DiSetupExample.X_view) (fun _ => DiSetupExample.X_component) 1)
    as (both & alone & Hboth & _ & Hv & Hc & _).
  - unfold DiSetup.freshNode. repeat split; vm_compute; reflexivity.
  - lia.
  - exists both. split; [exact Hboth|]. exact (conj Hv Hc).
Defined.

Lemma multi_providers_in_registration_order_witness :
  exists st',
    DiSetup.providersResolver DiSetupExample.ProvidersStartIndexMask
      DiSetupExample.CptViewProvidersCountShift DiSetupExample.CptViewProvidersCountShifter
      true
      [DiSetup.ObjectProvider 7 true (fun _ => DiSetup.Instance 1);
       DiSetup.ObjectProvider 7 true (fun _ => DiSetup.Instance 2);
       DiSetup.ObjectProvider 7 true (fun _ => DiSetup.Instance 3)] []
      DiSetupExample.view0
    = Ok st'
    /\ DiSetup.lookupToken DiSetupExample.ProvidersStartIndexMask
         DiSetupExample.CptViewProvidersCountShift 1 st' 7 false
       = Some (DiSetup.ArrayOf [DiSetup.Instance 1; DiSetup.Instance 2; DiSetup.Instance 3]).
Proof.
  destruct (multi_providers_in_registration_order 20 ltac:(lia) DiSetupExample.view0 7%nat
              true (fun _ => DiSetup.Instance 1)
              [fun _ => DiSetup.Instance 2; fun _ => DiSetup.Instance 3] false 1)
    as (st' & Hrun & Hlookup & _).
  - unfold DiSetup.freshNode. repeat split; vm_compute; reflexivity.
  - lia.
  - exists st'. split; [exact Hrun|exact Hlookup].
Defined.

(** ** Constructor dependencies: tokens, flags and errors *)

Section DiParameters.
Import Di.

Lemma forEachParameter_plain isCore params : forall idx deps errors,
  (forall p, p ∈ params ->
     consideredDecorators isCore p = []
     /\ is_Some (valueReferenceToExpression (typeValueReference p))) ->
  exists deps',
    forEachParameter isCore idx params deps errors = Ok (deps ++ deps', errors)
    /\ Forall2 (fun p d =>
                  valueReferenceToExpression (typeValueReference p) = Some (token d)
                  /\ d = plainDependency (token d)) params deps'.
Proof.
  induction params as [|p rest IH]; intros idx deps errors Hall.
  - exists []. rewrite app_nil_r. split; [reflexivity|constructor].
  - destruct (Hall p (list_elem_of_here _ _)) as [Hnone [t Ht]].
    destruct (IH (S idx) (deps ++ [plainDependency t]) errors) as (deps' & Hrun & HF).
    { intros q Hq. apply Hall, list_elem_of_further, Hq. }
    exists (plainDependency t :: deps'). cbn [forEachParameter].
    unfold processParameter. rewrite Hnone, Ht. cbn [applyDecorators res_bind st_token
      st_attributeNameType st_optional st_self st_skipSelf st_host].
    fold (plainDependency t). rewrite Hrun, <- app_assoc. split; [reflexivity|].
    constructor; [split; [exact Ht|reflexivity]|exact HF].
Qed.

(** X13. Parameters whose type has a value and on which no decorator is
    looked at (none at all or, outside of the core package, none that is
    imported from [@angular/core]) give one dependency each, in the order of
    the parameters: the token is that of the type of the parameter, no flag
    is set and there is no attribute name. *)
Theorem getConstructorDependencies_plain_parameters clazz isCore params :
  getConstructorParameters clazz = Some params ->
  (forall p, p ∈ params ->
     consideredDecorators isCore p = []
     /\ is_Some (valueReferenceToExpression (typeValueReference p))) ->
  exists deps,
    getConstructorDependencies clazz isCore = Ok (Some (Deps deps))
    /\ Forall2 (fun p d =>
                  valueReferenceToExpression (typeValueReference p) = Some (token d)
                  /\ d = plainDependency (token d)) params deps.
Proof.
  intros Hparams Hall.
  destruct (forEachParameter_plain isCore params 0 [] [] Hall) as (deps & Hrun & HF).
  exists deps. split; [|exact HF].
  unfold getConstructorDependencies. rewrite Hparams.
  destruct (hasBaseClass clazz); cbn [default]; unfold id; rewrite Hrun; reflexivity.
Qed.


Ltac decide_names :=
  repeat match goal with
         | |- context [bool_decide (?a = ?b)] =>
             let v := eval vm_compute in (bool_decide (a = b)) in
             change (bool_decide (a = b)) with v
         end.

Lemma applyDecorator_flags isCore st dec st' :
  applyDecorator isCore st dec = Ok st' ->
  st_optional st' = st_optional st || bool_decide (decoratorName isCore dec = "Optional")
  /\ st_self st' = st_self st || bool_decide (decoratorName isCore dec = "Self")
  /\ st_skipSelf st' = st_skipSelf st || bool_decide (decoratorName isCore dec = "SkipSelf")
  /\ st_host st' = st_host st || bool_decide (decoratorName isCore dec = "Host").
Proof.
  unfold applyDecorator. intros H.
  destruct (bool_decide (decoratorName isCore dec = "Inject")) eqn:HI.
  { apply bool_decide_eq_true in HI. rewrite HI.
    destruct (args dec) as [[|a [|]]|]; try discriminate. injection H as <-.
    cbn [st_optional st_self st_skipSelf st_host]. decide_names.
    rewrite !orb_false_r. auto. }
  destruct (bool_decide (decoratorName isCore dec = "Optional")) eqn:HO.
  { apply bool_decide_eq_true in HO. try rewrite HO. injection H as <-.
    cbn [st_optional st_self st_skipSelf st_host]. decide_names.
    rewrite ?orb_false_r, ?orb_true_r. auto. }
  destruct (bool_decide (decoratorName isCore dec = "SkipSelf")) eqn:HK.
  { apply bool_decide_eq_true in HK. try rewrite HK. injection H as <-.
    cbn [st_optional st_self st_skipSelf st_host]. decide_names.
    rewrite ?orb_false_r, ?orb_true_r. auto. }
  destruct (bool_decide (decoratorName isCore dec = "Self")) eqn:HS.
  { apply bool_decide_eq_true in HS. try rewrite HS. injection H as <-.
    cbn [st_optional st_self st_skipSelf st_host]. decide_names.
    rewrite ?orb_false_r, ?orb_true_r. auto. }
  destruct (bool_decide (decoratorName isCore dec = "Host")) eqn:HH.
  { apply bool_decide_eq_true in HH. try rewrite HH. injection H as <-.
    cbn [st_optional st_self st_skipSelf st_host]. decide_names.
    rewrite ?orb_false_r, ?orb_true_r. auto. }
  destruct (bool_decide (decoratorName isCore dec = "Attribute")) eqn:HA; [|discriminate].
  destruct (args dec) as [[|a [|]]|]; try discriminate. injection H as <-.
  cbn [st_optional st_self st_skipSelf st_host]. rewrite !orb_false_r. auto.
Qed.

Lemma applyDecorators_flags isCore decs : forall st st',
  applyDecorators isCore st decs = Ok st' ->
  st_optional st'
  = st_optional st || existsb (fun dec => bool_decide (decoratorName isCore dec = "Optional")) decs
  /\ st_self st'
     = st_self st || existsb (fun dec => bool_decide (decoratorName isCore dec = "Self")) decs
  /\ st_skipSelf st'
     = st_skipSelf st
       || existsb (fun dec => bool_decide (decoratorName isCore dec = "SkipSelf")) decs
  /\ st_host st'
     = st_host st || existsb (fun dec => bool_decide (decoratorName isCore dec = "Host")) decs.
Proof.
  induction decs as [|dec rest IH]; intros st st' H.
  - injection H as <-. cbn [existsb]. rewrite !orb_false_r. auto.
  - cbn [applyDecorators] in H.
    destruct (applyDecorator isCore st dec) as [st1|e] eqn:H1; [|discriminate].
    cbn [res_bind] in H.
    destruct (applyDecorator_flags _ _ _ _ H1) as (A1 & A2 & A3 & A4).
    destruct (IH _ _ H) as (B1 & B2 & B3 & B4).
    cbn [existsb]. rewrite B1, B2, B3, B4, A1, A2, A3, A4, !orb_assoc. auto.
Qed.

(** X14. The flags of a dependency say which decorators the parameter
    carries, whatever their order and number: [optional], [self],
    [skipSelf] and [host] are set exactly when a decorator named
    [Optional], [Self], [SkipSelf] or [Host] is among the decorators looked
    at. *)
Theorem processParameter_flags isCore idx p dep :
  processParameter isCore idx p = Ok (inl dep) ->
  optional dep = hasDecorator isCore "Optional" p
  /\ self dep = hasDecorator isCore "Self" p
  /\ skipSelf dep = hasDecorator isCore "SkipSelf" p
  /\ host dep = hasDecorator isCore "Host" p.
Proof.
  unfold processParameter. intros H.
  destruct (applyDecorators isCore _ (consideredDecorators isCore p)) as [st|e] eqn:Hst;
    [|discriminate].
  cbn [res_bind] in H.
  destruct (applyDecorators_flags _ _ _ _ Hst) as (A1 & A2 & A3 & A4).
  cbn [st_optional st_self st_skipSelf st_host orb] in A1, A2, A3, A4.
  destruct (st_token st) as [t|].
  - injection H as <-. cbn [optional self skipSelf host]. unfold hasDecorator. auto.
  - destruct (typeValueReference p); discriminate.
Qed.

Lemma forEachParameter_accounts isCore params : forall idx deps errors deps' errors',
  forEachParameter isCore idx params deps errors = Ok (deps', errors') ->
  exists newDeps newErrors,
    deps' = deps ++ newDeps
    /\ errors' = errors ++ newErrors
    /\ (length newDeps + length newErrors = length params)%nat
    /\ forall e, e ∈ newErrors ->
         (idx <= index e)%nat
         /\ params !! (index e - idx)%nat = Some (param e)
         /\ typeValueReference (param e) = UNAVAILABLE (reason e).
Proof.
  induction params as [|p rest IH]; intros idx deps errors deps' errors' H.
  - injection H as <- <-. exists [], []. rewrite !app_nil_r.
    split; [reflexivity|]. split; [reflexivity|]. split; [reflexivity|].
    intros e He. apply elem_of_nil in He. contradiction.
  - cbn [forEachParameter] in H.
    destruct (processParameter isCore idx p) as [[dep|err]|thrown] eqn:Hp; [| |discriminate];
      cbn [res_bind] in H.
    + destruct (IH _ _ _ _ _ H) as (nd & ne & -> & -> & Hlen & Herr).
      exists (dep :: nd), ne. rewrite <- app_assoc. split; [reflexivity|].
      split; [reflexivity|]. split; [cbn [length]; lia|].
      intros e He. destruct (Herr e He) as (Hle & Hl & Ht).
      split; [lia|]. split; [|exact Ht].
      replace (index e - idx)%nat with (S (index e - S idx)) by lia. exact Hl.
    + destruct (IH _ _ _ _ _ H) as (nd & ne & -> & -> & Hlen & Herr).
      exists nd, (err :: ne). rewrite <- app_assoc. split; [reflexivity|].
      split; [reflexivity|]. split; [cbn [length]; lia|].
      intros e He. apply elem_of_cons in He as [->|He].
      * unfold processParameter in Hp.
        destruct (applyDecorators isCore _ (consideredDecorators isCore p)) as [st|e0];
          [|discriminate].
        cbn [res_bind] in Hp. destruct (st_token st); [discriminate|].
        destruct (typeValueReference p) eqn:Ht; try discriminate.
        injection Hp as <-. cbn [index param reason]. rewrite Nat.sub_diag.
        split; [lia|]. split; [reflexivity|exact Ht].
      * destruct (Herr e He) as (Hle & Hl & Ht).
        split; [lia|]. split; [|exact Ht].
        replace (index e - idx)%nat with (S (index e - S idx)) by lia. exact Hl.
Qed.

(** X15. [getConstructorDependencies] accounts for every parameter: when it
    gives dependencies there is one for each parameter, and when it gives
    errors there is at least one, and each error holds the position of a
    parameter of the constructor, this parameter, and the reason why its
    type has no value. *)
Theorem getConstructorDependencies_accounts_for_parameters clazz isCore params result :
  getConstructorParameters clazz = Some params ->
  getConstructorDependencies clazz isCore = Ok (Some result) ->
  match result with
  | Deps deps => length deps = length params
  | DepErrors errors =>
      errors <> []
      /\ forall e, e ∈ errors ->
           params !! index e = Some (param e)
           /\ typeValueReference (param e) = UNAVAILABLE (reason e)
  end.
Proof.
  intros Hparams H. unfold getConstructorDependencies in H. rewrite Hparams in H.
  assert (Hrun : exists deps errors,
            forEachParameter isCore 0 params [] [] = Ok (deps, errors)
            /\ result = match errors with [] => Deps deps | _ => DepErrors errors end).
  { destruct (hasBaseClass clazz); cbn [default] in H; unfold id in H;
      destruct (forEachParameter isCore 0 params [] []) as [[deps errors]|e];
      try discriminate; cbn [res_bind] in H; exists deps, errors; split; try reflexivity;
      destruct errors; injection H as <-; reflexivity. }
  destruct Hrun as (deps & errors & Hrun & ->).
  destruct (forEachParameter_accounts _ _ _ _ _ _ _ Hrun) as (nd & ne & Hd & He & Hlen & Herr).
  cbn [app] in Hd, He. subst deps errors.
  destruct ne as [|err ne].
  - cbn [length] in Hlen. lia.
  - split; [discriminate|]. intros e Hin. destruct (Herr e Hin) as (_ & Hl & Ht).
    rewrite Nat.sub_0_r in Hl. auto.
Qed.

Lemma applyDecorator_throws isCore st dec e :
  applyDecorator isCore st dec = Throw e ->
  exists code msg,
    e = FatalDiagnosticError code msg None []
    /\ (code = DECORATOR_ARITY_WRONG \/ code = DECORATOR_UNEXPECTED).
Proof.
  unfold applyDecorator. intros H.
  repeat match type of H with
         | (if ?b then _ else _) = _ => destruct b
         | match args dec with _ => _ end = _ => destruct (args dec) as [[|? [|]]|]
         end; try discriminate; injection H as <-; eauto.
Qed.

Lemma applyDecorator_keeps_token isCore st dec st' :
  applyDecorator isCore st dec = Ok st' -> is_Some (st_token st) -> is_Some (st_token st').
Proof.
  unfold applyDecorator. intros H Hs.
  repeat match type of H with
         | (if ?b then _ else _) = _ => destruct b
         | match args dec with _ => _ end = _ => destruct (args dec) as [[|? [|]]|]
         end; try discriminate; injection H as <-; cbn [st_token]; eauto.
Qed.

Lemma applyDecorators_throws isCore decs : forall st,
  match applyDecorators isCore st decs with
  | Ok st' => is_Some (st_token st) -> is_Some (st_token st')
  | Throw e =>
      exists code msg,
        e = FatalDiagnosticError code msg None []
        /\ (code = DECORATOR_ARITY_WRONG \/ code = DECORATOR_UNEXPECTED)
  end.
Proof.
  induction decs as [|dec rest IH]; intros st; cbn [applyDecorators]; [tauto|].
  destruct (applyDecorator isCore st dec) as [st1|e] eqn:H1; cbn [res_bind].
  - specialize (IH st1). destruct (applyDecorators isCore st1 rest); [|exact IH].
    intros Hs. apply IH. eapply applyDecorator_keeps_token; eassumption.
  - eapply applyDecorator_throws, H1.
Qed.

Lemma processParameter_throws isCore idx p e :
  processParameter isCore idx p = Throw e ->
  exists code msg,
    e = FatalDiagnosticError code msg None []
    /\ (code = DECORATOR_ARITY_WRONG \/ code = DECORATOR_UNEXPECTED).
Proof.
  unfold processParameter. intros H.
  match type of H with context [applyDecorators isCore ?s ?d] =>
    pose proof (applyDecorators_throws isCore d s) as Hd;
    destruct (applyDecorators isCore s d) as [st|e0]
  end; cbn [res_bind] in H.
  - cbn [st_token] in Hd. destruct (st_token st) as [t|]; [discriminate|].
    destruct (typeValueReference p); try discriminate;
      cbn [valueReferenceToExpression] in Hd;
      destruct (Hd (mk_is_Some _ _ eq_refl)) as [? ?]; discriminate.
  - injection H as <-. exact Hd.
Qed.

Lemma forEachParameter_throws isCore params : forall idx deps errors e,
  forEachParameter isCore idx params deps errors = Throw e ->
  exists code msg,
    e = FatalDiagnosticError code msg None []
    /\ (code = DECORATOR_ARITY_WRONG \/ code = DECORATOR_UNEXPECTED).
Proof.
  induction params as [|p rest IH]; intros idx deps errors e H; [discriminate|].
  cbn [forEachParameter] in H.
  destruct (processParameter isCore idx p) as [[dep|err]|e0] eqn:Hp; cbn [res_bind] in H.
  - eapply IH, H.
  - eapply IH, H.
  - injection H as <-. eapply processParameter_throws, Hp.
Qed.

(** X16. The only failures of [getValidConstructorDependencies] are fatal
    diagnostics: that of a parameter decorator with a wrong number of
    arguments or of an unexpected decorator, raised while the parameters are
    read, or [PARAM_MISSING_TOKEN] for the first error found. The plain
    errors of the code (the illegal state of a parameter without token whose
    type has a value, and an empty list of errors) are never raised. *)
Theorem getValidConstructorDependencies_throws_diagnostics_only clazz isCore e :
  getValidConstructorDependencies clazz isCore = Throw e ->
  (exists code msg,
     e = FatalDiagnosticError code msg None []
     /\ (code = DECORATOR_ARITY_WRONG \/ code = DECORATOR_UNEXPECTED)
     /\ getConstructorDependencies clazz isCore = Throw e)
  \/ (exists error errors,
        getConstructorDependencies clazz isCore = Ok (Some (DepErrors (error :: errors)))
        /\ e = createUnsuitableInjectionTokenError clazz error
        /\ exists msg next hints, e = FatalDiagnosticError PARAM_MISSING_TOKEN msg next hints).
Proof.
  unfold getValidConstructorDependencies. intros H.
  destruct (getConstructorDependencies clazz isCore) as [r|e0] eqn:Hget; cbn [res_bind] in H.
  - right. destruct r as [[deps|errors]|]; try discriminate.
    cbn [validateConstructorDependencies] in H.
    destruct errors as [|error errors].
    + exfalso. unfold getConstructorDependencies in Hget.
      destruct (getConstructorParameters clazz) as [params|], (hasBaseClass clazz);
        try discriminate; cbn [default] in Hget; unfold id in Hget;
        destruct (forEachParameter isCore 0 _ [] []) as [[d [|x l]]|]; discriminate.
    + injection H as <-. exists error, errors. split; [reflexivity|]. split; [reflexivity|].
      unfold createUnsuitableInjectionTokenError.
      destruct (reason error) as [t|t [d|]|t n|t n|t|]; eauto.
  - injection H as <-. left.
    unfold getConstructorDependencies in Hget.
    assert (Hrun : exists params, forEachParameter isCore 0 params [] [] = Throw e0).
    { destruct (getConstructorParameters clazz) as [params|], (hasBaseClass clazz);
        try discriminate; cbn [default] in Hget; unfold id in Hget;
        match type of Hget with context [forEachParameter isCore 0 ?ps [] []] =>
          exists ps; destruct (forEachParameter isCore 0 ps [] []) as [[d [|x l]]|e1]
        end; try discriminate; injection Hget as <-; reflexivity. }
    destruct Hrun as (params & Hrun).
    destruct (forEachParameter_throws _ _ _ _ _ _ Hrun) as (code & msg & -> & Hcode).
    exists code, msg. auto.
Qed.

End DiParameters.

Lemma getConstructorDependencies_plain_parameters_witness :
  exists deps,
    Di.getConstructorDependencies
      {| Di.className := "Svc";
         Di.getConstructorParameters :=
           Some [{| Di.paramName := Some "a";
                    Di.typeValueReference := Di.IMPORTED "./known" "Known" None;
                    Di.decorators := None |}];
         Di.hasBaseClass := false |} false
    = Ok (Some (Di.Deps deps))
    /\ deps = [Di.plainDependency (Di.ExternalExpr "./known" "Known")].
Proof.
  destruct (getConstructorDependencies_plain_parameters
              {| Di.className := "Svc";
                 Di.getConstructorParameters :=
                   Some [{| Di.paramName := Some "a";
                            Di.typeValueReference := Di.IMPORTED "./known" "Known" None;
                            Di.decorators := None |}];
                 Di.hasBaseClass := false |} false
              [{| Di.paramName := Some "a";
                  Di.typeValueReference := Di.IMPORTED "./known" "Known" None;
                  Di.decorators := None |}] eq_refl)
    as (deps & Hrun & HF).
  - intros p Hp. apply list_elem_of_singleton in Hp as ->. split; [reflexivity|].
    eexists. reflexivity.
  - exists deps. split; [exact Hrun|].
    vm_compute in Hrun. injection Hrun as <-. reflexivity.
Defined.

Lemma processParameter_flags_witness :
  exists dep,
    Di.processParameter false 1 DiExample.known = Ok (inl dep)
    /\ Di.optional dep = true /\ Di.self dep = false.
Proof.
  eexists. split; [reflexivity|].
  destruct (processParameter_flags false 1 DiExample.known _ eq_refl) as (Ho & Hs & _).
  exact (conj Ho Hs).
Defined.

Lemma getConstructorDependencies_accounts_for_parameters_witness :
  exists errors,
    Di.getConstructorDependencies DiExample.Dir false = Ok (Some (Di.DepErrors errors))
    /\ errors <> []
    /\ forall e, e ∈ errors ->
         [DiExample.known; DiExample.untyped] !! Di.index e = Some (Di.param e).
Proof.
  eexists. split; [reflexivity|].
  destruct (getConstructorDependencies_accounts_for_parameters DiExample.Dir false
              [DiExample.known; DiExample.untyped] _ eq_refl eq_refl) as (Hne & Hall).
  split; [exact Hne|]. intros e He. exact (proj1 (Hall e He)).
Defined.

Lemma getValidConstructorDependencies_throws_diagnostics_only_witness :
  exists error errors,
    Di.getConstructorDependencies DiExample.Dir false
    = Ok (Some (Di.DepErrors (error :: errors)))
    /\ Di.getValidConstructorDependencies DiExample.Dir false
       = Throw (Di.createUnsuitableInjectionTokenError DiExample.Dir error).
Proof.
  destruct (getValidConstructorDependencies_throws_diagnostics_only DiExample.Dir false _
              eq_refl) as [(code & msg & He & _)|(error & errors & Hget & He & _)].
  - discriminate He.
  - exists error, errors. split; [exact Hget|]. rewrite <- He. reflexivity.
Defined.

(** ** Mappings of a directive: arrays of strings and their entries *)

Section SharedEntries.
Import Shared.

Lemma stringArrayFrom_strings name (strings : list string) : forall i,
  stringArrayFrom name i (RString <$> strings) = Ok strings.
Proof.
  induction strings as [|s rest IH]; intros i; [reflexivity|].
  cbn [fmap list_fmap stringArrayFrom]. change (list_fmap _ _ ?h ?l) with (h <$> l).
  rewrite IH. reflexivity.
Qed.

Lemma stringArrayFrom_Ok name value : forall i strings,
  stringArrayFrom name i value = Ok strings -> value = RString <$> strings.
Proof.
  induction value as [|v rest IH]; intros i strings H.
  - injection H as <-. reflexivity.
  - cbn [stringArrayFrom] in H. destruct v as [s|es|n]; try discriminate.
    destruct (stringArrayFrom name (S i) rest) as [strs|e] eqn:Hrest; [|discriminate].
    cbn [res_bind] in H. injection H as <-. rewrite (IH _ _ Hrest). reflexivity.
Qed.

Lemma stringArrayFrom_first_other name value : forall i (k : nat) v,
  value !! k = Some v ->
  (forall s, v <> RString s) ->
  (forall j, (j < k)%nat -> exists s, value !! j = Some (RString s)) ->
  stringArrayFrom name i value
  = Throw (FatalDiagnosticError VALUE_HAS_WRONG_TYPE
             ("Failed to resolve " +:+ name +:+ " at position " +:+ pretty (i + k)%nat
                +:+ " to a string")).
Proof.
  induction value as [|x rest IH]; intros i k v Hk Hv Hbefore; [discriminate|].
  destruct k as [|k].
  - injection Hk as ->. rewrite Nat.add_0_r. cbn [stringArrayFrom].
    destruct v as [s|es|n]; [exfalso; exact (Hv s eq_refl)|reflexivity|reflexivity].
  - destruct (Hbefore 0%nat ltac:(lia)) as [s Hs]. injection Hs as ->.
    cbn [stringArrayFrom]. rewrite (IH (S i) k v Hk Hv).
    + cbn [res_bind]. replace (S i + k)%nat with (i + S k)%nat by lia. reflexivity.
    + intros j Hj. apply (Hbefore (S j)). lia.
Qed.

(** X17. [parseFieldArrayValue] gives [null] for a field that the decorator
    does not have and the strings of an array of strings, as they are;
    for an array that holds something else than strings it fails with a
    diagnostic that names the first position that holds no string, and for
    a value that is no array with the diagnostic that says so. *)
Theorem parseFieldArrayValue_strings_or_diagnostic field :
  parseFieldArrayValue None field = Ok None
  /\ (forall strings,
        parseFieldArrayValue (Some (RArray (RString <$> strings))) field = Ok (Some strings))
  /\ (forall value strings,
        parseFieldArrayValue (Some (RArray value)) field = Ok (Some strings) ->
        value = RString <$> strings)
  /\ (forall value (k : nat) v,
        value !! k = Some v ->
        (forall s, v <> RString s) ->
        (forall j, (j < k)%nat -> exists s, value !! j = Some (RString s)) ->
        parseFieldArrayValue (Some (RArray value)) field
        = Throw (FatalDiagnosticError VALUE_HAS_WRONG_TYPE
                   ("Failed to resolve " +:+ field +:+ " at position " +:+ pretty k
                      +:+ " to a string")))
  /\ (forall v, (forall elements, v <> RArray elements) ->
        parseFieldArrayValue (Some v) field
        = Throw (FatalDiagnosticError VALUE_HAS_WRONG_TYPE
                   ("Failed to resolve @Directive." +:+ field +:+ " to a string array"))).
Proof.
  split; [reflexivity|]. split; [|split; [|split]].
  - intros strings. cbn [parseFieldArrayValue]. rewrite stringArrayFrom_strings. reflexivity.
  - intros value strings H. cbn [parseFieldArrayValue] in H.
    destruct (stringArrayFrom field 0 value) as [strs|e] eqn:Hs; [|discriminate].
    cbn [res_bind] in H. injection H as <-. eapply stringArrayFrom_Ok, Hs.
  - intros value k v Hk Hv Hbefore. cbn [parseFieldArrayValue].
    rewrite (stringArrayFrom_first_other field value 0 k v Hk Hv Hbefore). reflexivity.
  - intros v Hv. destruct v as [s|es|n]; try reflexivity. exfalso. exact (Hv es eq_refl).
Qed.

(** X18. The mapping parsed from the array of the decorator holds, for a
    field, the property of the last entry of the array for this field, and
    nothing for a field without entry. *)
Theorem parseInputOutputMappingArray_lookup (values : list string) (field : string) :
  parseInputOutputMappingArray values !! field
  = snd <$> last (filter (fun entry => fst entry = field) (parseMappingEntry <$> values)).
Proof.
  induction values as [|value values IH] using rev_ind; [reflexivity|].
  unfold parseInputOutputMappingArray in *. rewrite foldl_app. cbn [foldl].
  rewrite fmap_app, filter_app. cbn [fmap list_fmap].
  destruct (decide (fst (parseMappingEntry value) = field)) as [Heq|Hne].
  - rewrite filter_cons_True by exact Heq. rewrite filter_nil, last_snoc.
    rewrite <- Heq. apply lookup_insert_eq.
  - rewrite filter_cons_False by exact Hne. rewrite filter_nil, app_nil_r.
    rewrite lookup_insert_ne by exact Hne. exact IH.
Qed.

Lemma split_without_separator sep (s : string) :
  occurs sep s = false -> split sep s = [s].
Proof.
  induction s as [|c rest IH]; intros H; [reflexivity|].
  cbn [occurs] in H. apply orb_false_iff in H as [Hc Hrest].
  cbn [split]. rewrite Hc, (IH Hrest). reflexivity.
Qed.

Lemma split_cons sep c (s : string) :
  split sep (String c s)
  = if Ascii.eqb c sep then EmptyString :: split sep s
    else match split sep s with
         | piece :: pieces => String c piece :: pieces
         | [] => [String c EmptyString]
         end.
Proof. reflexivity. Qed.

Lemma split_at_first_separator sep (a b : string) :
  occurs sep a = false -> split sep (a +:+ String sep b) = a :: split sep b.
Proof.
  induction a as [|c rest IH]; intros H.
  - change (EmptyString +:+ String sep b) with (String sep b).
    rewrite split_cons, Ascii.eqb_refl. reflexivity.
  - cbn [occurs] in H. apply orb_false_iff in H as [Hc Hrest].
    change (String c rest +:+ String sep b) with (String c (rest +:+ String sep b)).
    rewrite split_cons, Hc, (IH Hrest). reflexivity.
Qed.

(** X19. An entry of the array of the decorator without colon maps the
    trimmed text to itself. An entry [a:b] maps the trimmed [a] to the
    trimmed [b], or to itself when nothing but white space follows the
    colon; what follows a second colon is dropped. *)
Theorem parseMappingEntry_by_colons (a b rest : string) :
  occurs ":" a = false ->
  occurs ":" b = false ->
  let property := if bool_decide (trim b = EmptyString) then trim a else trim b in
  parseMappingEntry a = (trim a, trim a)
  /\ parseMappingEntry (a +:+ String ":" b) = (trim a, property)
  /\ parseMappingEntry (a +:+ String ":" (b +:+ String ":" rest)) = (trim a, property).
Proof.
  intros Ha Hb property. unfold parseMappingEntry.
  rewrite (split_without_separator _ a Ha).
  rewrite !(split_at_first_separator _ a _ Ha).
  rewrite (split_without_separator _ b Hb), (split_at_first_separator _ b _ Hb).
  split; [reflexivity|]. split; reflexivity.
Qed.

End SharedEntries.

Lemma parseFieldArrayValue_strings_or_diagnostic_witness :
  Shared.parseFieldArrayValue
    (Some (Shared.RArray [Shared.RString "a"; Shared.ROther 5; Shared.ROther 6])) "inputs"
  = Throw (Shared.FatalDiagnosticError Shared.VALUE_HAS_WRONG_TYPE
             "Failed to resolve inputs at position 1 to a string").
Proof.
  destruct (parseFieldArrayValue_strings_or_diagnostic "inputs") as (_ & _ & _ & H & _).
  apply (H [Shared.RString "a"; Shared.ROther 5; Shared.ROther 6] 1%nat (Shared.ROther 5)
           eq_refl).
  - intros s. discriminate.
  - intros j Hj. assert (j = 0%nat) as -> by lia. eexists. reflexivity.
Defined.

Lemma parseMappingEntry_by_colons_witness :
  Shared.parseMappingEntry " foo " = ("foo", "foo")
  /\ Shared.parseMappingEntry " foo :bar" = ("foo", "bar")
  /\ Shared.parseMappingEntry " foo :bar:baz " = ("foo", "bar").
Proof.
  exact (parseMappingEntry_by_colons " foo " "bar" "baz " eq_refl eq_refl).
Defined.

(** ** The input and output maps of a directive *)

Section SharedUnion.
Import Shared.

Lemma last_app_cases {A} (l1 l2 : list A) :
  last (l1 ++ l2) = match last l2 with Some x => Some x | None => last l1 end.
Proof.
  induction l2 as [|x l2 _] using rev_ind.
  - rewrite app_nil_r. reflexivity.
  - rewrite app_assoc, !last_snoc. reflexivity.
Qed.

(** A later write of a key replaces an earlier one. *)
Lemma foldl_insert_lookup {V} (kvs : list (string * V)) (k : string) :
  foldl (fun (m : gmap string V) kv => <[kv.1 := kv.2]> m) ∅ kvs !! k
  = snd <$> last (filter (fun kv => kv.1 = k) kvs).
Proof.
  induction kvs as [|kv kvs IH] using rev_ind; [reflexivity|].
  rewrite foldl_app, filter_app. cbn [foldl].
  destruct (decide (kv.1 = k)) as [Heq|Hne].
  - rewrite filter_cons_True by exact Heq. rewrite filter_nil, last_snoc.
    rewrite <- Heq. apply lookup_insert_eq.
  - rewrite filter_cons_False by exact Hne. rewrite filter_nil, app_nil_r.
    rewrite lookup_insert_ne by exact Hne. exact IH.
Qed.

Lemma plainName_spec s : plainName s = true -> occurs ":" s = false /\ trim s = s.
Proof.
  unfold plainName. intros [Hc Ht]%andb_true_iff. split.
  - destruct (occurs ":" s); [discriminate|reflexivity].
  - apply bool_decide_eq_true in Ht. exact Ht.
Qed.

Lemma parseMappingEntry_entryText entry :
  entryOk entry = true ->
  parseMappingEntry (entryText entry) = (entryField entry, entryProperty entry).
Proof.
  destruct entry as [field|field alias]; cbn [entryOk entryText entryField entryProperty].
  - intros [Hc Ht]%plainName_spec. unfold parseMappingEntry.
    rewrite (split_without_separator _ _ Hc). cbn [take fmap list_fmap]. rewrite Ht.
    reflexivity.
  - intros [[[Hc Ht]%plainName_spec [Hca Hta]%plainName_spec]%andb_true_iff Hne]%andb_true_iff.
    apply negb_true_iff, bool_decide_eq_false in Hne.
    unfold parseMappingEntry.
    change (field +:+ ": " +:+ alias) with (field +:+ String ":" (String " " alias)).
    rewrite (split_at_first_separator _ _ _ Hc).
    rewrite (split_without_separator _ (String " " alias))
      by (cbn [occurs]; rewrite Hca; reflexivity).
    cbn [take fmap list_fmap]. rewrite Ht.
    change (trim (String " " alias)) with (trim alias). rewrite Hta.
    rewrite bool_decide_eq_false_2 by exact Hne. reflexivity.
Qed.

Lemma parseFieldToPropertyMapping_entries (entries : option (list MappingEntry)) name field :
  Forall (fun entry => entryOk entry = true) (default [] entries) ->
  exists fromMeta : gmap string string,
    parseFieldToPropertyMapping (entriesValue <$> entries) name = Ok fromMeta
    /\ fromMeta !! field
       = entryProperty <$> last (filter (fun entry => entryField entry = field)
                                   (default [] entries)).
Proof.
  intros Hok. destruct entries as [entries|];
    [change (default [] (Some entries)) with entries in *|];
    cbn [fmap option_fmap option_map].
  - exists (parseInputOutputMappingArray (entryText <$> entries)).
    unfold parseFieldToPropertyMapping, entriesValue. cbn [parseFieldArrayValue].
    replace ((fun entry => RString (entryText entry)) <$> entries)
      with (RString <$> (entryText <$> entries))
      by (rewrite <- list_fmap_compose; reflexivity).
    rewrite stringArrayFrom_strings. cbn [res_bind]. split; [reflexivity|].
    unfold parseInputOutputMappingArray.
    replace (foldl _ ∅ (entryText <$> entries))
      with (foldl (fun (m : gmap string string) kv => <[kv.1 := kv.2]> m) ∅
              ((fun entry => (entryField entry, entryProperty entry)) <$> entries)).
    + rewrite foldl_insert_lookup.
      clear Hok. induction entries as [|entry entries IH] using rev_ind; [reflexivity|].
      rewrite fmap_app, !filter_app. cbn [fmap list_fmap].
      destruct (decide (entryField entry = field)) as [Heq|Hne].
      * rewrite !filter_cons_True by exact Heq. rewrite !filter_nil, !last_snoc. reflexivity.
      * rewrite !filter_cons_False by exact Hne. rewrite !filter_nil, !app_nil_r. exact IH.
    + generalize (∅ : gmap string string).
      induction Hok as [|entry entries Hentry _ IH]; intros m; [reflexivity|].
      cbn [fmap list_fmap foldl]. rewrite (parseMappingEntry_entryText _ Hentry). apply IH.
  - exists ∅. split; reflexivity.
Qed.

(** What a decorator of a member writes for the member. *)
Let written (resolver : string -> string -> MappingValue) (field : string) (dec : Decorator)
    : MappingValue :=
  match args dec with
  | Some [RString alias] => resolver alias field
  | _ => Name field
  end.

Lemma parseDecorators_lookup resolver fieldName decs : forall results,
  Forall (fun dec => decoratorArgsOk dec = true) decs ->
  exists results',
    parseDecorators resolver fieldName results decs = Ok results'
    /\ forall field,
         results' !! field
         = match (if decide (fieldName = field) then last decs else None) with
           | Some dec => Some (written resolver field dec)
           | None => results !! field
           end.
Proof.
  induction decs as [|dec decs IH]; intros results Hok.
  - exists results. split; [reflexivity|]. intros field.
    destruct (decide (fieldName = field)); reflexivity.
  - apply Forall_cons in Hok as [Hdec Hok].
    assert (Hstep : parseDecorator resolver fieldName results dec
                    = Ok (<[fieldName := written resolver fieldName dec]> results)).
    { unfold parseDecorator, written, decoratorArgsOk in *.
      destruct (args dec) as [[|[alias|es|n] [|? ?]]|]; try discriminate Hdec; reflexivity. }
    destruct (IH (<[fieldName := written resolver fieldName dec]> results) Hok)
      as (results' & Hrun & Hlookup).
    exists results'. cbn [parseDecorators]. rewrite Hstep. cbn [res_bind].
    split; [exact Hrun|]. intros field. rewrite Hlookup.
    destruct (decide (fieldName = field)) as [<-|Hne].
    + rewrite (last_cons dec decs).
      destruct (last decs); [reflexivity|apply lookup_insert_eq].
    + apply lookup_insert_ne, Hne.
Qed.

Lemma parseDecoratedFieldsFrom_lookup resolver fields : forall results,
  Forall (fun f => Forall (fun dec => decoratorArgsOk dec = true) (decorators f)) fields ->
  exists results',
    parseDecoratedFieldsFrom resolver results fields = Ok results'
    /\ forall field,
         results' !! field
         = match last (decoratorsOf fields field) with
           | Some dec => Some (written resolver field dec)
           | None => results !! field
           end.
Proof.
  induction fields as [|f fields IH]; intros results Hok.
  - exists results. split; reflexivity.
  - apply Forall_cons in Hok as [Hf Hok].
    destruct (parseDecorators_lookup resolver (memberName f) (decorators f) results Hf)
      as (results1 & Hrun1 & Hlookup1).
    destruct (IH results1 Hok) as (results' & Hrun & Hlookup).
    exists results'. cbn [parseDecoratedFieldsFrom]. rewrite Hrun1. cbn [res_bind].
    split; [exact Hrun|]. intros field. rewrite Hlookup, Hlookup1.
    unfold decoratorsOf. destruct (decide (memberName f = field)) as [Heq|Hne].
    + rewrite filter_cons_True by exact Heq. cbn [flat_map]. rewrite last_app_cases.
      destruct (last (flat_map decorators (filter _ fields))); reflexivity.
    + rewrite filter_cons_False by exact Hne. reflexivity.
Qed.

(** C7. The objects from which the input and output maps of a directive are
    made hold, for a field: what the last decorator of the members of this
    name writes ([@Input('alias') field] gives the pair of the alias and the
    field, [@Output('alias') field] gives the alias, a decorator without
    argument gives the name of the field), whether or not the array of the
    decorator has an entry for the field; and for a field without decorated
    member, what the last entry of the array for the field says (['field']
    gives the name of the field, ['field: alias'] gives the alias). They hold
    nothing else: a field has an entry exactly when the array names it or a
    member of this name is decorated. *)
Theorem extractDirectiveMetadata_mappings_union
    (inputEntries outputEntries : option (list MappingEntry))
    (inputFields outputFields : list DecoratedField) :
  Forall (fun entry => entryOk entry = true) (default [] inputEntries) ->
  Forall (fun entry => entryOk entry = true) (default [] outputEntries) ->
  Forall (fun f => Forall (fun dec => decoratorArgsOk dec = true) (decorators f))
    inputFields ->
  Forall (fun f => Forall (fun dec => decoratorArgsOk dec = true) (decorators f))
    outputFields ->
  exists inputs outputs : gmap string MappingValue,
    extractDirectiveMetadata_mappings (entriesValue <$> inputEntries)
      (entriesValue <$> outputEntries) inputFields outputFields = Ok (inputs, outputs)
    /\ (forall field,
          inputs !! field
          = match last (decoratorsOf inputFields field) with
            | Some dec =>
                Some (match args dec with
                      | Some [RString alias] => Pair alias field
                      | _ => Name field
                      end)
            | None =>
                (fun entry => Name (entryProperty entry))
                  <$> last (filter (fun entry => entryField entry = field)
                              (default [] inputEntries))
            end)
    /\ (forall field,
          outputs !! field
          = match last (decoratorsOf outputFields field) with
            | Some dec =>
                Some (match args dec with
                      | Some [RString alias] => Name alias
                      | _ => Name field
                      end)
            | None =>
                (fun entry => Name (entryProperty entry))
                  <$> last (filter (fun entry => entryField entry = field)
                              (default [] outputEntries))
            end)
    /\ (forall field,
          is_Some (inputs !! field)
          <-> (exists entry, entry ∈ default [] inputEntries /\ entryField entry = field)
              \/ (exists f, f ∈ inputFields /\ memberName f = field /\ decorators f <> []))
    /\ (forall field,
          is_Some (outputs !! field)
          <-> (exists entry, entry ∈ default [] outputEntries /\ entryField entry = field)
              \/ (exists f, f ∈ outputFields /\ memberName f = field /\ decorators f <> [])).
Proof.
  intros Hin Hout Hinf Houtf.
  assert (Hspread : forall (entries : option (list MappingEntry)) name fields resolver,
            Forall (fun entry => entryOk entry = true) (default [] entries) ->
            Forall (fun f => Forall (fun dec => decoratorArgsOk dec = true) (decorators f))
              fields ->
            exists (fromMeta : gmap string string) (fromFields : gmap string MappingValue),
              parseFieldToPropertyMapping (entriesValue <$> entries) name = Ok fromMeta
              /\ parseDecoratedFields fields resolver = Ok fromFields
              /\ forall field,
                   spread fromMeta fromFields !! field
                   = match last (decoratorsOf fields field) with
                     | Some dec => Some (written resolver field dec)
                     | None =>
                         (fun entry => Name (entryProperty entry))
                           <$> last (filter (fun entry => entryField entry = field)
                                       (default [] entries))
                     end).
  { intros entries name fields resolver Hentries Hfields.
    destruct (parseDecoratedFieldsFrom_lookup resolver fields ∅ Hfields)
      as (fromFields & Hrun & Hlookup).
    assert (exists fromMeta : gmap string string,
              parseFieldToPropertyMapping (entriesValue <$> entries) name = Ok fromMeta
              /\ forall field,
                   fromMeta !! field
                   = entryProperty <$> last (filter (fun entry => entryField entry = field)
                                               (default [] entries)))
      as (fromMeta & Hmeta & Hmlookup).
    { destruct (parseFieldToPropertyMapping_entries entries name EmptyString Hentries)
        as (fromMeta & Hmeta & _).
      exists fromMeta. split; [exact Hmeta|]. intros field.
      destruct (parseFieldToPropertyMapping_entries entries name field Hentries)
        as (fromMeta' & Hmeta' & Hl).
      rewrite Hmeta in Hmeta'. injection Hmeta' as <-. exact Hl. }
    exists fromMeta, fromFields. split; [exact Hmeta|]. split; [exact Hrun|].
    intros field. rewrite spread_lookup, Hlookup, Hmlookup.
    destruct (last (decoratorsOf fields field)); [reflexivity|].
    rewrite lookup_empty.
    destruct (last (filter _ (default [] entries))); reflexivity. }
  assert (Hdom : forall (entries : list MappingEntry) fields field
                   (value : option MappingValue) (f : Decorator -> MappingValue),
            value = match last (decoratorsOf fields field) with
                    | Some dec => Some (f dec)
                    | None =>
                        (fun entry => Name (entryProperty entry))
                          <$> last (filter (fun entry => entryField entry = field) entries)
                    end ->
            is_Some value
            <-> (exists entry, entry ∈ entries /\ entryField entry = field)
                \/ (exists fd, fd ∈ fields /\ memberName fd = field /\ decorators fd <> [])).
  { intros entries fields field value f ->.
    assert (Hdecs : is_Some (last (decoratorsOf fields field))
                    <-> exists fd, fd ∈ fields /\ memberName fd = field
                                   /\ decorators fd <> []).
    { rewrite last_is_Some. unfold decoratorsOf. split.
      - intros Hne. destruct (flat_map decorators _) as [|dec decs] eqn:Hflat;
          [contradiction|].
        assert (Hdec : dec ∈ flat_map decorators
                               (filter (fun f => memberName f = field) fields))
          by (rewrite Hflat; apply list_elem_of_here).
        apply list_elem_of_In, in_flat_map in Hdec as (fd & Hfd & Hd).
        apply list_elem_of_In, list_elem_of_filter in Hfd as [Hname Hfd].
        exists fd. split; [exact Hfd|]. split; [exact Hname|].
        intros E. rewrite E in Hd. contradiction.
      - intros (fd & Hfd & Hname & Hne) Hflat.
        destruct (decorators fd) as [|dec decs] eqn:Hd; [contradiction|].
        assert (Hdec : In dec (flat_map decorators
                                 (filter (fun f => memberName f = field) fields))).
        { apply in_flat_map. exists fd. split.
          - apply list_elem_of_In, list_elem_of_filter. split; assumption.
          - rewrite Hd. left. reflexivity. }
        rewrite Hflat in Hdec. contradiction. }
    assert (Hents : is_Some (last (filter (fun entry => entryField entry = field) entries))
                    <-> exists entry, entry ∈ entries /\ entryField entry = field).
    { rewrite last_is_Some. split.
      - intros Hne. destruct (filter _ entries) as [|entry rest] eqn:Hfil; [contradiction|].
        assert (He : entry ∈ filter (fun entry => entryField entry = field) entries)
          by (rewrite Hfil; apply list_elem_of_here).
        apply list_elem_of_filter in He as [Hname He]. exists entry. split; assumption.
      - intros (entry & He & Hname) Hfil.
        assert (He' : entry ∈ filter (fun entry => entryField entry = field) entries)
          by (apply list_elem_of_filter; split; assumption).
        rewrite Hfil in He'. apply elem_of_nil in He'. contradiction. }
    destruct (last (decoratorsOf fields field)) as [dec|] eqn:Hlast.
    - split; [intros _; right; apply Hdecs; eexists; reflexivity|].
      intros _. eexists. reflexivity.
    - rewrite fmap_is_Some, Hents. split; [intros H; left; exact H|].
      intros [H|H]; [exact H|]. apply Hdecs in H. destruct H as [x Hx]. discriminate. }
  destruct (Hspread inputEntries "inputs" inputFields resolveInput Hin Hinf)
    as (inputsFromMeta & inputsFromFields & Him & Hif & Hinputs).
  destruct (Hspread outputEntries "outputs" outputFields resolveOutput Hout Houtf)
    as (outputsFromMeta & outputsFromFields & Hom & Hof & Houtputs).
  exists (spread inputsFromMeta inputsFromFields), (spread outputsFromMeta outputsFromFields).
  unfold extractDirectiveMetadata_mappings. rewrite Him, Hif, Hom, Hof. cbn [res_bind].
  split; [reflexivity|].
  split; [exact Hinputs|]. split; [exact Houtputs|].
  split; intros field; eapply Hdom; [apply Hinputs|apply Houtputs].
Qed.

End SharedUnion.

Lemma extractDirectiveMetadata_mappings_union_witness :
  exists inputs outputs : gmap string Shared.MappingValue,
    Shared.extractDirectiveMetadata_mappings
      (Some (Shared.RArray [Shared.RString "foo: bar"; Shared.RString "baz: qaz";
                            Shared.RString "plain"]))
      (Some (Shared.RArray [Shared.RString "done: finished"; Shared.RString "closed: shut"]))
      SharedExample.inputFields SharedExample.outputFields = Ok (inputs, outputs)
    /\ inputs !! "foo" = Some (Shared.Name "foo")
    /\ inputs !! "baz" = Some (Shared.Name "qaz")
    /\ inputs !! "plain" = Some (Shared.Name "plain")
    /\ inputs !! "qux" = Some (Shared.Pair "q" "qux")
    /\ inputs !! "bar" = None
    /\ outputs !! "done" = Some (Shared.Name "fin")
    /\ outputs !! "closed" = Some (Shared.Name "shut").
Proof.
  destruct (extractDirectiveMetadata_mappings_union
              (Some SharedExample.inputEntries) (Some SharedExample.outputEntries)
              SharedExample.inputFields SharedExample.outputFields)
    as (inputs & outputs & Hrun & Hinputs & Houtputs & _ & _).
  - repeat constructor.
  - repeat constructor.
  - repeat constructor.
  - repeat constructor.
  - exists inputs, outputs. split; [exact Hrun|].
    rewrite !Hinputs, !Houtputs. repeat split; vm_compute; reflexivity.
Defined.

(** ** The statements and the references of an NgModule *)

Section NgModuleStatements.
Import NgModuleHandler.
Variable getRemoteScope : nat -> option RemoteScope.
Variable emit : Reference -> option Expression.

Lemma appendRemoteScopingStatements_calls declarations protect : forall statements result,
  appendRemoteScopingStatements getRemoteScope emit statements declarations protect = Ok result ->
  exists calls,
    result = statements ++ calls
    /\ Forall2 (fun decl callStmt =>
                  exists remoteScope,
                    getRemoteScope (node decl) = Some remoteScope
                    /\ remoteScopingStatement emit decl remoteScope protect = Ok callStmt)
         (filter (fun decl => is_Some (getRemoteScope (node decl))) declarations) calls.
Proof.
  induction declarations as [|d rest IH]; intros statements result Hrun.
  - injection Hrun as <-. exists []. rewrite app_nil_r. split; [reflexivity|constructor].
  - cbn [appendRemoteScopingStatements] in Hrun.
    destruct (getRemoteScope (node d)) as [rs|] eqn:Hrs.
    + destruct (remoteScopingStatement emit d rs protect) as [callStmt|e] eqn:Hcall;
        [|discriminate].
      cbn [res_bind] in Hrun. destruct (IH _ _ Hrun) as (calls & -> & HF).
      exists (callStmt :: calls). rewrite <- app_assoc. split; [reflexivity|].
      rewrite filter_cons_True by (rewrite Hrs; eexists; reflexivity).
      constructor; [|exact HF]. exists rs. split; assumption.
    + destruct (IH _ _ Hrun) as (calls & -> & HF).
      exists calls. split; [reflexivity|].
      rewrite filter_cons_False; [exact HF|]. rewrite Hrs. intros [x Hx]. discriminate.
Qed.

Lemma emitAll_Forall2 refs typeKind : forall expressions,
  emitAll emit refs typeKind = Ok expressions ->
  Forall2 (fun ref expression => emit ref = Some expression) refs expressions.
Proof.
  induction refs as [|x rest IH]; intros expressions H.
  - injection H as <-. constructor.
  - cbn [emitAll] in H. unfold emitOrThrow in H.
    destruct (emit x) as [e|] eqn:He; [|discriminate]. cbn [res_bind] in H.
    destruct (emitAll emit rest typeKind) as [es|err] eqn:Hes; [|discriminate].
    injection H as <-. constructor; [exact He|]. apply IH. reflexivity.
Qed.

Lemma remoteScopingStatement_call decl remoteScope protect callStmt :
  remoteScopingStatement emit decl remoteScope protect = Ok callStmt ->
  exists declExpr directiveExprs pipeExprs,
    emit decl = Some declExpr
    /\ Forall2 (fun ref expression => emit ref = Some expression)
         (directives remoteScope) directiveExprs
    /\ Forall2 (fun ref expression => emit ref = Some expression)
         (pipes remoteScope) pipeExprs
    /\ callStmt
       = ExpressionStatement
           (InvokeFunctionExpr (ExternalExpr setComponentScope)
              [declExpr;
               if protect && (0 <? length directiveExprs)%nat
               then FunctionExpr [] [ReturnStatement (LiteralArrayExpr directiveExprs)]
               else LiteralArrayExpr directiveExprs;
               if protect && (0 <? length pipeExprs)%nat
               then FunctionExpr [] [ReturnStatement (LiteralArrayExpr pipeExprs)]
               else LiteralArrayExpr pipeExprs]).
Proof.
  unfold remoteScopingStatement. intros H.
  destruct (emitAll emit (directives remoteScope) "directive") as [ds|e] eqn:Hds;
    [|discriminate].
  destruct (emitAll emit (pipes remoteScope) "pipe") as [ps|e] eqn:Hps; [|discriminate].
  cbn [res_bind] in H. unfold emitOrThrow in H.
  destruct (emit decl) as [de|] eqn:Hde; [|discriminate].
  cbn [res_bind] in H. injection H as <-.
  exists de, ds, ps. split; [reflexivity|].
  split; [eapply emitAll_Forall2, Hds|]. split; [eapply emitAll_Forall2, Hps|reflexivity].
Qed.

(** X20. The statements that full compilation gives for the module
    definition are, in this order: the statement of the class metadata, when
    there is one; the statements of [compileNgModule], as they are; and
    exactly one call of remote scoping for each declaration with a remote
    scope, in the order of the declarations. A declaration without remote
    scope adds no statement. The call for a declaration is
    [setComponentScope(declaration, directives, pipes)] on the emitted
    references of the declaration and of the directives and pipes of its
    remote scope, in their order; an array that is not empty is wrapped in a
    function when the remote scopes may require cycle protection. *)
Theorem compileFull_statements_in_order analysis statements :
  compileFull getRemoteScope emit analysis = Ok statements ->
  exists calls,
    statements
    = match classMetadata analysis with
      | Some metadata => [ExpressionStatement metadata]
      | None => []
      end ++ modStatements analysis ++ calls
    /\ Forall2 (fun decl callStmt =>
                  exists remoteScope declExpr directiveExprs pipeExprs,
                    getRemoteScope (node decl) = Some remoteScope
                    /\ emit decl = Some declExpr
                    /\ Forall2 (fun ref expression => emit ref = Some expression)
                         (directives remoteScope) directiveExprs
                    /\ Forall2 (fun ref expression => emit ref = Some expression)
                         (pipes remoteScope) pipeExprs
                    /\ callStmt
                       = ExpressionStatement
                           (InvokeFunctionExpr (ExternalExpr setComponentScope)
                              [declExpr;
                               if remoteScopesMayRequireCycleProtection analysis
                                  && (0 <? length directiveExprs)%nat
                               then FunctionExpr []
                                      [ReturnStatement (LiteralArrayExpr directiveExprs)]
                               else LiteralArrayExpr directiveExprs;
                               if remoteScopesMayRequireCycleProtection analysis
                                  && (0 <? length pipeExprs)%nat
                               then FunctionExpr []
                                      [ReturnStatement (LiteralArrayExpr pipeExprs)]
                               else LiteralArrayExpr pipeExprs]))
         (filter (fun decl => is_Some (getRemoteScope (node decl))) (declarations analysis))
         calls.
Proof.
  intros Hrun. unfold compileFull in Hrun.
  destruct (appendRemoteScopingStatements_calls _ _ _ _ Hrun) as (calls & -> & Hcalls).
  exists calls. split.
  - unfold insertMetadataStatement. destruct (classMetadata analysis); reflexivity.
  - eapply Forall2_impl; [exact Hcalls|].
    intros decl callStmt (remoteScope & Hscope & Hcall).
    destruct (remoteScopingStatement_call _ _ _ _ Hcall)
      as (declExpr & directiveExprs & pipeExprs & Hdecl & Hdirs & Hpipes & Hstmt).
    exists remoteScope, declExpr, directiveExprs, pipeExprs. auto.
Qed.

Lemma emitAll_Ok_inv refs typeKind expressions :
  emitAll emit refs typeKind = Ok expressions ->
  forall r, r ∈ refs -> is_Some (emit r).
Proof.
  revert expressions. induction refs as [|x rest IH]; intros expressions H r Hin.
  - apply elem_of_nil in Hin. contradiction.
  - cbn [emitAll] in H. unfold emitOrThrow in H.
    destruct (emit x) as [e|] eqn:He; [|discriminate]. cbn [res_bind] in H.
    destruct (emitAll emit rest typeKind) as [es|err] eqn:Hes; [|discriminate].
    apply elem_of_cons in Hin as [->|Hin]; [rewrite He; eexists; reflexivity|].
    eapply IH; [reflexivity|exact Hin].
Qed.

Lemma remoteScopingStatement_Ok_inv decl remoteScope protect callStmt :
  remoteScopingStatement emit decl remoteScope protect = Ok callStmt ->
  is_Some (emit decl)
  /\ (forall r, r ∈ directives remoteScope -> is_Some (emit r))
  /\ (forall r, r ∈ pipes remoteScope -> is_Some (emit r)).
Proof.
  unfold remoteScopingStatement. intros H.
  destruct (emitAll emit (directives remoteScope) "directive") as [ds|e] eqn:Hds;
    [|discriminate].
  destruct (emitAll emit (pipes remoteScope) "pipe") as [ps|e] eqn:Hps; [|discriminate].
  cbn [res_bind] in H. unfold emitOrThrow in H.
  destruct (emit decl) as [de|] eqn:Hde; [|discriminate].
  split; [eexists; reflexivity|].
  split; [eapply emitAll_Ok_inv, Hds|eapply emitAll_Ok_inv, Hps].
Qed.

Lemma appendRemoteScopingStatements_emittable declarations protect : forall statements result,
  appendRemoteScopingStatements getRemoteScope emit statements declarations protect = Ok result ->
  emittable getRemoteScope emit declarations.
Proof.
  induction declarations as [|d rest IH]; intros statements result Hrun decl rs Hin Hrs.
  - apply elem_of_nil in Hin. contradiction.
  - cbn [appendRemoteScopingStatements] in Hrun.
    destruct (getRemoteScope (node d)) as [rs'|] eqn:Hrs'.
    + destruct (remoteScopingStatement emit d rs' protect) as [callStmt|e] eqn:Hcall;
        [|discriminate].
      cbn [res_bind] in Hrun.
      apply elem_of_cons in Hin as [->|Hin].
      * rewrite Hrs' in Hrs. injection Hrs as <-.
        eapply remoteScopingStatement_Ok_inv, Hcall.
      * exact (IH _ _ Hrun decl rs Hin Hrs).
    + apply elem_of_cons in Hin as [->|Hin]; [congruence|].
      exact (IH _ _ Hrun decl rs Hin Hrs).
Qed.

(** X21. Full compilation gives its statements exactly when every
    reference that remote scoping needs can be emitted: the declarations
    with a remote scope and the directives and pipes of these scopes.
    Otherwise it fails with a fatal diagnostic; a reference that cannot be
    emitted is never left out silently. *)
Theorem compileFull_succeeds_iff_emittable analysis :
  (exists statements, compileFull getRemoteScope emit analysis = Ok statements)
  <-> emittable getRemoteScope emit (declarations analysis).
Proof.
  split.
  - intros [statements Hrun]. eapply appendRemoteScopingStatements_emittable, Hrun.
  - intros Hem.
    destruct (appendRemoteScopingStatements_Ok getRemoteScope emit (declarations analysis)
                (remoteScopesMayRequireCycleProtection analysis)
                (insertMetadataStatement (modStatements analysis) (classMetadata analysis))
                Hem) as (calls & Hrun & _).
    eexists. exact Hrun.
Qed.

End NgModuleStatements.

Lemma compileFull_statements_in_order_witness :
  NgModuleHandler.compileFull NgModuleExample.getRemoteScope NgModuleExample.emit
    (NgModuleHandler.analyze [NgModuleExample.cmp2; NgModuleExample.cmp1]
       [NgModuleExample.mod3]
       [NgModuleHandler.ExpressionStatement (NgModuleHandler.ExternalExpr "moduleDef")]
       (Some (NgModuleHandler.ExternalExpr "setClassMetadata")))
  = Ok [NgModuleHandler.ExpressionStatement (NgModuleHandler.ExternalExpr "setClassMetadata");
        NgModuleHandler.ExpressionStatement (NgModuleHandler.ExternalExpr "moduleDef");
        NgModuleHandler.ExpressionStatement
          (NgModuleHandler.InvokeFunctionExpr
             (NgModuleHandler.ExternalExpr NgModuleHandler.setComponentScope)
             [NgModuleHandler.WrappedNodeExpr 1;
              NgModuleHandler.FunctionExpr []
                [NgModuleHandler.ReturnStatement
                   (NgModuleHandler.LiteralArrayExpr [NgModuleHandler.WrappedNodeExpr 2])];
              NgModuleHandler.LiteralArrayExpr []])].
Proof.
  destruct (NgModuleHandler.compileFull NgModuleExample.getRemoteScope NgModuleExample.emit
              (NgModuleHandler.analyze [NgModuleExample.cmp2; NgModuleExample.cmp1]
                 [NgModuleExample.mod3]
                 [NgModuleHandler.ExpressionStatement (NgModuleHandler.ExternalExpr "moduleDef")]
                 (Some (NgModuleHandler.ExternalExpr "setClassMetadata"))))
    as [statements|e] eqn:Hrun; [|discriminate Hrun].
  destruct (compileFull_statements_in_order NgModuleExample.getRemoteScope
              NgModuleExample.emit _ _ Hrun) as (calls & -> & HF).
  cbn [NgModuleHandler.classMetadata NgModuleHandler.modStatements NgModuleHandler.analyze
       app].
  do 3 f_equal.
  vm_compute in HF.
  inversion HF as [|decl call rest calls' Hcall Hrest]; subst.
  inversion Hrest; subst.
  destruct Hcall as (remoteScope & declExpr & directiveExprs & pipeExprs
                     & Hscope & Hdecl & Hdirs & Hpipes & ->).
  injection Hscope as <-. injection Hdecl as <-.
  inversion Hdirs as [|d1 e1 ds es Hd1 Hds]; subst. inversion Hds; subst.
  inversion Hpipes; subst. injection Hd1 as <-. reflexivity.
Defined.

Section NgModuleReferences.
Import NgModuleHandler.
Variable isClass : nat -> bool.

Lemma ResolvedValue_nested_ind (P : ResolvedValue -> Prop) :
  (forall entries, Forall P entries -> P (ResolvedArray entries)) ->
  (forall ref, P (ResolvedReference ref)) ->
  (forall ngModule, P ngModule -> P (SyntheticValue ngModule)) ->
  (forall ngModule, P ngModule -> P (ResolvedMap (Some ngModule))) ->
  P (ResolvedMap None) ->
  P ResolvedOther ->
  forall value, P value.
Proof.
  intros Harray Href Hsynthetic Hmap Hnone Hother.
  fix IH 1. intros [entries|ref|ngModule|[ngModule|]|].
  - apply Harray. induction entries as [|entry rest IHrest]; constructor;
      [apply IH|exact IHrest].
  - apply Href.
  - apply Hsynthetic, IH.
  - apply Hmap, IH.
  - apply Hnone.
  - apply Hother.
Qed.

Section Names.
Variables className arrayName : string.

Let recur := resolveTypeList isClass className arrayName.
Let loop := resolveEntries isClass recur className arrayName.

Lemma resolveEntries_accumulates entries : forall refList has absoluteIndex,
  loop entries refList has absoluteIndex
  = try! result <- loop entries [] false absoluteIndex;
    Ok (refList ++ fst result, has || snd result).
Proof.
  unfold loop. induction entries as [|entry rest IH]; intros refList has absoluteIndex.
  - cbn. rewrite app_nil_r, orb_false_r. reflexivity.
  - cbn [resolveEntries].
    assert (Hstep : forall (entryResult : Res Thrown (list Reference * bool)) (h h0 : bool),
              has || h0 = h ->
              (try! pushed <- entryResult;
               resolveEntries isClass recur className arrayName rest
                 (refList ++ fst pushed) (h || snd pushed)
                 (absoluteIndex + length (fst pushed)))
              = try! result <-
                  (try! pushed <- entryResult;
                   resolveEntries isClass recur className arrayName rest
                     ([] ++ fst pushed) (h0 || snd pushed)
                     (absoluteIndex + length (fst pushed)));
                Ok (refList ++ fst result, has || snd result)).
    { intros [pushed|e] h h0 Hh; [|reflexivity]. cbn [res_bind].
      rewrite (IH (refList ++ fst pushed)), (IH ([] ++ fst pushed)).
      destruct (resolveEntries isClass recur className arrayName rest [] false
                  (absoluteIndex + length (fst pushed))) as [result|e]; [|reflexivity].
      cbn [res_bind fst snd]. rewrite app_nil_l, app_assoc, <- Hh, !orb_assoc. reflexivity. }
    destruct entry as [es|ref|m|[m|]|]; cbn [fst snd];
      apply Hstep; auto using orb_true_r, orb_false_r.
Qed.

Lemma resolveEntries_app entries1 : forall entries2 absoluteIndex,
  loop (entries1 ++ entries2) [] false absoluteIndex
  = try! result1 <- loop entries1 [] false absoluteIndex;
    try! result2 <- loop entries2 [] false (absoluteIndex + length (fst result1));
    Ok (fst result1 ++ fst result2, snd result1 || snd result2).
Proof.
  induction entries1 as [|entry rest IH]; intros entries2 absoluteIndex.
  - cbn [app]. unfold loop at 2. cbn [resolveEntries res_bind fst snd length].
    rewrite Nat.add_0_r.
    destruct (loop entries2 [] false absoluteIndex) as [[refs has]|e]; reflexivity.
  - unfold loop. cbn [app resolveEntries].
    set (resolved := match entry with
                     | SyntheticValue ngModule =>
                         (resolveEntry isClass recur className arrayName ngModule absoluteIndex,
                          true)
                     | ResolvedMap (Some ngModule) =>
                         (resolveEntry isClass recur className arrayName ngModule absoluteIndex,
                          true)
                     | _ => (resolveEntry isClass recur className arrayName entry absoluteIndex,
                             false)
                     end).
    destruct (fst resolved) as [pushed|e]; [|reflexivity]. cbn [res_bind].
    fold loop.
    rewrite (resolveEntries_accumulates (rest ++ entries2)),
            (resolveEntries_accumulates rest), IH.
    destruct (loop rest [] false (absoluteIndex + length (fst pushed))) as [result1|e];
      [|reflexivity].
    cbn [res_bind fst snd]. rewrite length_app, Nat.add_assoc.
    destruct (loop entries2 [] false (absoluteIndex + length (fst pushed) + length (fst result1)))
      as [result2|e]; [|reflexivity].
    cbn [res_bind fst snd]. rewrite app_assoc, orb_assoc. reflexivity.
Qed.

(** X22. Resolving an array in two pieces gives what resolving it at once
    gives, errors included, when the second piece is resolved with the
    position moved up by the number of references of the first: the
    references are those of the first piece followed by those of the
    second, and a [ModuleWithProviders] is reported when one of the pieces
    has one. *)
Theorem resolveTypeList_concatenation entries1 entries2 absoluteIndex :
  resolveTypeList isClass className arrayName (ResolvedArray (entries1 ++ entries2))
    absoluteIndex
  = try! result1 <- resolveTypeList isClass className arrayName (ResolvedArray entries1)
                      absoluteIndex;
    try! result2 <- resolveTypeList isClass className arrayName (ResolvedArray entries2)
                      (absoluteIndex + length (fst result1));
    Ok (fst result1 ++ fst result2, snd result1 || snd result2).
Proof. exact (resolveEntries_app entries1 entries2 absoluteIndex). Qed.

(** X23. Nested arrays are transparent: an array that holds the array
    [inner] as an entry resolves as the array in which the entries of
    [inner] stand in its place does, with the same references, the same
    report of a [ModuleWithProviders] and, on failure, the same diagnostic
    with the same position. *)
Theorem resolveTypeList_nested_array_transparent before inner after absoluteIndex :
  resolveTypeList isClass className arrayName
    (ResolvedArray (before ++ ResolvedArray inner :: after)) absoluteIndex
  = resolveTypeList isClass className arrayName
      (ResolvedArray (before ++ inner ++ after)) absoluteIndex.
Proof.
  cbn [resolveTypeList]. fold recur. fold loop.
  rewrite !(resolveEntries_app before).
  destruct (loop before [] false absoluteIndex) as [result1|e]; [|reflexivity].
  cbn [res_bind]. rewrite (resolveEntries_app inner).
  unfold loop at 1. cbn [resolveEntries resolveEntry fst snd].
  change (recur (ResolvedArray inner) ?i) with (loop inner [] false i).
  destruct (loop inner [] false (absoluteIndex + length (fst result1))) as [pushed|e];
    [|reflexivity].
  cbn [res_bind]. fold loop. rewrite (resolveEntries_accumulates after).
  cbn [orb app]. reflexivity.
Qed.

End Names.

Let settledEntry (value : ResolvedValue) : Prop :=
  forall className arrayName absoluteIndex pushed,
    resolveEntry isClass (resolveTypeList isClass className arrayName) className arrayName
      value absoluteIndex = Ok pushed ->
    Forall (fun ref => isClassDeclarationReference isClass ref = true) (fst pushed)
    /\ forall className' arrayName' absoluteIndex',
         resolveEntry isClass (resolveTypeList isClass className' arrayName') className'
           arrayName' value absoluteIndex' = Ok pushed.

Let settledUnwrapped (value : ResolvedValue) : Prop :=
  settledEntry value
  /\ forall ngModule,
       value = SyntheticValue ngModule \/ value = ResolvedMap (Some ngModule) ->
       settledEntry ngModule.

Lemma resolveEntries_settled entries :
  Forall settledUnwrapped entries ->
  forall className arrayName refList has absoluteIndex refs has',
    resolveEntries isClass (resolveTypeList isClass className arrayName) className arrayName
      entries refList has absoluteIndex = Ok (refs, has') ->
    (exists more,
       refs = refList ++ more
       /\ Forall (fun ref => isClassDeclarationReference isClass ref = true) more)
    /\ forall className' arrayName' absoluteIndex',
         resolveEntries isClass (resolveTypeList isClass className' arrayName') className'
           arrayName' entries refList has absoluteIndex' = Ok (refs, has').
Proof.
  induction 1 as [|entry rest Hentry _ IH];
    intros className arrayName refList has absoluteIndex refs has' Hrun.
  - injection Hrun as <- <-. split; [|reflexivity].
    exists []. rewrite app_nil_r. split; [reflexivity|constructor].
  - assert (Hstep : forall value (h : bool),
              settledEntry value ->
              (try! pushed <- resolveEntry isClass (resolveTypeList isClass className arrayName)
                                className arrayName value absoluteIndex;
               resolveEntries isClass (resolveTypeList isClass className arrayName) className
                 arrayName rest (refList ++ fst pushed) (h || snd pushed)
                 (absoluteIndex + length (fst pushed))) = Ok (refs, has') ->
              (exists more,
                 refs = refList ++ more
                 /\ Forall (fun ref => isClassDeclarationReference isClass ref = true) more)
              /\ forall className' arrayName' absoluteIndex',
                   (try! pushed <- resolveEntry isClass
                                     (resolveTypeList isClass className' arrayName')
                                     className' arrayName' value absoluteIndex';
                    resolveEntries isClass (resolveTypeList isClass className' arrayName')
                      className' arrayName' rest (refList ++ fst pushed) (h || snd pushed)
                      (absoluteIndex' + length (fst pushed))) = Ok (refs, has')).
    { intros value h Hvalue Hrun'.
      destruct (resolveEntry isClass (resolveTypeList isClass className arrayName) className
                  arrayName value absoluteIndex) as [pushed|e] eqn:Hpushed; [|discriminate].
      cbn [res_bind] in Hrun'.
      destruct (Hvalue _ _ _ _ Hpushed) as [Hclasses Hany].
      destruct (IH _ _ _ _ _ _ _ Hrun') as [(more & -> & Hmore) Hrest].
      split.
      - exists (fst pushed ++ more). rewrite app_assoc. split; [reflexivity|].
        apply Forall_app. split; assumption.
      - intros className' arrayName' absoluteIndex'. rewrite Hany. cbn [res_bind].
        apply Hrest. }
    destruct Hentry as [Hself Hunwrapped].
    cbn [resolveEntries] in Hrun |- *.
    destruct entry as [es|ref|m|[m|]|]; cbn [fst snd] in Hrun |- *.
    + exact (Hstep _ _ Hself Hrun).
    + exact (Hstep _ _ Hself Hrun).
    + exact (Hstep _ _ (Hunwrapped m (or_introl eq_refl)) Hrun).
    + exact (Hstep _ _ (Hunwrapped m (or_intror eq_refl)) Hrun).
    + exact (Hstep _ _ Hself Hrun).
    + exact (Hstep _ _ Hself Hrun).
Qed.

Lemma resolveEntry_settled value : settledUnwrapped value.
Proof.
  induction value as [entries IH|ref|ngModule IH|ngModule IH| |]
    using ResolvedValue_nested_ind.
  - split; [|intros m [Hm|Hm]; discriminate].
    intros className arrayName absoluteIndex [refs has] Hrun.
    cbn [resolveEntry resolveTypeList] in Hrun |- *.
    destruct (resolveEntries_settled entries IH _ _ _ _ _ _ _ Hrun)
      as [(more & -> & Hmore) Hany].
    split; [exact Hmore|exact Hany].
  - split; [|intros m [Hm|Hm]; discriminate].
    intros className arrayName absoluteIndex pushed Hrun.
    cbn [resolveEntry] in Hrun |- *.
    destruct (isClassDeclarationReference isClass ref) eqn:Hclass; [|discriminate].
    injection Hrun as <-. split; [|reflexivity].
    constructor; [exact Hclass|constructor].
  - split; [intros ? ? ? ? Hrun; discriminate|].
    intros m [Hm|Hm]; [|discriminate]. injection Hm as <-. exact (proj1 IH).
  - split; [intros ? ? ? ? Hrun; discriminate|].
    intros m [Hm|Hm]; [discriminate|]. injection Hm as <-. exact (proj1 IH).
  - split; [intros ? ? ? ? Hrun; discriminate|intros m [Hm|Hm]; discriminate].
  - split; [intros ? ? ? ? Hrun; discriminate|intros m [Hm|Hm]; discriminate].
Qed.

(** X24. When [resolveTypeList] gives references, each of them is a class
    for the reflector, and the position and the names it was called with
    play no part in the result: they only go into the messages of the
    diagnostics, so that the same value resolves to the same references
    and the same report of a [ModuleWithProviders] whatever they are. *)
Theorem resolveTypeList_gives_classes_at_any_position className arrayName value
    absoluteIndex refs has :
  resolveTypeList isClass className arrayName value absoluteIndex = Ok (refs, has) ->
  Forall (fun ref => isClassDeclarationReference isClass ref = true) refs
  /\ forall className' arrayName' absoluteIndex',
       resolveTypeList isClass className' arrayName' value absoluteIndex' = Ok (refs, has).
Proof.
  intros Hrun. destruct value as [entries| | | |]; try discriminate.
  exact (proj1 (resolveEntry_settled (ResolvedArray entries)) _ _ _ (refs, has) Hrun).
Qed.

Variable evaluate : nat -> ResolvedValue.

(** X25. The loop of [analyze] over the top-level expressions of [imports],
    which resolves one expression at a time and moves the position up by
    the references found, agrees with resolving the array of their values
    at once: it fails with the same diagnostic, and otherwise its entries
    stand for the expressions in their order, their references put end to
    end are the references of the array, and one of them has a
    [ModuleWithProviders] exactly when the array has. *)
Theorem topLevelImports_agrees_with_resolveTypeList className topLevelExpressions
    absoluteIndex :
  resolveTypeList isClass className "imports"
    (ResolvedArray (evaluate <$> topLevelExpressions)) absoluteIndex
  = (try! imports <- topLevelImports isClass evaluate className topLevelExpressions
                       absoluteIndex;
     Ok (concat (resolvedReferences <$> imports), existsb hasModuleWithProviders imports))
  /\ forall imports,
       topLevelImports isClass evaluate className topLevelExpressions absoluteIndex
         = Ok imports ->
       expression <$> imports = topLevelExpressions.
Proof.
  revert absoluteIndex.
  induction topLevelExpressions as [|importExpr rest IH]; intros absoluteIndex.
  - split; [reflexivity|]. intros imports H. injection H as <-. reflexivity.
  - split.
    + change (evaluate <$> importExpr :: rest)
        with ([evaluate importExpr] ++ (evaluate <$> rest)).
      cbn [resolveTypeList]. rewrite resolveEntries_app. cbn [topLevelImports resolveTypeList].
      destruct (resolveEntries isClass (resolveTypeList isClass className "imports") className
                  "imports" [evaluate importExpr] [] false absoluteIndex)
        as [result|e]; [|reflexivity].
      cbn [res_bind].
      pose proof (proj1 (IH (absoluteIndex + length (fst result))%nat)) as Hrest.
      cbn [resolveTypeList] in Hrest. rewrite Hrest.
      destruct (topLevelImports isClass evaluate className rest
                  (absoluteIndex + length (fst result))) as [imports|e]; reflexivity.
    + intros imports H. cbn [topLevelImports] in H.
      destruct (resolveTypeList isClass className "imports"
                  (ResolvedArray [evaluate importExpr]) absoluteIndex) as [result|e];
        [|discriminate].
      cbn [res_bind] in H.
      destruct (topLevelImports isClass evaluate className rest
                  (absoluteIndex + length (fst result))) as [imports'|e] eqn:Himports;
        [|discriminate].
      cbn [res_bind] in H. injection H as <-. cbn [fmap list_fmap expression].
      f_equal. exact (proj2 (IH _) _ Himports).
Qed.

End NgModuleReferences.

Lemma resolveTypeList_gives_classes_at_any_position_witness :
  NgModuleHandler.resolveTypeList (fun _ => true) "AppModule" "exports"
    (NgModuleHandler.ResolvedArray
       [NgModuleHandler.ResolvedReference NgModuleExample.cmp1;
        NgModuleHandler.SyntheticValue (NgModuleHandler.ResolvedReference NgModuleExample.mod3);
        NgModuleHandler.ResolvedArray [NgModuleHandler.ResolvedReference NgModuleExample.cmp2]])
    7
  = Ok ([NgModuleExample.cmp1; NgModuleExample.mod3; NgModuleExample.cmp2], true).
Proof.
  apply (resolveTypeList_gives_classes_at_any_position (fun _ => true) "AppModule" "imports"
           (NgModuleHandler.ResolvedArray
              [NgModuleHandler.ResolvedReference NgModuleExample.cmp1;
               NgModuleHandler.SyntheticValue
                 (NgModuleHandler.ResolvedReference NgModuleExample.mod3);
               NgModuleHandler.ResolvedArray
                 [NgModuleHandler.ResolvedReference NgModuleExample.cmp2]])
           0 [NgModuleExample.cmp1; NgModuleExample.mod3; NgModuleExample.cmp2] true).
  reflexivity.
Defined.

(** ** The wrapped listener: the result of a dispatch *)

Section ListenerDispatch.
Import Listener.
Context {W : Type}.
Implicit Types (h : ListenerFn W) (chain : list (ListenerFn W)) (rt : Runtime W).

Lemma forallb_completionOk (cs : list Completion) :
  forallb completionOk cs = true
  <-> Forall (fun c => exists v, c = Normal v /\ v <> JsBoolean false) cs.
Proof.
  induction cs as [|c cs IH]; [split; [constructor|reflexivity]|].
  cbn [forallb]. rewrite andb_true_iff, Forall_cons, IH.
  apply and_iff_compat_r. destruct c as [v|err]; cbn [completionOk].
  - split.
    + intros Hv. exists v. split; [reflexivity|]. intros ->. discriminate.
    + intros (v' & Hv' & Hne). injection Hv' as <-.
      destruct v as [|[|]| | |]; try reflexivity. contradiction.
  - split; [discriminate|]. intros (v & Hv & _). discriminate.
Qed.

Lemma thrownErrors_none (cs : list Completion) :
  forallb completionOk cs = true -> thrownErrors cs = [].
Proof.
  induction cs as [|c cs IH]; [reflexivity|].
  cbn [forallb]. intros [Hc Hcs]%andb_true_iff.
  destruct c as [v|err]; [|discriminate]. exact (IH Hcs).
Qed.

(** X26. A dispatch of the wrapped listener gives [true] exactly when
    every handler of the chain returns, and returns something else than
    [false]. Then no error is handed to the error handler and the event is
    left alone. The default is prevented by the dispatch exactly when the
    wrapper was asked to and the result is [false]. Whatever the handlers
    do and however many they are, the view is marked dirty once; when the
    wrapper is called with the [Function] token it only hands out the
    listener, marks nothing and runs nothing. *)
Theorem wrapListener_dispatch_result startView h wrapPD chain e rt :
  let out := wrapListener startView h wrapPD chain (EventObject e) rt in
  (out.1 = Dispatched true
   <-> Forall (fun c => exists v, c = Normal v /\ v <> JsBoolean false)
         (completions (h :: chain) e (app rt)))
  /\ (out.1 = Dispatched true \/ out.1 = Dispatched false)
  /\ (out.1 = Dispatched true ->
        handledErrors out.2 = handledErrors rt
        /\ defaultPrevented out.2 = defaultPrevented rt
        /\ returnValueFalse out.2 = returnValueFalse rt)
  /\ (defaultPrevented out.2 = true
      <-> defaultPrevented rt = true \/ (wrapPD = true /\ out.1 = Dispatched false))
  /\ dirtyMarks out.2 = dirtyMarks rt ++ [startView]
  /\ wrapListener startView h wrapPD chain FunctionToken rt = (Unwrapped h, rt).
Proof.
  intros out. subst out. rewrite wrapListener_spec. cbn zeta.
  cbn [fst snd handledErrors defaultPrevented returnValueFalse dirtyMarks].
  rewrite <- forallb_completionOk.
  destruct (forallb completionOk (completions (h :: chain) e (app rt))) eqn:Hresult.
  - split; [split; reflexivity|]. split; [left; reflexivity|].
    rewrite (thrownErrors_none _ Hresult), app_nil_r, andb_false_r. cbn [orb].
    split; [intros _; repeat split|].
    split; [|split; reflexivity].
    split; [intros H; left; exact H|]. intros [H|[_ H]]; [exact H|discriminate].
  - split; [split; [intros H; injection H as H|]; discriminate|].
    split; [right; reflexivity|]. split; [discriminate|].
    split; [|split; reflexivity].
    rewrite andb_true_r. rewrite orb_true_iff. split.
    + intros [H|H]; [right; split; [exact H|reflexivity]|left; exact H].
    + intros [H|[H _]]; [right|left]; exact H.
Qed.

End ListenerDispatch.

(** ** Registering listeners: one native listener for a node and an event *)

Section ListenerCoalescing.
Import ListenerRegistration.

Lemma findExistingListenerFrom_blocks lCleanup eventName tNodeIdx blocks :
  Forall (fun block => blockOk block = true) blocks ->
  findExistingListenerFrom (flat_map encode blocks) (Some lCleanup) eventName tNodeIdx
  = Ok (match firstListenerIdx eventName tNodeIdx blocks with
        | Some listenerIdx => listenerAt lCleanup listenerIdx
        | None => Null
        end).
Proof.
  unfold firstListenerIdx.
  induction 1 as [|block blocks Hblock _ IH]; [reflexivity|].
  cbn [flat_map List.find].
  destruct block as [name target listenerIdx cleanupIdx|first second].
  - cbn [encode app findExistingListenerFrom strictEqString blockFor].
    destruct target as [s|i|a]; cbn [strictEqNumber];
      rewrite ?andb_false_r; try exact IH.
    destruct (bool_decide (name = eventName) && bool_decide (i = tNodeIdx));
      [reflexivity|exact IH].
  - cbn [encode app findExistingListenerFrom blockFor].
    destruct first as [s|i|a]; [discriminate Hblock| |]; cbn [strictEqString andb]; exact IH.
Qed.

Lemma findExistingListener_blocks_state st lCleanup eventName tNodeIdx blocks :
  cleanup st = Some (flat_map encode blocks) ->
  CLEANUP st = Some lCleanup ->
  Forall (fun block => blockOk block = true) blocks ->
  findExistingListener st eventName tNodeIdx
  = Ok (match firstListenerIdx eventName tNodeIdx blocks with
        | Some listenerIdx => listenerAt lCleanup listenerIdx
        | None => Null
        end).
Proof.
  intros Hcleanup HCLEANUP Hblocks. unfold findExistingListener.
  rewrite Hcleanup, HCLEANUP. apply findExistingListenerFrom_blocks, Hblocks.
Qed.

(** X27. On a [TView.cleanup] laid out in blocks of four entries for
    listeners and of two for destroy hooks, [findExistingListener] goes by
    the first block of a listener for the event on the node and by no other:
    it gives the entry of [lView[CLEANUP]] at the position that this block
    holds, [null] when the view has no such position yet, and [null] when
    there is no such block. Blocks of hooks, of other events, of other nodes
    and of global targets are passed over. *)
Theorem findExistingListener_first_block st lCleanup eventName tNodeIdx blocks :
  cleanup st = Some (flat_map encode blocks) ->
  CLEANUP st = Some lCleanup ->
  Forall (fun block => blockOk block = true) blocks ->
  findExistingListener st eventName tNodeIdx
  = Ok (match firstListenerIdx eventName tNodeIdx blocks with
        | Some listenerIdx => listenerAt lCleanup listenerIdx
        | None => Null
        end).
Proof.
  intros Hcleanup HCLEANUP Hblocks. unfold findExistingListener.
  rewrite Hcleanup, HCLEANUP. apply findExistingListenerFrom_blocks, Hblocks.
Qed.

Lemma firstListenerIdx_app eventName tNodeIdx blocks more :
  firstListenerIdx eventName tNodeIdx (blocks ++ more)
  = match firstListenerIdx eventName tNodeIdx blocks with
    | Some listenerIdx => Some listenerIdx
    | None => firstListenerIdx eventName tNodeIdx more
    end.
Proof.
  unfold firstListenerIdx. induction blocks as [|block blocks IH]; [reflexivity|].
  cbn [app List.find]. destruct (blockFor eventName tNodeIdx block) eqn:Hblock; [|exact IH].
  destruct block; [reflexivity|discriminate].
Qed.

Lemma getFn_setHeap_insert st a o b :
  getFn (setHeap (<[a := o]> (heap st)) st) b = if decide (a = b) then o else getFn st b.
Proof.
  unfold getFn, setHeap. cbn [heap]. destruct (decide (a = b)) as [->|Hne].
  - rewrite lookup_insert_eq. reflexivity.
  - rewrite lookup_insert_ne by exact Hne. reflexivity.
Qed.

Lemma linked_frame st st' chain : forall start,
  (forall fn, fn ∈ chain ->
              ngNextListenerFn (getFn st' fn) = ngNextListenerFn (getFn st fn)) ->
  linked st start chain -> linked st' start chain.
Proof.
  induction chain as [|fn rest IH]; intros start Hsame Hlinked; [exact Hlinked|].
  destruct Hlinked as [Hstart Hrest]. split; [exact Hstart|].
  rewrite (Hsame fn (list_elem_of_here _ _)). apply IH; [|exact Hrest].
  intros x Hx. apply Hsame, list_elem_of_further, Hx.
Qed.

Lemma linked_snoc st st' chain lastFn g : forall start,
  linked st start (chain ++ [lastFn]) ->
  lastFn ∉ chain ->
  (forall fn, fn ∈ chain ->
              ngNextListenerFn (getFn st' fn) = ngNextListenerFn (getFn st fn)) ->
  ngNextListenerFn (getFn st' lastFn) = Some g ->
  ngNextListenerFn (getFn st' g) = None ->
  linked st' start (chain ++ [lastFn; g]).
Proof.
  induction chain as [|fn rest IH]; intros start Hlinked Hnotin Hsame Hlast Hg.
  - destruct Hlinked as [Hstart _]. cbn [app linked]. rewrite Hlast, Hg. auto.
  - destruct Hlinked as [Hstart Hrest]. split; [exact Hstart|].
    rewrite (Hsame fn (list_elem_of_here _ _)). apply IH; try assumption.
    + intros Hin. apply Hnotin, list_elem_of_further, Hin.
    + intros x Hx. apply Hsame, list_elem_of_further, Hx.
Qed.

Lemma linked_chainFrom st chain : forall start (fuel : nat),
  linked st start chain -> (length chain <= fuel)%nat -> chainFrom fuel st start = chain.
Proof.
  induction chain as [|fn rest IH]; intros start fuel Hlinked Hfuel.
  - cbn in Hlinked. subst start. destruct fuel; reflexivity.
  - destruct Hlinked as [-> Hrest]. destruct fuel as [|fuel]; [cbn in Hfuel; lia|].
    cbn [chainFrom]. f_equal. apply IH; [exact Hrest|]. cbn in Hfuel. lia.
Qed.

Section OneNode.
Variable ngDevMode : bool.
Variable getNativeByTNode : Z -> nat.
Variable isObservable : Z -> string -> bool.
Variable indexInRange : Z -> bool.
Variable constructorName : Z -> string.
Variable tNode : TNode.
Variable eventName : string.
Hypothesis tNode_element : typeIsAnyRNode tNode = true.
Hypothesis tNode_host : isDirectiveHost tNode = true.

(** The listener [listenerFn] has its wrapper [wrapper] registered for the
    event on the node, and [chain] is coalesced onto it. *)
Let registered (st : State) (listenerFn wrapper : nat) (chain : list nat) : Prop :=
  (exists blocks lCleanup listenerIdx,
     cleanup st = Some (flat_map encode blocks)
     /\ Forall (fun block => blockOk block = true) blocks
     /\ firstListenerIdx eventName (index tNode) blocks = Some listenerIdx
     /\ CLEANUP st = Some lCleanup
     /\ listenerAt lCleanup listenerIdx = Found wrapper)
  /\ kind (getFn st wrapper) = Wrapper listenerFn
  /\ linked st (ngNextListenerFn (getFn st wrapper)) chain
  /\ ngLastListenerFn (getFn st wrapper) = last chain
  /\ NoDup (wrapper :: chain).

Lemma listenerInternal_coalesces st listenerFn wrapper chain g :
  registered st listenerFn wrapper chain ->
  g ∉ wrapper :: chain ->
  ngNextListenerFn (getFn st g) = None ->
  exists st',
    listenerInternal ngDevMode getNativeByTNode isObservable indexInRange constructorName
      tNode eventName g None st = Ok st'
    /\ registered st' listenerFn wrapper (chain ++ [g])
    /\ (forall fn, fn ∉ wrapper :: chain -> getFn st' fn = getFn st fn)
    /\ listened st' = listened st
    /\ subscribed st' = subscribed st
    /\ CLEANUP st' = CLEANUP st.
Proof.
  intros ((blocks & lCleanup & listenerIdx & Hcleanup & Hblocks & Hfirst & HCLEANUP & Hat)
          & Hkind & Hlinked & Hlast & Hnodup) Hg Hgnext.
  assert (Hfind : findExistingListener st eventName (index tNode) = Ok (Found wrapper)).
  { rewrite (findExistingListener_blocks_state st lCleanup eventName (index tNode) blocks
               Hcleanup HCLEANUP Hblocks), Hfirst, Hat. reflexivity. }
  assert (Hst : getOrCreateLViewCleanup
                  (if firstCreatePass st then getOrCreateTViewCleanup st else st) = st).
  { destruct st as [fcp tc lc h li su]. cbn in Hcleanup, HCLEANUP. subst tc lc.
    destruct fcp; reflexivity. }
  unfold listenerInternal. rewrite Hst, tNode_element, tNode_host. cbn [orb negb andb].
  rewrite andb_false_r.
  replace (bool_decide (is_Some (@None (nat -> nat)))) with false
    by (symmetry; apply bool_decide_eq_false; intros [x Hx]; discriminate).
  cbn [negb andb]. rewrite Hfind. cbn [res_bind].
  set (lastListenerFn := default wrapper (ngLastListenerFn (getFn st wrapper))).
  set (st1 := setNextListenerFn lastListenerFn g st).
  set (st2 := setLastListenerFn wrapper g st1).
  eexists. split; [reflexivity|].
  apply NoDup_cons in Hnodup as [Hwrapper Hchain].
  assert (Hgw : g <> wrapper) by (intros ->; apply Hg, list_elem_of_here).
  assert (Hgchain : g ∉ chain) by (intros Hin; apply Hg, list_elem_of_further, Hin).
  (* what the two writes leave *)
  assert (Hget : forall fn,
            getFn st2 fn
            = if decide (wrapper = fn)
              then {| kind := kind (getFn st wrapper);
                      ngNextListenerFn :=
                        if decide (lastListenerFn = wrapper) then Some g
                        else ngNextListenerFn (getFn st wrapper);
                      ngLastListenerFn := Some g |}
              else if decide (lastListenerFn = fn)
                   then {| kind := kind (getFn st fn);
                           ngNextListenerFn := Some g;
                           ngLastListenerFn := ngLastListenerFn (getFn st fn) |}
                   else getFn st fn).
  { intros fn. unfold st2, setLastListenerFn.
    rewrite getFn_setHeap_insert. unfold st1 at 3, setNextListenerFn.
    rewrite getFn_setHeap_insert.
    unfold st1, setNextListenerFn. rewrite getFn_setHeap_insert.
    destruct (decide (wrapper = fn)) as [<-|Hne].
    - destruct (decide (lastListenerFn = wrapper)) as [->|Hne']; reflexivity.
    - destruct (decide (lastListenerFn = fn)) as [->|Hne']; reflexivity. }
  split; [|split; [|split; [reflexivity|split; reflexivity]]].
  - split; [exists blocks, lCleanup, listenerIdx; repeat split; assumption|].
    rewrite (Hget wrapper), decide_True by reflexivity.
    cbn [kind ngNextListenerFn ngLastListenerFn].
    split; [exact Hkind|]. split; [|split].
    + destruct chain as [|c0 chain0] using rev_ind.
      * cbn in Hlast. unfold lastListenerFn. rewrite Hlast. cbn [default].
        rewrite decide_True by reflexivity. cbn [app linked].
        rewrite (Hget g), decide_False by (intros E; apply Hgw; symmetry; exact E).
        rewrite decide_False by (unfold lastListenerFn; rewrite Hlast; cbn [default];
                                 intros E; apply Hgw; symmetry; exact E).
        auto.
      * clear IHchain0. rewrite last_snoc in Hlast.
        assert (Hl : lastListenerFn = c0) by (unfold lastListenerFn; rewrite Hlast; reflexivity).
        assert (Hc0w : c0 <> wrapper).
        { intros ->. apply Hwrapper, elem_of_app. right. apply list_elem_of_here. }
        rewrite Hl, decide_False by exact Hc0w.
        rewrite <- app_assoc. cbn [app].
        apply NoDup_app in Hchain as (Hnd0 & Hdisj & _).
        assert (Hc0 : c0 ∉ chain0).
        { intros Hin. apply (Hdisj c0 Hin), list_elem_of_here. }
        apply (linked_snoc st st2 chain0 c0 g); try assumption.
        -- intros fn Hfn. rewrite (Hget fn).
           rewrite decide_False
             by (intros <-; apply Hwrapper, elem_of_app; left; exact Hfn).
           rewrite Hl, decide_False by (intros <-; apply Hc0; exact Hfn). reflexivity.
        -- rewrite (Hget c0), decide_False by (intros E; apply Hc0w; symmetry; exact E).
           rewrite Hl, decide_True by reflexivity. reflexivity.
        -- rewrite (Hget g), decide_False by (intros E; apply Hgw; symmetry; exact E).
           rewrite Hl, decide_False; [exact Hgnext|].
           intros <-. apply Hgchain, elem_of_app. right. apply list_elem_of_here.
    + rewrite last_snoc. reflexivity.
    + apply NoDup_cons. split.
      * intros [Hin|Hin%list_elem_of_singleton]%elem_of_app; [exact (Hwrapper Hin)|].
        apply Hgw. symmetry. exact Hin.
      * apply NoDup_app. split; [exact Hchain|]. split; [|apply NoDup_singleton].
        intros x Hx ->%list_elem_of_singleton. exact (Hgchain Hx).
  - intros fn Hfn. rewrite (Hget fn).
    rewrite decide_False by (intros <-; apply Hfn, list_elem_of_here).
    rewrite decide_False; [reflexivity|].
    intros <-. apply Hfn. unfold lastListenerFn. rewrite Hlast.
    destruct (last chain) as [l|] eqn:El; cbn [default]; [|apply list_elem_of_here].
    apply list_elem_of_further. apply last_Some in El as [l' ->].
    apply elem_of_app. right. apply list_elem_of_here.
Qed.

Lemma listeners_coalesce_rest rest : forall st listenerFn wrapper chain,
  registered st listenerFn wrapper chain ->
  NoDup rest ->
  (forall g, g ∈ rest -> (g ∉ wrapper :: chain) /\ ngNextListenerFn (getFn st g) = None) ->
  exists st',
    listeners ngDevMode getNativeByTNode isObservable indexInRange constructorName
      tNode eventName rest st = Ok st'
    /\ registered st' listenerFn wrapper (chain ++ rest)
    /\ listened st' = listened st
    /\ subscribed st' = subscribed st
    /\ CLEANUP st' = CLEANUP st.
Proof.
  induction rest as [|g rest IH]; intros st listenerFn wrapper chain Hreg Hnodup Hrest.
  - exists st. rewrite app_nil_r. split; [reflexivity|]. split; [exact Hreg|]. auto.
  - apply NoDup_cons in Hnodup as [Hg Hnodup].
    destruct (Hrest g (list_elem_of_here _ _)) as [Hgnew Hgnext].
    destruct (listenerInternal_coalesces st listenerFn wrapper chain g Hreg Hgnew Hgnext)
      as (st1 & Hrun & Hreg1 & Hframe & Hli & Hsu & HCL).
    destruct (IH st1 listenerFn wrapper (chain ++ [g]) Hreg1 Hnodup)
      as (st' & Hrun' & Hreg' & Hli' & Hsu' & HCL').
    { intros x Hx. destruct (Hrest x (list_elem_of_further _ _ _ Hx)) as [Hxnew Hxnext].
      split.
      - rewrite app_comm_cons. intros [Hin|Hin%list_elem_of_singleton]%elem_of_app;
          [exact (Hxnew Hin)|]. subst x. exact (Hg Hx).
      - rewrite (Hframe x Hxnew). exact Hxnext. }
    exists st'. cbn [listeners]. rewrite Hrun. cbn [res_bind]. rewrite Hrun'.
    rewrite <- app_assoc in Hreg'. cbn [app] in Hreg'.
    split; [reflexivity|]. split; [exact Hreg'|].
    split; [congruence|]. split; congruence.
Qed.

Lemma subscribeOutputs_Ok listenerFn props : forall st,
  (forall i name, (i, name) ∈ props ->
     isObservable i name = true /\ (ngDevMode = true -> indexInRange i = true)) ->
  exists st' outBlocks more,
    subscribeOutputs ngDevMode isObservable indexInRange constructorName
      tNode eventName listenerFn props st = Ok st'
    /\ firstCreatePass st' = firstCreatePass st
    /\ listened st' = listened st
    /\ subscribed st' = subscribed st ++ ((fun p => (p.1, p.2, listenerFn)) <$> props)
    /\ default [] (CLEANUP st') = default [] (CLEANUP st) ++ more
    /\ length more = (2 * length props)%nat
    /\ (is_Some (CLEANUP st) -> is_Some (CLEANUP st'))
    /\ Forall (fun block => blockOk block = true) outBlocks
    /\ default [] (cleanup st')
        = default [] (cleanup st)
            ++ (if firstCreatePass st then flat_map encode outBlocks else [])
    /\ (is_Some (cleanup st) -> is_Some (cleanup st'))
    /\ (forall fn, fn ∈ dom (heap st) -> getFn st' fn = getFn st fn)
    /\ dom (heap st) ⊆ dom (heap st').
Proof.
  induction props as [|[directiveIndex minifiedName] props IH]; intros st Hprops.
  - exists st, [], []. cbn [subscribeOutputs fmap list_fmap length flat_map].
    rewrite !app_nil_r. destruct (firstCreatePass st); rewrite ?app_nil_r;
      repeat split; auto.
  - destruct (Hprops directiveIndex minifiedName (list_elem_of_here _ _)) as [Hobs Hrange].
    cbn [subscribeOutputs]. rewrite Hobs. cbn [negb].
    replace (ngDevMode && negb (indexInRange directiveIndex)) with false
      by (destruct ngDevMode; [rewrite Hrange by reflexivity|]; reflexivity).
    destruct st as [fcp tc lc h li su].
    unfold subscribe, allocate, setHeap.
    cbn [firstCreatePass cleanup CLEANUP heap listened subscribed].
    set (subscription := fresh (dom h)).
    set (idx := Z.of_nat (length (default [] lc))).
    set (block := ListenerBlock eventName (TNumber (index tNode)) idx (- (idx + 1))).
    match goal with
    | |- context [subscribeOutputs _ _ _ _ _ _ _ _ ?s] => set (st3 := s)
    end.
    destruct (IH st3) as (st' & outBlocks & more & Hrun & Hfcp & Hli & Hsu & HCL & Hmore
                          & HCLsome & Hout & Hcl & Hclsome & Hheap & Hdom).
    { intros i name Hin. apply Hprops, list_elem_of_further, Hin. }
    exists st', (block :: outBlocks), ([listenerFn; subscription] ++ more).
    split; [exact Hrun|].
    assert (Hfcp3 : firstCreatePass st3 = fcp).
    { unfold st3, pushTCleanup, pushLCleanup. cbn. destruct fcp; reflexivity. }
    assert (HCL3 : CLEANUP st3 = Some (default [] lc ++ [listenerFn; subscription])).
    { unfold st3, pushTCleanup, pushLCleanup. cbn. destruct fcp; reflexivity. }
    assert (Hcl3 : cleanup st3 = if fcp then Some (default [] tc ++ encode block) else tc).
    { unfold st3, pushTCleanup, pushLCleanup. cbn. destruct fcp; reflexivity. }
    assert (Hheap3 : heap st3
                     = <[subscription := {| kind := Subscription (length su);
                                            ngNextListenerFn := None;
                                            ngLastListenerFn := None |}]> h).
    { unfold st3, pushTCleanup, pushLCleanup. cbn. destruct fcp; reflexivity. }
    assert (Hli3 : listened st3 = li).
    { unfold st3, pushTCleanup, pushLCleanup. cbn. destruct fcp; reflexivity. }
    assert (Hsu3 : subscribed st3 = su ++ [(directiveIndex, minifiedName, listenerFn)]).
    { unfold st3, pushTCleanup, pushLCleanup. cbn. destruct fcp; reflexivity. }
    cbn [firstCreatePass cleanup CLEANUP heap listened subscribed].
    split; [congruence|]. split; [congruence|].
    split; [rewrite Hsu, Hsu3, <- app_assoc; reflexivity|].
    split; [rewrite HCL, HCL3; change (default [] (Some ?x)) with x; rewrite <- app_assoc;
            reflexivity|].
    split; [cbn [app length]; rewrite Hmore; cbn [length]; lia|].
    split; [intros _; apply HCLsome; rewrite HCL3; eexists; reflexivity|].
    split; [constructor; [reflexivity|exact Hout]|].
    split.
    { rewrite Hcl, Hcl3, Hfcp3. destruct fcp; cbn [flat_map];
        change (default [] (Some ?x)) with x.
      - rewrite <- app_assoc. reflexivity.
      - rewrite !app_nil_r. reflexivity. }
    split.
    { intros Htc. apply Hclsome. rewrite Hcl3. destruct fcp; [eexists; reflexivity|exact Htc]. }
    assert (Hfresh : subscription ∉ dom h) by apply is_fresh.
    split.
    + intros fn Hfn. rewrite Hheap.
      * unfold getFn. rewrite Hheap3. cbn [heap]. rewrite lookup_insert_ne; [reflexivity|].
        intros <-. exact (Hfresh Hfn).
      * rewrite Hheap3, dom_insert. apply elem_of_union. right. exact Hfn.
    + intros fn Hfn. apply Hdom. rewrite Hheap3, dom_insert. apply elem_of_union.
      right. exact Hfn.
Qed.

Lemma flat_map_encode_nil blocks : flat_map encode blocks = [] -> blocks = [].
Proof. destruct blocks as [|[? ? ? ?|? ?] blocks]; [reflexivity|discriminate|discriminate]. Qed.

Lemma listenerAt_middle (before : list nat) listener after :
  listenerAt (before ++ listener :: after) (Z.of_nat (length before)) = Found listener.
Proof.
  unfold listenerAt. rewrite length_app. cbn [length].
  replace (Z.of_nat (length before) <? Z.of_nat (length before + S (length after)))
    with true by (symmetry; apply Z.ltb_lt; lia).
  replace (0 <=? Z.of_nat (length before)) with true by (symmetry; apply Z.leb_le; lia).
  rewrite Nat2Z.id, list_lookup_middle by reflexivity. reflexivity.
Qed.

Lemma listenerAt_end (lCleanup : list nat) :
  listenerAt lCleanup (Z.of_nat (length lCleanup)) = Null.
Proof. unfold listenerAt. rewrite Z.ltb_irrefl. reflexivity. Qed.

Lemma listenerInternal_registers st listenerFn blocks :
  default [] (cleanup st) = flat_map encode blocks ->
  Forall (fun block => blockOk block = true) blocks ->
  (firstCreatePass st = true /\ firstListenerIdx eventName (index tNode) blocks = None)
  \/ firstListenerIdx eventName (index tNode) blocks
     = Some (Z.of_nat (length (default [] (CLEANUP st)))) ->
  (forall i name, (i, name) ∈ outputsOf tNode eventName ->
     isObservable i name = true /\ (ngDevMode = true -> indexInRange i = true)) ->
  exists st',
    listenerInternal ngDevMode getNativeByTNode isObservable indexInRange constructorName
      tNode eventName listenerFn None st = Ok st'
    /\ registered st' listenerFn (fresh (dom (heap st))) []
    /\ listened st'
        = listened st ++ [(getNativeByTNode (index tNode), eventName, fresh (dom (heap st)))]
    /\ subscribed st'
        = subscribed st
            ++ ((fun p => (p.1, p.2, fresh (dom (heap st)))) <$> outputsOf tNode eventName)
    /\ length (default [] (CLEANUP st'))
        = (length (default [] (CLEANUP st)) + 2
           + 2 * length (outputsOf tNode eventName))%nat
    /\ (forall fn, fn ∈ dom (heap st) -> getFn st' fn = getFn st fn).
Proof.
  intros Hcleanup Hblocks Hfirst Hprops.
  destruct st as [fcp tc lc h li su].
  cbn [firstCreatePass cleanup CLEANUP heap listened subscribed] in *.
  set (w := fresh (dom h)).
  set (stb := getOrCreateLViewCleanup
                (if fcp then getOrCreateTViewCleanup
                               {| firstCreatePass := fcp; cleanup := tc; CLEANUP := lc;
                                  heap := h; listened := li; subscribed := su |}
                 else {| firstCreatePass := fcp; cleanup := tc; CLEANUP := lc;
                         heap := h; listened := li; subscribed := su |})).
  assert (Hstb : stb = {| firstCreatePass := fcp;
                          cleanup := if fcp then Some (default [] tc) else tc;
                          CLEANUP := Some (default [] lc);
                          heap := h; listened := li; subscribed := su |}).
  { unfold stb. destruct fcp; reflexivity. }
  assert (Htc : fcp = false -> tc = Some (flat_map encode blocks)).
  { intros ->. destruct Hfirst as [[Hf _]|Hf]; [discriminate|].
    destruct tc as [tc|]; [cbn in Hcleanup; congruence|].
    cbn in Hcleanup. symmetry in Hcleanup. apply flat_map_encode_nil in Hcleanup.
    subst blocks. discriminate. }
  assert (Hnull : findExistingListener stb eventName (index tNode) = Ok Null).
  { rewrite (findExistingListener_blocks_state stb (default [] lc) eventName (index tNode)
               blocks).
    - destruct Hfirst as [[_ Hnone]|Hsome]; [rewrite Hnone; reflexivity|].
      rewrite Hsome, listenerAt_end. reflexivity.
    - rewrite Hstb. cbn [cleanup]. destruct fcp; [rewrite Hcleanup; reflexivity|].
      apply Htc. reflexivity.
    - rewrite Hstb. reflexivity.
    - exact Hblocks. }
  unfold listenerInternal. cbn [firstCreatePass]. fold stb.
  rewrite tNode_element, tNode_host. cbn [orb negb andb]. rewrite andb_false_r.
  replace (bool_decide (is_Some (@None (nat -> nat)))) with false
    by (symmetry; apply bool_decide_eq_false; intros [x Hx]; discriminate).
  cbn [negb andb]. rewrite Hnull. cbn [res_bind].
  rewrite Hstb. unfold wrapListener, listen, allocate, setHeap.
  cbn [firstCreatePass cleanup CLEANUP heap listened subscribed]. fold w.
  set (hw := <[w := {| kind := Wrapper listenerFn; ngNextListenerFn := None;
                       ngLastListenerFn := None |}]> h).
  set (c := fresh (dom hw)).
  set (hc := <[c := {| kind := CleanupFn (length li); ngNextListenerFn := None;
                       ngLastListenerFn := None |}]> hw).
  set (lCleanupIndex := Z.of_nat (length (default [] (Some (default [] lc))))).
  set (block := ListenerBlock eventName (TNumber (index tNode)) lCleanupIndex
                  (lCleanupIndex + 1)).
  match goal with
  | |- context [pushTCleanup ?items ?s] => set (stc := pushTCleanup items s)
  end.
  assert (Hstc : stc = {| firstCreatePass := fcp;
                          cleanup := if fcp then Some (default [] tc ++ encode block) else tc;
                          CLEANUP := Some (default [] lc ++ [w; c]);
                          heap := hc;
                          listened := li ++ [(getNativeByTNode (index tNode), eventName, w)];
                          subscribed := su |}).
  { unfold stc, pushTCleanup, pushLCleanup. cbn. destruct fcp; reflexivity. }
  assert (Houtputs :
            match outputs tNode with
            | Some outputs =>
                match outputs eventName with
                | Some props =>
                    subscribeOutputs ngDevMode isObservable indexInRange constructorName
                      tNode eventName w props stc
                | None => Ok stc
                end
            | None => Ok stc
            end
            = subscribeOutputs ngDevMode isObservable indexInRange constructorName
                tNode eventName w (outputsOf tNode eventName) stc).
  { unfold outputsOf. destruct (outputs tNode) as [o|]; [|reflexivity].
    destruct (o eventName); reflexivity. }
  cbn [res_bind]. rewrite Houtputs.
  destruct (subscribeOutputs_Ok w (outputsOf tNode eventName) stc Hprops)
    as (st' & outBlocks & more & Hrun & Hfcp & Hli & Hsu & HCL & Hmore & HCLsome & Hout
        & Hcl & Hclsome & Hheap & Hdom).
  rewrite Hstc in Hfcp, Hli, Hsu, HCL, HCLsome, Hcl, Hclsome, Hheap, Hdom.
  cbn [firstCreatePass cleanup CLEANUP heap listened subscribed] in *.
  change (default [] (Some ?x)) with x in HCL.
  assert (Hwh : w ∉ dom h) by apply is_fresh.
  assert (Hchw : c ∉ dom hw) by apply is_fresh.
  assert (Hcw : c <> w).
  { intros E. apply Hchw. rewrite E. unfold hw. rewrite dom_insert.
    apply elem_of_union. left. apply elem_of_singleton. reflexivity. }
  assert (Hwc : w ∈ dom hc).
  { unfold hc, hw. rewrite !dom_insert. apply elem_of_union. right.
    apply elem_of_union. left. apply elem_of_singleton. reflexivity. }
  assert (Hgetw : getFn st' w = {| kind := Wrapper listenerFn; ngNextListenerFn := None;
                                   ngLastListenerFn := None |}).
  { rewrite (Hheap w Hwc). unfold getFn, hc, hw. cbn [heap].
    rewrite lookup_insert_ne by exact Hcw. rewrite lookup_insert_eq. reflexivity. }
  exists st'. split; [exact Hrun|].
  destruct HCLsome as [lCleanup' HlCleanup']; [eexists; reflexivity|].
  rewrite HlCleanup' in HCL. change (default [] (Some ?x)) with x in HCL. subst lCleanup'.
  split; [|split; [exact Hli|split; [exact Hsu|split]]].
  - split.
    + exists (if fcp then blocks ++ [block] ++ outBlocks else blocks),
             ((default [] lc ++ [w; c]) ++ more), (Z.of_nat (length (default [] lc))).
      split.
      { destruct Hclsome as [tc' Htc']; [destruct fcp; [eexists; reflexivity|]|].
        - rewrite Htc by reflexivity. eexists. reflexivity.
        - rewrite Htc' in Hcl |- *. change (default [] (Some ?x)) with x in Hcl.
          rewrite Hcl. destruct fcp.
          + change (default [] (Some ?x)) with x. rewrite Hcleanup, !flat_map_app.
            cbn [flat_map]. rewrite app_nil_r, <- app_assoc. reflexivity.
          + rewrite Htc by reflexivity. change (default [] (Some ?x)) with x.
            rewrite app_nil_r. reflexivity. }
      split.
      { destruct fcp; [|exact Hblocks]. apply Forall_app. split; [exact Hblocks|].
        apply Forall_app. split; [|exact Hout]. constructor; [reflexivity|constructor]. }
      split.
      { destruct Hfirst as [[-> Hnone]|Hsome].
        - rewrite firstListenerIdx_app, Hnone. unfold firstListenerIdx, block.
          cbn [app List.find blockFor]. rewrite !bool_decide_eq_true_2 by reflexivity.
          reflexivity.
        - destruct fcp; [|exact Hsome]. rewrite firstListenerIdx_app, Hsome. reflexivity. }
      split; [exact HlCleanup'|].
      rewrite <- !app_assoc. cbn [app]. apply listenerAt_middle.
    + rewrite Hgetw. cbn [kind ngNextListenerFn ngLastListenerFn].
      split; [reflexivity|]. split; [reflexivity|]. split; [reflexivity|].
      apply NoDup_singleton.
  - rewrite HlCleanup'. change (default [] (Some ?x)) with x.
    rewrite !length_app, Hmore. cbn [length]. lia.
  - intros fn Hfn. rewrite Hheap.
    + unfold getFn, hc, hw. cbn [heap].
      rewrite !lookup_insert_ne; [reflexivity| |].
      * intros <-. exact (Hwh Hfn).
      * intros <-. apply Hchw. unfold hw. rewrite dom_insert. apply elem_of_union.
        right. exact Hfn.
    + unfold hc, hw. rewrite !dom_insert. apply elem_of_union. right.
      apply elem_of_union. right. exact Hfn.
Qed.

(** X28. However many listeners a node that hosts directives gets for an
    event, the renderer is asked once: [renderer.listen] is called for the
    wrapper of the first listener and for nothing else, each output of the
    directives for the event is subscribed once, with this wrapper, and the
    other listeners are coalesced onto the wrapper, which links them in the
    order in which they were registered. This holds in the first creation
    pass, when the template has no listener for the event on the node yet,
    and in a later view of the template, whose cleanup is as long as when
    the first listener was registered. *)
Theorem listeners_coalesce st listenerFn listenerFns blocks :
  default [] (cleanup st) = flat_map encode blocks ->
  Forall (fun block => blockOk block = true) blocks ->
  (firstCreatePass st = true /\ firstListenerIdx eventName (index tNode) blocks = None)
  \/ firstListenerIdx eventName (index tNode) blocks
     = Some (Z.of_nat (length (default [] (CLEANUP st)))) ->
  (forall i name, (i, name) ∈ outputsOf tNode eventName ->
     isObservable i name = true /\ (ngDevMode = true -> indexInRange i = true)) ->
  NoDup listenerFns ->
  (forall g, g ∈ listenerFns ->
     g ∈ dom (heap st) /\ ngNextListenerFn (getFn st g) = None) ->
  let wrapper := fresh (dom (heap st)) in
  exists st',
    listeners ngDevMode getNativeByTNode isObservable indexInRange constructorName
      tNode eventName (listenerFn :: listenerFns) st = Ok st'
    /\ listened st'
        = listened st ++ [(getNativeByTNode (index tNode), eventName, wrapper)]
    /\ subscribed st'
        = subscribed st ++ ((fun p => (p.1, p.2, wrapper)) <$> outputsOf tNode eventName)
    /\ kind (getFn st' wrapper) = Wrapper listenerFn
    /\ linked st' (ngNextListenerFn (getFn st' wrapper)) listenerFns
    /\ (forall fuel : nat,
          (length listenerFns <= fuel)%nat ->
          chainFrom fuel st' (ngNextListenerFn (getFn st' wrapper)) = listenerFns)
    /\ length (default [] (CLEANUP st'))
        = (length (default [] (CLEANUP st)) + 2
           + 2 * length (outputsOf tNode eventName))%nat.
Proof.
  intros Hcleanup Hblocks Hfirst Hprops Hnodup Hfns wrapper.
  destruct (listenerInternal_registers st listenerFn blocks Hcleanup Hblocks Hfirst Hprops)
    as (st1 & Hrun1 & Hreg1 & Hli1 & Hsu1 & Hlen1 & Hframe1).
  fold wrapper in Hreg1, Hli1, Hsu1.
  destruct (listeners_coalesce_rest listenerFns st1 listenerFn wrapper [] Hreg1 Hnodup)
    as (st' & Hrun & Hreg & Hli & Hsu & HCL).
  { intros g Hg. destruct (Hfns g Hg) as [Hdom Hnext]. split.
    - intros Hin%list_elem_of_singleton. subst g.
      exact (is_fresh (dom (heap st)) Hdom).
    - rewrite (Hframe1 g Hdom). exact Hnext. }
  exists st'. cbn [listeners]. rewrite Hrun1. cbn [res_bind].
  split; [exact Hrun|]. split; [congruence|]. split; [congruence|].
  destruct Hreg as (_ & Hkind & Hlinked & _ & _). cbn [app] in Hlinked.
  split; [exact Hkind|]. split; [exact Hlinked|].
  split; [intros fuel Hfuel; apply linked_chainFrom; assumption|].
  rewrite HCL. exact Hlen1.
Qed.

End OneNode.

End ListenerCoalescing.

Lemma findExistingListener_first_block_witness :
  ListenerRegistration.findExistingListener ListenerRegistrationExample.laterView "click" 5
  = Ok (ListenerRegistration.Found 24%nat).
Proof.
  exact (findExistingListener_first_block ListenerRegistrationExample.laterView
           [20; 21; 22; 23; 24; 25; 26; 27]%nat "click" 5
           ListenerRegistrationExample.blocks eq_refl eq_refl
           ltac:(repeat constructor)).
Defined.

Lemma listeners_coalesce_witness :
  exists st',
    ListenerRegistration.listeners true (fun i => Z.to_nat i) (fun _ _ => true)
      (fun _ => true) (fun _ => "Dir") ListenerRegistrationExample.button "click"
      [10; 11; 12]%nat ListenerRegistrationExample.firstPass = Ok st'
    /\ length (ListenerRegistration.listened st') = 1%nat
    /\ length (ListenerRegistration.subscribed st') = 1%nat
    /\ ListenerRegistration.chainFrom 5 st'
         (ListenerRegistration.ngNextListenerFn
            (ListenerRegistration.getFn st'
               (fresh (dom (ListenerRegistration.heap
                              ListenerRegistrationExample.firstPass)))))
       = [11; 12]%nat.
Proof.
  destruct (listeners_coalesce true (fun i => Z.to_nat i) (fun _ _ => true)
              (fun _ => true) (fun _ => "Dir") ListenerRegistrationExample.button "click"
              eq_refl eq_refl ListenerRegistrationExample.firstPass 10%nat [11; 12]%nat [])
    as (st' & Hrun & Hlistened & Hsubscribed & _ & _ & Hchain & _).
  - reflexivity.
  - constructor.
  - left. split; reflexivity.
  - intros i name _. split; reflexivity.
  - apply NoDup_cons. split; [|apply NoDup_singleton].
    intros Hin. apply list_elem_of_singleton in Hin. discriminate.
  - intros g Hg. apply elem_of_cons in Hg as [->|Hg];
      [|apply list_elem_of_singleton in Hg as ->];
      (split; [apply elem_of_dom; eexists; vm_compute; reflexivity|vm_compute; reflexivity]).
  - exists st'. split; [exact Hrun|].
    split; [rewrite Hlistened; reflexivity|].
    split; [rewrite Hsubscribed; reflexivity|].
    apply Hchain. cbn. lia.
Defined.

(** ** The view container: reading it *)

Section ViewContainerReads.
Import ViewContainer.

Lemma aligned_NoDup (vrs : gmap nat ViewRef) (refs vs : list nat) :
  Forall2 (fun r v => exists vr, vrs !! r = Some vr /\ _lView vr = v) refs vs ->
  NoDup vs -> NoDup refs.
Proof.
  induction 1 as [|r v refs vs (vr & Hr & Hv) HF IH]; intros Hnd; [constructor|].
  apply NoDup_cons in Hnd as [Hv' Hnd]. apply NoDup_cons. split; [|exact (IH Hnd)].
  intros Hin. apply list_elem_of_lookup in Hin as [j Hj].
  destruct (Forall2_lookup_l _ _ _ _ _ HF Hj) as (v' & Hvj & vr' & Hr' & Hlv').
  rewrite Hr in Hr'. injection Hr' as <-. apply Hv'. rewrite <- Hv, Hlv'.
  eapply list_elem_of_lookup_2, Hvj.
Qed.

Lemma indexOfFrom_lookup (refs : list nat) (i : nat) r :
  NoDup refs -> refs !! i = Some r -> indexOfFrom r refs 0 = Z.of_nat i.
Proof.
  intros Hnd Hi. pose proof (take_drop_middle _ _ _ Hi) as Hsplit.
  rewrite <- Hsplit in Hnd |- *.
  apply NoDup_app in Hnd as (_ & Hdisj & _).
  rewrite indexOfFrom_middle.
  - rewrite length_take. apply lookup_lt_Some in Hi. lia.
  - intros Hin. apply (Hdisj r Hin), list_elem_of_here.
Qed.

(** X29. On a consistent view tree, [get] and [indexOf] are inverse to each
    other: at a position from [0] up to the length of the container, not
    included, [get] gives a reference, which stands for the view listed
    there, and [indexOf] of this reference gives the position back; at any
    other position [get] gives [null]; and [indexOf] gives [-1] or a
    position at which [get] gives the reference asked for. Both leave the
    tree as it is. *)
Theorem get_indexOf_round_trip w this lc :
  wellFormed w ->
  lContainers w !! this = Some lc ->
  (forall i, 0 <= i < zlength (views lc) ->
     exists r vr,
       get this i w = Ok (Some r, w)
       /\ indexOf this r w = Ok (i, w)
       /\ viewRefs w !! r = Some vr
       /\ views lc !! Z.to_nat i = Some (_lView vr))
  /\ (forall i, ~ 0 <= i < zlength (views lc) -> get this i w = Ok (None, w))
  /\ (forall r, exists i,
        indexOf this r w = Ok (i, w)
        /\ (i = -1 \/ (0 <= i < zlength (views lc) /\ get this i w = Ok (Some r, w)))).
Proof.
  intros Hwf Hc.
  pose proof (aligned_default _ _ _ Hwf Hc) as Hal.
  pose proof (aligned_NoDup _ _ _ Hal (wf_nodup _ Hwf _ _ Hc)) as Hnd.
  pose proof (Forall2_length _ _ _ Hal) as Hlen.
  assert (Hget : forall i, get this i w = Ok (zlookup (default [] (VIEW_REFS lc)) i, w)).
  { intros i. rewrite (get_Ok _ _ _ _ Hc). destruct (VIEW_REFS lc); [reflexivity|].
    cbn [default]. unfold zlookup. destruct (i <? 0); reflexivity. }
  assert (HindexOf : forall r,
            indexOf this r w = Ok (indexOfFrom r (default [] (VIEW_REFS lc)) 0, w)).
  { intros r. rewrite (indexOf_Ok _ _ _ _ Hc). destruct (VIEW_REFS lc); reflexivity. }
  unfold zlength. split; [|split].
  - intros i Hi.
    destruct (lookup_lt_is_Some_2 (default [] (VIEW_REFS lc)) (Z.to_nat i)) as [r Hr];
      [lia|].
    destruct (Forall2_lookup_l _ _ _ _ _ Hal Hr) as (v & Hv & vr & Hvr & Hlv).
    exists r, vr. rewrite Hget, HindexOf. unfold zlookup.
    replace (i <? 0) with false by (symmetry; apply Z.ltb_ge; lia).
    rewrite Hr, (indexOfFrom_lookup _ _ _ Hnd Hr), Z2Nat.id by lia.
    split; [reflexivity|]. split; [reflexivity|]. split; [exact Hvr|]. rewrite Hlv. exact Hv.
  - intros i Hi. rewrite Hget. unfold zlookup.
    destruct (i <? 0) eqn:Hneg; [reflexivity|]. apply Z.ltb_ge in Hneg.
    rewrite lookup_ge_None_2; [reflexivity|]. lia.
  - intros r. eexists. split; [apply HindexOf|].
    destruct (decide (r ∈ default [] (VIEW_REFS lc))) as [Hin|Hin].
    + right. destruct (indexOfFrom_elem r _ 0 Hin) as (i & Hi & Hl).
      rewrite Hi, Hget. unfold zlookup.
      replace (0 + Z.of_nat i <? 0) with false by (symmetry; apply Z.ltb_ge; lia).
      replace (Z.to_nat (0 + Z.of_nat i)) with i by lia. rewrite Hl.
      apply lookup_lt_Some in Hl. split; [lia|reflexivity].
    + left. apply indexOfFrom_notin, Hin.
Qed.

End ViewContainerReads.

Lemma get_indexOf_round_trip_witness :
  exists r,
    ViewContainer.get 0%nat 0 ViewContainerExample.world0
      = Ok (Some r, ViewContainerExample.world0)
    /\ ViewContainer.indexOf 0%nat r ViewContainerExample.world0
       = Ok (0, ViewContainerExample.world0).
Proof.
  destruct (get_indexOf_round_trip ViewContainerExample.world0 0%nat _
              wellFormed_world0 eq_refl) as (Hget & _ & _).
  destruct (Hget 0) as (r & vr & Hg & Hi & _); [vm_compute; split; [discriminate|reflexivity]|].
  exists r. split; assumption.
Defined.

(** ** The view container: the optional index of its operations *)

Section ViewContainerIndex.
Import ViewContainer.

Ltac wsimpl :=
  cbn [lContainers lViews viewRefs nextRef mutations fst snd views VIEW_REFS parentRNode
       rendered PARENT attached destroyed _lView _attachedToViewContainer _appRef].

Ltac munfold :=
  unfold bind, ret, throw, setLContainer, setLView, setViewRef, record, getLContainer,
    getLView, getViewRef, newViewRef;
  wsimpl.

Lemma insertAt_end (l : list nat) v : insertAt (zlength l) v l = l ++ [v].
Proof.
  unfold insertAt, zlength. rewrite Nat2Z.id, take_ge, drop_ge by lia. reflexivity.
Qed.

Lemma last_split (l : list nat) v :
  last l = Some v ->
  exists front,
    l = front ++ [v]
    /\ zlookup l (zlength l - 1) = Some v
    /\ delete (Z.to_nat (zlength l - 1)) l = front
    /\ 0 < zlength l.
Proof.
  intros Hlast. apply last_Some in Hlast as [front ->]. exists front.
  unfold zlookup, zlength. rewrite length_app. cbn [Datatypes.length].
  replace (Z.of_nat (Datatypes.length front + 1) - 1) with (Z.of_nat (Datatypes.length front))
    by lia.
  rewrite Nat2Z.id.
  split; [reflexivity|]. split.
  - destruct (Z.ltb_spec (Z.of_nat (Datatypes.length front)) 0); [lia|].
    apply list_lookup_middle. reflexivity.
  - split; [|lia].
    rewrite delete_take_drop, take_app_length, drop_ge, app_nil_r;
      [reflexivity|rewrite length_app; cbn [Datatypes.length]; lia].
Qed.

(** An omitted index is, for [remove] and [detach], the position of the
    last view. *)
Lemma _adjustIndex_omitted_last dev this lc w :
  lContainers w !! this = Some lc ->
  0 < zlength (views lc) ->
  _adjustIndex dev this None (-1) w
  = _adjustIndex dev this (Some (zlength (views lc) - 1)) (-1) w.
Proof.
  intros Hc Hlen. rewrite (_adjustIndex_omitted _ _ _ lc) by exact Hc.
  destruct dev.
  - rewrite (_adjustIndex_dev_in_range _ _ _ lc); [reflexivity|exact Hc|lia].
  - rewrite (_adjustIndex_production _ _ _ lc) by exact Hc. reflexivity.
Qed.

Lemma remove_run dev (hooks : nat -> M unit) this index i lc v lv w :
  lContainers w !! this = Some lc ->
  index = Some i \/ (index = None /\ i = zlength (views lc) - 1) ->
  zlookup (views lc) i = Some v ->
  lViews w !! v = Some lv ->
  destroyed lv = false ->
  exists w' lc',
    remove dev hooks this index w = hooks v w'
    /\ lContainers w' !! this = Some lc'
    /\ views lc' = delete (Z.to_nat i) (views lc).
Proof.
  intros Hc Hidx Hz Hv Hd.
  pose proof (zlookup_Some _ _ _ Hz) as [Hi Hl].
  assert (Hadj : _adjustIndex dev this index (-1) w = Ok (i, w)).
  { destruct Hidx as [->|[-> ->]].
    - destruct dev.
      + apply (_adjustIndex_dev_in_range _ _ _ lc); [assumption|lia].
      + apply (_adjustIndex_production _ _ _ lc). assumption.
    - rewrite (_adjustIndex_omitted _ _ _ lc) by assumption. reflexivity. }
  unfold remove.
  rewrite (bind_Ok _ _ _ _ _ Hadj).
  rewrite (bind_Ok _ _ _ _ _ (detachView_Ok _ _ _ _ _ _ Hc Hz Hv)).
  erewrite updateViewRefs_Ok by (wsimpl; apply lookup_insert_eq).
  unfold withContainer, withViewRefs, destroyLView. munfold.
  rewrite lookup_insert_eq. wsimpl. rewrite Hd.
  rewrite !insert_insert_eq.
  eexists _, _. split; [reflexivity|]. wsimpl.
  split; [apply lookup_insert_eq|]. reflexivity.
Qed.

Lemma create_dev_out_of_range this i lc w componentFactoryOrType indexOrOptions :
  lContainers w !! this = Some lc ->
  i < 0 \/ zlength (views lc) < i ->
  signatureOk componentFactoryOrType indexOrOptions = true ->
  requestedIndex indexOrOptions = Some i ->
  (exists msg, createEmbeddedView true this (Some i) w = Throw (AssertionError msg))
  /\ (exists msg, createComponent true this componentFactoryOrType indexOrOptions w
                  = Throw (AssertionError msg)).
Proof.
  intros Hc Hi Hsig Hio.
  assert (Hcreate : createView w = Ok (nextRef w, created w)) by reflexivity.
  destruct (insert_dev_out_of_range this (nextRef w) i
              {| _lView := fresh (dom (lViews w)); _attachedToViewContainer := false;
                 _appRef := false |}
              {| PARENT := NoParent; attached := false; destroyed := false |} lc (created w))
    as [msg Hmsg]; try reflexivity; try assumption.
  - apply lookup_insert_eq.
  - apply lookup_insert_eq.
  - split; exists msg.
    + unfold createEmbeddedView. rewrite (bind_Ok _ _ _ _ _ Hcreate). apply bind_Throw, Hmsg.
    + rewrite (createComponent_signatureOk _ _ _ _ Hsig), Hio.
      rewrite (bind_Ok _ _ _ _ _ Hcreate). apply bind_Throw, Hmsg.
Qed.

(** C9 as the code has it, operation by operation, on a consistent view
    tree. With the index omitted, [insert], [createEmbeddedView] and
    [createComponent] put the view at the end of the list of the container,
    and [remove] and [detach] take the last view. Under [ngDevMode] an index
    out of range makes the operation throw an assertion error: for
    [remove] and [detach] an index that is negative, or the length of the
    container or more; for [createEmbeddedView] and [createComponent] one
    that is negative or more than the length; for [insert] one that is
    negative or more than the length that the container has once the view
    is out of it. Without [ngDevMode] [_adjustIndex] checks nothing and
    gives the index back as it is. *)
Theorem operations_index_default_and_range_check this lc w :
  wellFormed w ->
  lContainers w !! this = Some lc ->
  (* insert *)
  (forall r vr lv,
     viewRefs w !! r = Some vr ->
     _appRef vr = false ->
     lViews w !! _lView vr = Some lv ->
     destroyed lv = false ->
     (viewAttachedToContainer lv = false \/
      exists prev lcp refs,
        lContainers w !! prev = Some lcp /\ VIEW_REFS lcp = Some refs /\ r ∈ refs) ->
     (forall dev, exists w' lc',
        insert dev this r None w = Ok (r, w')
        /\ lContainers w' !! this = Some lc'
        /\ views lc' = filter (fun x => x <> _lView vr) (views lc) ++ [_lView vr])
     /\ (forall i,
           i < 0 \/ zlength (filter (fun x => x <> _lView vr) (views lc)) < i ->
           exists msg, insert true this r (Some i) w = Throw (AssertionError msg)))
  (* createEmbeddedView and createComponent *)
  /\ (forall dev, exists w' lc',
        createEmbeddedView dev this None w = Ok (nextRef w, w')
        /\ (forall componentFactoryOrType indexOrOptions,
              signatureOk componentFactoryOrType indexOrOptions = true ->
              requestedIndex indexOrOptions = None ->
              createComponent dev this componentFactoryOrType indexOrOptions w
              = Ok ({| hostView := nextRef w |}, w'))
        /\ lContainers w' !! this = Some lc'
        /\ views lc' = views lc ++ [fresh (dom (lViews w))])
  /\ (forall i componentFactoryOrType indexOrOptions,
        i < 0 \/ zlength (views lc) < i ->
        signatureOk componentFactoryOrType indexOrOptions = true ->
        requestedIndex indexOrOptions = Some i ->
        (exists msg, createEmbeddedView true this (Some i) w = Throw (AssertionError msg))
        /\ (exists msg, createComponent true this componentFactoryOrType indexOrOptions w
                        = Throw (AssertionError msg)))
  (* remove and detach *)
  /\ (forall dev hooks v lv,
        last (views lc) = Some v ->
        lViews w !! v = Some lv ->
        (destroyed lv = false ->
         exists w' lc',
           remove dev hooks this None w = hooks v w'
           /\ lContainers w' !! this = Some lc'
           /\ views lc = views lc' ++ [v])
        /\ (exists w' lc',
              detach dev this None w = Ok (Some (nextRef w), w')
              /\ lContainers w' !! this = Some lc'
              /\ views lc = views lc' ++ [v]))
  /\ (forall hooks i,
        i < 0 \/ zlength (views lc) <= i ->
        (exists msg, remove true hooks this (Some i) w = Throw (AssertionError msg))
        /\ (exists msg, detach true this (Some i) w = Throw (AssertionError msg)))
  (* without ngDevMode *)
  /\ (forall shift i, _adjustIndex false this (Some i) shift w = Ok (i, w)).
Proof.
  intros Hwf Hc.
  split; [|split; [|split; [|split; [|split]]]].
  - intros r vr lv Hr Happ Hv Hd Hatt. split.
    + intros dev.
      destruct (insert_wf_run dev this r None
                  (zlength (filter (fun x => x <> _lView vr) (views lc))) w vr lv lc
                  Hwf Hr Happ Hv Hd Hc Hatt)
        as (w1 & lc1 & lv1 & Hrun & _ & _ & _ & Hviews & _).
      { right. split; reflexivity. }
      { unfold zlength. lia. }
      eexists _, _. split; [exact Hrun|].
      unfold inserted. wsimpl. split; [apply lookup_insert_eq|]. wsimpl.
      rewrite Hviews. apply insertAt_end.
    + intros i Hi.
      destruct (insert_detach_phase true this r (Some i) w vr lv lc Hwf Hr Hv Hd Hc Hatt)
        as (w1 & lc1 & lv1 & Hrun & _ & _ & _ & Hc1 & Hviews & _).
      destruct (_adjustIndex_dev_out_of_range this i 0 lc1 w1 Hc1) as [msg Hmsg].
      { rewrite Hviews. lia. }
      exists msg. rewrite Hrun. unfold insertTail. apply bind_Throw, Hmsg.
  - intros dev.
    destruct (created_wellFormed w Hwf) as (Hwf0 & Hv & Hr & Hnotin).
    set (v := fresh (dom (lViews w))) in *.
    assert (Hcreate : createView w = Ok (nextRef w, created w)) by reflexivity.
    assert (Hf : filter (fun x => x <> v) (views lc) = views lc)
      by (apply filter_ne_notin, (Hnotin _ _ Hc)).
    destruct (insert_wf_run dev this (nextRef w) None (zlength (views lc)) (created w)
                {| _lView := v; _attachedToViewContainer := false; _appRef := false |}
                {| PARENT := NoParent; attached := false; destroyed := false |} lc Hwf0)
      as (w1 & lc1 & lv1 & Hrun & _ & _ & Hc1 & Hviews & _ & _ & _ & Hsame);
      try reflexivity.
    { apply lookup_insert_eq. }
    { apply lookup_insert_eq. }
    { exact Hc. }
    { left. reflexivity. }
    { cbn [_lView]. rewrite Hf. right. split; reflexivity. }
    { cbn [_lView]. rewrite Hf. unfold zlength. lia. }
    cbn [_lView] in *.
    eexists _, _.
    split; [unfold createEmbeddedView; rewrite (bind_Ok _ _ _ _ _ Hcreate);
            rewrite (bind_Ok _ _ _ _ _ Hrun); reflexivity|].
    split; [intros c io Hsig Hio; rewrite (createComponent_signatureOk _ _ _ _ Hsig), Hio;
            rewrite (bind_Ok _ _ _ _ _ Hcreate);
            rewrite (bind_Ok _ _ _ _ _ Hrun); reflexivity|].
    unfold inserted. wsimpl. split; [apply lookup_insert_eq|]. wsimpl.
    rewrite Hviews, Hf. apply insertAt_end.
  - intros i c io Hi Hsig Hio. eapply create_dev_out_of_range; eassumption.
  - intros dev hooks v lv Hlast Hv.
    destruct (last_split _ _ Hlast) as (front & Hfront & Hz & Hdel & Hlen).
    split.
    + intros Hd.
      destruct (remove_run dev hooks this None (zlength (views lc) - 1) lc v lv w Hc
                  (or_intror (conj eq_refl eq_refl)) Hz Hv Hd)
        as (w' & lc' & Hrun & Hc' & Hviews).
      exists w', lc'. split; [exact Hrun|]. split; [exact Hc'|].
      rewrite Hviews, Hdel. exact Hfront.
    + destruct (listed_view w this lc _ v Hwf Hc Hz) as (lv' & refs & Hlv' & _ & Hrefs & Hrl).
      eexists (detached this (zlength (views lc) - 1) v lc lv' refs w), _.
      split.
      * unfold detach. unfold bind at 1.
        rewrite (_adjustIndex_omitted_last dev this lc w Hc Hlen).
        exact (detach_Ok dev this _ lc v lv' refs w Hc Hz Hlv' Hrefs Hrl).
      * unfold detached. wsimpl. split; [apply lookup_insert_eq|]. wsimpl.
        rewrite Hdel. exact Hfront.
  - intros hooks i Hi. eapply remove_detach_dev_out_of_range; eassumption.
  - intros shift i. eapply _adjustIndex_production; eassumption.
Qed.

End ViewContainerIndex.

Lemma operations_index_default_and_range_check_witness :
  (exists w' lc',
     ViewContainer.insert true 0 110 None ViewContainerExample.world0 = Ok (110%nat, w')
     /\ ViewContainer.lContainers w' !! 0%nat = Some lc'
     /\ ViewContainer.views lc' = [11; 10]%nat)
  /\ (exists msg,
        ViewContainer.insert true 0 110 (Some 2) ViewContainerExample.world0
        = Throw (ViewContainer.AssertionError msg))
  /\ (exists w' lc',
        ViewContainer.createComponent true 0 (ViewContainer.ComponentType true)
          ViewContainer.NoIndexOrOptions ViewContainerExample.world0
        = Ok ({| ViewContainer.hostView := 200%nat |}, w')
        /\ ViewContainer.lContainers w' !! 0%nat = Some lc'
        /\ ViewContainer.views lc'
           = [10; 11; fresh (dom (ViewContainer.lViews ViewContainerExample.world0))]%nat)
  /\ (exists w' lc',
        ViewContainer.detach true 0 None ViewContainerExample.world0 = Ok (Some 200%nat, w')
        /\ ViewContainer.lContainers w' !! 0%nat = Some lc'
        /\ [10; 11]%nat = ViewContainer.views lc' ++ [11%nat])
  /\ (exists msg,
        ViewContainer.remove true ViewContainerExample.noHook 0 (Some 2)
          ViewContainerExample.world0
        = Throw (ViewContainer.AssertionError msg)).
Proof.
  pose proof (operations_index_default_and_range_check 0%nat
                {| ViewContainer.views := [10; 11]%nat;
                   ViewContainer.VIEW_REFS := Some [110; 111]%nat;
                   ViewContainer.parentRNode := true;
                   ViewContainer.rendered := [10; 11]%nat |}
                ViewContainerExample.world0 wellFormed_world0 eq_refl)
    as (Hinsert & Hcreate & _ & Hlast & Hout & _).
  destruct (Hinsert 110%nat (ViewContainerExample.refTo 10 true)
              (ViewContainerExample.inContainer 0) eq_refl eq_refl eq_refl eq_refl)
    as [Hnone Hrange].
  { right. eexists 0%nat, _, [110; 111]%nat. split; [reflexivity|]. split; [reflexivity|].
    apply list_elem_of_here. }
  split; [exact (Hnone true)|].
  split; [apply Hrange; right; vm_compute; reflexivity|].
  split.
  { destruct (Hcreate true) as (w' & lc' & _ & Hcomponent & Hc' & Hviews).
    exists w', lc'.
    split; [exact (Hcomponent (ViewContainer.ComponentType true)
                     ViewContainer.NoIndexOrOptions eq_refl eq_refl)|].
    split; [exact Hc'|exact Hviews]. }
  split.
  { exact (proj2 (Hlast true ViewContainerExample.noHook 11%nat
                    (ViewContainerExample.inContainer 0) eq_refl eq_refl)). }
  apply (Hout ViewContainerExample.noHook 2). right. vm_compute. discriminate.
Defined.
